(** * simData::MemoryDataStore: a shallow embedding and its properties

    The development follows [SDK/simData/MemoryDataStore.cpp].  The store is
    a record, every member function is a function on that record, and the
    collaborators that live outside the translation unit (data slices,
    command slices, the interpolator, protobuf serialisation) are either
    section parameters or small models with a doc comment that says so.

    Conventions:
    - [double] is modelled by exact rationals [Q]; comparisons are the
      boolean ones ([Qeq_bool], [Qle_bool]).  NaN and rounding are outside
      the model.
    - [std::map<ObjectId, T*>] is an association list in ascending key
      order (module [IdMap]); iteration order is list order.
    - [assert] is modelled through [BuildMode]: it is checked in [Debug]
      and compiled out in [Release] (NDEBUG).
    - Listener callbacks are identified by a number (the identity of the
      shared pointer).  Store operations deliver notifications to passive
      observers and record them in a log; re-entrant observers are studied
      on the notification fabric alone (section [Dispatch]). *)

From Stdlib Require Import List Bool Arith NArith ZArith QArith String Lia.
From Equations Require Import Equations.
Import ListNotations.

Set Implicit Arguments.
Local Open Scope bool_scope.

(** ** Scalars *)

Definition ObjectId := N.
Definition Time := Q.

(** [a == b], [a < b], [a <= b] on [double] *)
Definition time_eqb (a b : Time) : bool := Qeq_bool a b.
Definition time_ltb (a b : Time) : bool := negb (Qle_bool b a).

(** [std::numeric_limits<double>::max()] *)
Definition DBL_MAX : Time := inject_Z (2 ^ 1024 - 2 ^ 971).
Arguments DBL_MAX : simpl never.

Definition id_eqb (a b : ObjectId) : bool := N.eqb a b.

(** [simData::ObjectType].
    Modelled from the spec: the enumeration is declared in ObjectId.h, which
    is not part of the sources at hand; the enumerators are the ones used by
    MemoryDataStore.cpp and the mask values are the bit flags that
    [idList] tests with [type & PLATFORM]. *)
Inductive ObjectType :=
| NONE | PLATFORM | BEAM | GATE | LASER | PROJECTOR | LOB_GROUP
| CUSTOM_RENDERING | ALL.

Definition ObjectType_eqb (a b : ObjectType) : bool :=
  match a, b with
  | NONE, NONE | PLATFORM, PLATFORM | BEAM, BEAM | GATE, GATE
  | LASER, LASER | PROJECTOR, PROJECTOR | LOB_GROUP, LOB_GROUP
  | CUSTOM_RENDERING, CUSTOM_RENDERING | ALL, ALL => true
  | _, _ => false
  end.

Definition ObjectType_mask (t : ObjectType) : N :=
  match t with
  | NONE => 0 | PLATFORM => 1 | BEAM => 2 | GATE => 4 | LASER => 8
  | PROJECTOR => 16 | LOB_GROUP => 32 | CUSTOM_RENDERING => 64
  | ALL => 255
  end%N.

(** [type & K] as used by [idList] *)
Definition type_has (type k : ObjectType) : bool :=
  negb (N.eqb (N.land (ObjectType_mask type) (ObjectType_mask k)) 0).

(** ** [std::map<ObjectId, T*>] *)

Module IdMap.

Definition t (V : Type) : Type := list (ObjectId * V).

Section IdMap.
Context {V : Type}.

Fixpoint find (id : ObjectId) (m : t V) : option V :=
  match m with
  | [] => None
  | (k, v) :: m' => if id_eqb k id then Some v else find id m'
  end.

Definition mem (id : ObjectId) (m : t V) : bool :=
  match find id m with Some _ => true | None => false end.

(** [map.erase(it)] for the iterator of key [id] *)
Definition erase (id : ObjectId) (m : t V) : t V :=
  filter (fun kv => negb (id_eqb (fst kv) id)) m.

(** [map[id] = v]: ordered insertion, replacing an equal key *)
Fixpoint insert (id : ObjectId) (v : V) (m : t V) : t V :=
  match m with
  | [] => [(id, v)]
  | (k, w) :: m' =>
      if id_eqb k id then (id, v) :: m'
      else if N.ltb id k then (id, v) :: (k, w) :: m'
      else (k, w) :: insert id v m'
  end.

(** the body of a [for (iter = begin(); iter != end(); ++iter)] loop that
    rewrites the entry pointed to by [iter->second] *)
Definition mapi (f : ObjectId -> V -> V) (m : t V) : t V :=
  map (fun kv => (fst kv, f (fst kv) (snd kv))) m.

(** rewrite the entry found for [id], if any *)
Definition adjust (id : ObjectId) (f : V -> V) (m : t V) : t V :=
  mapi (fun k v => if id_eqb k id then f v else v) m.

Definition keys (m : t V) : list ObjectId := map fst m.

(** keys of the entries that satisfy [p], in iteration order *)
Definition keys_where (p : V -> bool) (m : t V) : list ObjectId :=
  map fst (filter (fun kv => p (snd kv)) m).

End IdMap.
End IdMap.

(** ** Protobuf messages

    Only the fields that MemoryDataStore.cpp reads or writes are kept.  An
    optional field is an [option]; [has_x] and the defaulting getter [x]
    are derived from it, as the generated accessors do. *)

Module CommonPrefs.
Record t := mk {
  name : string;
  alias : string;
  usealias : bool;
  datadraw : bool;
  datalimitpoints : N;
  datalimittime : Time
}.
End CommonPrefs.

Module PlatformProperties.
Record t := mk { id : ObjectId; originalid : N }.
End PlatformProperties.

Inductive BeamProperties_BeamType :=
| BeamProperties_BeamType_ABSOLUTE_POSITION
| BeamProperties_BeamType_BODY_RELATIVE
| BeamProperties_BeamType_TARGET.

Inductive GateProperties_GateType :=
| GateProperties_GateType_ABSOLUTE_POSITION
| GateProperties_GateType_BODY_RELATIVE
| GateProperties_GateType_TARGET.

Module BeamProperties.
Record t := mk {
  id : ObjectId;
  hostid_ : option ObjectId;
  originalid : N;
  type : BeamProperties_BeamType
}.
Definition has_hostid (p : t) : bool :=
  match hostid_ p with Some _ => true | None => false end.
Definition hostid (p : t) : ObjectId :=
  match hostid_ p with Some h => h | None => 0%N end.
Definition is_target (p : t) : bool :=
  match type p with BeamProperties_BeamType_TARGET => true | _ => false end.
End BeamProperties.

Module GateProperties.
Record t := mk {
  id : ObjectId;
  hostid_ : option ObjectId;
  originalid : N;
  type : GateProperties_GateType
}.
Definition has_hostid (p : t) : bool :=
  match hostid_ p with Some _ => true | None => false end.
Definition hostid (p : t) : ObjectId :=
  match hostid_ p with Some h => h | None => 0%N end.
Definition is_target (p : t) : bool :=
  match type p with GateProperties_GateType_TARGET => true | _ => false end.
End GateProperties.

(** Laser, projector, LOB group and custom rendering properties have the
    same shape as far as the store is concerned. *)
Module LaserProperties.
Record t := mk { id : ObjectId; hostid_ : option ObjectId; originalid : N }.
Definition hostid (p : t) : ObjectId :=
  match hostid_ p with Some h => h | None => 0%N end.
End LaserProperties.

Module ProjectorProperties.
Record t := mk { id : ObjectId; hostid_ : option ObjectId; originalid : N }.
Definition hostid (p : t) : ObjectId :=
  match hostid_ p with Some h => h | None => 0%N end.
End ProjectorProperties.

Module LobGroupProperties.
Record t := mk { id : ObjectId; hostid_ : option ObjectId; originalid : N }.
Definition hostid (p : t) : ObjectId :=
  match hostid_ p with Some h => h | None => 0%N end.
End LobGroupProperties.

Module CustomRenderingProperties.
Record t := mk { id : ObjectId; hostid_ : option ObjectId; originalid : N }.
Definition hostid (p : t) : ObjectId :=
  match hostid_ p with Some h => h | None => 0%N end.
End CustomRenderingProperties.

Module PlatformPrefs.
Record t := mk { commonprefs : CommonPrefs.t; interpolatepos : bool }.
End PlatformPrefs.

Module BeamPrefs.
Record t := mk {
  commonprefs : CommonPrefs.t;
  interpolatebeampos : bool;
  targetid_ : option ObjectId
}.
Definition has_targetid (p : t) : bool :=
  match targetid_ p with Some _ => true | None => false end.
Definition targetid (p : t) : ObjectId :=
  match targetid_ p with Some h => h | None => 0%N end.
End BeamPrefs.

Module GatePrefs.
Record t := mk { commonprefs : CommonPrefs.t; interpolategatepos : bool }.
End GatePrefs.

Module LaserPrefs.
Record t := mk { commonprefs : CommonPrefs.t; maxrange : Q }.
End LaserPrefs.

Module ProjectorPrefs.
Record t := mk { commonprefs : CommonPrefs.t; interpolateprojectorfov : bool }.
End ProjectorPrefs.

Module LobGroupPrefs.
Record t := mk {
  commonprefs : CommonPrefs.t;
  maxdatapoints : N;
  maxdataseconds : Q
}.
End LobGroupPrefs.

Module CustomRenderingPrefs.
Record t := mk { commonprefs : CommonPrefs.t; persistence : Q }.
End CustomRenderingPrefs.

Module PlatformUpdate.
Record t := mk { time : Time; position_ : option (Q * Q * Q) }.
Definition has_position (u : t) : bool :=
  match position_ u with Some _ => true | None => false end.
End PlatformUpdate.

Module BeamUpdate.
Record t := mk { time : Time; azimuth : Q; elevation : Q; range : Q }.
End BeamUpdate.

Module GateUpdate.
Record t := mk {
  time : Time;
  azimuth : Q;
  elevation : Q;
  width : Q;
  height : Q;
  minrange : Q;
  maxrange : Q;
  centroid_ : option Q
}.
End GateUpdate.

Module LaserUpdate.
Record t := mk { time : Time; yaw : Q; pitch : Q; roll : Q }.
End LaserUpdate.

Module ProjectorUpdate.
Record t := mk { time : Time; fov : Q }.
End ProjectorUpdate.

Module LobGroupUpdate.
Record t := mk { time : Time; datapoints : list (Q * Q * Q) }.
End LobGroupUpdate.

(** Custom renderings have no update message of their own; their entry
    still carries an (empty) update slice because the store's templates
    ([flushEntityData], [dataLimit_]) call [updates()] on every entry. *)
Module CustomRenderingUpdate.
Record t := mk { time : Time }.
End CustomRenderingUpdate.

(** [XCommand]: a time-stamped preference delta *)
Record Command (F : Type) := mkCommand {
  command_time : Time;
  updateprefs : F;
  isclearcommand : bool
}.

Module GenericData.
Record t := mk { time : Time; duration : Q; entry : list (string * string) }.
End GenericData.

Module CategoryData.
Record t := mk { time : Time; entry : list (string * string) }.
End CategoryData.

(** the protobuf accessors that the store's templates rely on *)
Class Timed (U : Type) := time_of : U -> Time.
Class HasId (P : Type) := { id_of : P -> ObjectId; set_id : ObjectId -> P -> P }.
Class HasCommonPrefs (F : Type) := commonprefs_of : F -> CommonPrefs.t.

(** [Message::SerializeAsString]; the generated serialiser is not part of
    the translation unit, so it is an interface the templates are
    instantiated with. *)
Class Message (M : Type) := SerializeAsString : M -> string.

#[global] Instance Timed_PlatformUpdate : Timed PlatformUpdate.t := PlatformUpdate.time.
#[global] Instance Timed_BeamUpdate : Timed BeamUpdate.t := BeamUpdate.time.
#[global] Instance Timed_GateUpdate : Timed GateUpdate.t := GateUpdate.time.
#[global] Instance Timed_LaserUpdate : Timed LaserUpdate.t := LaserUpdate.time.
#[global] Instance Timed_ProjectorUpdate : Timed ProjectorUpdate.t := ProjectorUpdate.time.
#[global] Instance Timed_LobGroupUpdate : Timed LobGroupUpdate.t := LobGroupUpdate.time.
#[global] Instance Timed_CustomRenderingUpdate : Timed CustomRenderingUpdate.t :=
  CustomRenderingUpdate.time.
#[global] Instance Timed_Command (F : Type) : Timed (Command F) := @command_time F.
#[global] Instance Timed_GenericData : Timed GenericData.t := GenericData.time.
#[global] Instance Timed_CategoryData : Timed CategoryData.t := CategoryData.time.

#[global] Instance HasId_PlatformProperties : HasId PlatformProperties.t :=
  {| id_of := PlatformProperties.id;
     set_id := fun i p => PlatformProperties.mk i (PlatformProperties.originalid p) |}.
#[global] Instance HasId_BeamProperties : HasId BeamProperties.t :=
  {| id_of := BeamProperties.id;
     set_id := fun i p =>
       BeamProperties.mk i (BeamProperties.hostid_ p) (BeamProperties.originalid p)
                         (BeamProperties.type p) |}.
#[global] Instance HasId_GateProperties : HasId GateProperties.t :=
  {| id_of := GateProperties.id;
     set_id := fun i p =>
       GateProperties.mk i (GateProperties.hostid_ p) (GateProperties.originalid p)
                         (GateProperties.type p) |}.
#[global] Instance HasId_LaserProperties : HasId LaserProperties.t :=
  {| id_of := LaserProperties.id;
     set_id := fun i p =>
       LaserProperties.mk i (LaserProperties.hostid_ p) (LaserProperties.originalid p) |}.
#[global] Instance HasId_ProjectorProperties : HasId ProjectorProperties.t :=
  {| id_of := ProjectorProperties.id;
     set_id := fun i p =>
       ProjectorProperties.mk i (ProjectorProperties.hostid_ p)
                              (ProjectorProperties.originalid p) |}.
#[global] Instance HasId_LobGroupProperties : HasId LobGroupProperties.t :=
  {| id_of := LobGroupProperties.id;
     set_id := fun i p =>
       LobGroupProperties.mk i (LobGroupProperties.hostid_ p)
                             (LobGroupProperties.originalid p) |}.
#[global] Instance HasId_CustomRenderingProperties : HasId CustomRenderingProperties.t :=
  {| id_of := CustomRenderingProperties.id;
     set_id := fun i p =>
       CustomRenderingProperties.mk i (CustomRenderingProperties.hostid_ p)
                                    (CustomRenderingProperties.originalid p) |}.

#[global] Instance HasCommonPrefs_Platform : HasCommonPrefs PlatformPrefs.t :=
  PlatformPrefs.commonprefs.
#[global] Instance HasCommonPrefs_Beam : HasCommonPrefs BeamPrefs.t := BeamPrefs.commonprefs.
#[global] Instance HasCommonPrefs_Gate : HasCommonPrefs GatePrefs.t := GatePrefs.commonprefs.
#[global] Instance HasCommonPrefs_Laser : HasCommonPrefs LaserPrefs.t := LaserPrefs.commonprefs.
#[global] Instance HasCommonPrefs_Projector : HasCommonPrefs ProjectorPrefs.t :=
  ProjectorPrefs.commonprefs.
#[global] Instance HasCommonPrefs_LobGroup : HasCommonPrefs LobGroupPrefs.t :=
  LobGroupPrefs.commonprefs.
#[global] Instance HasCommonPrefs_CustomRendering : HasCommonPrefs CustomRenderingPrefs.t :=
  CustomRenderingPrefs.commonprefs.

(** ** Slices and entries *)

(** Modelled from the spec: [MemoryDataSlice<T>] is declared in
    MemoryDataSlice.h, which is not part of the sources at hand.  The spec
    describes it as an ordered sequence of samples with a current sample, a
    dedicated "current-interpolated" slot and a changed flag.  [current]
    holds the sample it points to by value. *)
Record MemoryDataSlice (U : Type) := mkSlice {
  updates_ : list U;
  current_ : option U;
  currentInterpolated_ : U;
  dirty_ : bool
}.

Section SliceAccessors.
Context {U : Type}.

Definition current (s : MemoryDataSlice U) : option U := current_ s.
Definition currentInterpolated (s : MemoryDataSlice U) : U := currentInterpolated_ s.

(** [slice->setCurrent(p)] *)
Definition setCurrent (c : option U) (s : MemoryDataSlice U) : MemoryDataSlice U :=
  mkSlice (updates_ s) c (currentInterpolated_ s) (dirty_ s).

(** writes through the pointer returned by [currentInterpolated()] *)
Definition setCurrentInterpolated (u : U) (s : MemoryDataSlice U) : MemoryDataSlice U :=
  mkSlice (updates_ s) (current_ s) u (dirty_ s).

Definition setChanged (s : MemoryDataSlice U) : MemoryDataSlice U :=
  mkSlice (updates_ s) (current_ s) (currentInterpolated_ s) true.

Definition clearChanged (s : MemoryDataSlice U) : MemoryDataSlice U :=
  mkSlice (updates_ s) (current_ s) (currentInterpolated_ s) false.

End SliceAccessors.

(** Modelled from the spec: [MemoryCommandSlice<C, P>] is declared in
    MemoryCommandSlice.h (not at hand): an ordered sequence of commands and
    the time up to which they have been applied. *)
Record MemoryCommandSlice (F : Type) := mkCommandSlice {
  commandList_ : list (Command F);
  commandsAppliedTo_ : option Time
}.

(** Modelled from the spec: the generic-data and category-data slices
    (MemoryGenericDataSlice.h, MemoryCategoryDataSlice.h, not at hand) are
    time-stamped samples with a current view. *)
Record MemoryGenericDataSlice := mkGenericSlice {
  genericList_ : list GenericData.t;
  genericCurrent_ : list (string * string)
}.

Record MemoryCategoryDataSlice := mkCategorySlice {
  categoryList_ : list CategoryData.t;
  categoryCurrent_ : list (string * string)
}.

(** Modelled from the spec: a data table (DataTable.h, not at hand) is
    reduced to its time-stamped rows. *)
Record DataTable := mkDataTable {
  tableName : string;
  rows : list (Time * list Q)
}.

(** [XEntry] of DataEntry.h: properties, preferences, updates, commands *)
Record Entry (P F U : Type) := mkEntry {
  properties : P;
  preferences : F;
  updates : MemoryDataSlice U;
  commands : MemoryCommandSlice F
}.

Definition set_properties {P F U} (p : P) (e : Entry P F U) : Entry P F U :=
  mkEntry p (preferences e) (updates e) (commands e).
Definition set_preferences {P F U} (f : F) (e : Entry P F U) : Entry P F U :=
  mkEntry (properties e) f (updates e) (commands e).
Definition set_updates {P F U} (u : MemoryDataSlice U) (e : Entry P F U) : Entry P F U :=
  mkEntry (properties e) (preferences e) u (commands e).
Definition set_commands {P F U} (c : MemoryCommandSlice F) (e : Entry P F U) : Entry P F U :=
  mkEntry (properties e) (preferences e) (updates e) c.

Definition PlatformEntry := Entry PlatformProperties.t PlatformPrefs.t PlatformUpdate.t.
Definition BeamEntry := Entry BeamProperties.t BeamPrefs.t BeamUpdate.t.
Definition GateEntry := Entry GateProperties.t GatePrefs.t GateUpdate.t.
Definition LaserEntry := Entry LaserProperties.t LaserPrefs.t LaserUpdate.t.
Definition ProjectorEntry := Entry ProjectorProperties.t ProjectorPrefs.t ProjectorUpdate.t.
Definition LobGroupEntry := Entry LobGroupProperties.t LobGroupPrefs.t LobGroupUpdate.t.
Definition CustomRenderingEntry :=
  Entry CustomRenderingProperties.t CustomRenderingPrefs.t CustomRenderingUpdate.t.

(** ** Observers *)

(** identity of a [ListenerPtr] *)
Definition ListenerId := nat.

(** the callbacks of [DataStore::Listener] that MemoryDataStore.cpp invokes *)
Inductive Notification :=
| onAddEntity (id : ObjectId) (ot : ObjectType)
| onRemoveEntity (id : ObjectId) (ot : ObjectType)
| onPostRemoveEntity (id : ObjectId) (ot : ObjectType)
| onPropertiesChange (id : ObjectId)
| onPrefsChange (id : ObjectId)
| onNameChange (id : ObjectId)
| onCategoryDataChange (id : ObjectId) (ot : ObjectType)
| onFlush (id : ObjectId)
| onChange
| onScenarioDelete.

(** What an outside observer of the listener protocol sees: a callback
    being invoked on a listener, and a listener being unregistered by a
    successful [removeListener]. *)
Inductive LogEntry :=
| Called (l : ListenerId) (n : Notification)
| Unregistered (l : ListenerId).

(** [listeners_], [justRemoved_] and the history of the protocol *)
Record Fabric := mkFabric {
  listeners_ : list ListenerId;
  justRemoved_ : list ListenerId;
  log : list LogEntry
}.

(** the callbacks of [DataStore::NewUpdatesListener] *)
Inductive NewUpdatesEvent :=
| onEntityUpdate (id : ObjectId) (dataTime : Time)
| onNewRowData (id : ObjectId) (dataTime : Time)
| NewUpdates_onFlush (id : ObjectId).

(** ** The store *)

(** [simCore::Clock], reduced to what the store asks of it *)
Record Clock := mkClock { isLiveMode : bool }.

(** identity of the [Interpolator] object *)
Definition Interpolator := nat.

(** Modelled from the spec: [EntityNameCache] (EntityNameCache.h, not at
    hand) indexes entities by name; an entry is (name, id, type). *)
Definition EntityNameEntry := (string * ObjectId * ObjectType)%type.

Record DefaultPrefs := mkDefaultPrefs {
  defaultPlatformPrefs_ : PlatformPrefs.t;
  defaultBeamPrefs_ : BeamPrefs.t;
  defaultGatePrefs_ : GatePrefs.t;
  defaultLaserPrefs_ : LaserPrefs.t;
  defaultLobGroupPrefs_ : LobGroupPrefs.t;
  defaultProjectorPrefs_ : ProjectorPrefs.t;
  defaultCustomRenderingPrefs_ : CustomRenderingPrefs.t
}.

(** the data members of [MemoryDataStore] *)
Record MemoryDataStore := mkStore {
  baseId_ : ObjectId;
  lastUpdateTime_ : Time;
  hasChanged_ : bool;
  interpolationEnabled_ : bool;
  interpolator_ : option Interpolator;
  dataLimiting_ : bool;
  boundClock_ : option Clock;
  platforms_ : IdMap.t PlatformEntry;
  beams_ : IdMap.t BeamEntry;
  gates_ : IdMap.t GateEntry;
  lasers_ : IdMap.t LaserEntry;
  projectors_ : IdMap.t ProjectorEntry;
  lobGroups_ : IdMap.t LobGroupEntry;
  customRenderings_ : IdMap.t CustomRenderingEntry;
  genericData_ : IdMap.t MemoryGenericDataSlice;
  categoryData_ : IdMap.t MemoryCategoryDataSlice;
  dataTableManager_ : IdMap.t (list DataTable);
  entityNameCache_ : list EntityNameEntry;
  defaultPrefs_ : DefaultPrefs;
  fabric_ : Fabric;
  newUpdatesLog_ : list NewUpdatesEvent
}.

(** Field updates (the record is rebuilt with one member replaced). *)

Definition set_baseId_ (v : ObjectId) (s : MemoryDataStore) : MemoryDataStore :=
  mkStore v (lastUpdateTime_ s) (hasChanged_ s) (interpolationEnabled_ s) (interpolator_ s)
    (dataLimiting_ s) (boundClock_ s) (platforms_ s) (beams_ s) (gates_ s) (lasers_ s)
    (projectors_ s) (lobGroups_ s) (customRenderings_ s) (genericData_ s) (categoryData_ s)
    (dataTableManager_ s) (entityNameCache_ s) (defaultPrefs_ s) (fabric_ s) (newUpdatesLog_ s).

Definition set_lastUpdateTime_ (v : Time) (s : MemoryDataStore) : MemoryDataStore :=
  mkStore (baseId_ s) v (hasChanged_ s) (interpolationEnabled_ s) (interpolator_ s)
    (dataLimiting_ s) (boundClock_ s) (platforms_ s) (beams_ s) (gates_ s) (lasers_ s)
    (projectors_ s) (lobGroups_ s) (customRenderings_ s) (genericData_ s) (categoryData_ s)
    (dataTableManager_ s) (entityNameCache_ s) (defaultPrefs_ s) (fabric_ s) (newUpdatesLog_ s).

Definition set_hasChanged_ (v : bool) (s : MemoryDataStore) : MemoryDataStore :=
  mkStore (baseId_ s) (lastUpdateTime_ s) v (interpolationEnabled_ s) (interpolator_ s)
    (dataLimiting_ s) (boundClock_ s) (platforms_ s) (beams_ s) (gates_ s) (lasers_ s)
    (projectors_ s) (lobGroups_ s) (customRenderings_ s) (genericData_ s) (categoryData_ s)
    (dataTableManager_ s) (entityNameCache_ s) (defaultPrefs_ s) (fabric_ s) (newUpdatesLog_ s).

Definition set_boundClock_ (v : option Clock) (s : MemoryDataStore) : MemoryDataStore :=
  mkStore (baseId_ s) (lastUpdateTime_ s) (hasChanged_ s) (interpolationEnabled_ s)
    (interpolator_ s) (dataLimiting_ s) v (platforms_ s) (beams_ s) (gates_ s) (lasers_ s)
    (projectors_ s) (lobGroups_ s) (customRenderings_ s) (genericData_ s) (categoryData_ s)
    (dataTableManager_ s) (entityNameCache_ s) (defaultPrefs_ s) (fabric_ s) (newUpdatesLog_ s).

Definition set_platforms_ (v : IdMap.t PlatformEntry) (s : MemoryDataStore) : MemoryDataStore :=
  mkStore (baseId_ s) (lastUpdateTime_ s) (hasChanged_ s) (interpolationEnabled_ s)
    (interpolator_ s) (dataLimiting_ s) (boundClock_ s) v (beams_ s) (gates_ s) (lasers_ s)
    (projectors_ s) (lobGroups_ s) (customRenderings_ s) (genericData_ s) (categoryData_ s)
    (dataTableManager_ s) (entityNameCache_ s) (defaultPrefs_ s) (fabric_ s) (newUpdatesLog_ s).

Definition set_beams_ (v : IdMap.t BeamEntry) (s : MemoryDataStore) : MemoryDataStore :=
  mkStore (baseId_ s) (lastUpdateTime_ s) (hasChanged_ s) (interpolationEnabled_ s)
    (interpolator_ s) (dataLimiting_ s) (boundClock_ s) (platforms_ s) v (gates_ s) (lasers_ s)
    (projectors_ s) (lobGroups_ s) (customRenderings_ s) (genericData_ s) (categoryData_ s)
    (dataTableManager_ s) (entityNameCache_ s) (defaultPrefs_ s) (fabric_ s) (newUpdatesLog_ s).

Definition set_gates_ (v : IdMap.t GateEntry) (s : MemoryDataStore) : MemoryDataStore :=
  mkStore (baseId_ s) (lastUpdateTime_ s) (hasChanged_ s) (interpolationEnabled_ s)
    (interpolator_ s) (dataLimiting_ s) (boundClock_ s) (platforms_ s) (beams_ s) v (lasers_ s)
    (projectors_ s) (lobGroups_ s) (customRenderings_ s) (genericData_ s) (categoryData_ s)
    (dataTableManager_ s) (entityNameCache_ s) (defaultPrefs_ s) (fabric_ s) (newUpdatesLog_ s).

Definition set_lasers_ (v : IdMap.t LaserEntry) (s : MemoryDataStore) : MemoryDataStore :=
  mkStore (baseId_ s) (lastUpdateTime_ s) (hasChanged_ s) (interpolationEnabled_ s)
    (interpolator_ s) (dataLimiting_ s) (boundClock_ s) (platforms_ s) (beams_ s) (gates_ s) v
    (projectors_ s) (lobGroups_ s) (customRenderings_ s) (genericData_ s) (categoryData_ s)
    (dataTableManager_ s) (entityNameCache_ s) (defaultPrefs_ s) (fabric_ s) (newUpdatesLog_ s).

Definition set_projectors_ (v : IdMap.t ProjectorEntry) (s : MemoryDataStore) : MemoryDataStore :=
  mkStore (baseId_ s) (lastUpdateTime_ s) (hasChanged_ s) (interpolationEnabled_ s)
    (interpolator_ s) (dataLimiting_ s) (boundClock_ s) (platforms_ s) (beams_ s) (gates_ s)
    (lasers_ s) v (lobGroups_ s) (customRenderings_ s) (genericData_ s) (categoryData_ s)
    (dataTableManager_ s) (entityNameCache_ s) (defaultPrefs_ s) (fabric_ s) (newUpdatesLog_ s).

Definition set_lobGroups_ (v : IdMap.t LobGroupEntry) (s : MemoryDataStore) : MemoryDataStore :=
  mkStore (baseId_ s) (lastUpdateTime_ s) (hasChanged_ s) (interpolationEnabled_ s)
    (interpolator_ s) (dataLimiting_ s) (boundClock_ s) (platforms_ s) (beams_ s) (gates_ s)
    (lasers_ s) (projectors_ s) v (customRenderings_ s) (genericData_ s) (categoryData_ s)
    (dataTableManager_ s) (entityNameCache_ s) (defaultPrefs_ s) (fabric_ s) (newUpdatesLog_ s).

Definition set_customRenderings_ (v : IdMap.t CustomRenderingEntry) (s : MemoryDataStore)
  : MemoryDataStore :=
  mkStore (baseId_ s) (lastUpdateTime_ s) (hasChanged_ s) (interpolationEnabled_ s)
    (interpolator_ s) (dataLimiting_ s) (boundClock_ s) (platforms_ s) (beams_ s) (gates_ s)
    (lasers_ s) (projectors_ s) (lobGroups_ s) v (genericData_ s) (categoryData_ s)
    (dataTableManager_ s) (entityNameCache_ s) (defaultPrefs_ s) (fabric_ s) (newUpdatesLog_ s).

Definition set_genericData_ (v : IdMap.t MemoryGenericDataSlice) (s : MemoryDataStore)
  : MemoryDataStore :=
  mkStore (baseId_ s) (lastUpdateTime_ s) (hasChanged_ s) (interpolationEnabled_ s)
    (interpolator_ s) (dataLimiting_ s) (boundClock_ s) (platforms_ s) (beams_ s) (gates_ s)
    (lasers_ s) (projectors_ s) (lobGroups_ s) (customRenderings_ s) v (categoryData_ s)
    (dataTableManager_ s) (entityNameCache_ s) (defaultPrefs_ s) (fabric_ s) (newUpdatesLog_ s).

Definition set_categoryData_ (v : IdMap.t MemoryCategoryDataSlice) (s : MemoryDataStore)
  : MemoryDataStore :=
  mkStore (baseId_ s) (lastUpdateTime_ s) (hasChanged_ s) (interpolationEnabled_ s)
    (interpolator_ s) (dataLimiting_ s) (boundClock_ s) (platforms_ s) (beams_ s) (gates_ s)
    (lasers_ s) (projectors_ s) (lobGroups_ s) (customRenderings_ s) (genericData_ s) v
    (dataTableManager_ s) (entityNameCache_ s) (defaultPrefs_ s) (fabric_ s) (newUpdatesLog_ s).

Definition set_dataTableManager_ (v : IdMap.t (list DataTable)) (s : MemoryDataStore)
  : MemoryDataStore :=
  mkStore (baseId_ s) (lastUpdateTime_ s) (hasChanged_ s) (interpolationEnabled_ s)
    (interpolator_ s) (dataLimiting_ s) (boundClock_ s) (platforms_ s) (beams_ s) (gates_ s)
    (lasers_ s) (projectors_ s) (lobGroups_ s) (customRenderings_ s) (genericData_ s)
    (categoryData_ s) v (entityNameCache_ s) (defaultPrefs_ s) (fabric_ s) (newUpdatesLog_ s).

Definition set_entityNameCache_ (v : list EntityNameEntry) (s : MemoryDataStore)
  : MemoryDataStore :=
  mkStore (baseId_ s) (lastUpdateTime_ s) (hasChanged_ s) (interpolationEnabled_ s)
    (interpolator_ s) (dataLimiting_ s) (boundClock_ s) (platforms_ s) (beams_ s) (gates_ s)
    (lasers_ s) (projectors_ s) (lobGroups_ s) (customRenderings_ s) (genericData_ s)
    (categoryData_ s) (dataTableManager_ s) v (defaultPrefs_ s) (fabric_ s) (newUpdatesLog_ s).

Definition set_fabric_ (v : Fabric) (s : MemoryDataStore) : MemoryDataStore :=
  mkStore (baseId_ s) (lastUpdateTime_ s) (hasChanged_ s) (interpolationEnabled_ s)
    (interpolator_ s) (dataLimiting_ s) (boundClock_ s) (platforms_ s) (beams_ s) (gates_ s)
    (lasers_ s) (projectors_ s) (lobGroups_ s) (customRenderings_ s) (genericData_ s)
    (categoryData_ s) (dataTableManager_ s) (entityNameCache_ s) (defaultPrefs_ s) v
    (newUpdatesLog_ s).

Definition set_newUpdatesLog_ (v : list NewUpdatesEvent) (s : MemoryDataStore)
  : MemoryDataStore :=
  mkStore (baseId_ s) (lastUpdateTime_ s) (hasChanged_ s) (interpolationEnabled_ s)
    (interpolator_ s) (dataLimiting_ s) (boundClock_ s) (platforms_ s) (beams_ s) (gates_ s)
    (lasers_ s) (projectors_ s) (lobGroups_ s) (customRenderings_ s) (genericData_ s)
    (categoryData_ s) (dataTableManager_ s) (entityNameCache_ s) (defaultPrefs_ s) (fabric_ s) v.

Definition set_interpolationEnabled_ (v : bool) (s : MemoryDataStore) : MemoryDataStore :=
  mkStore (baseId_ s) (lastUpdateTime_ s) (hasChanged_ s) v (interpolator_ s)
    (dataLimiting_ s) (boundClock_ s) (platforms_ s) (beams_ s) (gates_ s) (lasers_ s)
    (projectors_ s) (lobGroups_ s) (customRenderings_ s) (genericData_ s) (categoryData_ s)
    (dataTableManager_ s) (entityNameCache_ s) (defaultPrefs_ s) (fabric_ s) (newUpdatesLog_ s).

Definition set_interpolator_ (v : option Interpolator) (s : MemoryDataStore)
  : MemoryDataStore :=
  mkStore (baseId_ s) (lastUpdateTime_ s) (hasChanged_ s) (interpolationEnabled_ s) v
    (dataLimiting_ s) (boundClock_ s) (platforms_ s) (beams_ s) (gates_ s) (lasers_ s)
    (projectors_ s) (lobGroups_ s) (customRenderings_ s) (genericData_ s) (categoryData_ s)
    (dataTableManager_ s) (entityNameCache_ s) (defaultPrefs_ s) (fabric_ s) (newUpdatesLog_ s).

(** ** The notification fabric

    Every dispatch site of MemoryDataStore.cpp has the same shape: copy
    [listeners_] into [localCopy], clear [justRemoved_], then for every
    entry of the copy that is not null invoke the callback and call
    [checkForRemoval_(localCopy)].  [update] runs several such loops over one local copy, and the
    preference transaction invokes two callbacks per listener.  A pass is
    therefore described by its rounds: one round per [for] loop, each round
    being the callbacks invoked in turn on every listener. *)

Definition Round := list Notification.

Definition set_listeners_ (v : list ListenerId) (f : Fabric) : Fabric :=
  mkFabric v (justRemoved_ f) (log f).
Definition set_justRemoved_ (v : list ListenerId) (f : Fabric) : Fabric :=
  mkFabric (listeners_ f) v (log f).
Definition append_log (es : list LogEntry) (f : Fabric) : Fabric :=
  mkFabric (listeners_ f) (justRemoved_ f) (log f ++ es).

(** [MemoryDataStore::addListener] *)
Definition addListener (callback : ListenerId) (f : Fabric) : Fabric :=
  set_listeners_ (listeners_ f ++ [callback]) f.

(** [listeners_.erase(std::find(...))]: the first occurrence goes *)
Fixpoint erase_first (callback : ListenerId) (ls : list ListenerId) : list ListenerId :=
  match ls with
  | [] => []
  | x :: rest => if Nat.eqb x callback then rest else x :: erase_first callback rest
  end.

(** [MemoryDataStore::removeListener] *)
Definition removeListener (callback : ListenerId) (f : Fabric) : Fabric :=
  if existsb (Nat.eqb callback) (listeners_ f)
  then mkFabric (erase_first callback (listeners_ f))
                (justRemoved_ f ++ [callback])
                (log f ++ [Unregistered callback])
  else f.

(** [std::find(list.begin(), list.end(), just)], then [reset()] on the
    entry found: the first entry equal to [just] becomes null *)
Fixpoint reset_first (just : ListenerId) (localCopy : list (option ListenerId))
  : list (option ListenerId) :=
  match localCopy with
  | [] => []
  | Some x :: rest =>
      if Nat.eqb x just then None :: rest else Some x :: reset_first just rest
  | None :: rest => None :: reset_first just rest
  end.

(** [MemoryDataStore::checkForRemoval_] *)
Definition checkForRemoval_ (localCopy : list (option ListenerId)) (f : Fabric)
  : list (option ListenerId) * Fabric :=
  match justRemoved_ f with
  | [] => (localCopy, f)
  | _ :: _ =>
      (fold_left (fun l just => reset_first just l) (justRemoved_ f) localCopy,
       set_justRemoved_ [] f)
  end.

(** *** Passive observers: what the store operations below use *)

(** the callbacks of one round, listener by listener *)
Definition round_calls (ls : list ListenerId) (r : Round) : list LogEntry :=
  flat_map (fun l => map (Called l) r) ls.

(** a whole pass over observers that do not call back into the store *)
Definition deliver (rounds : list Round) (f : Fabric) : Fabric :=
  append_log (flat_map (round_calls (listeners_ f)) rounds) (set_justRemoved_ [] f).

(** *** Re-entrant observers *)

(** What a callback may do to the store while it runs.  [callNotifying]
    stands for any call that itself runs a dispatch pass ([flush],
    [removeEntity], a committed transaction going out of scope). *)
Inductive Action :=
| callRemoveListener (l : ListenerId)
| callAddListener (l : ListenerId)
| callNotifying (rounds : list Round).

Definition Behaviour := ListenerId -> Notification -> list Action.

Definition silent : Behaviour := fun _ _ => [].

Section Dispatch.
Variable beh : Behaviour.
(** the dispatch pass of a nested store call *)
Variable nested : list Round -> Fabric -> option Fabric.

Fixpoint runActions (acts : list Action) (f : Fabric) : option Fabric :=
  match acts with
  | [] => Some f
  | callRemoveListener l :: rest => runActions rest (removeListener l f)
  | callAddListener l :: rest => runActions rest (addListener l f)
  | callNotifying rounds :: rest =>
      match nested rounds f with
      | Some f' => runActions rest f'
      | None => None
      end
  end.

(** the callbacks invoked on entry [i] of the local copy; each one is
    guarded by the entry not being null and followed by
    [checkForRemoval_] *)
Fixpoint invokeEntry (r : Round) (i : nat) (localCopy : list (option ListenerId))
  (f : Fabric) : option (list (option ListenerId) * Fabric) :=
  match r with
  | [] => Some (localCopy, f)
  | n :: r' =>
      match nth i localCopy None with
      | None => Some (localCopy, f)
      | Some l =>
          match runActions (beh l n) (append_log [Called l n] f) with
          | None => None
          | Some f1 =>
              let (localCopy', f2) := checkForRemoval_ localCopy f1 in
              invokeEntry r' i localCopy' f2
          end
      end
  end.

(** one [for] loop over the local copy: entries [i], [i+1], ..., [k] of
    them *)
Fixpoint dispatchLoop (r : Round) (k i : nat) (localCopy : list (option ListenerId))
  (f : Fabric) : option (list (option ListenerId) * Fabric) :=
  match k with
  | O => Some (localCopy, f)
  | S k' =>
      match invokeEntry r i localCopy f with
      | None => None
      | Some (localCopy', f') => dispatchLoop r k' (S i) localCopy' f'
      end
  end.

Fixpoint dispatchRounds (rounds : list Round) (localCopy : list (option ListenerId))
  (f : Fabric) : option Fabric :=
  match rounds with
  | [] => Some f
  | r :: rounds' =>
      match dispatchLoop r (List.length localCopy) 0 localCopy f with
      | None => None
      | Some (localCopy', f') => dispatchRounds rounds' localCopy' f'
      end
  end.

End Dispatch.

(** A dispatch pass with re-entrant observers.  [fuel] bounds the depth of
    nested store calls; [None] means the bound was reached. *)
Fixpoint dispatch (fuel : nat) (beh : Behaviour) (rounds : list Round) (f : Fabric)
  : option Fabric :=
  match fuel with
  | O => None
  | S fuel' =>
      let localCopy := map Some (listeners_ f) in
      dispatchRounds beh (dispatch fuel' beh) rounds localCopy (set_justRemoved_ [] f)
  end.

(** The temporal property of the fabric, on the log of a pass: once
    [removeListener(l)] has succeeded, no callback is invoked on [l]. *)
Fixpoint called_in (l : ListenerId) (es : list LogEntry) : bool :=
  match es with
  | [] => false
  | Called l' _ :: rest => Nat.eqb l' l || called_in l rest
  | Unregistered _ :: rest => called_in l rest
  end.

Fixpoint no_call_after_removal (es : list LogEntry) : bool :=
  match es with
  | [] => true
  | Unregistered l :: rest => negb (called_in l rest) && no_call_after_removal rest
  | Called _ _ :: rest => no_call_after_removal rest
  end.

(** ** Collaborators outside the translation unit

    The member functions of the slice classes, of the data tables and of
    the interpolator are defined in headers that are not part of the
    sources at hand.  MemoryDataStore.cpp only calls them, so they are an
    interface the store is parameterised by; nothing is assumed of them. *)

Class Collaborators := {
  (** [MemoryDataSlice<T>::update(time)] *)
  slice_update : forall U, Timed U -> MemoryDataSlice U -> Time -> MemoryDataSlice U;
  (** [MemoryDataSlice<T>::update(time, interpolator)] *)
  slice_interpolate :
    forall U, Timed U -> MemoryDataSlice U -> Time -> option Interpolator -> MemoryDataSlice U;
  firstTime : forall U, Timed U -> MemoryDataSlice U -> Time;
  lastTime : forall U, Timed U -> MemoryDataSlice U -> Time;
  (** [flush(startTime, endTime)] *)
  slice_flush : forall U, Timed U -> MemoryDataSlice U -> Time -> Time -> MemoryDataSlice U;
  slice_limitByPrefs :
    forall U, Timed U -> MemoryDataSlice U -> option CommonPrefs.t -> MemoryDataSlice U;
  slice_insert : forall U, Timed U -> MemoryDataSlice U -> U -> MemoryDataSlice U;
  (** [setMaxDataPoints] followed by [setMaxDataSeconds] *)
  slice_setMaxData :
    MemoryDataSlice LobGroupUpdate.t -> N -> Q -> MemoryDataSlice LobGroupUpdate.t;
  (** [MemoryCommandSlice<C, P>::update(dataStore, id, time)]: applies the
      commands up to [time] to the preferences of entity [id] *)
  command_update :
    forall F, MemoryCommandSlice F -> ObjectId -> Time -> F -> MemoryCommandSlice F * F;
  command_flush : forall F, MemoryCommandSlice F -> Time -> Time -> MemoryCommandSlice F;
  command_limitByPrefs :
    forall F, MemoryCommandSlice F -> option CommonPrefs.t -> MemoryCommandSlice F;
  command_insert : forall F, MemoryCommandSlice F -> Command F -> MemoryCommandSlice F;
  generic_update : MemoryGenericDataSlice -> Time -> MemoryGenericDataSlice;
  (** [flush()] and [flush(startTime, endTime)] *)
  generic_flush_all : MemoryGenericDataSlice -> MemoryGenericDataSlice;
  generic_flush : MemoryGenericDataSlice -> Time -> Time -> MemoryGenericDataSlice;
  generic_limitByPrefs :
    MemoryGenericDataSlice -> option CommonPrefs.t -> MemoryGenericDataSlice;
  generic_insert : MemoryGenericDataSlice -> GenericData.t -> bool -> MemoryGenericDataSlice;
  (** [MemoryCategoryDataSlice::update(time)] returns whether the current
      category data changed *)
  category_update : MemoryCategoryDataSlice -> Time -> MemoryCategoryDataSlice * bool;
  category_flush_all : MemoryCategoryDataSlice -> MemoryCategoryDataSlice;
  category_flush : MemoryCategoryDataSlice -> Time -> Time -> MemoryCategoryDataSlice;
  category_limitByPrefs :
    MemoryCategoryDataSlice -> option CommonPrefs.t -> MemoryCategoryDataSlice;
  category_insert : MemoryCategoryDataSlice -> CategoryData.t -> MemoryCategoryDataSlice;
  (** [DataTable::flush()] and [DataTable::flush(startTime, endTime)] *)
  table_flush_all : DataTable -> DataTable;
  table_flush : DataTable -> Time -> Time -> DataTable
}.

Arguments slice_update {_ U _} _ _.
Arguments slice_interpolate {_ U _} _ _ _.
Arguments firstTime {_ U _} _.
Arguments lastTime {_ U _} _.
Arguments slice_flush {_ U _} _ _ _.
Arguments slice_limitByPrefs {_ U _} _ _.
Arguments slice_insert {_ U _} _ _.
Arguments command_update {_ F} _ _ _ _.
Arguments command_flush {_ F} _ _ _.
Arguments command_limitByPrefs {_ F} _ _.
Arguments command_insert {_ F} _ _.

(** ** Build modes and faults *)

(** whether [assert] is compiled in *)
Inductive BuildMode := Debug | Release.

(** How a call ends: normally, in a failed [assert] (which aborts the
    process), or by dereferencing a null pointer. *)
Inductive Outcome (A : Type) :=
| Ok (a : A)
| AssertionFailed
| NullDereference.
Arguments Ok {A} a.
Arguments AssertionFailed {A}.
Arguments NullDereference {A}.

Definition bind {A B} (c : Outcome A) (k : A -> Outcome B) : Outcome B :=
  match c with
  | Ok a => k a
  | AssertionFailed => AssertionFailed
  | NullDereference => NullDereference
  end.

Notation "x <- c ;; k" := (bind c (fun x => k))
  (at level 61, c at next level, right associativity).

(** [assert(cond)] *)
Definition assert (build : BuildMode) (cond : bool) : Outcome unit :=
  match build with
  | Release => Ok tt
  | Debug => if cond then Ok tt else AssertionFailed
  end.

(** a loop over a container whose body may fault *)
Fixpoint mapiM {V} (f : ObjectId -> V -> Outcome V) (m : IdMap.t V) : Outcome (IdMap.t V) :=
  match m with
  | [] => Ok []
  | (k, v) :: m' =>
      v' <- f k v ;;
      m'' <- mapiM f m' ;;
      Ok ((k, v') :: m'')
  end.

(** ** Member functions of [MemoryDataStore] *)

Section Store.
Context {X : Collaborators}.

(** *** Queries *)

(** [MemoryDataStore::objectType] *)
Definition objectType (s : MemoryDataStore) (id : ObjectId) : ObjectType :=
  if IdMap.mem id (platforms_ s) then PLATFORM
  else if IdMap.mem id (beams_ s) then BEAM
  else if IdMap.mem id (gates_ s) then GATE
  else if IdMap.mem id (lasers_ s) then LASER
  else if IdMap.mem id (projectors_ s) then PROJECTOR
  else if IdMap.mem id (lobGroups_ s) then LOB_GROUP
  else if IdMap.mem id (customRenderings_ s) then CUSTOM_RENDERING
  else NONE.

(** [MemoryDataStore::idList]; the ids are appended to the caller's list *)
Definition idList (s : MemoryDataStore) (type : ObjectType) : list ObjectId :=
  (if type_has type PLATFORM then IdMap.keys (platforms_ s) else [])
  ++ (if type_has type BEAM then IdMap.keys (beams_ s) else [])
  ++ (if type_has type GATE then IdMap.keys (gates_ s) else [])
  ++ (if type_has type LASER then IdMap.keys (lasers_ s) else [])
  ++ (if type_has type PROJECTOR then IdMap.keys (projectors_ s) else [])
  ++ (if type_has type LOB_GROUP then IdMap.keys (lobGroups_ s) else [])
  ++ (if type_has type CUSTOM_RENDERING then IdMap.keys (customRenderings_ s) else []).

(** [beamIdListForHost], [gateIdListForHost], ... *)
Definition beamIdListForHost (s : MemoryDataStore) (hostid : ObjectId) : list ObjectId :=
  IdMap.keys_where (fun e : BeamEntry => id_eqb (BeamProperties.hostid (properties e)) hostid)
                   (beams_ s).

Definition gateIdListForHost (s : MemoryDataStore) (hostid : ObjectId) : list ObjectId :=
  IdMap.keys_where (fun e : GateEntry => id_eqb (GateProperties.hostid (properties e)) hostid)
                   (gates_ s).

Definition laserIdListForHost (s : MemoryDataStore) (hostid : ObjectId) : list ObjectId :=
  IdMap.keys_where (fun e : LaserEntry => id_eqb (LaserProperties.hostid (properties e)) hostid)
                   (lasers_ s).

Definition projectorIdListForHost (s : MemoryDataStore) (hostid : ObjectId) : list ObjectId :=
  IdMap.keys_where
    (fun e : ProjectorEntry => id_eqb (ProjectorProperties.hostid (properties e)) hostid)
    (projectors_ s).

Definition lobGroupIdListForHost (s : MemoryDataStore) (hostid : ObjectId) : list ObjectId :=
  IdMap.keys_where
    (fun e : LobGroupEntry => id_eqb (LobGroupProperties.hostid (properties e)) hostid)
    (lobGroups_ s).

Definition customRenderingIdListForHost (s : MemoryDataStore) (hostid : ObjectId)
  : list ObjectId :=
  IdMap.keys_where
    (fun e : CustomRenderingEntry =>
       id_eqb (CustomRenderingProperties.hostid (properties e)) hostid)
    (customRenderings_ s).

(** the [getEntry] template followed by [entry->preferences()] *)
Definition getPrefs {P F U} (id : ObjectId) (store : IdMap.t (Entry P F U)) : option F :=
  option_map (@preferences P F U) (IdMap.find id store).

(** [MemoryDataStore::commonPrefs] *)
Definition commonPrefs (s : MemoryDataStore) (id : ObjectId) : option CommonPrefs.t :=
  match getPrefs id (platforms_ s) with
  | Some plat => Some (PlatformPrefs.commonprefs plat)
  | None =>
  match getPrefs id (beams_ s) with
  | Some beam => Some (BeamPrefs.commonprefs beam)
  | None =>
  match getPrefs id (gates_ s) with
  | Some gate => Some (GatePrefs.commonprefs gate)
  | None =>
  match getPrefs id (lasers_ s) with
  | Some laser => Some (LaserPrefs.commonprefs laser)
  | None =>
  match getPrefs id (lobGroups_ s) with
  | Some lobGroup => Some (LobGroupPrefs.commonprefs lobGroup)
  | None =>
  match getPrefs id (projectors_ s) with
  | Some proj => Some (ProjectorPrefs.commonprefs proj)
  | None =>
  match getPrefs id (customRenderings_ s) with
  | Some custom => Some (CustomRenderingPrefs.commonprefs custom)
  | None => None
  end end end end end end end.

(** [MemoryDataStore::isInterpolationEnabled] *)
Definition isInterpolationEnabled (s : MemoryDataStore) : bool :=
  interpolationEnabled_ s
  && match interpolator_ s with Some _ => true | None => false end.

(** a pass over the observers of the store *)
Definition fire (rounds : list Round) (s : MemoryDataStore) : MemoryDataStore :=
  set_fabric_ (deliver rounds (fabric_ s)) s.

(** *** The update engine *)

(** [entry->commands()->update(this, id, time)] *)
Definition applyCommands {P F U} (id : ObjectId) (time : Time) (e : Entry P F U)
  : Entry P F U :=
  let (cmds, prefs) := command_update (commands e) id time (preferences e) in
  set_commands cmds (set_preferences prefs e).

(** the body of the loop of [MemoryDataStore::updatePlatforms_] *)
Definition updatePlatform (s : MemoryDataStore) (fileMode : bool) (time : Time)
  (id : ObjectId) (entry : PlatformEntry) : PlatformEntry :=
  let platform := applyCommands id time entry in
  if negb (CommonPrefs.datadraw (PlatformPrefs.commonprefs (preferences platform)))
  then set_updates (setCurrent None (updates platform)) platform
  else
    let slice := updates platform in
    let first := firstTime slice in
    let staticPlatform := time_eqb first (-1) in
    if fileMode && (negb staticPlatform
                    && (time_ltb time first || time_ltb (lastTime slice) time))
    then set_updates (setCurrent None (updates platform)) platform
    else if isInterpolationEnabled s && PlatformPrefs.interpolatepos (preferences platform)
    then set_updates (slice_interpolate (updates platform) time (interpolator_ s)) platform
    else set_updates (slice_update (updates platform) time) platform.

(** [!boundClock_ || !boundClock_->isLiveMode()]: file mode is the default
    when no clock is bound *)
Definition inFileMode (s : MemoryDataStore) : bool :=
  match boundClock_ s with
  | None => true
  | Some clock => negb (isLiveMode clock)
  end.

(** [MemoryDataStore::updatePlatforms_] *)
Definition updatePlatforms_ (time : Time) (s : MemoryDataStore) : MemoryDataStore :=
  let fileMode := inFileMode s in
  set_platforms_ (IdMap.mapi (updatePlatform s fileMode time) (platforms_ s)) s.

(** the current position of platform [id], when the platform exists, has a
    current update, and that update has a position *)
Definition platformHasPosition (s : MemoryDataStore) (id : ObjectId) : bool :=
  match IdMap.find id (platforms_ s) with
  | None => false
  | Some platform =>
      match current (updates platform) with
      | None => false
      | Some upd => PlatformUpdate.has_position upd
      end
  end.

(** [MemoryDataStore::updateTargetBeam_] *)
Definition updateTargetBeam_ (s : MemoryDataStore) (id : ObjectId) (beam : BeamEntry)
  (time : Time) : BeamEntry :=
  if negb (BeamProperties.has_hostid (properties beam))
  then set_updates (setCurrent None (updates beam)) beam
  else if negb (BeamPrefs.has_targetid (preferences beam))
  then set_updates (setCurrent None (updates beam)) beam
  else
    match IdMap.find (BeamProperties.hostid (properties beam)) (platforms_ s) with
    | None => set_updates (setCurrent None (updates beam)) beam
    | Some sourcePlatform =>
    match current (updates sourcePlatform) with
    | None => set_updates (setCurrent None (updates beam)) beam
    | Some sourceUpdate =>
    if negb (PlatformUpdate.has_position sourceUpdate)
    then set_updates (setCurrent None (updates beam)) beam
    else
    match IdMap.find (BeamPrefs.targetid (preferences beam)) (platforms_ s) with
    | None => set_updates (setCurrent None (updates beam)) beam
    | Some destPlatform =>
    match current (updates destPlatform) with
    | None => set_updates (setCurrent None (updates beam)) beam
    | Some destUpdate =>
    if negb (PlatformUpdate.has_position destUpdate)
    then set_updates (setCurrent None (updates beam)) beam
    else
      let upd := currentInterpolated (updates beam) in
      if match current (updates beam) with None => true | Some _ => false end
         || negb (time_eqb (BeamUpdate.time upd) time)
      then
        let upd' := BeamUpdate.mk time 0 0 0 in
        set_updates
          (setChanged (setCurrent (Some upd') (setCurrentInterpolated upd' (updates beam))))
          beam
      else set_updates (clearChanged (updates beam)) beam
    end end end end.

(** the body of the loop of [MemoryDataStore::updateBeams_] *)
Definition updateBeam (s : MemoryDataStore) (time : Time) (id : ObjectId)
  (entry : BeamEntry) : BeamEntry :=
  let beamEntry := applyCommands id time entry in
  if negb (CommonPrefs.datadraw (BeamPrefs.commonprefs (preferences beamEntry)))
  then set_updates (setCurrent None (updates beamEntry)) beamEntry
  else if BeamProperties.is_target (properties beamEntry)
  then updateTargetBeam_ s id beamEntry time
  else if isInterpolationEnabled s && BeamPrefs.interpolatebeampos (preferences beamEntry)
  then set_updates (slice_interpolate (updates beamEntry) time (interpolator_ s)) beamEntry
  else set_updates (slice_update (updates beamEntry) time) beamEntry.

(** [MemoryDataStore::updateBeams_] *)
Definition updateBeams_ (time : Time) (s : MemoryDataStore) : MemoryDataStore :=
  set_beams_ (IdMap.mapi (updateBeam s time) (beams_ s)) s.

(** [MemoryDataStore::getBeamForGate_] *)
Definition getBeamForGate_ (s : MemoryDataStore) (gateID : ObjectId) : option BeamEntry :=
  IdMap.find gateID (beams_ s).

(** [MemoryDataStore::gateUsesBeamBeamwidth_] *)
Definition gateUsesBeamBeamwidth_ (gate : GateEntry) : bool :=
  match current (updates gate) with
  | None => false
  | Some currentUpdate =>
      GateProperties.has_hostid (properties gate)
      && (Qle_bool (GateUpdate.height currentUpdate) 0
          || Qle_bool (GateUpdate.width currentUpdate) 0)
  end.

(** the ordinary gate update, with or without interpolation *)
Definition updateGateSlice (s : MemoryDataStore) (gate : GateEntry) (time : Time)
  : GateEntry :=
  if isInterpolationEnabled s && GatePrefs.interpolategatepos (preferences gate)
  then set_updates (slice_interpolate (updates gate) time (interpolator_ s)) gate
  else set_updates (slice_update (updates gate) time) gate.

(** [MemoryDataStore::updateTargetGate_] *)
Definition updateTargetGate_ (build : BuildMode) (s : MemoryDataStore) (gate : GateEntry)
  (time : Time) : Outcome GateEntry :=
  _ <- assert build (GateProperties.is_target (properties gate)) ;;
  if negb (GateProperties.has_hostid (properties gate))
  then Ok (set_updates (setCurrent None (updates gate)) gate)
  else
    let beam := getBeamForGate_ s (GateProperties.hostid (properties gate)) in
    (* assert(beam->properties()->type() == TARGET): the argument reads
       through [beam] before [beam] is tested *)
    _ <- match build with
         | Release => Ok tt
         | Debug =>
             match beam with
             | None => NullDereference
             | Some b => assert Debug (BeamProperties.is_target (properties b))
             end
         end ;;
    match beam with
    | None => Ok (set_updates (setCurrent None (updates gate)) gate)
    | Some beam =>
    if negb (BeamProperties.has_hostid (properties beam))
       || negb (BeamProperties.is_target (properties beam))
       || negb (BeamPrefs.has_targetid (preferences beam))
    then Ok (set_updates (setCurrent None (updates gate)) gate)
    else
    match IdMap.find (BeamProperties.hostid (properties beam)) (platforms_ s) with
    | None => Ok (set_updates (setCurrent None (updates gate)) gate)
    | Some sourcePlatform =>
    match current (updates sourcePlatform) with
    | None => Ok (set_updates (setCurrent None (updates gate)) gate)
    | Some sourceUpdate =>
    if negb (PlatformUpdate.has_position sourceUpdate)
    then Ok (set_updates (setCurrent None (updates gate)) gate)
    else
    match IdMap.find (BeamPrefs.targetid (preferences beam)) (platforms_ s) with
    | None => Ok (set_updates (setCurrent None (updates gate)) gate)
    | Some destPlatform =>
    match current (updates destPlatform) with
    | None => Ok (set_updates (setCurrent None (updates gate)) gate)
    | Some destUpdate =>
    if negb (PlatformUpdate.has_position destUpdate)
    then Ok (set_updates (setCurrent None (updates gate)) gate)
    else
      let gateWasOff :=
        match current (updates gate) with None => true | Some _ => false end in
      let lastUpdateTime := GateUpdate.time (currentInterpolated (updates gate)) in
      let gate1 := updateGateSlice s gate time in
      match current (updates gate1) with
      | None => Ok gate1
      | Some currentUpdate =>
          if gateWasOff || negb (time_eqb lastUpdateTime time)
             || gateUsesBeamBeamwidth_ gate1
          then
            let upd := currentInterpolated (updates gate1) in
            let upd' :=
              GateUpdate.mk time 0 0 (GateUpdate.width upd) (GateUpdate.height upd)
                (GateUpdate.minrange currentUpdate) (GateUpdate.maxrange currentUpdate)
                (GateUpdate.centroid_ currentUpdate) in
            Ok (set_updates
                  (setChanged
                     (setCurrent (Some upd') (setCurrentInterpolated upd' (updates gate1))))
                  gate1)
          else Ok (set_updates (clearChanged (updates gate1)) gate1)
      end
    end end end end end.

(** the body of the loop of [MemoryDataStore::updateGates_] *)
Definition updateGate (build : BuildMode) (s : MemoryDataStore) (time : Time)
  (id : ObjectId) (entry : GateEntry) : Outcome GateEntry :=
  let gateEntry := applyCommands id time entry in
  if negb (CommonPrefs.datadraw (GatePrefs.commonprefs (preferences gateEntry)))
  then Ok (set_updates (setCurrent None (updates gateEntry)) gateEntry)
  else if GateProperties.is_target (properties gateEntry)
  then updateTargetGate_ build s gateEntry time
  else
    let gate1 := updateGateSlice s gateEntry time in
    if gateUsesBeamBeamwidth_ gate1
    then Ok (set_updates (setChanged (updates gate1)) gate1)
    else Ok gate1.

(** [MemoryDataStore::updateGates_] *)
Definition updateGates_ (build : BuildMode) (time : Time) (s : MemoryDataStore)
  : Outcome MemoryDataStore :=
  gates <- mapiM (updateGate build s time) (gates_ s) ;;
  Ok (set_gates_ gates s).

(** the body of the loop of [MemoryDataStore::updateLasers_] *)
Definition updateLaser (s : MemoryDataStore) (time : Time) (id : ObjectId)
  (entry : LaserEntry) : LaserEntry :=
  let laserEntry := applyCommands id time entry in
  if negb (CommonPrefs.datadraw (LaserPrefs.commonprefs (preferences laserEntry)))
  then set_updates (setCurrent None (updates laserEntry)) laserEntry
  else if isInterpolationEnabled s
  then set_updates (slice_interpolate (updates laserEntry) time (interpolator_ s)) laserEntry
  else set_updates (slice_update (updates laserEntry) time) laserEntry.

Definition updateLasers_ (time : Time) (s : MemoryDataStore) : MemoryDataStore :=
  set_lasers_ (IdMap.mapi (updateLaser s time) (lasers_ s)) s.

(** the body of the loop of [MemoryDataStore::updateProjectors_] *)
Definition updateProjector (s : MemoryDataStore) (time : Time) (id : ObjectId)
  (entry : ProjectorEntry) : ProjectorEntry :=
  let projectorEntry := applyCommands id time entry in
  if isInterpolationEnabled s
     && ProjectorPrefs.interpolateprojectorfov (preferences projectorEntry)
  then set_updates (slice_interpolate (updates projectorEntry) time (interpolator_ s))
                   projectorEntry
  else set_updates (slice_update (updates projectorEntry) time) projectorEntry.

Definition updateProjectors_ (time : Time) (s : MemoryDataStore) : MemoryDataStore :=
  set_projectors_ (IdMap.mapi (updateProjector s time) (projectors_ s)) s.

(** the body of the loop of [MemoryDataStore::updateLobGroups_] *)
Definition updateLobGroup (time : Time) (id : ObjectId) (entry : LobGroupEntry)
  : LobGroupEntry :=
  let lob := applyCommands id time entry in
  let lobPrefs := preferences lob in
  let slice := slice_setMaxData (updates lob) (LobGroupPrefs.maxdatapoints lobPrefs)
                                (LobGroupPrefs.maxdataseconds lobPrefs) in
  set_updates (slice_update slice time) lob.

Definition updateLobGroups_ (time : Time) (s : MemoryDataStore) : MemoryDataStore :=
  set_lobGroups_ (IdMap.mapi (updateLobGroup time) (lobGroups_ s)) s.

Definition updateCustomRenderings_ (time : Time) (s : MemoryDataStore) : MemoryDataStore :=
  set_customRenderings_ (IdMap.mapi (fun id e => applyCommands id time e) (customRenderings_ s)) s.

(** the [updateSparseSlices] template on [genericData_] *)
Definition updateSparseSlices (time : Time) (s : MemoryDataStore) : MemoryDataStore :=
  set_genericData_ (IdMap.mapi (fun _ slice => generic_update slice time) (genericData_ s)) s.

(** the category-data loop of [update]: every slice is updated, and each
    one that reports a change gives a round of [onCategoryDataChange] *)
Definition updateCategoryData (time : Time) (s : MemoryDataStore)
  : MemoryDataStore * list Round :=
  let results := map (fun kv => (fst kv, category_update (snd kv) time)) (categoryData_ s) in
  let slices := map (fun r => (fst r, fst (snd r))) results in
  let changed := filter (fun r => snd (snd r)) results in
  (set_categoryData_ slices s,
   map (fun r => [onCategoryDataChange (fst r) (objectType s (fst r))]) changed).

(** the early exit of [update]: [!hasChanged_ && time == lastUpdateTime_] *)
Definition update_skipped (s : MemoryDataStore) (time : Time) : bool :=
  negb (hasChanged_ s) && time_eqb time (lastUpdateTime_ s).

(** [MemoryDataStore::update] *)
Definition update (build : BuildMode) (time : Time) (s : MemoryDataStore)
  : Outcome MemoryDataStore :=
  if update_skipped s time
  then Ok s
  else
    let s := updatePlatforms_ time s in
    let s := updateBeams_ time s in
    s <- updateGates_ build time s ;;
    let s := updateSparseSlices time s in
    let (s, categoryRounds) := updateCategoryData time s in
    let s := updateLasers_ time s in
    let s := updateProjectors_ time s in
    let s := updateLobGroups_ time s in
    let s := updateCustomRenderings_ time s in
    let s := set_lastUpdateTime_ time s in
    let s := set_hasChanged_ false s in
    Ok (fire (categoryRounds ++ [[onChange]]) s).

(** *** Flush *)

Inductive FlushScope := FLUSH_NONRECURSIVE | FLUSH_RECURSIVE.

(** [DataStore::FlushFields] is a bit mask.
    Modelled from the spec: the enumerators are declared in DataStore.h,
    which is not part of the sources at hand.  The spec lists the five
    selectable fields; MemoryDataStore.cpp combines [FLUSH_ALL] with
    [FLUSH_EXCLUDE_MINUS_ONE] and masks [FLUSH_DATA_TABLES] out of it, so
    [FLUSH_ALL] is the five field bits without the exclusion bit. *)
Definition FlushFields := N.
Definition FLUSH_UPDATES : FlushFields := 1%N.
Definition FLUSH_COMMANDS : FlushFields := 2%N.
Definition FLUSH_CATEGORY_DATA : FlushFields := 4%N.
Definition FLUSH_GENERIC_DATA : FlushFields := 8%N.
Definition FLUSH_DATA_TABLES : FlushFields := 16%N.
Definition FLUSH_ALL : FlushFields := 31%N.
Definition FLUSH_EXCLUDE_MINUS_ONE : FlushFields := 32%N.

(** [(fields & bit) != 0] *)
Definition has_field (fields bit : FlushFields) : bool :=
  negb (N.eqb (N.land fields bit) 0).

(** the [flushEntityData] template *)
Definition flushEntityData {P F U} `{Timed U} (map : IdMap.t (Entry P F U)) (id : ObjectId)
  (flushUpdates flushCommands : bool) (startTime endTime : Time) : IdMap.t (Entry P F U) :=
  IdMap.adjust id
    (fun e =>
       let e := if flushUpdates
                then set_updates (slice_flush (updates e) startTime endTime) e else e in
       if flushCommands
       then set_commands (command_flush (commands e) startTime endTime) e else e)
    map.

(** [MemoryDataStore::flushDataTables_(id, startTime, endTime)] *)
Definition flushDataTables_ (id : ObjectId) (startTime endTime : Time) (s : MemoryDataStore)
  : MemoryDataStore :=
  set_dataTableManager_
    (IdMap.adjust id
       (List.map (fun table =>
          if Qle_bool startTime 0 && time_eqb endTime DBL_MAX
          then table_flush_all table
          else table_flush table startTime endTime))
       (dataTableManager_ s))
    s.

(** the part of [flushEntity_] after the [switch]: category data, generic
    data and data tables of [id] *)
Definition flushSparse (id : ObjectId) (flushFields : FlushFields) (startTime endTime : Time)
  (s : MemoryDataStore) : MemoryDataStore :=
  let s :=
    if has_field flushFields FLUSH_CATEGORY_DATA
    then set_categoryData_
           (IdMap.adjust id
              (fun slice =>
                 if time_eqb startTime 0 && time_eqb endTime DBL_MAX
                    && has_field flushFields FLUSH_EXCLUDE_MINUS_ONE
                 then category_flush_all slice
                 else category_flush slice startTime endTime)
              (categoryData_ s)) s
    else s in
  let s :=
    if has_field flushFields FLUSH_GENERIC_DATA
    then set_genericData_
           (IdMap.adjust id
              (fun slice =>
                 if Qle_bool startTime 0 && time_eqb endTime DBL_MAX
                 then generic_flush_all slice
                 else generic_flush slice startTime endTime)
              (genericData_ s)) s
    else s in
  if has_field flushFields FLUSH_DATA_TABLES
  then flushDataTables_ id startTime endTime s
  else s.

(** the recursion of [flushEntity_] descends from a platform to its beams
    and from a beam to its gates and projectors *)
Definition flush_rank (type : ObjectType) : nat :=
  match type with
  | PLATFORM => 2
  | BEAM => 1
  | _ => 0
  end.

(** a [for] loop over the ids of hosted entities *)
Definition forEachId (ids : list ObjectId) (body : ObjectId -> MemoryDataStore -> MemoryDataStore)
  (s : MemoryDataStore) : MemoryDataStore :=
  fold_left (fun s i => body i s) ids s.

(** [case PLATFORM:] of the [switch] in [flushEntity_]; the recursive calls
    on the hosted entities are the arguments *)
Definition flushPlatformCase
  (flushBeam flushLaser flushLobGroup flushProjector flushCustomRendering
     : ObjectId -> MemoryDataStore -> MemoryDataStore)
  (id : ObjectId) (flushScope : FlushScope) (flushFields : FlushFields)
  (startTime endTime : Time) (s : MemoryDataStore) : MemoryDataStore :=
  let recursive := match flushScope with FLUSH_RECURSIVE => true | _ => false end in
  let flushUpdates := has_field flushFields FLUSH_UPDATES in
  let flushCommands := has_field flushFields FLUSH_COMMANDS in
  let s := set_platforms_
             (flushEntityData (platforms_ s) id flushUpdates flushCommands startTime endTime) s in
  if recursive then
    let s := forEachId (beamIdListForHost s id) flushBeam s in
    let s := forEachId (laserIdListForHost s id) flushLaser s in
    let s := forEachId (lobGroupIdListForHost s id) flushLobGroup s in
    let s := forEachId (projectorIdListForHost s id) flushProjector s in
    forEachId (customRenderingIdListForHost s id) flushCustomRendering s
  else s.

(** [case BEAM:] *)
Definition flushBeamCase (flushGate flushProjector : ObjectId -> MemoryDataStore -> MemoryDataStore)
  (id : ObjectId) (flushScope : FlushScope) (flushFields : FlushFields)
  (startTime endTime : Time) (s : MemoryDataStore) : MemoryDataStore :=
  let recursive := match flushScope with FLUSH_RECURSIVE => true | _ => false end in
  let flushUpdates := has_field flushFields FLUSH_UPDATES in
  let flushCommands := has_field flushFields FLUSH_COMMANDS in
  let s := set_beams_
             (flushEntityData (beams_ s) id flushUpdates flushCommands startTime endTime) s in
  if recursive then
    let s := forEachId (gateIdListForHost s id) flushGate s in
    forEachId (projectorIdListForHost s id) flushProjector s
  else s.

(** the cases without recursion: [GATE], [LASER], [LOB_GROUP], [PROJECTOR],
    [CUSTOM_RENDERING]; [ALL] and [NONE] do nothing *)
Definition flushLeafCase (id : ObjectId) (type : ObjectType) (flushFields : FlushFields)
  (startTime endTime : Time) (s : MemoryDataStore) : MemoryDataStore :=
  let flushUpdates := has_field flushFields FLUSH_UPDATES in
  let flushCommands := has_field flushFields FLUSH_COMMANDS in
  match type with
  | GATE =>
      set_gates_
        (flushEntityData (gates_ s) id flushUpdates flushCommands startTime endTime) s
  | LASER =>
      set_lasers_
        (flushEntityData (lasers_ s) id flushUpdates flushCommands startTime endTime) s
  | LOB_GROUP =>
      set_lobGroups_
        (flushEntityData (lobGroups_ s) id flushUpdates flushCommands startTime endTime) s
  | PROJECTOR =>
      set_projectors_
        (flushEntityData (projectors_ s) id flushUpdates flushCommands startTime endTime) s
  | CUSTOM_RENDERING =>
      set_customRenderings_
        (flushEntityData (customRenderings_ s) id flushUpdates flushCommands startTime endTime) s
  | _ => s
  end.

(** [MemoryDataStore::flushEntity_] *)
Equations flushEntity_ (id : ObjectId) (type : ObjectType) (flushScope : FlushScope)
  (flushFields : FlushFields) (startTime endTime : Time) (s : MemoryDataStore)
  : MemoryDataStore by wf (flush_rank type) lt :=
flushEntity_ id PLATFORM flushScope flushFields startTime endTime s :=
  flushSparse id flushFields startTime endTime
    (flushPlatformCase
       (fun i s => flushEntity_ i BEAM flushScope flushFields startTime endTime s)
       (fun i s => flushEntity_ i LASER flushScope flushFields startTime endTime s)
       (fun i s => flushEntity_ i LOB_GROUP flushScope flushFields startTime endTime s)
       (fun i s => flushEntity_ i PROJECTOR flushScope flushFields startTime endTime s)
       (fun i s => flushEntity_ i CUSTOM_RENDERING flushScope flushFields startTime endTime s)
       id flushScope flushFields startTime endTime s);
flushEntity_ id BEAM flushScope flushFields startTime endTime s :=
  flushSparse id flushFields startTime endTime
    (flushBeamCase
       (fun i s => flushEntity_ i GATE flushScope flushFields startTime endTime s)
       (fun i s => flushEntity_ i PROJECTOR flushScope flushFields startTime endTime s)
       id flushScope flushFields startTime endTime s);
flushEntity_ id type flushScope flushFields startTime endTime s :=
  flushSparse id flushFields startTime endTime
    (flushLeafCase id type flushFields startTime endTime s).

(** the tail of both branches of [flush]: mark the store changed and
    notify the listeners and the new-updates listener *)
Definition flushNotify (id : ObjectId) (s : MemoryDataStore) : MemoryDataStore :=
  let s := set_hasChanged_ true s in
  let s := fire [[onFlush id]] s in
  set_newUpdatesLog_ (newUpdatesLog_ s ++ [NewUpdates_onFlush id]) s.

(** [MemoryDataStore::flush(id, scope, fields, startTime, endTime)]; the
    first component is the returned status *)
Definition flush_range (id : ObjectId) (scope : FlushScope) (fields : FlushFields)
  (startTime endTime : Time) (s : MemoryDataStore) : Z * MemoryDataStore :=
  if id_eqb id 0%N then
    let s :=
      match scope with
      | FLUSH_RECURSIVE =>
          let s := forEachId (IdMap.keys (platforms_ s))
                     (fun i s => flushEntity_ i PLATFORM scope fields startTime endTime s) s in
          forEachId (IdMap.keys (customRenderings_ s))
            (fun i s => flushEntity_ i CUSTOM_RENDERING scope fields startTime endTime s) s
      | FLUSH_NONRECURSIVE => s
      end in
    let s := if has_field fields FLUSH_DATA_TABLES
             then flushDataTables_ id startTime endTime s else s in
    let s :=
      if has_field fields FLUSH_GENERIC_DATA
      then set_genericData_
             (IdMap.adjust 0%N
                (fun slice =>
                   if Qle_bool startTime 0 && time_eqb endTime DBL_MAX
                   then generic_flush_all slice
                   else generic_flush slice startTime endTime)
                (genericData_ s)) s
      else s in
    (0%Z, flushNotify id s)
  else
    let type := objectType s id in
    if ObjectType_eqb type NONE then (1%Z, s)
    else (0%Z, flushNotify id (flushEntity_ id type scope fields startTime endTime s)).

(** [MemoryDataStore::flush(id, scope, fields)] *)
Definition flush (id : ObjectId) (scope : FlushScope) (fields : FlushFields)
  (s : MemoryDataStore) : Z * MemoryDataStore :=
  let startTime : Time := if has_field fields FLUSH_EXCLUDE_MINUS_ONE then 0 else (-1) in
  flush_range id scope fields startTime DBL_MAX s.

(** *** Data limiting *)

(** the [dataLimit_] template *)
Definition dataLimit_ {P F U} `{Timed U} (entryMap : IdMap.t (Entry P F U)) (id : ObjectId)
  (prefs : option CommonPrefs.t) : IdMap.t (Entry P F U) :=
  IdMap.adjust id
    (fun e =>
       set_commands (command_limitByPrefs (commands e) prefs)
         (set_updates (slice_limitByPrefs (updates e) prefs) e))
    entryMap.

(** [MemoryDataStore::applyDataLimiting_] *)
Definition applyDataLimiting_ (id : ObjectId) (s : MemoryDataStore) : MemoryDataStore :=
  if negb (dataLimiting_ s) then s
  else
    let prefs := commonPrefs s id in
    let s :=
      match objectType s id with
      | PLATFORM => set_platforms_ (dataLimit_ (platforms_ s) id prefs) s
      | BEAM => set_beams_ (dataLimit_ (beams_ s) id prefs) s
      | GATE => set_gates_ (dataLimit_ (gates_ s) id prefs) s
      | LASER => set_lasers_ (dataLimit_ (lasers_ s) id prefs) s
      | LOB_GROUP => set_lobGroups_ (dataLimit_ (lobGroups_ s) id prefs) s
      | PROJECTOR => set_projectors_ (dataLimit_ (projectors_ s) id prefs) s
      | CUSTOM_RENDERING => set_customRenderings_ (dataLimit_ (customRenderings_ s) id prefs) s
      | ALL | NONE => s
      end in
    let s := set_genericData_
               (IdMap.adjust id (fun slice => generic_limitByPrefs slice prefs)
                             (genericData_ s)) s in
    set_categoryData_
      (IdMap.adjust id (fun slice => category_limitByPrefs slice prefs) (categoryData_ s)) s.

(** *** The entity-name cache *)

Definition nameEntry_matches (nm : string) (id : ObjectId) (e : EntityNameEntry) : bool :=
  let '(n, i, _) := e in String.eqb n nm && id_eqb i id.

(** Modelled from the spec: [EntityNameCache::addEntity], [removeEntity]
    and [nameChange] (EntityNameCache.h, not at hand) keep the name index
    of section 4.1 of the spec. *)
Definition nameCache_addEntity (nm : string) (id : ObjectId) (ot : ObjectType)
  (s : MemoryDataStore) : MemoryDataStore :=
  set_entityNameCache_ (entityNameCache_ s ++ [(nm, id, ot)]) s.

Definition nameCache_removeEntity (nm : string) (id : ObjectId) (ot : ObjectType)
  (s : MemoryDataStore) : MemoryDataStore :=
  set_entityNameCache_
    (filter (fun e => negb (nameEntry_matches nm id e)) (entityNameCache_ s)) s.

Definition nameCache_nameChange (newName oldName : string) (id : ObjectId)
  (s : MemoryDataStore) : MemoryDataStore :=
  set_entityNameCache_
    (List.map (fun e : EntityNameEntry =>
                 if nameEntry_matches oldName id e
                 then let '(_, i, ot) := e in (newName, i, ot) else e)
              (entityNameCache_ s)) s.

(** Modelled from the spec: [DataStoreHelpers::nameFromId]
    (DataStoreHelpers.h, not at hand) gives the name held in the common
    preferences of the entity. *)
Definition nameFromId (id : ObjectId) (s : MemoryDataStore) : string :=
  match commonPrefs s id with
  | Some prefs => CommonPrefs.name prefs
  | None => EmptyString
  end.

(** [MemoryDataStore::idListByName] *)
Definition idListByName (s : MemoryDataStore) (nm : string) (type : ObjectType)
  : list ObjectId :=
  List.map (fun e : EntityNameEntry => snd (fst e))
    (filter (fun e : EntityNameEntry =>
               String.eqb (fst (fst e)) nm && type_has type (snd e))
            (entityNameCache_ s)).

(** *** Removal *)

(** [MemoryDataStore::fireOnPostRemoveEntity_] *)
Definition fireOnPostRemoveEntity_ (id : ObjectId) (ot : ObjectType) (s : MemoryDataStore)
  : MemoryDataStore :=
  fire [[onPostRemoveEntity id ot]] s.

(** a [for] loop whose body may run out of fuel *)
Fixpoint forEachIdM (ids : list ObjectId)
  (body : ObjectId -> MemoryDataStore -> option MemoryDataStore) (s : MemoryDataStore)
  : option MemoryDataStore :=
  match ids with
  | [] => Some s
  | i :: rest =>
      match body i s with
      | Some s' => forEachIdM rest body s'
      | None => None
      end
  end.

(** the start of [removeEntity], up to the search in the containers: the
    pre-removal notification, the name cache, and the generic-data,
    category-data and data-table entries of [id] *)
Definition removeEntityPrologue (id : ObjectId) (ot : ObjectType) (s : MemoryDataStore)
  : MemoryDataStore :=
  let s := set_hasChanged_ true s in
  let s := fire [[onRemoveEntity id ot]] s in
  let s := nameCache_removeEntity (nameFromId id s) id ot s in
  let s := set_genericData_ (IdMap.erase id (genericData_ s)) s in
  let s := set_categoryData_ (IdMap.erase id (categoryData_ s)) s in
  set_dataTableManager_ (IdMap.erase id (dataTableManager_ s)) s.

(** [MemoryDataStore::removeEntity].  The function calls itself on the ids
    it collects; [fuel] bounds the depth of these calls, and [None] means
    the bound was reached. *)
Fixpoint removeEntity (fuel : nat) (id : ObjectId) (s : MemoryDataStore)
  : option MemoryDataStore :=
  match fuel with
  | O => None
  | S fuel' =>
      let ot := objectType s id in
      if ObjectType_eqb ot NONE then Some s
      else
        let s := removeEntityPrologue id ot s in
        if IdMap.mem id (platforms_ s) then
          let ids := beamIdListForHost s id ++ laserIdListForHost s id
                     ++ projectorIdListForHost s id ++ lobGroupIdListForHost s id
                     ++ customRenderingIdListForHost s id in
          match forEachIdM ids (removeEntity fuel') s with
          | None => None
          | Some s =>
              Some (fireOnPostRemoveEntity_ id ot
                      (set_platforms_ (IdMap.erase id (platforms_ s)) s))
          end
        else if IdMap.mem id (beams_ s) then
          let ids := gateIdListForHost s id ++ projectorIdListForHost s id in
          match forEachIdM ids (removeEntity fuel') s with
          | None => None
          | Some s =>
              Some (fireOnPostRemoveEntity_ id ot (set_beams_ (IdMap.erase id (beams_ s)) s))
          end
        else if IdMap.mem id (gates_ s) then
          Some (fireOnPostRemoveEntity_ id ot (set_gates_ (IdMap.erase id (gates_ s)) s))
        else if IdMap.mem id (lasers_ s) then
          Some (fireOnPostRemoveEntity_ id ot (set_lasers_ (IdMap.erase id (lasers_ s)) s))
        else if IdMap.mem id (projectors_ s) then
          Some (fireOnPostRemoveEntity_ id ot
                  (set_projectors_ (IdMap.erase id (projectors_ s)) s))
        else if IdMap.mem id (lobGroups_ s) then
          Some (fireOnPostRemoveEntity_ id ot
                  (set_lobGroups_ (IdMap.erase id (lobGroups_ s)) s))
        else if IdMap.mem id (customRenderings_ s) then
          Some (fireOnPostRemoveEntity_ id ot
                  (set_customRenderings_ (IdMap.erase id (customRenderings_ s)) s))
        else Some s
  end.

(** *** Transactions

    A transaction implementation keeps raw pointers into the store.  A
    pointer is modelled by what it reads from the store and by how a write
    through it changes the store. *)

Record Pointer (A : Type) := mkPointer {
  deref : MemoryDataStore -> option A;
  assign : A -> MemoryDataStore -> MemoryDataStore
}.

(** One entity container of the store as the templates receive it: the
    map, the default preferences that go with it, the type its entities
    report, and a default-constructed entry ([new EntryType()]). *)
Record Container (P F U : Type) := mkContainer {
  entriesOf : MemoryDataStore -> IdMap.t (Entry P F U);
  set_entriesOf : IdMap.t (Entry P F U) -> MemoryDataStore -> MemoryDataStore;
  defaultPrefsOf : MemoryDataStore -> F;
  typeOf : ObjectType;
  newEntry : Entry P F U
}.

Definition propertiesPointer {P F U} (c : Container P F U) (id : ObjectId) : Pointer P :=
  mkPointer
    (fun s => option_map (@properties P F U) (IdMap.find id (entriesOf c s)))
    (fun v s => set_entriesOf c (IdMap.adjust id (set_properties v) (entriesOf c s)) s).

Definition preferencesPointer {P F U} (c : Container P F U) (id : ObjectId) : Pointer F :=
  mkPointer
    (fun s => getPrefs id (entriesOf c s))
    (fun v s => set_entriesOf c (IdMap.adjust id (set_preferences v) (entriesOf c s)) s).

Definition updatesPointer {P F U} (c : Container P F U) (id : ObjectId)
  : Pointer (MemoryDataSlice U) :=
  mkPointer
    (fun s => option_map (@updates P F U) (IdMap.find id (entriesOf c s)))
    (fun v s => set_entriesOf c (IdMap.adjust id (set_updates v) (entriesOf c s)) s).

Definition commandsPointer {P F U} (c : Container P F U) (id : ObjectId)
  : Pointer (MemoryCommandSlice F) :=
  mkPointer
    (fun s => option_map (@commands P F U) (IdMap.find id (entriesOf c s)))
    (fun v s => set_entriesOf c (IdMap.adjust id (set_commands v) (entriesOf c s)) s).

(** [MemoryDataStore::genUniqueId_]: [++baseId_] on a 64-bit counter *)
Definition genUniqueId_ (s : MemoryDataStore) : ObjectId * MemoryDataStore :=
  let id := N.modulo (baseId_ s + 1) (2 ^ 64) in
  (id, set_baseId_ id s).

(** **** New entries *)

Record NewEntryTransactionImpl (P F U : Type) := mkNewEntry {
  ne_entry_ : option (Entry P F U);
  ne_entries_ : Container P F U;
  ne_initialId_ : ObjectId;
  ne_committed_ : bool;
  ne_notified_ : bool
}.

(** the [addEntry] template *)
Definition addEntry {P F U} `{HasId P} (id : ObjectId) (entries : Container P F U)
  : NewEntryTransactionImpl P F U :=
  let entry := newEntry entries in
  let entry := set_properties (set_id id (properties entry)) entry in
  mkNewEntry (Some entry) entries id false false.

(** [addPlatform], [addBeam], ...: they differ in the container only *)
Definition addEntity {P F U} `{HasId P} `{HasCommonPrefs F} (entries : Container P F U)
  (s : MemoryDataStore) : NewEntryTransactionImpl P F U * MemoryDataStore :=
  let (id, s) := genUniqueId_ s in
  let rv := addEntry id entries in
  (rv, nameCache_addEntity (CommonPrefs.name (commonprefs_of (defaultPrefsOf entries s)))
                           id (typeOf entries) s).

(** the caller populates the properties through the returned pointer *)
Definition NewEntry_edit {P F U} (f : P -> P) (t : NewEntryTransactionImpl P F U)
  : NewEntryTransactionImpl P F U :=
  mkNewEntry (option_map (fun e => set_properties (f (properties e)) e) (ne_entry_ t))
             (ne_entries_ t) (ne_initialId_ t) (ne_committed_ t) (ne_notified_ t).

(** [NewEntryTransactionImpl<T, P>::commit] *)
Definition NewEntry_commit {P F U} `{HasId P} (build : BuildMode)
  (t : NewEntryTransactionImpl P F U) (s : MemoryDataStore)
  : Outcome (NewEntryTransactionImpl P F U * MemoryDataStore) :=
  if ne_committed_ t then Ok (t, s)
  else
    match ne_entry_ t with
    | None =>
        _ <- assert build false ;;
        NullDereference
    | Some entry =>
        _ <- assert build (id_eqb (ne_initialId_ t) (id_of (properties entry))) ;;
        let c := ne_entries_ t in
        let entry := set_preferences (defaultPrefsOf c s) entry in
        let id := id_of (properties entry) in
        let s := set_entriesOf c (IdMap.insert id entry (entriesOf c s)) s in
        let s := set_genericData_
                   (IdMap.insert id (mkGenericSlice [] []) (genericData_ s)) s in
        let s := set_categoryData_
                   (IdMap.insert id (mkCategorySlice [] []) (categoryData_ s)) s in
        let s := set_hasChanged_ true s in
        Ok (mkNewEntry (Some entry) c (ne_initialId_ t) true (ne_notified_ t), s)
    end.

(** [NewEntryTransactionImpl<T, P>::release], called by the destructor *)
Definition NewEntry_release {P F U} `{HasId P} (t : NewEntryTransactionImpl P F U)
  (s : MemoryDataStore) : NewEntryTransactionImpl P F U * MemoryDataStore :=
  if negb (ne_committed_ t)
  then (mkNewEntry None (ne_entries_ t) (ne_initialId_ t) (ne_committed_ t) (ne_notified_ t), s)
  else if negb (ne_notified_ t)
  then
    match ne_entry_ t with
    | None => (t, s)
    | Some entry =>
        let id := id_of (properties entry) in
        let ot := objectType s id in
        (mkNewEntry (ne_entry_ t) (ne_entries_ t) (ne_initialId_ t) (ne_committed_ t) true,
         fire [[onAddEntity id ot]] s)
    end
  else (t, s).

(** **** Mutable preferences *)

Record MutableSettingsTransactionImpl (F : Type) := mkMutableSettings {
  ms_id_ : ObjectId;
  ms_committed_ : bool;
  ms_notified_ : bool;
  ms_nameChange_ : bool;
  ms_oldName_ : string;
  ms_newName_ : string;
  ms_currentSettings_ : Pointer F;
  ms_modifiedSettings_ : F
}.

(** the constructor: the scratch copy starts as a copy of the live value *)
Definition MutableSettings_new {F} (id : ObjectId) (settings : Pointer F) (live : F)
  : MutableSettingsTransactionImpl F :=
  mkMutableSettings id false false false EmptyString EmptyString settings live.

(** [mutable_platformPrefs], [mutable_beamPrefs], ... *)
Definition mutable_prefs {P F U} `{HasId P} (c : Container P F U) (id : ObjectId)
  (s : MemoryDataStore) : option (MutableSettingsTransactionImpl F) :=
  match IdMap.find id (entriesOf c s) with
  | Some entry =>
      Some (MutableSettings_new (id_of (properties entry)) (preferencesPointer c id)
                                (preferences entry))
  | None => None
  end.

(** the caller edits the scratch copy returned by [settings()] *)
Definition MutableSettings_edit {F} (f : F -> F) (t : MutableSettingsTransactionImpl F)
  : MutableSettingsTransactionImpl F :=
  mkMutableSettings (ms_id_ t) (ms_committed_ t) (ms_notified_ t) (ms_nameChange_ t)
    (ms_oldName_ t) (ms_newName_ t) (ms_currentSettings_ t) (f (ms_modifiedSettings_ t)).

(** the name-change rule of [commit] *)
Definition nameChangeRule (modified current : CommonPrefs.t) : bool :=
  let useAlias := CommonPrefs.usealias modified in
  let useAliasChanged := negb (Bool.eqb useAlias (CommonPrefs.usealias current)) in
  let nameChanged := negb (String.eqb (CommonPrefs.name modified) (CommonPrefs.name current)) in
  let aliasChanged :=
    useAlias && negb (String.eqb (CommonPrefs.alias modified) (CommonPrefs.alias current)) in
  nameChanged || aliasChanged || useAliasChanged.

(** [MutableSettingsTransactionImpl<T>::commit] *)
Definition MutableSettings_commit {F} `{HasCommonPrefs F} `{Message F}
  (t : MutableSettingsTransactionImpl F) (s : MemoryDataStore)
  : MutableSettingsTransactionImpl F * MemoryDataStore :=
  match deref (ms_currentSettings_ t) s with
  | None => (t, s)
  | Some currentSettings =>
      let modifiedSettings := ms_modifiedSettings_ t in
      if negb (String.eqb (SerializeAsString modifiedSettings)
                          (SerializeAsString currentSettings))
      then
        let changed := nameChangeRule (commonprefs_of modifiedSettings)
                                      (commonprefs_of currentSettings) in
        let t' :=
          if changed
          then mkMutableSettings (ms_id_ t) true (ms_notified_ t) true
                 (CommonPrefs.name (commonprefs_of currentSettings))
                 (CommonPrefs.name (commonprefs_of modifiedSettings))
                 (ms_currentSettings_ t) modifiedSettings
          else mkMutableSettings (ms_id_ t) true (ms_notified_ t) (ms_nameChange_ t)
                 (ms_oldName_ t) (ms_newName_ t) (ms_currentSettings_ t) modifiedSettings in
        let s := assign (ms_currentSettings_ t) modifiedSettings s in
        let s := applyDataLimiting_ (ms_id_ t) s in
        (t', set_hasChanged_ true s)
      else (t, s)
  end.

(** [MutableSettingsTransactionImpl<T>::release] *)
Definition MutableSettings_release {F} (t : MutableSettingsTransactionImpl F)
  (s : MemoryDataStore) : MutableSettingsTransactionImpl F * MemoryDataStore :=
  if ms_committed_ t && negb (ms_notified_ t)
  then
    let t' := mkMutableSettings (ms_id_ t) (ms_committed_ t) true (ms_nameChange_ t)
                (ms_oldName_ t) (ms_newName_ t) (ms_currentSettings_ t)
                (ms_modifiedSettings_ t) in
    let s := if ms_nameChange_ t && negb (String.eqb (ms_oldName_ t) (ms_newName_ t))
             then nameCache_nameChange (ms_newName_ t) (ms_oldName_ t) (ms_id_ t) s
             else s in
    (t', fire [onPrefsChange (ms_id_ t)
                 :: (if ms_nameChange_ t then [onNameChange (ms_id_ t)] else [])] s)
  else (t, s).

(** **** Mutable properties *)

Record MutablePropertyTransactionImpl (P : Type) := mkMutableProperty {
  mp_id_ : ObjectId;
  mp_committed_ : bool;
  mp_notified_ : bool;
  mp_currentProperties_ : Pointer P;
  mp_modifiedProperties_ : P
}.

(** [mutable_platformProperties], [mutable_beamProperties], ... *)
Definition mutable_properties {P F U} (c : Container P F U) (id : ObjectId)
  (s : MemoryDataStore) : option (MutablePropertyTransactionImpl P) :=
  match IdMap.find id (entriesOf c s) with
  | Some entry =>
      Some (mkMutableProperty id false false (propertiesPointer c id) (properties entry))
  | None => None
  end.

Definition MutableProperty_edit {P} (f : P -> P) (t : MutablePropertyTransactionImpl P)
  : MutablePropertyTransactionImpl P :=
  mkMutableProperty (mp_id_ t) (mp_committed_ t) (mp_notified_ t) (mp_currentProperties_ t)
    (f (mp_modifiedProperties_ t)).

(** [MutablePropertyTransactionImpl<T>::commit] *)
Definition MutableProperty_commit {P} `{Message P} (t : MutablePropertyTransactionImpl P)
  (s : MemoryDataStore) : MutablePropertyTransactionImpl P * MemoryDataStore :=
  match deref (mp_currentProperties_ t) s with
  | None => (t, s)
  | Some currentProperties =>
      if negb (String.eqb (SerializeAsString (mp_modifiedProperties_ t))
                          (SerializeAsString currentProperties))
      then
        (mkMutableProperty (mp_id_ t) true (mp_notified_ t) (mp_currentProperties_ t)
                           (mp_modifiedProperties_ t),
         set_hasChanged_ true (assign (mp_currentProperties_ t) (mp_modifiedProperties_ t) s))
      else (t, s)
  end.

(** [MutablePropertyTransactionImpl<T>::release] *)
Definition MutableProperty_release {P} (t : MutablePropertyTransactionImpl P)
  (s : MemoryDataStore) : MutablePropertyTransactionImpl P * MemoryDataStore :=
  if mp_committed_ t && negb (mp_notified_ t)
  then
    (mkMutableProperty (mp_id_ t) (mp_committed_ t) true (mp_currentProperties_ t)
                       (mp_modifiedProperties_ t),
     fire [[onPropertiesChange (mp_id_ t)]] s)
  else (t, s).

(** **** New updates and new commands *)

(** [NewUpdateTransactionImpl<T, SliceType>]; [nu_insert_] is the slice's
    [insert] as [insert_()] calls it and [nu_limitByPrefs_] its
    [limitByPrefs] *)
Record NewUpdateTransactionImpl (T SliceType : Type) := mkNewUpdate {
  nu_update_ : option T;
  nu_slice_ : Pointer SliceType;
  nu_insert_ : SliceType -> T -> SliceType;
  nu_limitByPrefs_ : SliceType -> option CommonPrefs.t -> SliceType;
  nu_id_ : ObjectId;
  nu_isEntityUpdate_ : bool;
  nu_committed_ : bool
}.

(** [addPlatformUpdate], [addBeamUpdate], ...: [update] is [new T()] *)
Definition addUpdate {P F U} `{Timed U} (c : Container P F U) (id : ObjectId) (update : U)
  (s : MemoryDataStore) : option (NewUpdateTransactionImpl U (MemoryDataSlice U)) :=
  match IdMap.find id (entriesOf c s) with
  | Some entry =>
      Some (mkNewUpdate (Some update) (updatesPointer c id)
                        (fun slice u => slice_insert slice u)
                        (fun slice prefs => slice_limitByPrefs slice prefs) id true false)
  | None => None
  end.

(** [addPlatformCommand], [addBeamCommand], ... *)
Definition addCommand {P F U} (c : Container P F U) (id : ObjectId) (command : Command F)
  (s : MemoryDataStore) : option (NewUpdateTransactionImpl (Command F) (MemoryCommandSlice F)) :=
  match IdMap.find id (entriesOf c s) with
  | Some entry =>
      Some (mkNewUpdate (Some command) (commandsPointer c id)
                        (fun slice u => command_insert slice u)
                        (fun slice prefs => command_limitByPrefs slice prefs) id false false)
  | None => None
  end.


(** [NewUpdateTransactionImpl<T, SliceType>::commit] *)
Definition NewUpdate_commit {T S} `{Timed T} (t : NewUpdateTransactionImpl T S)
  (s : MemoryDataStore) : NewUpdateTransactionImpl T S * MemoryDataStore :=
  if nu_committed_ t then (t, s)
  else
    match nu_update_ t, deref (nu_slice_ t) s with
    | Some upd, Some slice =>
        let updateTime := time_of upd in
        let slice := nu_insert_ t slice upd in
        let slice := if dataLimiting_ s
                     then nu_limitByPrefs_ t slice (commonPrefs s (nu_id_ t))
                     else slice in
        let s := assign (nu_slice_ t) slice s in
        let s := set_hasChanged_ true s in
        let s := if nu_isEntityUpdate_ t
                 then set_newUpdatesLog_
                        (newUpdatesLog_ s ++ [onEntityUpdate (nu_id_ t) updateTime]) s
                 else s in
        (mkNewUpdate (nu_update_ t) (nu_slice_ t) (nu_insert_ t) (nu_limitByPrefs_ t)
                     (nu_id_ t) (nu_isEntityUpdate_ t) true, s)
    | _, _ => (t, s)
    end.

(** [NewUpdateTransactionImpl<T, SliceType>::release] *)
Definition NewUpdate_release {T S} (t : NewUpdateTransactionImpl T S) (s : MemoryDataStore)
  : NewUpdateTransactionImpl T S * MemoryDataStore :=
  if negb (nu_committed_ t)
  then (mkNewUpdate None (nu_slice_ t) (nu_insert_ t) (nu_limitByPrefs_ t) (nu_id_ t)
                    (nu_isEntityUpdate_ t) (nu_committed_ t), s)
  else (t, s).

(** **** The seven containers and their accessors *)

Definition emptySlice {U} (u : U) : MemoryDataSlice U := mkSlice [] None u false.
Definition emptyCommands {F} : MemoryCommandSlice F := mkCommandSlice [] None.

(** a default-constructed [CommonPrefs] message *)
Definition CommonPrefs_new : CommonPrefs.t :=
  CommonPrefs.mk EmptyString EmptyString false false 0%N 0.

Definition Platforms
  : Container PlatformProperties.t PlatformPrefs.t PlatformUpdate.t :=
  mkContainer platforms_ set_platforms_ (fun s => defaultPlatformPrefs_ (defaultPrefs_ s))
    PLATFORM
    (mkEntry (PlatformProperties.mk 0%N 0%N) (PlatformPrefs.mk CommonPrefs_new false)
             (emptySlice (PlatformUpdate.mk 0 None)) emptyCommands).

Definition Beams : Container BeamProperties.t BeamPrefs.t BeamUpdate.t :=
  mkContainer beams_ set_beams_ (fun s => defaultBeamPrefs_ (defaultPrefs_ s)) BEAM
    (mkEntry (BeamProperties.mk 0%N None 0%N BeamProperties_BeamType_ABSOLUTE_POSITION)
             (BeamPrefs.mk CommonPrefs_new false None)
             (emptySlice (BeamUpdate.mk 0 0 0 0)) emptyCommands).

Definition Gates : Container GateProperties.t GatePrefs.t GateUpdate.t :=
  mkContainer gates_ set_gates_ (fun s => defaultGatePrefs_ (defaultPrefs_ s)) GATE
    (mkEntry (GateProperties.mk 0%N None 0%N GateProperties_GateType_ABSOLUTE_POSITION)
             (GatePrefs.mk CommonPrefs_new false)
             (emptySlice (GateUpdate.mk 0 0 0 0 0 0 0 None)) emptyCommands).

Definition Lasers : Container LaserProperties.t LaserPrefs.t LaserUpdate.t :=
  mkContainer lasers_ set_lasers_ (fun s => defaultLaserPrefs_ (defaultPrefs_ s)) LASER
    (mkEntry (LaserProperties.mk 0%N None 0%N) (LaserPrefs.mk CommonPrefs_new 0)
             (emptySlice (LaserUpdate.mk 0 0 0 0)) emptyCommands).

Definition Projectors
  : Container ProjectorProperties.t ProjectorPrefs.t ProjectorUpdate.t :=
  mkContainer projectors_ set_projectors_ (fun s => defaultProjectorPrefs_ (defaultPrefs_ s))
    PROJECTOR
    (mkEntry (ProjectorProperties.mk 0%N None 0%N) (ProjectorPrefs.mk CommonPrefs_new false)
             (emptySlice (ProjectorUpdate.mk 0 0)) emptyCommands).

Definition LobGroups : Container LobGroupProperties.t LobGroupPrefs.t LobGroupUpdate.t :=
  mkContainer lobGroups_ set_lobGroups_ (fun s => defaultLobGroupPrefs_ (defaultPrefs_ s))
    LOB_GROUP
    (mkEntry (LobGroupProperties.mk 0%N None 0%N) (LobGroupPrefs.mk CommonPrefs_new 0%N 0)
             (emptySlice (LobGroupUpdate.mk 0 [])) emptyCommands).

Definition CustomRenderings
  : Container CustomRenderingProperties.t CustomRenderingPrefs.t CustomRenderingUpdate.t :=
  mkContainer customRenderings_ set_customRenderings_
    (fun s => defaultCustomRenderingPrefs_ (defaultPrefs_ s)) CUSTOM_RENDERING
    (mkEntry (CustomRenderingProperties.mk 0%N None 0%N)
             (CustomRenderingPrefs.mk CommonPrefs_new 0)
             (emptySlice (CustomRenderingUpdate.mk 0)) emptyCommands).

Definition addBeam := addEntity Beams.
Definition addGate := addEntity Gates.
Definition addLaser := addEntity Lasers.
Definition addProjector := addEntity Projectors.
Definition addLobGroup := addEntity LobGroups.
Definition addCustomRendering := addEntity CustomRenderings.

Definition mutable_platformProperties := mutable_properties Platforms.
Definition mutable_beamProperties := mutable_properties Beams.
Definition mutable_gateProperties := mutable_properties Gates.
Definition mutable_laserProperties := mutable_properties Lasers.
Definition mutable_projectorProperties := mutable_properties Projectors.
Definition mutable_lobGroupProperties := mutable_properties LobGroups.
Definition mutable_customRenderingProperties := mutable_properties CustomRenderings.

Definition mutable_platformPrefs := mutable_prefs Platforms.
Definition mutable_beamPrefs := mutable_prefs Beams.
Definition mutable_gatePrefs := mutable_prefs Gates.
Definition mutable_laserPrefs := mutable_prefs Lasers.
Definition mutable_projectorPrefs := mutable_prefs Projectors.
Definition mutable_lobGroupPrefs := mutable_prefs LobGroups.
Definition mutable_customRenderingPrefs := mutable_prefs CustomRenderings.

Definition addBeamUpdate := addUpdate Beams.
Definition addGateUpdate := addUpdate Gates.
Definition addLaserUpdate := addUpdate Lasers.
Definition addProjectorUpdate := addUpdate Projectors.
Definition addLobGroupUpdate := addUpdate LobGroups.

Definition addPlatformCommand := addCommand Platforms.
Definition addBeamCommand := addCommand Beams.
Definition addGateCommand := addCommand Gates.
Definition addLaserCommand := addCommand Lasers.
Definition addProjectorCommand := addCommand Projectors.
Definition addLobGroupCommand := addCommand LobGroups.
Definition addCustomRenderingCommand := addCommand CustomRenderings.

(** *** Interpolation and the clock *)

(** whether an [Interpolator] pointer is not null *)
Definition notNull {A} (p : option A) : bool :=
  match p with Some _ => true | None => false end.

(** equality of two [Interpolator] pointers *)
Definition samePointer (a b : option Interpolator) : bool :=
  match a, b with
  | Some x, Some y => Nat.eqb x y
  | None, None => true
  | _, _ => false
  end.

(** [MemoryDataStore::enableInterpolation]; the first component is the
    returned state *)
Definition enableInterpolation (state : bool) (s : MemoryDataStore)
  : bool * MemoryDataStore :=
  let s :=
    if state && notNull (interpolator_ s)
    then
      if negb (interpolationEnabled_ s)
      then set_interpolationEnabled_ true (set_hasChanged_ true s)
      else s
    else
      if interpolationEnabled_ s
      then set_hasChanged_ true (set_interpolationEnabled_ false s)
      else s in
  (interpolationEnabled_ s, s).

(** [MemoryDataStore::setInterpolator] *)
Definition setInterpolator (interpolator : option Interpolator) (s : MemoryDataStore)
  : MemoryDataStore :=
  if negb (samePointer (interpolator_ s) interpolator)
  then set_hasChanged_ true (set_interpolator_ interpolator s)
  else s.

(** [MemoryDataStore::interpolator] *)
Definition interpolator (s : MemoryDataStore) : option Interpolator :=
  if interpolationEnabled_ s then interpolator_ s else None.

(** [MemoryDataStore::bindToClock] *)
Definition bindToClock (clock : option Clock) (s : MemoryDataStore) : MemoryDataStore :=
  set_boundClock_ clock s.

(** *** Further queries *)

(** [xProperties(id, &t)->hostid()]: the accessor returns null when the
    container has no entry for [id], and the caller reads through it *)
Definition hostidOf {P F U} (hostid : P -> ObjectId) (m : IdMap.t (Entry P F U))
  (id : ObjectId) : Outcome ObjectId :=
  match IdMap.find id m with
  | Some entry => Ok (hostid (properties entry))
  | None => NullDereference
  end.

(** [MemoryDataStore::entityHostId] *)
Definition entityHostId (s : MemoryDataStore) (childId : ObjectId) : Outcome ObjectId :=
  match objectType s childId with
  | PLATFORM | NONE | ALL => Ok 0%N
  | BEAM => hostidOf BeamProperties.hostid (beams_ s) childId
  | GATE => hostidOf GateProperties.hostid (gates_ s) childId
  | LASER => hostidOf LaserProperties.hostid (lasers_ s) childId
  | PROJECTOR => hostidOf ProjectorProperties.hostid (projectors_ s) childId
  | LOB_GROUP => hostidOf LobGroupProperties.hostid (lobGroups_ s) childId
  | CUSTOM_RENDERING =>
      hostidOf CustomRenderingProperties.hostid (customRenderings_ s) childId
  end.

(** the [idsByOriginalId] template: the [properties()->id()] of the
    entries whose original id matches *)
Definition idsByOriginalId {P F U} `{HasId P} (originalid : P -> N)
  (entityList : IdMap.t (Entry P F U)) (originalId : N) : list ObjectId :=
  List.map (fun kv => id_of (properties (snd kv)))
    (filter (fun kv => N.eqb (originalid (properties (snd kv))) originalId) entityList).

(** [MemoryDataStore::idListByOriginalId]; the ids are appended to the
    caller's list *)
Definition idListByOriginalId (s : MemoryDataStore) (originalId : N) (type : ObjectType)
  : list ObjectId :=
  (if type_has type PLATFORM
   then idsByOriginalId PlatformProperties.originalid (platforms_ s) originalId else [])
  ++ (if type_has type BEAM
      then idsByOriginalId BeamProperties.originalid (beams_ s) originalId else [])
  ++ (if type_has type GATE
      then idsByOriginalId GateProperties.originalid (gates_ s) originalId else [])
  ++ (if type_has type LASER
      then idsByOriginalId LaserProperties.originalid (lasers_ s) originalId else [])
  ++ (if type_has type PROJECTOR
      then idsByOriginalId ProjectorProperties.originalid (projectors_ s) originalId else [])
  ++ (if type_has type LOB_GROUP
      then idsByOriginalId LobGroupProperties.originalid (lobGroups_ s) originalId else [])
  ++ (if type_has type CUSTOM_RENDERING
      then idsByOriginalId CustomRenderingProperties.originalid (customRenderings_ s)
             originalId
      else []).

(** *** The flush of the older interface *)

Inductive FlushType :=
| NON_RECURSIVE | NON_RECURSIVE_TSPI_STATIC | RECURSIVE | NON_RECURSIVE_TSPI_ONLY
| NON_RECURSIVE_DATA.

(** [MemoryDataStore::flush(flushId, flushType)]; the status of the inner
    call is dropped *)
Definition flush_type (flushId : ObjectId) (flushType : FlushType) (s : MemoryDataStore)
  : MemoryDataStore :=
  let flushType := if id_eqb flushId 0%N then RECURSIVE else flushType in
  match flushType with
  | NON_RECURSIVE =>
      snd (flush flushId FLUSH_NONRECURSIVE
             (N.lor FLUSH_EXCLUDE_MINUS_ONE (N.ldiff FLUSH_ALL FLUSH_DATA_TABLES)) s)
  | NON_RECURSIVE_TSPI_STATIC =>
      snd (flush flushId FLUSH_NONRECURSIVE (N.ldiff FLUSH_ALL FLUSH_DATA_TABLES) s)
  | RECURSIVE =>
      snd (flush flushId FLUSH_RECURSIVE (N.lor FLUSH_EXCLUDE_MINUS_ONE FLUSH_ALL) s)
  | NON_RECURSIVE_TSPI_ONLY => snd (flush flushId FLUSH_NONRECURSIVE FLUSH_UPDATES s)
  | NON_RECURSIVE_DATA =>
      snd (flush flushId FLUSH_NONRECURSIVE (N.lor FLUSH_UPDATES FLUSH_COMMANDS) s)
  end.

(** *** Clearing the store *)

(** [MemoryDataStore::deleteEntries_]: while the container is not empty,
    [removeEntity] is called on its first id; [fuel] bounds the number of
    iterations and [depth] the depth of the calls of [removeEntity];
    [None] means that a bound was reached *)
Fixpoint deleteEntries_ {P F U} (fuel depth : nat) (entries : Container P F U)
  (s : MemoryDataStore) : option MemoryDataStore :=
  match fuel with
  | O => None
  | S fuel' =>
      match entriesOf entries s with
      | [] => Some (set_entriesOf entries [] s)
      | (first, _) :: _ =>
          match removeEntity depth first s with
          | Some s' => deleteEntries_ fuel' depth entries s'
          | None => None
          end
      end
  end.

(** [MemoryDataStore::clear]; the listeners are called from [listeners_]
    itself, without a local copy.  The category name manager, which
    [clear] empties as well, is not part of the state kept here. *)
Definition clear (fuel depth : nat) (invokeCallback : bool) (s : MemoryDataStore)
  : option MemoryDataStore :=
  let s :=
    if invokeCallback
    then set_fabric_
           (append_log (List.map (fun l => Called l onScenarioDelete) (listeners_ (fabric_ s)))
                       (fabric_ s)) s
    else s in
  match deleteEntries_ fuel depth Platforms s with
  | None => None
  | Some s =>
  match deleteEntries_ fuel depth Beams s with
  | None => None
  | Some s =>
  match deleteEntries_ fuel depth Gates s with
  | None => None
  | Some s =>
  match deleteEntries_ fuel depth Lasers s with
  | None => None
  | Some s =>
  match deleteEntries_ fuel depth Projectors s with
  | None => None
  | Some s =>
  match deleteEntries_ fuel depth LobGroups s with
  | None => None
  | Some s =>
  match deleteEntries_ fuel depth CustomRenderings s with
  | None => None
  | Some s => Some (set_categoryData_ [] (set_genericData_ [] s))
  end end end end end end end.

(** *** Vocabulary of the properties below *)

(** a sequence of [update] calls *)
Fixpoint update_all (build : BuildMode) (times : list Time) (s : MemoryDataStore)
  : Outcome MemoryDataStore :=
  match times with
  | [] => Ok s
  | time :: rest => s' <- update build time s ;; update_all build rest s'
  end.

(** the conditions under which [updateTargetBeam_] clears the beam *)
Definition targetBeamUnresolved (s : MemoryDataStore) (beam : BeamEntry) : Prop :=
  BeamProperties.has_hostid (properties beam) = false
  \/ BeamPrefs.has_targetid (preferences beam) = false
  \/ platformHasPosition s (BeamProperties.hostid (properties beam)) = false
  \/ platformHasPosition s (BeamPrefs.targetid (preferences beam)) = false.

(** every drawn target beam whose platforms cannot be resolved has no
    current sample *)
Definition targetBeamsCleared (s : MemoryDataStore) : Prop :=
  forall id beam,
    IdMap.find id (beams_ s) = Some beam ->
    BeamProperties.is_target (properties beam) = true ->
    CommonPrefs.datadraw (BeamPrefs.commonprefs (preferences beam)) = true ->
    targetBeamUnresolved s beam ->
    current (updates beam) = None.

(** the ways in which the host of a target gate fails to be a usable
    target beam *)
Definition hostUnresolved (s : MemoryDataStore) (gate : GateEntry) : Prop :=
  getBeamForGate_ s (GateProperties.hostid (properties gate)) = None.

Definition hostNotTarget (s : MemoryDataStore) (gate : GateEntry) : Prop :=
  exists beam,
    getBeamForGate_ s (GateProperties.hostid (properties gate)) = Some beam
    /\ BeamProperties.is_target (properties beam) = false.

Definition hostLacksTargetId (s : MemoryDataStore) (gate : GateEntry) : Prop :=
  exists beam,
    getBeamForGate_ s (GateProperties.hostid (properties gate)) = Some beam
    /\ BeamPrefs.has_targetid (preferences beam) = false.

(** the keys of the seven containers *)
Definition allKeys (s : MemoryDataStore) : list ObjectId :=
  IdMap.keys (platforms_ s) ++ IdMap.keys (beams_ s) ++ IdMap.keys (gates_ s)
  ++ IdMap.keys (lasers_ s) ++ IdMap.keys (projectors_ s) ++ IdMap.keys (lobGroups_ s)
  ++ IdMap.keys (customRenderings_ s).

(** ids come from [genUniqueId_]: no id is the key of two entries *)
Definition uniqueIds (s : MemoryDataStore) : Prop := NoDup (allKeys s).

(** the ids [removeEntity] collects for a platform, and for a beam *)
Definition hostedOnPlatform (s : MemoryDataStore) (host id : ObjectId) : Prop :=
  In id (beamIdListForHost s host ++ laserIdListForHost s host
         ++ projectorIdListForHost s host ++ lobGroupIdListForHost s host
         ++ customRenderingIdListForHost s host).

Definition hostedOnBeam (s : MemoryDataStore) (host id : ObjectId) : Prop :=
  In id (gateIdListForHost s host ++ projectorIdListForHost s host).

(** what a client of the store can read back: the seven containers with
    their properties, preferences and slices, the sparse data, the data
    tables, the change flag and the update time, and what the listeners
    have been told *)
Record sameObservableState (s s' : MemoryDataStore) : Prop := mkSameObservableState {
  same_platforms_ : platforms_ s' = platforms_ s;
  same_beams_ : beams_ s' = beams_ s;
  same_gates_ : gates_ s' = gates_ s;
  same_lasers_ : lasers_ s' = lasers_ s;
  same_projectors_ : projectors_ s' = projectors_ s;
  same_lobGroups_ : lobGroups_ s' = lobGroups_ s;
  same_customRenderings_ : customRenderings_ s' = customRenderings_ s;
  same_genericData_ : genericData_ s' = genericData_ s;
  same_categoryData_ : categoryData_ s' = categoryData_ s;
  same_dataTableManager_ : dataTableManager_ s' = dataTableManager_ s;
  same_hasChanged_ : hasChanged_ s' = hasChanged_ s;
  same_lastUpdateTime_ : lastUpdateTime_ s' = lastUpdateTime_ s;
  same_fabric_ : fabric_ s' = fabric_ s;
  same_newUpdatesLog_ : newUpdatesLog_ s' = newUpdatesLog_ s
}.

(** a list obtained from another by dropping elements *)
Inductive subseq {A : Type} : list A -> list A -> Prop :=
| subseq_nil : subseq [] []
| subseq_keep x l' l : subseq l' l -> subseq (x :: l') (x :: l)
| subseq_skip x l' l : subseq l' l -> subseq l' (x :: l).

(** every container of [s'] holds entries of [s], in their order *)
Record shrinks (s s' : MemoryDataStore) : Prop := mkShrinks {
  shrinks_platforms : subseq (platforms_ s') (platforms_ s);
  shrinks_beams : subseq (beams_ s') (beams_ s);
  shrinks_gates : subseq (gates_ s') (gates_ s);
  shrinks_lasers : subseq (lasers_ s') (lasers_ s);
  shrinks_projectors : subseq (projectors_ s') (projectors_ s);
  shrinks_lobGroups : subseq (lobGroups_ s') (lobGroups_ s);
  shrinks_customRenderings : subseq (customRenderings_ s') (customRenderings_ s)
}.

(** how often an id is listed *)
Definition occ (l : list ObjectId) (id : ObjectId) : nat := count_occ N.eq_dec l id.

(** what [flushEntityData] does to an entry when updates and commands are
    both flushed, over the time range of [flush(id, scope, fields)] *)
Definition flushEntry {P F U} `{Timed U} (e : Entry P F U) : Entry P F U :=
  let e := set_updates (slice_flush (updates e) (-1) DBL_MAX) e in
  set_commands (command_flush (commands e) (-1) DBL_MAX) e.

Definition entryFlushed {P F U} `{Timed U} (m m' : IdMap.t (Entry P F U)) (id : ObjectId)
  : Prop :=
  forall e, IdMap.find id m = Some e -> IdMap.find id m' = Some (flushEntry e).

(** between [s] and [s'] entity [id] has been flushed, once: the updates
    and commands of its entry, its category data, its generic data and its
    data tables *)
Definition entityFlushed (s s' : MemoryDataStore) (id : ObjectId) : Prop :=
  entryFlushed (platforms_ s) (platforms_ s') id
  /\ entryFlushed (beams_ s) (beams_ s') id
  /\ entryFlushed (gates_ s) (gates_ s') id
  /\ entryFlushed (lasers_ s) (lasers_ s') id
  /\ entryFlushed (projectors_ s) (projectors_ s') id
  /\ entryFlushed (lobGroups_ s) (lobGroups_ s') id
  /\ entryFlushed (customRenderings_ s) (customRenderings_ s') id
  /\ IdMap.find id (categoryData_ s')
     = option_map (fun c => category_flush c (-1) DBL_MAX) (IdMap.find id (categoryData_ s))
  /\ IdMap.find id (genericData_ s')
     = option_map generic_flush_all (IdMap.find id (genericData_ s))
  /\ IdMap.find id (dataTableManager_ s')
     = option_map (List.map table_flush_all) (IdMap.find id (dataTableManager_ s)).

(** the ids of a container with the properties and the preferences held
    under each id, in iteration order *)
Definition settingsOf {P F U} (m : IdMap.t (Entry P F U)) : list (ObjectId * (P * F)) :=
  List.map (fun kv => (fst kv, (properties (snd kv), preferences (snd kv)))) m.

(** every container holds the same ids with the same properties and
    preferences *)
Definition sameSettings (s s' : MemoryDataStore) : Prop :=
  settingsOf (platforms_ s') = settingsOf (platforms_ s)
  /\ settingsOf (beams_ s') = settingsOf (beams_ s)
  /\ settingsOf (gates_ s') = settingsOf (gates_ s)
  /\ settingsOf (lasers_ s') = settingsOf (lasers_ s)
  /\ settingsOf (projectors_ s') = settingsOf (projectors_ s)
  /\ settingsOf (lobGroups_ s') = settingsOf (lobGroups_ s)
  /\ settingsOf (customRenderings_ s') = settingsOf (customRenderings_ s).

(** [f] applied to the entry of each listed id, in turn *)
Definition adjustAll {V} (f : V -> V) (ids : list ObjectId) (m : IdMap.t V) : IdMap.t V :=
  fold_left (fun m i => IdMap.adjust i f m) ids m.

(** the ids of the entries whose host is [h], in iteration order *)
Definition hostedBy {V} (host : V -> ObjectId) (m : IdMap.t V) (h : ObjectId) : list ObjectId :=
  IdMap.keys_where (fun e => id_eqb (host e) h) m.

(** the ids whose entry has been flushed, container by container, and the
    ids whose category data, generic data and data tables have been *)
Record Touched := mkTouched {
  t_platforms : list ObjectId;
  t_beams : list ObjectId;
  t_gates : list ObjectId;
  t_lasers : list ObjectId;
  t_projectors : list ObjectId;
  t_lobGroups : list ObjectId;
  t_customRenderings : list ObjectId;
  t_sparse : list ObjectId
}.

Definition Tapp (T1 T2 : Touched) : Touched :=
  mkTouched (t_platforms T1 ++ t_platforms T2) (t_beams T1 ++ t_beams T2)
    (t_gates T1 ++ t_gates T2) (t_lasers T1 ++ t_lasers T2)
    (t_projectors T1 ++ t_projectors T2) (t_lobGroups T1 ++ t_lobGroups T2)
    (t_customRenderings T1 ++ t_customRenderings T2) (t_sparse T1 ++ t_sparse T2).

Definition flushedStore (T : Touched) (s : MemoryDataStore) : MemoryDataStore :=
  mkStore (baseId_ s) (lastUpdateTime_ s) (hasChanged_ s) (interpolationEnabled_ s)
    (interpolator_ s) (dataLimiting_ s) (boundClock_ s)
    (adjustAll flushEntry (t_platforms T) (platforms_ s))
    (adjustAll flushEntry (t_beams T) (beams_ s))
    (adjustAll flushEntry (t_gates T) (gates_ s))
    (adjustAll flushEntry (t_lasers T) (lasers_ s))
    (adjustAll flushEntry (t_projectors T) (projectors_ s))
    (adjustAll flushEntry (t_lobGroups T) (lobGroups_ s))
    (adjustAll flushEntry (t_customRenderings T) (customRenderings_ s))
    (adjustAll generic_flush_all (t_sparse T) (genericData_ s))
    (adjustAll (fun c => category_flush c (-1) DBL_MAX) (t_sparse T) (categoryData_ s))
    (adjustAll (List.map table_flush_all) (t_sparse T) (dataTableManager_ s))
    (entityNameCache_ s) (defaultPrefs_ s) (fabric_ s) (newUpdatesLog_ s).

(** the ids a leaf call of [flushEntity_] touches *)
Definition touchOf (type : ObjectType) (ids : list ObjectId) : Touched :=
  match type with
  | PLATFORM => mkTouched ids [] [] [] [] [] [] ids
  | BEAM => mkTouched [] ids [] [] [] [] [] ids
  | GATE => mkTouched [] [] ids [] [] [] [] ids
  | LASER => mkTouched [] [] [] ids [] [] [] ids
  | PROJECTOR => mkTouched [] [] [] [] ids [] [] ids
  | LOB_GROUP => mkTouched [] [] [] [] [] ids [] ids
  | CUSTOM_RENDERING => mkTouched [] [] [] [] [] [] ids ids
  | ALL | NONE => mkTouched [] [] [] [] [] [] [] ids
  end.

(** the ids touched by the recursive flush of a beam, and of a platform *)
Definition beamT (s : MemoryDataStore) (b : ObjectId) : Touched :=
  mkTouched [] [b] (gateIdListForHost s b) [] (projectorIdListForHost s b) [] []
    (gateIdListForHost s b ++ projectorIdListForHost s b ++ [b]).

Definition beamsT (s : MemoryDataStore) (bs : list ObjectId) : Touched :=
  mkTouched [] bs (flat_map (gateIdListForHost s) bs) []
    (flat_map (projectorIdListForHost s) bs) [] []
    (flat_map (fun b => gateIdListForHost s b ++ projectorIdListForHost s b ++ [b]) bs).

Definition platformT (s : MemoryDataStore) (id : ObjectId) : Touched :=
  let bs := beamIdListForHost s id in
  mkTouched [id] bs (flat_map (gateIdListForHost s) bs) (laserIdListForHost s id)
    (flat_map (projectorIdListForHost s) bs ++ projectorIdListForHost s id)
    (lobGroupIdListForHost s id) (customRenderingIdListForHost s id)
    (flat_map (fun b => gateIdListForHost s b ++ projectorIdListForHost s b ++ [b]) bs
     ++ laserIdListForHost s id ++ lobGroupIdListForHost s id
     ++ projectorIdListForHost s id ++ customRenderingIdListForHost s id ++ [id]).

(** the listed ids are keys of their containers, no more often than they
    are keys, and the sparse data is flushed once per listed entry *)
Definition touchedOnce (T : Touched) (s : MemoryDataStore) : Prop :=
  forall id,
  (    occ (t_platforms T) id <= occ (IdMap.keys (platforms_ s)) id
    /\ occ (t_beams T) id <= occ (IdMap.keys (beams_ s)) id
    /\ occ (t_gates T) id <= occ (IdMap.keys (gates_ s)) id
    /\ occ (t_lasers T) id <= occ (IdMap.keys (lasers_ s)) id
    /\ occ (t_projectors T) id <= occ (IdMap.keys (projectors_ s)) id
    /\ occ (t_lobGroups T) id <= occ (IdMap.keys (lobGroups_ s)) id
    /\ occ (t_customRenderings T) id <= occ (IdMap.keys (customRenderings_ s)) id
    /\ occ (t_sparse T) id
       = occ (t_platforms T) id + occ (t_beams T) id + occ (t_gates T) id
         + occ (t_lasers T) id + occ (t_projectors T) id + occ (t_lobGroups T) id
         + occ (t_customRenderings T) id)%nat.

(** the ids hosted by [h], over the six hosted containers *)
Definition hostedIds (s : MemoryDataStore) (h : ObjectId) : list ObjectId :=
  beamIdListForHost s h ++ gateIdListForHost s h ++ laserIdListForHost s h
  ++ projectorIdListForHost s h ++ lobGroupIdListForHost s h
  ++ customRenderingIdListForHost s h.

(** the ids of a container with the properties held under each id, in
    iteration order *)
Definition propertiesOf {P F U} (m : IdMap.t (Entry P F U)) : list (ObjectId * P) :=
  List.map (fun kv => (fst kv, properties (snd kv))) m.

(** every container holds the same ids with the same properties *)
Record sameEntities (s s' : MemoryDataStore) : Prop := mkSameEntities {
  se_platforms : propertiesOf (platforms_ s') = propertiesOf (platforms_ s);
  se_beams : propertiesOf (beams_ s') = propertiesOf (beams_ s);
  se_gates : propertiesOf (gates_ s') = propertiesOf (gates_ s);
  se_lasers : propertiesOf (lasers_ s') = propertiesOf (lasers_ s);
  se_projectors : propertiesOf (projectors_ s') = propertiesOf (projectors_ s);
  se_lobGroups : propertiesOf (lobGroups_ s') = propertiesOf (lobGroups_ s);
  se_customRenderings :
    propertiesOf (customRenderings_ s') = propertiesOf (customRenderings_ s)
}.

(** every drawn target gate with a host id is hosted by a target beam *)
Definition targetGatesHosted (s : MemoryDataStore) (time : Time) : Prop :=
  forall id gate,
    In (id, gate) (gates_ s) ->
    CommonPrefs.datadraw (GatePrefs.commonprefs (preferences (applyCommands id time gate)))
    = true ->
    GateProperties.is_target (properties gate) = true ->
    GateProperties.has_hostid (properties gate) = true ->
    exists beam,
      IdMap.find (GateProperties.hostid (properties gate)) (beams_ s) = Some beam
      /\ BeamProperties.is_target (properties beam) = true.

(** what no flush touches: the ids with their properties and preferences,
    the ids that have sparse data and data tables, the configuration of
    the store and its listeners *)
Record sameExceptData (s s' : MemoryDataStore) : Prop := mkSameExceptData {
  sed_settings : sameSettings s s';
  sed_generic : IdMap.keys (genericData_ s') = IdMap.keys (genericData_ s);
  sed_category : IdMap.keys (categoryData_ s') = IdMap.keys (categoryData_ s);
  sed_tables : IdMap.keys (dataTableManager_ s') = IdMap.keys (dataTableManager_ s);
  sed_baseId : baseId_ s' = baseId_ s;
  sed_lastUpdateTime : lastUpdateTime_ s' = lastUpdateTime_ s;
  sed_interpolationEnabled : interpolationEnabled_ s' = interpolationEnabled_ s;
  sed_interpolator : interpolator_ s' = interpolator_ s;
  sed_dataLimiting : dataLimiting_ s' = dataLimiting_ s;
  sed_boundClock : boundClock_ s' = boundClock_ s;
  sed_entityNameCache : entityNameCache_ s' = entityNameCache_ s;
  sed_defaultPrefs : defaultPrefs_ s' = defaultPrefs_ s;
  sed_listeners : listeners_ (fabric_ s') = listeners_ (fabric_ s)
}.

(** what [flushEntity_] keeps on top of that: it raises no flag and tells
    nobody *)
Definition quietly (s s' : MemoryDataStore) : Prop :=
  sameExceptData s s' /\ hasChanged_ s' = hasChanged_ s /\ fabric_ s' = fabric_ s
  /\ newUpdatesLog_ s' = newUpdatesLog_ s.

(** outside the data held under [id], [s'] is [s] *)
Record sameAwayFrom (id : ObjectId) (s s' : MemoryDataStore) : Prop := mkSameAwayFrom {
  saf_platforms : IdMap.erase id (platforms_ s') = IdMap.erase id (platforms_ s);
  saf_beams : IdMap.erase id (beams_ s') = IdMap.erase id (beams_ s);
  saf_gates : IdMap.erase id (gates_ s') = IdMap.erase id (gates_ s);
  saf_lasers : IdMap.erase id (lasers_ s') = IdMap.erase id (lasers_ s);
  saf_projectors : IdMap.erase id (projectors_ s') = IdMap.erase id (projectors_ s);
  saf_lobGroups : IdMap.erase id (lobGroups_ s') = IdMap.erase id (lobGroups_ s);
  saf_customRenderings :
    IdMap.erase id (customRenderings_ s') = IdMap.erase id (customRenderings_ s);
  saf_genericData : IdMap.erase id (genericData_ s') = IdMap.erase id (genericData_ s);
  saf_categoryData : IdMap.erase id (categoryData_ s') = IdMap.erase id (categoryData_ s);
  saf_dataTableManager :
    IdMap.erase id (dataTableManager_ s') = IdMap.erase id (dataTableManager_ s)
}.

(** the commands held under each id of a container *)
Definition commandsOf {P F U} (m : IdMap.t (Entry P F U))
  : list (ObjectId * MemoryCommandSlice F) :=
  List.map (fun kv => (fst kv, commands (snd kv))) m.

(** the seven entity containers of the store, each with the accessors its
    templates are instantiated with *)
Inductive isContainer
  : forall P F U, HasId P -> HasCommonPrefs F -> Container P F U -> Prop :=
| is_Platforms : isContainer HasId_PlatformProperties HasCommonPrefs_Platform Platforms
| is_Beams : isContainer HasId_BeamProperties HasCommonPrefs_Beam Beams
| is_Gates : isContainer HasId_GateProperties HasCommonPrefs_Gate Gates
| is_Lasers : isContainer HasId_LaserProperties HasCommonPrefs_Laser Lasers
| is_Projectors : isContainer HasId_ProjectorProperties HasCommonPrefs_Projector Projectors
| is_LobGroups : isContainer HasId_LobGroupProperties HasCommonPrefs_LobGroup LobGroups
| is_CustomRenderings :
    isContainer HasId_CustomRenderingProperties HasCommonPrefs_CustomRendering
                CustomRenderings.

(** every id in use was handed out by [genUniqueId_] *)
Definition idsBelowCounter (s : MemoryDataStore) : Prop :=
  forall id, In id (allKeys s) -> (id <= baseId_ s)%N.

(** how often a listener is registered, and how often a log shows it
    called *)
Definition registrations (l : ListenerId) (f : Fabric) : nat :=
  count_occ Nat.eq_dec (listeners_ f) l.

Definition calls_to (l : ListenerId) (es : list LogEntry) : nat :=
  List.length
    (filter (fun e => match e with Called l' _ => Nat.eqb l' l | Unregistered _ => false end)
            es).

(** the entries of a local copy that have not been reset *)
Definition live (localCopy : list (option ListenerId)) : list ListenerId :=
  flat_map (fun o => match o with Some l => [l] | None => [] end) localCopy.

(** what holds between two callbacks of a pass that started with the log
    [base] and has appended [seg]: nothing is waiting in [justRemoved_],
    no listener was called after its removal, and the listeners removed so
    far have no live entry in the local copy *)
Definition betweenCallbacks (base : list LogEntry) (localCopy : list (option ListenerId))
  (g : Fabric) (seg : list LogEntry) : Prop :=
  log g = base ++ seg
  /\ justRemoved_ g = []
  /\ no_call_after_removal seg = true
  /\ NoDup (live localCopy)
  /\ forall l, In (Unregistered l) seg -> ~ In l (live localCopy).

(** a map without the entries of the listed ids *)
Definition eraseAll {V} (R : list ObjectId) (m : IdMap.t V) : IdMap.t V :=
  filter (fun kv => negb (existsb (N.eqb (fst kv)) R)) m.

(** the seven containers of [s'] are those of [s] without the listed ids *)
Record containersErased (R : list ObjectId) (s s' : MemoryDataStore) : Prop :=
  mkContainersErased {
  ce_platforms : platforms_ s' = eraseAll R (platforms_ s);
  ce_beams : beams_ s' = eraseAll R (beams_ s);
  ce_gates : gates_ s' = eraseAll R (gates_ s);
  ce_lasers : lasers_ s' = eraseAll R (lasers_ s);
  ce_projectors : projectors_ s' = eraseAll R (projectors_ s);
  ce_lobGroups : lobGroups_ s' = eraseAll R (lobGroups_ s);
  ce_customRenderings : customRenderings_ s' = eraseAll R (customRenderings_ s)
}.

(** the generic data, the category data and the data tables of [s'] are
    those of [s] without the listed ids *)
Record sparseErased (R : list ObjectId) (s s' : MemoryDataStore) : Prop := mkSparseErased {
  sp_genericData : genericData_ s' = eraseAll R (genericData_ s);
  sp_categoryData : categoryData_ s' = eraseAll R (categoryData_ s);
  sp_dataTableManager : dataTableManager_ s' = eraseAll R (dataTableManager_ s)
}.

(** the ids [removeEntity] erases for a beam and for any id, in the order
    in which it erases them *)
Definition beamCascade (s : MemoryDataStore) (b : ObjectId) : list ObjectId :=
  gateIdListForHost s b ++ projectorIdListForHost s b ++ [b].

Definition cascadeOf (s : MemoryDataStore) (id : ObjectId) : list ObjectId :=
  match objectType s id with
  | PLATFORM =>
      flat_map (beamCascade s) (beamIdListForHost s id)
      ++ laserIdListForHost s id ++ projectorIdListForHost s id
      ++ lobGroupIdListForHost s id ++ customRenderingIdListForHost s id ++ [id]
  | BEAM => beamCascade s id
  | NONE | ALL => []
  | GATE | LASER | PROJECTOR | LOB_GROUP | CUSTOM_RENDERING => [id]
  end.

(** the ids erased when an id hosted on a platform is removed *)
Definition removedWith (s : MemoryDataStore) (i : ObjectId) : list ObjectId :=
  if IdMap.mem i (beams_ s) then beamCascade s i else [i].


(** every entry of a container is stored under the id of its properties,
    as the commit of a new entity leaves it *)
Definition idsAreKeysIn {P F U} `{HasId P} (m : IdMap.t (Entry P F U)) : bool :=
  forallb (fun kv => id_eqb (id_of (properties (snd kv))) (fst kv)) m.

Definition idsAreKeys (s : MemoryDataStore) : bool :=
  idsAreKeysIn (platforms_ s) && idsAreKeysIn (beams_ s) && idsAreKeysIn (gates_ s)
  && idsAreKeysIn (lasers_ s) && idsAreKeysIn (projectors_ s)
  && idsAreKeysIn (lobGroups_ s) && idsAreKeysIn (customRenderings_ s).

(** the original id in the properties of entity [id], read through the
    accessor of its type *)
Definition originalIdOf (s : MemoryDataStore) (id : ObjectId) : option N :=
  match objectType s id with
  | PLATFORM =>
      option_map (fun e : PlatformEntry => PlatformProperties.originalid (properties e))
        (IdMap.find id (platforms_ s))
  | BEAM =>
      option_map (fun e : BeamEntry => BeamProperties.originalid (properties e))
        (IdMap.find id (beams_ s))
  | GATE =>
      option_map (fun e : GateEntry => GateProperties.originalid (properties e))
        (IdMap.find id (gates_ s))
  | LASER =>
      option_map (fun e : LaserEntry => LaserProperties.originalid (properties e))
        (IdMap.find id (lasers_ s))
  | PROJECTOR =>
      option_map (fun e : ProjectorEntry => ProjectorProperties.originalid (properties e))
        (IdMap.find id (projectors_ s))
  | LOB_GROUP =>
      option_map (fun e : LobGroupEntry => LobGroupProperties.originalid (properties e))
        (IdMap.find id (lobGroups_ s))
  | CUSTOM_RENDERING =>
      option_map
        (fun e : CustomRenderingEntry => CustomRenderingProperties.originalid (properties e))
        (IdMap.find id (customRenderings_ s))
  | NONE | ALL => None
  end.
End Store.

(** ** A reference implementation of the collaborators

    Used to run the model on concrete stores.  Samples are looked up by
    the latest sample at or before the requested time; flushing removes
    the samples of the half-open range. *)

Definition in_range (startTime endTime t : Time) : bool :=
  Qle_bool startTime t && time_ltb t endTime.

Section Reference.
Context {U : Type} {T : Timed U}.

Fixpoint latest_at (items : list U) (t : Time) (best : option U) : option U :=
  match items with
  | [] => best
  | u :: rest =>
      if Qle_bool (time_of u) t then latest_at rest t (Some u) else latest_at rest t best
  end.

Definition ref_update (s : MemoryDataSlice U) (t : Time) : MemoryDataSlice U :=
  setCurrent (latest_at (updates_ s) t None) s.

Definition ref_interpolate (s : MemoryDataSlice U) (t : Time) (i : option Interpolator)
  : MemoryDataSlice U :=
  setChanged (ref_update s t).

Definition ref_firstTime (s : MemoryDataSlice U) : Time :=
  match updates_ s with
  | [] => DBL_MAX
  | u :: _ => time_of u
  end.

Definition ref_lastTime (s : MemoryDataSlice U) : Time :=
  match rev (updates_ s) with
  | [] => - DBL_MAX
  | u :: _ => time_of u
  end.

Definition ref_flush (s : MemoryDataSlice U) (startTime endTime : Time) : MemoryDataSlice U :=
  mkSlice (filter (fun u => negb (in_range startTime endTime (time_of u))) (updates_ s))
          None (currentInterpolated_ s) true.

Definition ref_insert (s : MemoryDataSlice U) (u : U) : MemoryDataSlice U :=
  mkSlice (filter (fun v => time_ltb (time_of v) (time_of u)) (updates_ s)
           ++ u :: filter (fun v => time_ltb (time_of u) (time_of v)) (updates_ s))
          (current_ s) (currentInterpolated_ s) true.

End Reference.

(** commands up to [t] replace the preferences by their [updateprefs] *)
Definition ref_command_update {F} (c : MemoryCommandSlice F) (id : ObjectId) (t : Time)
  (prefs : F) : MemoryCommandSlice F * F :=
  (mkCommandSlice (commandList_ c) (Some t),
   match latest_at (commandList_ c) t None with
   | Some cmd => updateprefs cmd
   | None => prefs
   end).

Definition ref_command_flush {F} (c : MemoryCommandSlice F) (startTime endTime : Time)
  : MemoryCommandSlice F :=
  mkCommandSlice
    (filter (fun u => negb (in_range startTime endTime (command_time u))) (commandList_ c))
    None.

Definition ref_generic_update (g : MemoryGenericDataSlice) (t : Time)
  : MemoryGenericDataSlice :=
  mkGenericSlice (genericList_ g)
    (match latest_at (genericList_ g) t None with
     | Some d => GenericData.entry d
     | None => []
     end).

Definition ref_category_update (c : MemoryCategoryDataSlice) (t : Time)
  : MemoryCategoryDataSlice * bool :=
  let cur := match latest_at (categoryList_ c) t None with
             | Some d => CategoryData.entry d
             | None => []
             end in
  (mkCategorySlice (categoryList_ c) cur,
   negb (Nat.eqb (List.length cur) (List.length (categoryCurrent_ c)))).

Definition refCollaborators : Collaborators := {|
  slice_update := fun U T s t => ref_update s t;
  slice_interpolate := fun U T s t i => ref_interpolate s t i;
  firstTime := fun U T s => ref_firstTime s;
  lastTime := fun U T s => ref_lastTime s;
  slice_flush := fun U T s a b => ref_flush s a b;
  slice_limitByPrefs := fun U T s _ => s;
  slice_insert := fun U T s u => ref_insert s u;
  slice_setMaxData := fun s _ _ => s;
  command_update := fun F c id t prefs => ref_command_update c id t prefs;
  command_flush := fun F c a b => ref_command_flush c a b;
  command_limitByPrefs := fun F c _ => c;
  command_insert := fun F c u => mkCommandSlice (commandList_ c ++ [u]) (commandsAppliedTo_ c);
  generic_update := ref_generic_update;
  generic_flush_all := fun g => mkGenericSlice [] [];
  generic_flush := fun g a b =>
    mkGenericSlice
      (filter (fun d => negb (in_range a b (GenericData.time d))) (genericList_ g)) [];
  generic_limitByPrefs := fun g _ => g;
  generic_insert := fun g d _ => mkGenericSlice (genericList_ g ++ [d]) (genericCurrent_ g);
  category_update := ref_category_update;
  category_flush_all := fun c => mkCategorySlice [] [];
  category_flush := fun c a b =>
    mkCategorySlice
      (filter (fun d => negb (in_range a b (CategoryData.time d))) (categoryList_ c)) [];
  category_limitByPrefs := fun c _ => c;
  category_insert := fun c d => mkCategorySlice (categoryList_ c ++ [d]) (categoryCurrent_ c);
  table_flush_all := fun tb => mkDataTable (tableName tb) [];
  table_flush := fun tb a b =>
    mkDataTable (tableName tb) (filter (fun r => negb (in_range a b (fst r))) (rows tb))
|}.

(** the serialiser used on concrete messages: the name, the alias and the
    flags of the common preferences, which is all the examples vary *)
Definition ref_serialize (p : CommonPrefs.t) : string :=
  String.append (CommonPrefs.name p)
    (String.append (String.append "|"%string (CommonPrefs.alias p))
       (String.append (if CommonPrefs.usealias p then "|A"%string else "|-"%string)
                      (if CommonPrefs.datadraw p then "|D"%string else "|-"%string))).

Definition ref_Message_PlatformPrefs : Message PlatformPrefs.t :=
  fun p => String.append (ref_serialize (PlatformPrefs.commonprefs p))
                         (if PlatformPrefs.interpolatepos p then "|I"%string else "|-"%string).

(** ** Example stores

    A small scenario used to run the model: platforms 1 and 2, a target
    beam 3 on platform 1 aimed at platform 2, a target gate 4 on beam 3, a
    laser 5, a projector 6, a LOB group 7 and a custom rendering 8 on
    platform 1, a projector 9 and a custom rendering 10 on beam 3, and two
    listeners.  Platform 1 has one update, at time 5 with position
    (1, 2, 3); platform 2 has none. *)

Definition ex_common (nm : string) (draw : bool) : CommonPrefs.t :=
  CommonPrefs.mk nm EmptyString false draw 0%N 0.

Definition ex_platform (id : ObjectId) (nm : string) (ups : list PlatformUpdate.t)
  : ObjectId * PlatformEntry :=
  (id, mkEntry (PlatformProperties.mk id id) (PlatformPrefs.mk (ex_common nm true) false)
               (mkSlice ups None (PlatformUpdate.mk 0 None) false) emptyCommands).

Definition ex_beam (id host : ObjectId) (type : BeamProperties_BeamType)
  (target : option ObjectId) (cur : option BeamUpdate.t) : ObjectId * BeamEntry :=
  (id, mkEntry (BeamProperties.mk id (Some host) id type)
               (BeamPrefs.mk (ex_common "beam" true) false target)
               (mkSlice [] cur (BeamUpdate.mk 0 0 0 0) false) emptyCommands).

Definition ex_gate (id host : ObjectId) (type : GateProperties_GateType)
  (cur : option GateUpdate.t) : ObjectId * GateEntry :=
  (id, mkEntry (GateProperties.mk id (Some host) id type)
               (GatePrefs.mk (ex_common "gate" true) false)
               (mkSlice [GateUpdate.mk 5 0 0 1 1 10 20 None] cur
                        (GateUpdate.mk 0 0 0 0 0 0 0 None) false) emptyCommands).

Definition ex_laser (id host : ObjectId) (draw : bool) : ObjectId * LaserEntry :=
  (id, mkEntry (LaserProperties.mk id (Some host) id) (LaserPrefs.mk (ex_common "laser" draw) 0)
               (mkSlice [LaserUpdate.mk 5 0 0 0] (Some (LaserUpdate.mk 5 0 0 0))
                        (LaserUpdate.mk 0 0 0 0) false) emptyCommands).

Definition ex_projector (id host : ObjectId) (draw : bool) : ObjectId * ProjectorEntry :=
  (id, mkEntry (ProjectorProperties.mk id (Some host) id)
               (ProjectorPrefs.mk (ex_common "projector" draw) false)
               (mkSlice [ProjectorUpdate.mk 5 1] None (ProjectorUpdate.mk 0 0) false)
               emptyCommands).

Definition ex_lobGroup (id host : ObjectId) : ObjectId * LobGroupEntry :=
  (id, mkEntry (LobGroupProperties.mk id (Some host) id)
               (LobGroupPrefs.mk (ex_common "lob" true) 0%N 0)
               (mkSlice [] None (LobGroupUpdate.mk 0 []) false) emptyCommands).

Definition ex_customRendering (id host : ObjectId) : ObjectId * CustomRenderingEntry :=
  (id, mkEntry (CustomRenderingProperties.mk id (Some host) id)
               (CustomRenderingPrefs.mk (ex_common "custom" true) 0)
               (mkSlice [] None (CustomRenderingUpdate.mk 0) false) emptyCommands).

Definition ex_defaults : DefaultPrefs :=
  mkDefaultPrefs (PlatformPrefs.mk CommonPrefs_new false) (BeamPrefs.mk CommonPrefs_new false None)
    (GatePrefs.mk CommonPrefs_new false) (LaserPrefs.mk CommonPrefs_new 0)
    (LobGroupPrefs.mk CommonPrefs_new 0%N 0) (ProjectorPrefs.mk CommonPrefs_new false)
    (CustomRenderingPrefs.mk CommonPrefs_new 0).

Definition ex_generic (id : ObjectId) : ObjectId * MemoryGenericDataSlice :=
  (id, mkGenericSlice [GenericData.mk 5 0 [("key", "value")]] [])%string.

Definition ex_category (id : ObjectId) : ObjectId * MemoryCategoryDataSlice :=
  (id, mkCategorySlice [CategoryData.mk 5 [("side", "blue")]] [])%string.

Definition ex_ids : list ObjectId := [1; 2; 3; 4; 5; 6; 7; 8; 9; 10]%N.

(** the scenario with a chosen target beam and target gate *)
Definition ex_store_with (beam : ObjectId * BeamEntry) (gate : ObjectId * GateEntry)
  : MemoryDataStore :=
  mkStore 10%N 0 true false None false None
    [ex_platform 1%N "alpha" [PlatformUpdate.mk 5 (Some (1, 2, 3))];
     ex_platform 2%N "bravo" []]
    [beam] [gate]
    [ex_laser 5%N 1%N false] [ex_projector 6%N 1%N false; ex_projector 9%N 3%N true]
    [ex_lobGroup 7%N 1%N] [ex_customRendering 8%N 1%N; ex_customRendering 10%N 3%N]
    ((0%N, mkGenericSlice [] []) :: List.map ex_generic ex_ids)
    (List.map ex_category ex_ids)
    [(1%N, [mkDataTable "track" [(5, [1; 2])]])]
    [("alpha"%string, 1%N, PLATFORM); ("bravo"%string, 2%N, PLATFORM)]
    ex_defaults
    (mkFabric [100; 101]%nat [] [])
    [].

(** the target beam still shows a sample from an earlier pass *)
Definition ex_store : MemoryDataStore :=
  ex_store_with
    (ex_beam 3%N 1%N BeamProperties_BeamType_TARGET (Some 2%N) (Some (BeamUpdate.mk 4 0 0 0)))
    (ex_gate 4%N 3%N GateProperties_GateType_TARGET (Some (GateUpdate.mk 4 0 0 1 1 10 20 None))).

(** the host beam of gate 4 is a target beam without a target id *)
Definition ex_store_no_targetid : MemoryDataStore :=
  ex_store_with
    (ex_beam 3%N 1%N BeamProperties_BeamType_TARGET None None)
    (ex_gate 4%N 3%N GateProperties_GateType_TARGET (Some (GateUpdate.mk 4 0 0 1 1 10 20 None))).

(** the host beam of gate 4 is not a target beam *)
Definition ex_store_plain_beam : MemoryDataStore :=
  ex_store_with
    (ex_beam 3%N 1%N BeamProperties_BeamType_ABSOLUTE_POSITION None None)
    (ex_gate 4%N 3%N GateProperties_GateType_TARGET (Some (GateUpdate.mk 4 0 0 1 1 10 20 None))).

(** the store a call leaves, or [dflt] when the call faults *)
Definition result_of (o : Outcome MemoryDataStore) (dflt : MemoryDataStore)
  : MemoryDataStore :=
  match o with
  | Ok s => s
  | _ => dflt
  end.

(** the scenario after [update(5)] and after a following [update(6)] *)
Definition ex_store_at_5 : MemoryDataStore :=
  result_of (@update refCollaborators Release 5 ex_store) ex_store.
Definition ex_store_at_6 : MemoryDataStore :=
  result_of (@update refCollaborators Release 6 ex_store_at_5) ex_store_at_5.
Definition ex_store_plain_beam_at_5 : MemoryDataStore :=
  result_of (@update refCollaborators Release 5 ex_store_plain_beam) ex_store_plain_beam.
Definition ex_store_no_targetid_at_5 : MemoryDataStore :=
  result_of (@update refCollaborators Debug 5 ex_store_no_targetid) ex_store_no_targetid.

(** an edit of the scratch copy of a preferences transaction: a new name *)
Definition ex_rename (name : string) (p : PlatformPrefs.t) : PlatformPrefs.t :=
  PlatformPrefs.mk
    (CommonPrefs.mk name (CommonPrefs.alias (PlatformPrefs.commonprefs p))
       (CommonPrefs.usealias (PlatformPrefs.commonprefs p))
       (CommonPrefs.datadraw (PlatformPrefs.commonprefs p))
       (CommonPrefs.datalimitpoints (PlatformPrefs.commonprefs p))
       (CommonPrefs.datalimittime (PlatformPrefs.commonprefs p)))
    (PlatformPrefs.interpolatepos p).

(** Observers that call back into the store.  The fabric of the scenario
    has listeners 100 and 101.  In [ex_behaviour] listener 100 answers
    [onChange] by unregistering listener 101 and then flushing entity 1,
    which runs the [onFlush] pass of [flush]; in [ex_behaviour_plain] it
    only unregisters listener 101. *)
Definition ex_fabric : Fabric := mkFabric [100; 101]%nat [] [].

Definition ex_behaviour : Behaviour :=
  fun l n =>
    match n with
    | onChange =>
        if Nat.eqb l 100
        then [callRemoveListener 101%nat; callNotifying [[onFlush 1%N]]]
        else []
    | _ => []
    end.

Definition ex_behaviour_plain : Behaviour :=
  fun l n =>
    match n with
    | onChange => if Nat.eqb l 100 then [callRemoveListener 101%nat] else []
    | _ => []
    end.


(** the scenario with platform 1 hidden: [datadraw] is off and a sample is
    still current from an earlier pass *)
Definition ex_store_hidden : MemoryDataStore :=
  set_platforms_
    [(1%N, mkEntry (PlatformProperties.mk 1%N 1%N)
                   (PlatformPrefs.mk (ex_common "alpha" false) false)
                   (mkSlice [PlatformUpdate.mk 5 (Some (1, 2, 3))]
                            (Some (PlatformUpdate.mk 5 (Some (1, 2, 3))))
                            (PlatformUpdate.mk 0 None) false)
                   emptyCommands);
     ex_platform 2%N "bravo" []]
    ex_store.
Definition ex_store_hidden_at_5 : MemoryDataStore :=
  result_of (@update refCollaborators Release 5 ex_store_hidden) ex_store_hidden.

(** the scenario with a position for platform 2 as well, so that the
    target beam 3 resolves *)
Definition ex_store_resolved : MemoryDataStore :=
  set_platforms_
    [ex_platform 1%N "alpha" [PlatformUpdate.mk 5 (Some (1, 2, 3))];
     ex_platform 2%N "bravo" [PlatformUpdate.mk 5 (Some (4, 5, 6))]]
    ex_store.
Definition ex_store_resolved_at_5 : MemoryDataStore :=
  result_of (@update refCollaborators Release 5 ex_store_resolved) ex_store_resolved.


(** a serialiser of platform properties: the id and the original id in
    unary, which is all the properties hold *)
Definition ref_Message_PlatformProperties : Message PlatformProperties.t :=
  fun p =>
    String.append
      (String.concat ""%string (repeat "i"%string (N.to_nat (PlatformProperties.id p))))
      (String.append "|"%string
         (String.concat ""%string
            (repeat "o"%string (N.to_nat (PlatformProperties.originalid p))))).

(** an edit of the scratch copy of a properties transaction: a new
    original id *)
Definition ex_reoriginate (originalId : N) (p : PlatformProperties.t)
  : PlatformProperties.t :=
  PlatformProperties.mk (PlatformProperties.id p) originalId.

(** a clock in live mode *)
Definition ex_live_clock : Clock := mkClock true.
(** * Properties *)

(** ** Facts about [IdMap] *)

Module IdMapFacts.
Import IdMap.
Section IdMapFacts.
Context {V : Type}.
Implicit Types (m : IdMap.t V) (id : ObjectId).




Lemma find_mapi f id m :
  find id (mapi f m) = option_map (f id) (find id m).
Proof.
  induction m as [|[k v] m IH]; simpl; auto.
  destruct (id_eqb k id) eqn:E; auto.
  apply N.eqb_eq in E. subst. reflexivity.
Qed.

Lemma find_adjust id id' f m :
  find id' (adjust id f m) =
  if id_eqb id' id then option_map f (find id' m) else find id' m.
Proof.
  unfold adjust. rewrite find_mapi.
  destruct (id_eqb id' id); destruct (find id' m); reflexivity.
Qed.

Lemma keys_mapi f m : keys (mapi f m) = keys m.
Proof.
  unfold keys, mapi. rewrite map_map. reflexivity.
Qed.

Lemma find_some_in id v m : find id m = Some v -> In (id, v) m.
Proof.
  induction m as [|[k w] m IH]; simpl; [discriminate|].
  destruct (id_eqb k id) eqn:E.
  - apply N.eqb_eq in E. intros [= ->]. subst. now left.
  - intros H. right. auto.
Qed.

Lemma in_keys_find id m : In id (keys m) -> exists v, find id m = Some v.
Proof.
  induction m as [|[k w] m IH]; simpl; [tauto|].
  intros [->|H].
  - unfold id_eqb. rewrite N.eqb_refl. eauto.
  - destruct (id_eqb k id); eauto.
Qed.

Lemma find_none_not_in id m : find id m = None -> ~ In id (keys m).
Proof.
  intros H Hin. apply in_keys_find in Hin. destruct Hin as [v Hv]. congruence.
Qed.

Lemma in_keys_where id p m :
  In id (keys_where p m) -> exists v, In (id, v) m /\ p v = true.
Proof.
  unfold keys_where. rewrite in_map_iff.
  intros [[k v] [Hk Hin]]. simpl in Hk. subst k.
  apply filter_In in Hin. destruct Hin as [Hin Hp]. eauto.
Qed.

Lemma keys_where_in id v p m :
  In (id, v) m -> p v = true -> In id (keys_where p m).
Proof.
  intros Hin Hp. unfold keys_where. apply in_map_iff.
  exists (id, v). split; auto. apply filter_In. auto.
Qed.

Lemma in_erase kv id m : In kv (erase id m) <-> In kv m /\ fst kv <> id.
Proof.
  unfold erase. rewrite filter_In. rewrite negb_true_iff.
  unfold id_eqb. rewrite N.eqb_neq. tauto.
Qed.

Lemma find_in_keys id v m : find id m = Some v -> In id (keys m).
Proof.
  intros H. apply find_some_in in H. unfold keys. apply in_map_iff.
  exists (id, v). auto.
Qed.

Lemma mem_true_iff id m : mem id m = true <-> In id (keys m).
Proof.
  unfold mem. split.
  - destruct (find id m) eqn:E; [|discriminate]. intros _. eapply find_in_keys; eauto.
  - intros H. apply in_keys_find in H. destruct H as [v ->]. reflexivity.
Qed.

Lemma mem_false_iff id m : mem id m = false <-> find id m = None.
Proof.
  unfold mem. destruct (find id m); split; congruence.
Qed.

Lemma mem_mapi f id m : mem id (mapi f m) = mem id m.
Proof.
  unfold mem. rewrite find_mapi. destruct (find id m); reflexivity.
Qed.

Lemma mem_adjust id id' f m : mem id' (adjust id f m) = mem id' m.
Proof.
  unfold adjust. apply mem_mapi.
Qed.


Lemma keys_adjust id f m : keys (adjust id f m) = keys m.
Proof.
  unfold adjust. apply keys_mapi.
Qed.

(** in a map with distinct keys, membership of the pair is [find] *)
Lemma in_find_nodup id v m : NoDup (keys m) -> In (id, v) m -> find id m = Some v.
Proof.
  induction m as [|[k w] m IH]; simpl; [tauto|].
  intros Hnd [Heq|Hin].
  - inversion Heq; subst. unfold id_eqb. rewrite N.eqb_refl. reflexivity.
  - inversion Hnd as [|? ? Hk Hnd']; subst.
    destruct (id_eqb k id) eqn:E.
    + apply N.eqb_eq in E. subst k. exfalso. apply Hk.
      unfold keys. apply in_map_iff. exists (id, v). auto.
    + auto.
Qed.

End IdMapFacts.
End IdMapFacts.

Import IdMapFacts.

(** ** The update engine *)

Section UpdateFacts.
Context {X : Collaborators}.

(** what a pass of [update] that is not skipped leaves in the store *)
Lemma update_run build time s s' :
  update_skipped s time = false ->
  update build time s = Ok s' ->
  platforms_ s' = IdMap.mapi (updatePlatform s (inFileMode s) time) (platforms_ s)
  /\ beams_ s' = IdMap.mapi (updateBeam (updatePlatforms_ time s) time) (beams_ s)
  /\ mapiM (updateGate build (updateBeams_ time (updatePlatforms_ time s)) time) (gates_ s)
     = Ok (gates_ s')
  /\ lasers_ s' = IdMap.mapi (updateLaser s time) (lasers_ s)
  /\ projectors_ s' = IdMap.mapi (updateProjector s time) (projectors_ s)
  /\ hasChanged_ s' = false
  /\ lastUpdateTime_ s' = time.
Proof.
  intros Hskip H. unfold update in H. rewrite Hskip in H.
  unfold updateGates_ in H.
  destruct (mapiM _ _) as [gates| |] eqn:Hg; simpl in H; try discriminate.
  injection H as <-.
  repeat split; reflexivity.
Qed.

Lemma update_skip build time s :
  update_skipped s time = true -> update build time s = Ok s.
Proof.
  intros H. unfold update. rewrite H. reflexivity.
Qed.

Lemma time_eqb_refl t : time_eqb t t = true.
Proof. apply Qeq_bool_refl. Qed.

(** in a release build no loop body faults *)
Lemma mapiM_release_ok {V} (f : ObjectId -> V -> Outcome V) (m : IdMap.t V) :
  (forall k v, exists v', f k v = Ok v') -> exists m', mapiM f m = Ok m'.
Proof.
  intros Hf. induction m as [|[k v] m [m' IH]]; simpl.
  - eauto.
  - destruct (Hf k v) as [v' ->]. simpl. rewrite IH. simpl. eauto.
Qed.

Lemma updateTargetGate_release s gate time :
  exists gate', updateTargetGate_ Release s gate time = Ok gate'.
Proof.
  unfold updateTargetGate_. simpl.
  repeat match goal with
         | |- exists _, (if ?c then _ else _) = _ => destruct c
         | |- exists _, match ?c with _ => _ end = _ => destruct c
         end; eauto.
Qed.

Lemma updateGate_release s time id entry :
  exists gate', updateGate Release s time id entry = Ok gate'.
Proof.
  unfold updateGate.
  repeat match goal with
         | |- exists _, (if ?c then _ else _) = _ => destruct c
         end; eauto using updateTargetGate_release.
Qed.

Lemma update_release_total time s : exists s', update Release time s = Ok s'.
Proof.
  unfold update. destruct (update_skipped s time); [eauto|].
  unfold updateGates_.
  destruct (mapiM_release_ok
              (updateGate Release (updateBeams_ time (updatePlatforms_ time s)) time)
              (gates_ (updateBeams_ time (updatePlatforms_ time s)))) as [g Hg].
  - intros. apply updateGate_release.
  - rewrite Hg. simpl. eauto.
Qed.


Lemma applyCommands_updates {P F U} id time (e : Entry P F U) :
  updates (applyCommands id time e) = updates e.
Proof.
  unfold applyCommands. destruct (command_update _ _ _ _). reflexivity.
Qed.

Lemma applyCommands_properties {P F U} id time (e : Entry P F U) :
  properties (applyCommands id time e) = properties e.
Proof.
  unfold applyCommands. destruct (command_update _ _ _ _). reflexivity.
Qed.

Lemma updatePlatform_preferences s fileMode time id (p : PlatformEntry) :
  preferences (updatePlatform s fileMode time id p) = preferences (applyCommands id time p).
Proof.
  unfold updatePlatform.
  repeat match goal with |- context [if ?c then _ else _] => destruct c end; reflexivity.
Qed.

Lemma updatePlatform_updates s fileMode time id (p : PlatformEntry) :
  updates (updatePlatform s fileMode time id p) =
  let q := applyCommands id time p in
  if negb (CommonPrefs.datadraw (PlatformPrefs.commonprefs (preferences q)))
  then setCurrent None (updates p)
  else if fileMode && (negb (time_eqb (firstTime (updates p)) (-1))
                       && (time_ltb time (firstTime (updates p))
                           || time_ltb (lastTime (updates p)) time))
  then setCurrent None (updates p)
  else if isInterpolationEnabled s && PlatformPrefs.interpolatepos (preferences q)
  then slice_interpolate (updates p) time (interpolator_ s)
  else slice_update (updates p) time.
Proof.
  unfold updatePlatform. rewrite !applyCommands_updates. cbv zeta.
  repeat match goal with |- context [if ?c then _ else _] => destruct c end; reflexivity.
Qed.


Lemma updateTargetBeam_properties s id (beam : BeamEntry) time :
  properties (updateTargetBeam_ s id beam time) = properties beam
  /\ preferences (updateTargetBeam_ s id beam time) = preferences beam.
Proof.
  unfold updateTargetBeam_.
  repeat match goal with
         | |- context [if ?c then _ else _] => destruct c
         | |- context [match ?c with _ => _ end] => destruct c
         end; split; reflexivity.
Qed.

Lemma updateTargetBeam_cleared s id (beam : BeamEntry) time :
  targetBeamUnresolved s beam ->
  current (updates (updateTargetBeam_ s id beam time)) = None.
Proof.
  unfold targetBeamUnresolved, platformHasPosition, updateTargetBeam_.
  intros H.
  destruct (BeamProperties.has_hostid (properties beam)); [|reflexivity].
  destruct (BeamPrefs.has_targetid (preferences beam)); [|reflexivity].
  simpl.
  destruct (IdMap.find (BeamProperties.hostid (properties beam)) (platforms_ s))
    as [src|]; [|reflexivity].
  destruct (current (updates src)) as [su|]; [|reflexivity].
  destruct (PlatformUpdate.has_position su); [|reflexivity].
  simpl.
  destruct (IdMap.find (BeamPrefs.targetid (preferences beam)) (platforms_ s))
    as [dst|]; [|reflexivity].
  destruct (current (updates dst)) as [du|]; [|reflexivity].
  destruct (PlatformUpdate.has_position du); [|reflexivity].
  destruct H as [H|[H|[H|H]]]; discriminate.
Qed.

Lemma updateBeam_properties s time id (b : BeamEntry) :
  properties (updateBeam s time id b) = properties b
  /\ preferences (updateBeam s time id b) = preferences (applyCommands id time b).
Proof.
  unfold updateBeam.
  destruct (negb _); [split; [apply applyCommands_properties | reflexivity]|].
  destruct (BeamProperties.is_target _).
  - destruct (updateTargetBeam_properties s id (applyCommands id time b) time) as [-> ->].
    split; [apply applyCommands_properties | reflexivity].
  - destruct (_ && _); (split; [apply applyCommands_properties | reflexivity]).
Qed.

Lemma updateBeam_target_cleared s time id (b : BeamEntry) :
  let b' := updateBeam s time id b in
  BeamProperties.is_target (properties b') = true ->
  targetBeamUnresolved s b' ->
  current (updates b') = None.
Proof.
  intros b' Ht Hc. subst b'.
  destruct (updateBeam_properties s time id b) as [Hp Hf].
  unfold targetBeamUnresolved in Hc. rewrite Hp, Hf in Hc. rewrite Hp in Ht.
  unfold updateBeam.
  destruct (negb _); [reflexivity|].
  rewrite applyCommands_properties, Ht.
  apply updateTargetBeam_cleared.
  unfold targetBeamUnresolved. rewrite applyCommands_properties. exact Hc.
Qed.

Lemma platformHasPosition_ext s1 s2 id :
  platforms_ s1 = platforms_ s2 -> platformHasPosition s1 id = platformHasPosition s2 id.
Proof.
  unfold platformHasPosition. intros ->. reflexivity.
Qed.

Lemma update_establishes_targetBeamsCleared build time s s' :
  update_skipped s time = false ->
  update build time s = Ok s' ->
  targetBeamsCleared s'.
Proof.
  intros Hskip Hup id beam Hfind Ht Hd Hc.
  destruct (@update_run build time s s' Hskip Hup) as (Hp & Hb & _).
  rewrite Hb, find_mapi in Hfind.
  destruct (IdMap.find id (beams_ s)) as [b|]; [|discriminate].
  simpl in Hfind. injection Hfind as <-.
  apply updateBeam_target_cleared; [exact Ht|].
  unfold targetBeamUnresolved in *.
  rewrite (@platformHasPosition_ext (updatePlatforms_ time s) s'),
          (@platformHasPosition_ext (updatePlatforms_ time s) s'); [exact Hc| |];
    rewrite Hp; reflexivity.
Qed.

Lemma update_preserves_targetBeamsCleared build time s s' :
  targetBeamsCleared s ->
  update build time s = Ok s' ->
  targetBeamsCleared s'.
Proof.
  intros Hinv Hup. destruct (update_skipped s time) eqn:Hskip.
  - rewrite (@update_skip build time s Hskip) in Hup. injection Hup as <-. exact Hinv.
  - eapply update_establishes_targetBeamsCleared; eauto.
Qed.

(** Claim C4.  After a pass of [update], every target beam with [datadraw]
    on that has no host id, no target id, or whose host or target platform
    is missing or has no current position, has no current sample; and the
    same holds after any further sequence of [update] calls. *)
Theorem target_beam_without_positions_is_cleared build time s :
  update_skipped s time = false ->
  (build = Release -> exists s', update build time s = Ok s')
  /\ forall s', update build time s = Ok s' ->
     targetBeamsCleared s'
     /\ forall times s'', update_all build times s' = Ok s'' -> targetBeamsCleared s''.
Proof.
  intros Hskip. split.
  { intros ->. apply update_release_total. }
  intros s' Hup.
  assert (H0 : targetBeamsCleared s')
    by (eapply update_establishes_targetBeamsCleared; eauto).
  split; [exact H0|].
  intros times. clear Hup. revert s' H0.
  induction times as [|t ts IH]; intros s' H0 s'' Hall; simpl in Hall.
  - injection Hall as <-. exact H0.
  - destruct (update build t s') as [s1| |] eqn:H1; simpl in Hall; try discriminate.
    apply (IH s1); [|exact Hall].
    eapply update_preserves_targetBeamsCleared; eauto.
Qed.


Lemma mapiM_find {V} (f : ObjectId -> V -> Outcome V) (m m' : IdMap.t V) id v' :
  mapiM f m = Ok m' ->
  IdMap.find id m' = Some v' ->
  exists v, IdMap.find id m = Some v /\ f id v = Ok v'.
Proof.
  revert m'. induction m as [|[k v] m IH]; intros m' H Hf; simpl in H.
  - injection H as <-. discriminate.
  - destruct (f k v) as [w| |] eqn:Hk; simpl in H; try discriminate.
    destruct (mapiM f m) as [m1| |]; simpl in H; try discriminate.
    injection H as <-. simpl in Hf. simpl.
    destruct (id_eqb k id) eqn:E.
    + apply N.eqb_eq in E. subst k. injection Hf as <-. eauto.
    + eauto.
Qed.

Lemma mapiM_all_ok {V} (f : ObjectId -> V -> Outcome V) (m m' : IdMap.t V) k v :
  mapiM f m = Ok m' -> In (k, v) m -> exists v', f k v = Ok v'.
Proof.
  revert m'. induction m as [|[k0 v0] m IH]; intros m' H Hin; simpl in *; [tauto|].
  destruct (f k0 v0) as [w| |] eqn:Hk; simpl in H; try discriminate.
  destruct (mapiM f m) as [m1| |]; simpl in H; try discriminate.
  destruct Hin as [Heq|Hin].
  - injection Heq as -> ->. eauto.
  - eapply IH; eauto.
Qed.

Lemma updateGateSlice_properties s (gate : GateEntry) time :
  properties (updateGateSlice s gate time) = properties gate
  /\ preferences (updateGateSlice s gate time) = preferences gate.
Proof.
  unfold updateGateSlice. destruct (_ && _); split; reflexivity.
Qed.

(** in a release build a target gate whose host is not a usable target
    beam is cleared *)
Lemma updateTargetGate_release_cleared s (gate : GateEntry) time :
  hostUnresolved s gate \/ hostNotTarget s gate \/ hostLacksTargetId s gate ->
  updateTargetGate_ Release s gate time = Ok (set_updates (setCurrent None (updates gate)) gate).
Proof.
  unfold hostUnresolved, hostNotTarget, hostLacksTargetId, updateTargetGate_. simpl.
  intros H.
  destruct (negb (GateProperties.has_hostid (properties gate))); [reflexivity|].
  destruct (getBeamForGate_ s (GateProperties.hostid (properties gate))) as [beam|];
    [|reflexivity].
  assert (Hb : BeamProperties.is_target (properties beam) = false
               \/ BeamPrefs.has_targetid (preferences beam) = false).
  { destruct H as [H|[(b & Hb & H)|(b & Hb & H)]]; [discriminate| |];
      injection Hb as <-; auto. }
  destruct Hb as [-> | ->]; simpl;
    rewrite ?orb_true_r; reflexivity.
Qed.

Lemma updateGate_release_properties s time id (g g' : GateEntry) :
  updateGate Release s time id g = Ok g' ->
  properties g' = properties g
  /\ preferences g' = preferences (applyCommands id time g).
Proof.
  unfold updateGate. intros H.
  destruct (negb _).
  { injection H as <-. split; [apply applyCommands_properties | reflexivity]. }
  destruct (GateProperties.is_target _).
  - revert H. generalize (applyCommands_properties id time g).
    generalize (applyCommands id time g). intros q Hq H.
    unfold updateTargetGate_ in H. simpl in H.
    assert (Hs := updateGateSlice_properties s q time).
    destruct Hs as [Hs1 Hs2].
    repeat match type of H with
           | (if ?c then _ else _) = _ => destruct c
           | match ?c with _ => _ end = _ => destruct c
           end;
      injection H as <-; simpl; rewrite ?Hs1, ?Hs2; auto.
  - destruct (updateGateSlice_properties s (applyCommands id time g) time) as [Hs1 Hs2].
    destruct (gateUsesBeamBeamwidth_ _); injection H as <-; simpl;
      rewrite ?Hs1, ?Hs2; split; auto using applyCommands_properties.
Qed.

(** a target gate whose host beam is not a target beam stops a debug
    build *)
Lemma updateTargetGate_debug_asserts s (gate : GateEntry) time :
  GateProperties.is_target (properties gate) = true ->
  GateProperties.has_hostid (properties gate) = true ->
  hostNotTarget s gate ->
  updateTargetGate_ Debug s gate time = AssertionFailed.
Proof.
  intros Ht Hh (beam & Hb & Hn).
  unfold updateTargetGate_. rewrite Ht, Hh, Hb. simpl. rewrite Hn. reflexivity.
Qed.

(** a target host beam that only lacks its target id passes the assertion:
    the gate is cleared in a debug build as well *)
Lemma updateTargetGate_debug_no_targetid s (gate : GateEntry) beam time :
  GateProperties.is_target (properties gate) = true ->
  GateProperties.has_hostid (properties gate) = true ->
  getBeamForGate_ s (GateProperties.hostid (properties gate)) = Some beam ->
  BeamProperties.is_target (properties beam) = true ->
  BeamPrefs.has_targetid (preferences beam) = false ->
  updateTargetGate_ Debug s gate time = Ok (set_updates (setCurrent None (updates gate)) gate).
Proof.
  intros Ht Hh Hb Hbt Hn.
  unfold updateTargetGate_. rewrite Ht, Hh, Hb. simpl. rewrite Hbt, Hn. simpl.
  rewrite orb_true_r. reflexivity.
Qed.

Lemma getBeamForGate_ext s1 s2 h :
  beams_ s1 = beams_ s2 -> getBeamForGate_ s1 h = getBeamForGate_ s2 h.
Proof.
  unfold getBeamForGate_. intros ->. reflexivity.
Qed.

(** Claim C8, as amended.  In a release build every target gate with
    [datadraw] on whose host does not resolve to a beam, is not a target
    beam, or lacks a target id, is cleared and the pass completes.  In a
    debug build the pass does not complete when some drawn target gate is
    hosted by a beam that is not a target beam; a target host beam that
    merely lacks its target id passes the assertion and the gate is
    cleared as in a release build. *)
Theorem target_gate_host_requirement time s :
  update_skipped s time = false ->
  (exists s',
     update Release time s = Ok s'
     /\ forall id gate',
          IdMap.find id (gates_ s') = Some gate' ->
          GateProperties.is_target (properties gate') = true ->
          CommonPrefs.datadraw (GatePrefs.commonprefs (preferences gate')) = true ->
          hostUnresolved s' gate' \/ hostNotTarget s' gate' \/ hostLacksTargetId s' gate' ->
          current (updates gate') = None)
  /\ (forall id gate,
        IdMap.find id (gates_ s) = Some gate ->
        GateProperties.is_target (properties gate) = true ->
        GateProperties.has_hostid (properties gate) = true ->
        CommonPrefs.datadraw
          (GatePrefs.commonprefs (preferences (applyCommands id time gate))) = true ->
        hostNotTarget s gate ->
        forall s', update Debug time s <> Ok s')
  /\ (forall s0 (gate : GateEntry) beam t,
        GateProperties.is_target (properties gate) = true ->
        GateProperties.has_hostid (properties gate) = true ->
        getBeamForGate_ s0 (GateProperties.hostid (properties gate)) = Some beam ->
        BeamProperties.is_target (properties beam) = true ->
        BeamPrefs.has_targetid (preferences beam) = false ->
        updateTargetGate_ Debug s0 gate t
        = Ok (set_updates (setCurrent None (updates gate)) gate)).
Proof.
  intros Hskip. split; [|split].
  - destruct (update_release_total time s) as [s' Hup]. exists s'. split; [exact Hup|].
    intros id gate' Hfind Ht Hd Hv.
    destruct (@update_run Release time s s' Hskip Hup) as (_ & Hb & Hg & _).
    destruct (mapiM_find _ _ id Hg Hfind) as (g & Hg0 & Hres).
    destruct (updateGate_release_properties _ _ _ _ Hres) as [Hp Hf].
    unfold updateGate in Hres.
    rewrite <- Hf, Hd in Hres. simpl in Hres.
    rewrite applyCommands_properties, <- Hp, Ht in Hres.
    rewrite updateTargetGate_release_cleared in Hres.
    + injection Hres as <-. reflexivity.
    + unfold hostUnresolved, hostNotTarget, hostLacksTargetId in *.
      rewrite applyCommands_properties, <- Hp.
      rewrite (@getBeamForGate_ext _ s'); [exact Hv|].
      rewrite Hb. reflexivity.
  - intros id gate Hfind Ht Hh Hd (beam & Hbeam & Hn) s' Hup.
    destruct (@update_run Debug time s s' Hskip Hup) as (_ & _ & Hg & _).
    apply find_some_in in Hfind.
    destruct (mapiM_all_ok _ _ _ _ Hg Hfind) as [v' Hv].
    unfold updateGate in Hv. rewrite Hd in Hv. simpl in Hv.
    rewrite applyCommands_properties, Ht in Hv.
    rewrite updateTargetGate_debug_asserts in Hv; try discriminate.
    + rewrite applyCommands_properties. exact Ht.
    + rewrite applyCommands_properties. exact Hh.
    + unfold hostNotTarget. rewrite applyCommands_properties.
      unfold getBeamForGate_ in *. simpl. rewrite find_mapi, Hbeam. simpl.
      eexists. split; [reflexivity|].
      destruct (updateBeam_properties (updatePlatforms_ time s) time
                  (GateProperties.hostid (properties gate)) beam) as [-> _].
      exact Hn.
  - intros. apply updateTargetGate_debug_no_targetid with (beam := beam); assumption.
Qed.

End UpdateFacts.

(** ** Removal *)

(** *** Subsequences *)

Section Subseq.
Context {A : Type}.
Implicit Types l : list A.

Lemma subseq_refl l : subseq l l.
Proof. induction l; constructor; auto. Qed.

Lemma subseq_trans l1 l2 l3 : subseq l1 l2 -> subseq l2 l3 -> subseq l1 l3.
Proof.
  intros H12 H23. revert l1 H12.
  induction H23; intros l1 H12.
  - exact H12.
  - inversion H12; subst; constructor; auto.
  - constructor. auto.
Qed.

Lemma subseq_filter (p : A -> bool) l : subseq (filter p l) l.
Proof.
  induction l as [|x l IH]; simpl; [constructor|].
  destruct (p x); constructor; exact IH.
Qed.

Lemma subseq_In l' l x : subseq l' l -> In x l' -> In x l.
Proof.
  induction 1; simpl; intuition.
Qed.

Lemma subseq_app l1' l1 l2' l2 :
  subseq l1' l1 -> subseq l2' l2 -> subseq (l1' ++ l2') (l1 ++ l2).
Proof.
  induction 1; simpl; intros; try constructor; auto.
Qed.

Lemma subseq_map {B} (f : A -> B) l' l : subseq l' l -> subseq (map f l') (map f l).
Proof.
  induction 1; simpl; constructor; auto.
Qed.

Lemma subseq_NoDup l' l : subseq l' l -> NoDup l -> NoDup l'.
Proof.
  induction 1; intros Hnd.
  - constructor.
  - inversion Hnd; subst. constructor; auto.
    intros Hin. eauto using subseq_In.
  - inversion Hnd; subst. auto.
Qed.

End Subseq.

Lemma subseq_erase {V} id (m : IdMap.t V) : subseq (IdMap.erase id m) m.
Proof. apply subseq_filter. Qed.

Lemma subseq_keys {V} (m' m : IdMap.t V) :
  subseq m' m -> subseq (IdMap.keys m') (IdMap.keys m).
Proof. apply subseq_map. Qed.



(** ** Stores that only lose entries *)

Section Removal.
Context {X : Collaborators}.
Local Open Scope nat_scope.

Lemma shrinks_refl s : shrinks s s.
Proof. constructor; apply subseq_refl. Qed.

Lemma shrinks_trans s1 s2 s3 : shrinks s1 s2 -> shrinks s2 s3 -> shrinks s1 s3.
Proof.
  intros [] []. constructor; eapply subseq_trans; eauto.
Qed.

Lemma shrinks_allKeys s s' : shrinks s s' -> subseq (allKeys s') (allKeys s).
Proof.
  intros []. unfold allKeys.
  repeat apply subseq_app; apply subseq_keys; assumption.
Qed.

Lemma shrinks_uniqueIds s s' : shrinks s s' -> uniqueIds s -> uniqueIds s'.
Proof.
  unfold uniqueIds. intros H. apply subseq_NoDup. apply shrinks_allKeys. exact H.
Qed.


(** [objectType] in terms of the keys *)
Lemma objectType_NONE_iff s id : objectType s id = NONE <-> ~ In id (allKeys s).
Proof.
  unfold objectType, allKeys. rewrite !in_app_iff, <- !mem_true_iff.
  destruct (IdMap.mem id (platforms_ s)); [split; [discriminate|tauto]|].
  destruct (IdMap.mem id (beams_ s)); [split; [discriminate|tauto]|].
  destruct (IdMap.mem id (gates_ s)); [split; [discriminate|tauto]|].
  destruct (IdMap.mem id (lasers_ s)); [split; [discriminate|tauto]|].
  destruct (IdMap.mem id (projectors_ s)); [split; [discriminate|tauto]|].
  destruct (IdMap.mem id (lobGroups_ s)); [split; [discriminate|tauto]|].
  destruct (IdMap.mem id (customRenderings_ s)); [split; [discriminate|tauto]|].
  split; [intros _ H; intuition discriminate | reflexivity].
Qed.

(** *** Counting keys *)

Lemma occ_mem_true {V} id (m : IdMap.t V) :
  IdMap.mem id m = true -> occ (IdMap.keys m) id > 0.
Proof.
  intros H. apply mem_true_iff in H. apply count_occ_In. exact H.
Qed.

Lemma occ_mem_false {V} id (m : IdMap.t V) :
  IdMap.mem id m = false -> occ (IdMap.keys m) id = 0.
Proof.
  intros H. apply count_occ_not_In. intros Hin.
  apply mem_true_iff in Hin. congruence.
Qed.


Lemma occ_allKeys s id :
  occ (allKeys s) id =
  occ (IdMap.keys (platforms_ s)) id + occ (IdMap.keys (beams_ s)) id
  + occ (IdMap.keys (gates_ s)) id + occ (IdMap.keys (lasers_ s)) id
  + occ (IdMap.keys (projectors_ s)) id + occ (IdMap.keys (lobGroups_ s)) id
  + occ (IdMap.keys (customRenderings_ s)) id.
Proof.
  unfold occ, allKeys. rewrite !count_occ_app, !Nat.add_assoc. reflexivity.
Qed.

Lemma uniqueIds_occ s id : uniqueIds s -> occ (allKeys s) id <= 1.
Proof.
  unfold uniqueIds, occ. intros H.
  apply (proj1 (NoDup_count_occ N.eq_dec (allKeys s)) H).
Qed.

Lemma absent_occ s id : ~ In id (allKeys s) <-> occ (allKeys s) id = 0.
Proof.
  unfold occ. apply count_occ_not_In.
Qed.

Lemma in_keys_occ (l : list ObjectId) id : In id l <-> occ l id > 0.
Proof.
  unfold occ. apply count_occ_In.
Qed.

Lemma erase_absent {V} id (m : IdMap.t V) : IdMap.mem id m = false -> IdMap.erase id m = m.
Proof.
  intros H. apply mem_false_iff in H. unfold IdMap.erase.
  induction m as [|[k v] m IH]; simpl in *; [reflexivity|].
  destruct (id_eqb k id) eqn:E; [discriminate|]. simpl. rewrite IH; auto.
Qed.

(** one step of [removeEntity] *)
Lemma removeEntity_step fuel id s :
  removeEntity (S fuel) id s =
  let ot := objectType s id in
  if ObjectType_eqb ot NONE then Some s
  else
    let s := removeEntityPrologue id ot s in
    if IdMap.mem id (platforms_ s) then
      match forEachIdM (beamIdListForHost s id ++ laserIdListForHost s id
                        ++ projectorIdListForHost s id ++ lobGroupIdListForHost s id
                        ++ customRenderingIdListForHost s id) (removeEntity fuel) s with
      | None => None
      | Some s =>
          Some (fireOnPostRemoveEntity_ id ot
                  (set_platforms_ (IdMap.erase id (platforms_ s)) s))
      end
    else if IdMap.mem id (beams_ s) then
      match forEachIdM (gateIdListForHost s id ++ projectorIdListForHost s id)
                       (removeEntity fuel) s with
      | None => None
      | Some s =>
          Some (fireOnPostRemoveEntity_ id ot (set_beams_ (IdMap.erase id (beams_ s)) s))
      end
    else if IdMap.mem id (gates_ s) then
      Some (fireOnPostRemoveEntity_ id ot (set_gates_ (IdMap.erase id (gates_ s)) s))
    else if IdMap.mem id (lasers_ s) then
      Some (fireOnPostRemoveEntity_ id ot (set_lasers_ (IdMap.erase id (lasers_ s)) s))
    else if IdMap.mem id (projectors_ s) then
      Some (fireOnPostRemoveEntity_ id ot
              (set_projectors_ (IdMap.erase id (projectors_ s)) s))
    else if IdMap.mem id (lobGroups_ s) then
      Some (fireOnPostRemoveEntity_ id ot
              (set_lobGroups_ (IdMap.erase id (lobGroups_ s)) s))
    else if IdMap.mem id (customRenderings_ s) then
      Some (fireOnPostRemoveEntity_ id ot
              (set_customRenderings_ (IdMap.erase id (customRenderings_ s)) s))
    else Some s.
Proof. reflexivity. Qed.

(** *** Removing an entity that hosts nothing *)

Lemma objectType_not_NONE s id :
  ObjectType_eqb (objectType s id) NONE = true -> objectType s id = NONE.
Proof.
  destruct (objectType s id); simpl; congruence.
Qed.


Lemma subseq_occ (l' l : list ObjectId) id : subseq l' l -> occ l' id <= occ l id.
Proof.
  unfold occ. induction 1; simpl.
  - lia.
  - destruct (N.eq_dec x id); lia.
  - destruct (N.eq_dec x id); lia.
Qed.

Lemma occ_zero_mem_false {V} id (m : IdMap.t V) :
  occ (IdMap.keys m) id = 0 -> IdMap.mem id m = false.
Proof.
  intros H. destruct (IdMap.mem id m) eqn:E; [|reflexivity].
  apply occ_mem_true in E. lia.
Qed.

Lemma occ_pos_mem_true {V} id (m : IdMap.t V) :
  occ (IdMap.keys m) id > 0 -> IdMap.mem id m = true.
Proof.
  intros H. apply mem_true_iff. apply in_keys_occ. exact H.
Qed.

Lemma keys_where_keys {V} (p : V -> bool) (m : IdMap.t V) id :
  In id (IdMap.keys_where p m) -> In id (IdMap.keys m).
Proof.
  intros H. apply in_keys_where in H. destruct H as (v & Hin & _).
  unfold IdMap.keys. apply in_map_iff. exists (id, v). auto.
Qed.

Lemma nodup_keys_of_occ {V} (m : IdMap.t V) :
  (forall id, occ (IdMap.keys m) id <= 1) -> NoDup (IdMap.keys m).
Proof.
  intros H. apply (proj2 (NoDup_count_occ N.eq_dec (IdMap.keys m))). exact H.
Qed.














Lemma objectType_platform s id : IdMap.mem id (platforms_ s) = true -> objectType s id = PLATFORM.
Proof.
  intros H. unfold objectType. rewrite H. reflexivity.
Qed.


End Removal.

(** ** Flush *)

(** *** Rewriting the entries of several ids *)

Section AdjustAll.
Context {V : Type}.
Implicit Types (f : V -> V) (m : IdMap.t V) (ids : list ObjectId).
Local Open Scope nat_scope.

Lemma mapi_id m : IdMap.mapi (fun _ v => v) m = m.
Proof.
  unfold IdMap.mapi. induction m as [|[k v] m IH]; [reflexivity|].
  cbn. rewrite IH. reflexivity.
Qed.

Lemma mapi_mapi (g h : ObjectId -> V -> V) m :
  IdMap.mapi g (IdMap.mapi h m) = IdMap.mapi (fun k v => g k (h k v)) m.
Proof. unfold IdMap.mapi. rewrite map_map. reflexivity. Qed.

Lemma mapi_ext (g h : ObjectId -> V -> V) m :
  (forall k v, g k v = h k v) -> IdMap.mapi g m = IdMap.mapi h m.
Proof. intros E. unfold IdMap.mapi. apply map_ext. intros [k v]. cbn. rewrite E. reflexivity. Qed.

Lemma occ_cons i ids id :
  occ (i :: ids) id = (if id_eqb id i then 1 else 0) + occ ids id.
Proof.
  unfold occ, id_eqb. cbn [count_occ].
  destruct (N.eq_dec i id) as [->|Hne].
  - rewrite N.eqb_refl. reflexivity.
  - destruct (N.eqb_spec id i); [congruence|reflexivity].
Qed.

Lemma occ_app l1 l2 id : occ (l1 ++ l2) id = occ l1 id + occ l2 id.
Proof. apply count_occ_app. Qed.

Lemma occ_nil id : occ [] id = 0.
Proof. reflexivity. Qed.

(** the fold applies [f] to an entry as many times as its id is listed *)
Lemma adjustAll_mapi f ids m :
  adjustAll f ids m = IdMap.mapi (fun k v => Nat.iter (occ ids k) f v) m.
Proof.
  revert m. induction ids as [|i ids IH]; intros m.
  - cbn. symmetry. apply mapi_id.
  - change (adjustAll f (i :: ids) m) with (adjustAll f ids (IdMap.adjust i f m)).
    rewrite IH. unfold IdMap.adjust. rewrite mapi_mapi. apply mapi_ext. intros k v.
    rewrite occ_cons. destruct (id_eqb k i).
    + cbn [Nat.add]. rewrite Nat.iter_succ. apply Nat.iter_swap.
    + reflexivity.
Qed.

Lemma find_adjustAll f ids id m :
  IdMap.find id (adjustAll f ids m) = option_map (Nat.iter (occ ids id) f) (IdMap.find id m).
Proof. rewrite adjustAll_mapi, find_mapi. reflexivity. Qed.

Lemma keys_adjustAll f ids m : IdMap.keys (adjustAll f ids m) = IdMap.keys m.
Proof. rewrite adjustAll_mapi. apply keys_mapi. Qed.

Lemma adjustAll_app f ids1 ids2 m :
  adjustAll f ids2 (adjustAll f ids1 m) = adjustAll f (ids1 ++ ids2) m.
Proof. unfold adjustAll. rewrite fold_left_app. reflexivity. Qed.

End AdjustAll.

(** *** Counting the ids hosted on a list of hosts *)

Section HostedCount.
Context {V : Type}.
Variable host : V -> ObjectId.
Local Open Scope nat_scope.

Lemma occ_flat_map_app {A} (f g : A -> list ObjectId) l id :
  occ (flat_map (fun a => f a ++ g a) l) id = occ (flat_map f l) id + occ (flat_map g l) id.
Proof.
  induction l as [|a l IH]; [reflexivity|].
  cbn [flat_map]. rewrite !occ_app, IH. lia.
Qed.

Lemma occ_flat_map_single (x k : ObjectId) hs id :
  occ (flat_map (fun h => if id_eqb x h then [k] else []) hs) id
  = occ hs x * (if id_eqb id k then 1 else 0).
Proof.
  induction hs as [|h hs IH]; [reflexivity|].
  cbn [flat_map]. rewrite occ_app, IH, occ_cons.
  destruct (id_eqb x h).
  - rewrite occ_cons, occ_nil. lia.
  - rewrite occ_nil. lia.
Qed.

Lemma occ_le_one_of_NoDup (l : list ObjectId) x : NoDup l -> occ l x <= 1.
Proof. intros H. apply (proj1 (NoDup_count_occ N.eq_dec l) H). Qed.

Lemma NoDup_of_occ_le_one (l : list ObjectId) : (forall x, occ l x <= 1) -> NoDup l.
Proof. intros H. apply (proj2 (NoDup_count_occ N.eq_dec l)). exact H. Qed.

(** an entry has one host, so the ids hosted on distinct hosts are counted
    at most as often as they are keys *)
Lemma occ_hostedBy_le m hs id :
  NoDup hs -> occ (flat_map (hostedBy host m) hs) id <= occ (IdMap.keys m) id.
Proof.
  intros Hnd. induction m as [|[k e] m IH].
  - assert (E : flat_map (hostedBy host []) hs = [])
      by (clear Hnd; induction hs as [|h hs IHhs]; [reflexivity|exact IHhs]).
    rewrite E. cbn. lia.
  - assert (E : forall h, hostedBy host ((k, e) :: m) h
                          = (if id_eqb (host e) h then [k] else []) ++ hostedBy host m h).
    { intros h. unfold hostedBy, IdMap.keys_where. cbn.
      destruct (id_eqb (host e) h); reflexivity. }
    rewrite (flat_map_ext _ _ E), occ_flat_map_app, occ_flat_map_single.
    change (IdMap.keys ((k, e) :: m)) with (k :: IdMap.keys m). rewrite occ_cons.
    pose proof (occ_le_one_of_NoDup (host e) Hnd).
    destruct (id_eqb id k); nia.
Qed.

Lemma occ_keys_where_le (p : V -> bool) m id :
  occ (IdMap.keys_where p m) id <= occ (IdMap.keys m) id.
Proof.
  apply subseq_occ. unfold IdMap.keys_where, IdMap.keys.
  apply subseq_map, subseq_filter.
Qed.

End HostedCount.

(** *** The store after a flush, in closed form *)

Section FlushFacts.
Context {X : Collaborators}.

Lemma flushedStore_app T1 T2 s :
  flushedStore T2 (flushedStore T1 s) = flushedStore (Tapp T1 T2) s.
Proof.
  unfold flushedStore, Tapp.
  cbn [baseId_ lastUpdateTime_ hasChanged_ interpolationEnabled_ interpolator_ dataLimiting_
       boundClock_ platforms_ beams_ gates_ lasers_ projectors_ lobGroups_ customRenderings_
       genericData_ categoryData_ dataTableManager_ entityNameCache_ defaultPrefs_ fabric_
       newUpdatesLog_ t_platforms t_beams t_gates t_lasers t_projectors t_lobGroups
       t_customRenderings t_sparse].
  rewrite !adjustAll_app. reflexivity.
Qed.

Lemma flushedStore_nil type s : flushedStore (touchOf type []) s = s.
Proof. destruct s, type; reflexivity. Qed.

Lemma has_field_all :
  has_field FLUSH_ALL FLUSH_UPDATES = true
  /\ has_field FLUSH_ALL FLUSH_COMMANDS = true
  /\ has_field FLUSH_ALL FLUSH_CATEGORY_DATA = true
  /\ has_field FLUSH_ALL FLUSH_GENERIC_DATA = true
  /\ has_field FLUSH_ALL FLUSH_DATA_TABLES = true
  /\ has_field FLUSH_ALL FLUSH_EXCLUDE_MINUS_ONE = false.
Proof. repeat split. Qed.

Lemma whole_range :
  time_eqb (-1) 0 = false /\ Qle_bool (-1) 0 && time_eqb DBL_MAX DBL_MAX = true.
Proof. split; [reflexivity|]. rewrite time_eqb_refl. reflexivity. Qed.

(** the tail of [flushEntity_] *)
Lemma flushSparse_closed id s :
  flushSparse id FLUSH_ALL (-1) DBL_MAX s
  = flushedStore (mkTouched [] [] [] [] [] [] [] [id]) s.
Proof.
  destruct has_field_all as (_ & _ & Hc & Hg & Ht & _).
  destruct whole_range as [Hz Hw].
  unfold flushSparse, flushDataTables_. rewrite Hc, Hg, Ht, Hz, Hw.
  destruct s. reflexivity.
Qed.

(** [flushEntity_] on an entity that hosts nothing *)
Lemma flushEntity_leaf id type scope s :
  type <> PLATFORM -> type <> BEAM ->
  flushEntity_ id type scope FLUSH_ALL (-1) DBL_MAX s = flushedStore (touchOf type [id]) s.
Proof.
  destruct has_field_all as (Hu & Hm & _).
  intros Hp Hb. destruct type; try contradiction; simp flushEntity_;
    unfold flushLeafCase; rewrite ?Hu, ?Hm; rewrite flushSparse_closed;
    destruct s; reflexivity.
Qed.

Lemma forEachId_cons i ids body s :
  forEachId (i :: ids) body s = forEachId ids body (body i s).
Proof. reflexivity. Qed.

Lemma forEachId_leaf type scope ids : forall s,
  type <> PLATFORM -> type <> BEAM ->
  forEachId ids (fun i s => flushEntity_ i type scope FLUSH_ALL (-1) DBL_MAX s) s
  = flushedStore (touchOf type ids) s.
Proof.
  induction ids as [|i ids IH]; intros s Hp Hb.
  - rewrite flushedStore_nil. reflexivity.
  - rewrite forEachId_cons, flushEntity_leaf, IH, flushedStore_app by assumption.
    destruct type; try contradiction; reflexivity.
Qed.

(** flushing rewrites slices only: the settings stay *)
Lemma settingsOf_adjustAll {P F U} `{Timed U} ids (m : IdMap.t (Entry P F U)) :
  settingsOf (adjustAll flushEntry ids m) = settingsOf m.
Proof.
  rewrite adjustAll_mapi. unfold settingsOf, IdMap.mapi. rewrite map_map.
  apply map_ext. intros [k e]. cbn [fst snd].
  induction (occ ids k) as [|n IH]; [reflexivity|].
  rewrite Nat.iter_succ. exact IH.
Qed.

Lemma settingsOf_keys {P F U} (m : IdMap.t (Entry P F U)) :
  IdMap.keys m = List.map fst (settingsOf m).
Proof. unfold settingsOf, IdMap.keys. rewrite map_map. reflexivity. Qed.

Lemma keys_settings {P F U} (m m' : IdMap.t (Entry P F U)) :
  settingsOf m' = settingsOf m -> IdMap.keys m' = IdMap.keys m.
Proof. intros E. rewrite !settingsOf_keys, E. reflexivity. Qed.

Lemma settingsOf_keys_where {P F U} (q : P -> bool) (m : IdMap.t (Entry P F U)) :
  IdMap.keys_where (fun e => q (properties e)) m
  = List.map fst (filter (fun x => q (fst (snd x))) (settingsOf m)).
Proof.
  unfold settingsOf, IdMap.keys_where.
  induction m as [|[k e] m IH]; [reflexivity|].
  cbn [filter List.map fst snd]. destruct (q (properties e)); cbn [List.map fst]; rewrite IH;
    reflexivity.
Qed.

Lemma sameSettings_flushedStore T s : sameSettings s (flushedStore T s).
Proof.
  unfold sameSettings, flushedStore.
  cbn [platforms_ beams_ gates_ lasers_ projectors_ lobGroups_ customRenderings_].
  rewrite !settingsOf_adjustAll. tauto.
Qed.

Lemma keys_where_settings {P F U} (q : P -> bool) (m m' : IdMap.t (Entry P F U)) :
  settingsOf m' = settingsOf m ->
  IdMap.keys_where (fun e => q (properties e)) m'
  = IdMap.keys_where (fun e => q (properties e)) m.
Proof. intros E. rewrite !settingsOf_keys_where, E. reflexivity. Qed.

Lemma sameSettings_hosted s s' :
  sameSettings s s' ->
  (forall h, beamIdListForHost s' h = beamIdListForHost s h)
  /\ (forall h, gateIdListForHost s' h = gateIdListForHost s h)
  /\ (forall h, laserIdListForHost s' h = laserIdListForHost s h)
  /\ (forall h, projectorIdListForHost s' h = projectorIdListForHost s h)
  /\ (forall h, lobGroupIdListForHost s' h = lobGroupIdListForHost s h)
  /\ (forall h, customRenderingIdListForHost s' h = customRenderingIdListForHost s h).
Proof.
  intros (Hp & Hb & Hg & Hl & Hj & Ho & Hc).
  split; [|split; [|split; [|split; [|split]]]]; intros h.
  - exact (@keys_where_settings _ _ _ (fun p => id_eqb (BeamProperties.hostid p) h) _ _ Hb).
  - exact (@keys_where_settings _ _ _ (fun p => id_eqb (GateProperties.hostid p) h) _ _ Hg).
  - exact (@keys_where_settings _ _ _ (fun p => id_eqb (LaserProperties.hostid p) h) _ _ Hl).
  - exact (@keys_where_settings _ _ _ (fun p => id_eqb (ProjectorProperties.hostid p) h) _ _ Hj).
  - exact (@keys_where_settings _ _ _ (fun p => id_eqb (LobGroupProperties.hostid p) h) _ _ Ho).
  - exact (@keys_where_settings _ _ _ (fun p => id_eqb (CustomRenderingProperties.hostid p) h) _ _ Hc).
Qed.

Lemma sameSettings_queries s s' :
  sameSettings s s' ->
  (forall id, objectType s' id = objectType s id)
  /\ (forall type, idList s' type = idList s type)
  /\ allKeys s' = allKeys s.
Proof.
  intros (Hp & Hb & Hg & Hl & Hj & Ho & Hc).
  assert (Kp : IdMap.keys (platforms_ s') = IdMap.keys (platforms_ s))
    by (apply keys_settings; exact Hp).
  assert (Kb : IdMap.keys (beams_ s') = IdMap.keys (beams_ s))
    by (apply keys_settings; exact Hb).
  assert (Kg : IdMap.keys (gates_ s') = IdMap.keys (gates_ s))
    by (apply keys_settings; exact Hg).
  assert (Kl : IdMap.keys (lasers_ s') = IdMap.keys (lasers_ s))
    by (apply keys_settings; exact Hl).
  assert (Kj : IdMap.keys (projectors_ s') = IdMap.keys (projectors_ s))
    by (apply keys_settings; exact Hj).
  assert (Ko : IdMap.keys (lobGroups_ s') = IdMap.keys (lobGroups_ s))
    by (apply keys_settings; exact Ho).
  assert (Kc : IdMap.keys (customRenderings_ s') = IdMap.keys (customRenderings_ s))
    by (apply keys_settings; exact Hc).
  assert (M : forall V W (m : IdMap.t V) (m' : IdMap.t W) id,
             IdMap.keys m' = IdMap.keys m -> IdMap.mem id m' = IdMap.mem id m).
  { intros V W m m' id K.
    destruct (IdMap.mem id m) eqn:E.
    - apply mem_true_iff. rewrite K. apply mem_true_iff. exact E.
    - destruct (IdMap.mem id m') eqn:E'; [|reflexivity].
      apply mem_true_iff in E'. rewrite K in E'. apply mem_true_iff in E'. congruence. }
  repeat split.
  - intros id. unfold objectType.
    rewrite (M _ _ _ _ id Kp), (M _ _ _ _ id Kb), (M _ _ _ _ id Kg), (M _ _ _ _ id Kl),
      (M _ _ _ _ id Kj), (M _ _ _ _ id Ko), (M _ _ _ _ id Kc). reflexivity.
  - intros type. unfold idList. rewrite Kp, Kb, Kg, Kl, Kj, Ko, Kc. reflexivity.
  - unfold allKeys. rewrite Kp, Kb, Kg, Kl, Kj, Ko, Kc. reflexivity.
Qed.

Lemma flushOwn_beam b s :
  set_beams_ (flushEntityData (beams_ s) b true true (-1) DBL_MAX) s
  = flushedStore (mkTouched [] [b] [] [] [] [] [] []) s.
Proof. destruct s; reflexivity. Qed.

Lemma flushOwn_platform id s :
  set_platforms_ (flushEntityData (platforms_ s) id true true (-1) DBL_MAX) s
  = flushedStore (mkTouched [id] [] [] [] [] [] [] []) s.
Proof. destruct s; reflexivity. Qed.

Lemma hosted_flushedStore T s :
  (forall h, beamIdListForHost (flushedStore T s) h = beamIdListForHost s h)
  /\ (forall h, gateIdListForHost (flushedStore T s) h = gateIdListForHost s h)
  /\ (forall h, laserIdListForHost (flushedStore T s) h = laserIdListForHost s h)
  /\ (forall h, projectorIdListForHost (flushedStore T s) h = projectorIdListForHost s h)
  /\ (forall h, lobGroupIdListForHost (flushedStore T s) h = lobGroupIdListForHost s h)
  /\ (forall h, customRenderingIdListForHost (flushedStore T s) h
                = customRenderingIdListForHost s h).
Proof. apply sameSettings_hosted, sameSettings_flushedStore. Qed.

Lemma Tapp_mk a1 a2 a3 a4 a5 a6 a7 a8 b1 b2 b3 b4 b5 b6 b7 b8 :
  Tapp (mkTouched a1 a2 a3 a4 a5 a6 a7 a8) (mkTouched b1 b2 b3 b4 b5 b6 b7 b8)
  = mkTouched (a1 ++ b1) (a2 ++ b2) (a3 ++ b3) (a4 ++ b4) (a5 ++ b5) (a6 ++ b6) (a7 ++ b7)
      (a8 ++ b8).
Proof. reflexivity. Qed.

Ltac touched_eq :=
  apply (f_equal2 flushedStore); [|reflexivity];
  unfold beamT, beamsT, platformT, touchOf; rewrite !Tapp_mk;
  f_equal; cbn [app flat_map]; rewrite ?app_nil_r; rewrite <- ?app_assoc; reflexivity.

Lemma flushEntity_beam b s :
  flushEntity_ b BEAM FLUSH_RECURSIVE FLUSH_ALL (-1) DBL_MAX s = flushedStore (beamT s b) s.
Proof.
  destruct has_field_all as (Hu & Hm & _).
  simp flushEntity_. unfold flushBeamCase. rewrite Hu, Hm. cbv zeta.
  rewrite flushOwn_beam.
  rewrite (@forEachId_leaf GATE) by discriminate.
  rewrite (@forEachId_leaf PROJECTOR) by discriminate.
  rewrite flushSparse_closed.
  rewrite !(proj1 (proj2 (proj2 (proj2 (hosted_flushedStore _ _))))).
  rewrite !(proj1 (proj2 (hosted_flushedStore _ _))).
  rewrite !flushedStore_app. touched_eq.
Qed.

Lemma beamsT_flushedStore T s bs : beamsT (flushedStore T s) bs = beamsT s bs.
Proof.
  destruct (hosted_flushedStore T s) as (_ & Hg & _ & Hj & _).
  unfold beamsT. f_equal.
  - apply flat_map_ext. exact Hg.
  - apply flat_map_ext. exact Hj.
  - apply flat_map_ext. intros b. rewrite Hg, Hj. reflexivity.
Qed.

Lemma forEachId_beams bs : forall s,
  forEachId bs (fun b s => flushEntity_ b BEAM FLUSH_RECURSIVE FLUSH_ALL (-1) DBL_MAX s) s
  = flushedStore (beamsT s bs) s.
Proof.
  induction bs as [|b bs IH]; intros s.
  - destruct s; reflexivity.
  - rewrite forEachId_cons, flushEntity_beam, IH, beamsT_flushedStore, flushedStore_app.
    touched_eq.
Qed.

(** [flushEntity_] on a platform, recursively, all fields *)
Lemma flushEntity_platform id s :
  flushEntity_ id PLATFORM FLUSH_RECURSIVE FLUSH_ALL (-1) DBL_MAX s
  = flushedStore (platformT s id) s.
Proof.
  destruct has_field_all as (Hu & Hm & _).
  simp flushEntity_. unfold flushPlatformCase. rewrite Hu, Hm. cbv zeta.
  rewrite flushOwn_platform, forEachId_beams.
  rewrite (@forEachId_leaf LASER) by discriminate.
  rewrite (@forEachId_leaf LOB_GROUP) by discriminate.
  rewrite (@forEachId_leaf PROJECTOR) by discriminate.
  rewrite (@forEachId_leaf CUSTOM_RENDERING) by discriminate.
  rewrite flushSparse_closed.
  rewrite !(proj2 (proj2 (proj2 (proj2 (proj2 (hosted_flushedStore _ _)))))).
  rewrite !(proj1 (proj2 (proj2 (proj2 (proj2 (hosted_flushedStore _ _)))))).
  rewrite !(proj1 (proj2 (proj2 (proj2 (hosted_flushedStore _ _))))).
  rewrite !(proj1 (proj2 (proj2 (hosted_flushedStore _ _)))).
  rewrite beamsT_flushedStore.
  rewrite !(proj1 (hosted_flushedStore _ _)).
  rewrite !flushedStore_app. touched_eq.
Qed.

(** *** Every touched entity is flushed once *)

Local Open Scope nat_scope.

Lemma option_map_iter_1 {A} (f : A -> A) (x : option A) :
  option_map (Nat.iter 1 f) x = option_map f x.
Proof. destruct x; reflexivity. Qed.

Lemma entryFlushed_adjustAll {P F U} `{Timed U} ids (m : IdMap.t (Entry P F U)) id :
  (occ (IdMap.keys m) id > 0 -> occ ids id = 1) ->
  entryFlushed m (adjustAll flushEntry ids m) id.
Proof.
  intros Hone e He. rewrite find_adjustAll, He.
  rewrite Hone; [reflexivity|]. apply in_keys_occ. eapply find_in_keys. exact He.
Qed.

Lemma flushedStore_entityFlushed T s id :
  uniqueIds s -> touchedOnce T s -> In id (t_sparse T) ->
  entityFlushed s (flushedStore T s) id.
Proof.
  intros Hu Ht Hin.
  destruct (Ht id) as (Hp & Hb & Hg & Hl & Hj & Ho & Hc & Hs).
  pose proof (uniqueIds_occ id Hu) as H1. rewrite occ_allKeys in H1.
  apply in_keys_occ in Hin.
  assert (Hone : occ (t_sparse T) id = 1) by lia.
  unfold entityFlushed, flushedStore.
  cbn [platforms_ beams_ gates_ lasers_ projectors_ lobGroups_ customRenderings_
       genericData_ categoryData_ dataTableManager_].
  repeat apply conj;
    try (apply entryFlushed_adjustAll; intros Hpos;
         unfold PlatformEntry, BeamEntry, GateEntry, LaserEntry, ProjectorEntry,
           LobGroupEntry, CustomRenderingEntry in *; lia);
    rewrite find_adjustAll, Hone; apply option_map_iter_1.
Qed.

Lemma occ_flat_map_self (l : list ObjectId) id : occ (flat_map (fun b => [b]) l) id = occ l id.
Proof.
  induction l as [|b l IH]; [reflexivity|].
  cbn [flat_map app]. rewrite !occ_cons, IH. reflexivity.
Qed.

Lemma platformT_touchedOnce s id :
  uniqueIds s -> IdMap.mem id (platforms_ s) = true -> touchedOnce (platformT s id) s.
Proof.
  intros Hu Hmem x.
  pose proof (fun y => uniqueIds_occ y Hu) as H1.
  assert (Hbs : forall y, occ (beamIdListForHost s id) y <= occ (IdMap.keys (beams_ s)) y)
    by (intros y; apply occ_keys_where_le).
  assert (HP : forall y, occ [id] y <= occ (IdMap.keys (platforms_ s)) y).
  { intros y. rewrite occ_cons, occ_nil. unfold id_eqb.
    destruct (N.eqb_spec y id) as [->|_]; [|lia].
    pose proof (occ_mem_true _ _ Hmem). lia. }
  assert (Hnd : NoDup (beamIdListForHost s id ++ [id])).
  { apply NoDup_of_occ_le_one. intros y. rewrite occ_app.
    specialize (H1 y). rewrite occ_allKeys in H1.
    specialize (Hbs y). specialize (HP y). lia. }
  assert (Hnd' : NoDup (beamIdListForHost s id)).
  { apply NoDup_of_occ_le_one. intros y.
    specialize (H1 y). rewrite occ_allKeys in H1. specialize (Hbs y). lia. }
  unfold platformT.
  cbn [t_platforms t_beams t_gates t_lasers t_projectors t_lobGroups t_customRenderings
       t_sparse].
  repeat apply conj.
  - apply HP.
  - apply Hbs.
  - apply (occ_hostedBy_le (fun e : GateEntry => GateProperties.hostid (properties e))
             (gates_ s) x Hnd').
  - apply occ_keys_where_le.
  - pose proof (occ_hostedBy_le
                  (fun e : ProjectorEntry => ProjectorProperties.hostid (properties e))
                  (projectors_ s) x Hnd) as Hle.
    rewrite flat_map_app in Hle. cbn [flat_map] in Hle. rewrite app_nil_r in Hle.
    exact Hle.
  - apply occ_keys_where_le.
  - apply occ_keys_where_le.
  - rewrite !occ_app, !occ_flat_map_app, occ_flat_map_self, !occ_cons, !occ_nil. lia.
Qed.

Lemma entityFlushed_flushNotify s s1 id P :
  entityFlushed s s1 id -> entityFlushed s (flushNotify P s1) id.
Proof. intros H. exact H. Qed.

Lemma sameSettings_flushNotify s s1 P :
  sameSettings s s1 -> sameSettings s (flushNotify P s1).
Proof. intros H. exact H. Qed.

Lemma flush_platform_run s P :
  P <> 0%N -> IdMap.mem P (platforms_ s) = true ->
  flush P FLUSH_RECURSIVE FLUSH_ALL s
  = (0%Z, flushNotify P (flushedStore (platformT s P) s)).
Proof.
  intros Hnz Hmem.
  destruct has_field_all as (_ & _ & _ & _ & _ & He).
  unfold flush. rewrite He. unfold flush_range.
  assert (Hz : id_eqb P 0%N = false) by (apply N.eqb_neq; exact Hnz).
  rewrite Hz, (objectType_platform _ _ Hmem). cbn [ObjectType_eqb].
  rewrite flushEntity_platform. reflexivity.
Qed.

(** Claim C7: [flush(P, FLUSH_RECURSIVE, FLUSH_ALL)] on a platform [P] of
    a store with unique ids ([P] is not the scenario id 0) returns 0 and
    leaves a store in which [P] has been flushed: the updates and the
    commands of its entry, its category data, its generic data and its data
    tables.  So has every beam, laser, projector, LOB group and custom
    rendering hosted on [P] and every gate and projector hosted on one of
    those beams.  Every container holds the same ids with the same
    properties and preferences as before, so [objectType] and [idList]
    answer as before: nothing is removed. *)
Theorem flush_platform_recursive_all s P :
  uniqueIds s -> P <> 0%N -> IdMap.mem P (platforms_ s) = true ->
  exists s',
    flush P FLUSH_RECURSIVE FLUSH_ALL s = (0%Z, s')
    /\ entityFlushed s s' P
    /\ (forall c, hostedOnPlatform s P c -> entityFlushed s s' c)
    /\ (forall b g, In b (beamIdListForHost s P) -> hostedOnBeam s b g ->
                    entityFlushed s s' g)
    /\ sameSettings s s'
    /\ (forall id, objectType s' id = objectType s id)
    /\ (forall type, idList s' type = idList s type).
Proof.
  intros Hu Hnz Hmem.
  exists (flushNotify P (flushedStore (platformT s P) s)).
  pose proof (@platformT_touchedOnce s P Hu Hmem) as Hto.
  assert (Hset : sameSettings s (flushNotify P (flushedStore (platformT s P) s)))
    by apply sameSettings_flushNotify, sameSettings_flushedStore.
  destruct (sameSettings_queries Hset) as (Hty & Hids & _).
  assert (Hall : forall c, In c (t_sparse (platformT s P)) ->
                           entityFlushed s (flushNotify P (flushedStore (platformT s P) s)) c).
  { intros c Hc. apply entityFlushed_flushNotify.
    apply flushedStore_entityFlushed; assumption. }
  split; [apply flush_platform_run; assumption|].
  split; [|split; [|split; [|split; [exact Hset|split; [exact Hty|exact Hids]]]]].
  - apply Hall. unfold platformT. cbn [t_sparse]. rewrite !in_app_iff. cbn [In]. tauto.
  - intros c Hc. apply Hall. unfold hostedOnPlatform in Hc. unfold platformT.
    cbn [t_sparse]. rewrite !in_app_iff in *. rewrite in_flat_map.
    destruct Hc as [Hc | [Hc | [Hc | [Hc | Hc]]]]; try tauto.
    left. exists c. split; [exact Hc|]. rewrite !in_app_iff. cbn [In]. tauto.
  - intros b g Hb Hg. apply Hall. unfold hostedOnBeam in Hg. unfold platformT.
    cbn [t_sparse]. rewrite !in_app_iff in *. rewrite in_flat_map.
    left. exists b. split; [exact Hb|]. rewrite !in_app_iff. tauto.
Qed.

End FlushFacts.

(** ** Transactions *)

Section TransactionFacts.
Context {X : Collaborators}.

Lemma sameObservableState_refl s : sameObservableState s s.
Proof. constructor; reflexivity. Qed.




End TransactionFacts.

Section PrefsFacts.
Context {X : Collaborators}.

Lemma nameChangeRule_spec modified current :
  nameChangeRule modified current = true
  <-> (CommonPrefs.name modified <> CommonPrefs.name current
       \/ (CommonPrefs.usealias modified = true
           /\ CommonPrefs.alias modified <> CommonPrefs.alias current)
       \/ CommonPrefs.usealias modified <> CommonPrefs.usealias current).
Proof.
  unfold nameChangeRule.
  rewrite !orb_true_iff, andb_true_iff, !negb_true_iff, !String.eqb_neq.
  rewrite Bool.eqb_false_iff. tauto.
Qed.

Lemma nameChangeRule_false modified current :
  nameChangeRule modified current = false
  <-> ~ (CommonPrefs.name modified <> CommonPrefs.name current
         \/ (CommonPrefs.usealias modified = true
             /\ CommonPrefs.alias modified <> CommonPrefs.alias current)
         \/ CommonPrefs.usealias modified <> CommonPrefs.usealias current).
Proof.
  rewrite <- nameChangeRule_spec. destruct (nameChangeRule modified current); split;
    congruence.
Qed.

Lemma round_calls_single ls n :
  round_calls ls [n] = List.map (fun l => Called l n) ls.
Proof.
  unfold round_calls. induction ls as [|l ls IH]; [reflexivity|].
  simpl. rewrite <- IH. reflexivity.
Qed.

Lemma round_calls_pair ls n m :
  round_calls ls [n; m] = flat_map (fun l => [Called l n; Called l m]) ls.
Proof. reflexivity. Qed.

(** Claim C6: the name-change rule of a preferences transaction.  A
    transaction opened by [mutable_platformPrefs] (or a sibling) on an
    entity, whose scratch copy the caller edited so that it serialises
    differently from the live preferences, is committed and then released.
    The commit records a name change exactly when the name differs, or the
    alias differs while the edited preferences have aliasing on, or the
    usealias flag differs.  On release every listener receives
    [onPrefsChange]; it receives [onNameChange] right after it exactly
    when a name change was recorded; and the name cache is rewritten
    exactly when a name change was recorded and the old and new names
    differ. *)
Theorem prefs_commit_name_change_rule P F U (HI : HasId P) (HC : HasCommonPrefs F)
  (HM : Message F) (c : Container P F U) (edit : F -> F) id s entry t0 t1 s1 t2 s2 :
  IdMap.find id (entriesOf c s) = Some entry ->
  SerializeAsString (edit (preferences entry)) <> SerializeAsString (preferences entry) ->
  mutable_prefs c id s = Some t0 ->
  MutableSettings_commit (MutableSettings_edit edit t0) s = (t1, s1) ->
  MutableSettings_release t1 s1 = (t2, s2) ->
  let modified := commonprefs_of (edit (preferences entry)) in
  let current := commonprefs_of (preferences entry) in
  let eid := id_of (properties entry) in
  let recorded :=
    CommonPrefs.name modified <> CommonPrefs.name current
    \/ (CommonPrefs.usealias modified = true
        /\ CommonPrefs.alias modified <> CommonPrefs.alias current)
    \/ CommonPrefs.usealias modified <> CommonPrefs.usealias current in
  (ms_nameChange_ t1 = true <-> recorded)
  /\ hasChanged_ s1 = true
  /\ (recorded ->
      log (fabric_ s2)
      = log (fabric_ s1)
        ++ flat_map (fun l => [Called l (onPrefsChange eid); Called l (onNameChange eid)])
             (listeners_ (fabric_ s1)))
  /\ (~ recorded ->
      log (fabric_ s2)
      = log (fabric_ s1)
        ++ List.map (fun l => Called l (onPrefsChange eid)) (listeners_ (fabric_ s1)))
  /\ (recorded -> CommonPrefs.name modified <> CommonPrefs.name current ->
      entityNameCache_ s2
      = entityNameCache_ (nameCache_nameChange (CommonPrefs.name modified)
                            (CommonPrefs.name current) eid s1))
  /\ (~ recorded \/ CommonPrefs.name modified = CommonPrefs.name current ->
      entityNameCache_ s2 = entityNameCache_ s1).
Proof.
  intros Hfind Hser Hopen Hcommit Hrelease modified current eid recorded.
  unfold mutable_prefs in Hopen. rewrite Hfind in Hopen. injection Hopen as <-.
  unfold MutableSettings_commit, MutableSettings_edit, MutableSettings_new in Hcommit.
  cbn [ms_currentSettings_ ms_modifiedSettings_ ms_id_ ms_notified_ ms_committed_
       ms_nameChange_ ms_oldName_ ms_newName_ preferencesPointer deref assign] in Hcommit.
  unfold getPrefs in Hcommit. rewrite Hfind in Hcommit. cbn [option_map] in Hcommit.
  apply String.eqb_neq in Hser. rewrite Hser in Hcommit. cbn [negb] in Hcommit.
  fold modified current eid in Hcommit.
  destruct (nameChangeRule modified current) eqn:Hrule.
  - assert (Hrec : recorded) by (apply nameChangeRule_spec; exact Hrule).
    injection Hcommit as <- <-.
    unfold MutableSettings_release in Hrelease.
    cbn [ms_currentSettings_ ms_modifiedSettings_ ms_id_ ms_notified_ ms_committed_
         ms_nameChange_ ms_oldName_ ms_newName_ andb negb] in Hrelease.
    injection Hrelease as <- <-.
    repeat apply conj.
    + intros _. exact Hrec.
    + reflexivity.
    + reflexivity.
    + intros _. destruct (String.eqb (CommonPrefs.name current) (CommonPrefs.name modified));
        cbn; rewrite app_nil_r; reflexivity.
    + intros Hn. contradiction.
    + intros _ Hne.
      assert (Hneq : String.eqb (CommonPrefs.name current) (CommonPrefs.name modified) = false)
        by (apply String.eqb_neq; congruence).
      rewrite Hneq. reflexivity.
    + intros [Hn | Heq]; [contradiction|].
      assert (Heqb : String.eqb (CommonPrefs.name current) (CommonPrefs.name modified) = true)
        by (apply String.eqb_eq; congruence).
      rewrite Heqb. reflexivity.
  - assert (Hrec : ~ recorded) by (apply nameChangeRule_false; exact Hrule).
    injection Hcommit as <- <-.
    unfold MutableSettings_release in Hrelease.
    cbn [ms_currentSettings_ ms_modifiedSettings_ ms_id_ ms_notified_ ms_committed_
         ms_nameChange_ ms_oldName_ ms_newName_ andb negb] in Hrelease.
    injection Hrelease as <- <-.
    repeat apply conj.
    + discriminate.
    + intros Hr. contradiction.
    + reflexivity.
    + intros Hr. contradiction.
    + intros _. cbn. rewrite app_nil_r. apply f_equal. apply round_calls_single.
    + intros Hr. contradiction.
    + intros _. reflexivity.
Qed.

End PrefsFacts.

(** ** The notification fabric *)

Section FabricFacts.

Lemma checkForRemoval_nothing localCopy f :
  justRemoved_ f = [] -> checkForRemoval_ localCopy f = (localCopy, f).
Proof. intros H. unfold checkForRemoval_. rewrite H. reflexivity. Qed.

Variable nested : list Round -> Fabric -> option Fabric.

Lemma invokeEntry_silent r i localCopy f :
  justRemoved_ f = [] ->
  invokeEntry silent nested r i localCopy f
  = Some (localCopy,
          append_log (match nth i localCopy None with
                      | Some l => List.map (Called l) r
                      | None => []
                      end) f).
Proof.
  revert f. induction r as [|n r IH]; intros f Hj.
  - cbn [invokeEntry]. destruct f as [ls jr lg]. unfold append_log. cbn.
    destruct (nth i localCopy None); cbn; rewrite !app_nil_r; reflexivity.
  - cbn [invokeEntry]. destruct (nth i localCopy None) as [l|] eqn:Hn.
    + cbn [silent runActions].
      rewrite checkForRemoval_nothing by exact Hj.
      rewrite IH by exact Hj. try rewrite Hn.
      destruct f as [ls jr lg]. unfold append_log. cbn.
      rewrite <- app_assoc. reflexivity.
    + destruct f as [ls jr lg]. unfold append_log. cbn. rewrite !app_nil_r. reflexivity.
Qed.

Lemma dispatchLoop_silent r ls done f :
  justRemoved_ f = [] ->
  dispatchLoop silent nested r (List.length ls) (List.length done)
    (List.map Some (done ++ ls)) f
  = Some (List.map Some (done ++ ls), append_log (round_calls ls r) f).
Proof.
  revert done f. induction ls as [|l ls IH]; intros done f Hj.
  - cbn. destruct f as [lsn jr lg]. unfold append_log. cbn. rewrite !app_nil_r. reflexivity.
  - cbn [List.length dispatchLoop].
    rewrite invokeEntry_silent by exact Hj.
    assert (Hn : nth (List.length done) (List.map Some (done ++ l :: ls)) None = Some l).
    { rewrite map_app, app_nth2 by (rewrite length_map; lia).
      rewrite length_map, Nat.sub_diag. reflexivity. }
    rewrite Hn.
    replace (done ++ l :: ls) with ((done ++ [l]) ++ ls) by (rewrite <- app_assoc; reflexivity).
    replace (S (List.length done)) with (List.length (done ++ [l]))
      by (rewrite length_app; cbn; lia).
    rewrite IH by (destruct f; exact Hj).
    destruct f as [lsn jr lg]. unfold append_log, round_calls. cbn.
    rewrite <- !app_assoc. reflexivity.
Qed.

Lemma dispatchRounds_silent rounds ls f :
  justRemoved_ f = [] ->
  dispatchRounds silent nested rounds (List.map Some ls) f
  = Some (append_log (flat_map (round_calls ls) rounds) f).
Proof.
  revert f. induction rounds as [|r rounds IH]; intros f Hj.
  - cbn. destruct f as [lsn jr lg]. unfold append_log. cbn. rewrite !app_nil_r. reflexivity.
  - cbn [dispatchRounds]. rewrite length_map.
    pose proof (@dispatchLoop_silent r ls [] f Hj) as Hloop.
    cbn [app List.length] in Hloop. rewrite Hloop.
    rewrite IH by (destruct f; exact Hj).
    destruct f as [lsn jr lg]. unfold append_log. cbn.
    rewrite <- app_assoc. reflexivity.
Qed.

End FabricFacts.

(** with observers that do not call back, a pass is [deliver]: this is the
    pass the store operations run *)
Lemma dispatch_silent fuel rounds f :
  dispatch (S fuel) silent rounds f = Some (deliver rounds f).
Proof.
  cbn [dispatch]. rewrite dispatchRounds_silent by (destruct f; reflexivity).
  reflexivity.
Qed.

(** Claim C9: a listener removed during a pass can still be called in that
    pass.  The fabric holds listeners 100 and 101 and [update] runs its
    [onChange] loop.  Listener 100 unregisters listener 101 and, still
    inside its callback, flushes an entity.  The pass that [flush] runs
    clears [justRemoved_], so when the callback returns
    [checkForRemoval_] finds nothing to reset and the [onChange] loop goes
    on to call listener 101, although the log shows it unregistered
    earlier in the same pass.  Without the nested call the same removal
    is honoured: listener 101 is not called. *)
Theorem removed_listener_called_after_nested_pass :
  dispatch 2 ex_behaviour [[onChange]] ex_fabric
  = Some (mkFabric [100]%nat []
            [Called 100%nat onChange; Unregistered 101%nat;
             Called 100%nat (onFlush 1%N); Called 101%nat onChange])
  /\ no_call_after_removal
       [Called 100%nat onChange; Unregistered 101%nat;
        Called 100%nat (onFlush 1%N); Called 101%nat onChange] = false
  /\ dispatch 2 ex_behaviour_plain [[onChange]] ex_fabric
     = Some (mkFabric [100]%nat [] [Called 100%nat onChange; Unregistered 101%nat])
  /\ no_call_after_removal [Called 100%nat onChange; Unregistered 101%nat] = true.
Proof. repeat split. Qed.

(** * The scenario, evaluated *)

Lemma Some_inj (A : Type) (a b : A) : Some a = Some b -> a = b.
Proof. intros H. injection H as ->. reflexivity. Qed.

Lemma Ok_inj (A : Type) (a b : A) : Ok a = Ok b -> a = b.
Proof. intros H. injection H as ->. reflexivity. Qed.

Lemma ex_store_uniqueIds : uniqueIds ex_store.
Proof.
  unfold uniqueIds.
  change (allKeys ex_store) with [1; 2; 3; 4; 5; 6; 9; 7; 8; 10]%N.
  repeat (constructor; [simpl; intuition discriminate|]). constructor.
Qed.





Lemma target_beam_without_positions_is_cleared_witness :
  @update_skipped ex_store 5 = false
  /\ @update refCollaborators Release 5 ex_store = Ok ex_store_at_5
  /\ @targetBeamsCleared ex_store_at_5
  /\ @targetBeamsCleared ex_store_at_6
  /\ exists beam,
       IdMap.find 3%N (beams_ ex_store) = Some beam
       /\ current (updates beam) = Some (BeamUpdate.mk 4 0 0 0)
  /\ exists beam',
       IdMap.find 3%N (beams_ ex_store_at_5) = Some beam'
       /\ @targetBeamUnresolved ex_store_at_5 beam'
       /\ current (updates beam') = None.
Proof.
  assert (Hs : @update_skipped ex_store 5 = false) by (vm_compute; reflexivity).
  assert (Hu : @update refCollaborators Release 5 ex_store = Ok ex_store_at_5)
    by (vm_compute; reflexivity).
  destruct (@target_beam_without_positions_is_cleared refCollaborators Release 5 ex_store Hs)
    as [_ H].
  destruct (H ex_store_at_5 Hu) as [H5 Hall].
  split; [exact Hs|]. split; [exact Hu|]. split; [exact H5|]. split.
  { apply (Hall [6]). vm_compute. reflexivity. }
  eexists. split; [vm_compute; reflexivity|]. split; [reflexivity|].
  destruct (IdMap.find 3%N (beams_ ex_store_at_5)) as [b|] eqn:Hfind;
    [|vm_compute in Hfind; discriminate].
  exists b. split; [reflexivity|].
  assert (Hunres : @targetBeamUnresolved ex_store_at_5 b).
  { vm_compute in Hfind. injection Hfind as <-.
    right. right. right. vm_compute. reflexivity. }
  split; [exact Hunres|].
  apply (H5 3%N b Hfind); [| | exact Hunres];
    vm_compute in Hfind; injection Hfind as <-; reflexivity.
Defined.


(** in a debug build, a drawn target gate whose host is a target beam
    without a target id does not stop [update]: the pass completes *)
Lemma target_gate_debug_counterexample :
  exists gate beam,
    IdMap.find 4%N (gates_ ex_store_no_targetid) = Some gate
    /\ GateProperties.is_target (properties gate) = true
    /\ CommonPrefs.datadraw (GatePrefs.commonprefs (preferences gate)) = true
    /\ getBeamForGate_ ex_store_no_targetid (GateProperties.hostid (properties gate))
       = Some beam
    /\ BeamPrefs.has_targetid (preferences beam) = false
    /\ @update refCollaborators Debug 5 ex_store_no_targetid = Ok ex_store_no_targetid_at_5.
Proof.
  do 2 eexists. repeat split; vm_compute; reflexivity.
Qed.

Lemma target_gate_host_requirement_witness :
  @update_skipped ex_store_plain_beam 5 = false
  /\ @update refCollaborators Release 5 ex_store_plain_beam = Ok ex_store_plain_beam_at_5
  /\ (exists gate',
        IdMap.find 4%N (gates_ ex_store_plain_beam_at_5) = Some gate'
        /\ @hostNotTarget ex_store_plain_beam_at_5 gate'
        /\ current (updates gate') = None)
  /\ (forall s', @update refCollaborators Debug 5 ex_store_plain_beam <> Ok s').
Proof.
  assert (Hs : @update_skipped ex_store_plain_beam 5 = false) by (vm_compute; reflexivity).
  assert (Hu : @update refCollaborators Release 5 ex_store_plain_beam
               = Ok ex_store_plain_beam_at_5) by (vm_compute; reflexivity).
  destruct (@target_gate_host_requirement refCollaborators 5 ex_store_plain_beam Hs)
    as ((s' & Hu' & Hrel) & Hdbg & _).
  rewrite Hu in Hu'. apply Ok_inj in Hu'. subst s'.
  split; [exact Hs|]. split; [exact Hu|]. split.
  - destruct (IdMap.find 4%N (gates_ ex_store_plain_beam_at_5)) as [g|] eqn:Hfind;
      [|vm_compute in Hfind; discriminate].
    exists g. split; [reflexivity|].
    assert (Hn : @hostNotTarget ex_store_plain_beam_at_5 g).
    { vm_compute in Hfind. injection Hfind as <-.
      eexists. split; vm_compute; reflexivity. }
    split; [exact Hn|].
    apply (Hrel 4%N g Hfind); [| | right; left; exact Hn];
      vm_compute in Hfind; injection Hfind as <-; reflexivity.
  - destruct (IdMap.find 4%N (gates_ ex_store_plain_beam)) as [g|] eqn:Hfind;
      [|vm_compute in Hfind; discriminate].
    apply (Hdbg 4%N g Hfind);
      vm_compute in Hfind; injection Hfind as <-;
      try (vm_compute; reflexivity).
    eexists. split; vm_compute; reflexivity.
Defined.


Lemma prefs_commit_name_change_rule_witness :
  exists t0 t1 s1 t2 s2,
    mutable_platformPrefs 1%N ex_store = Some t0
    /\ @MutableSettings_commit refCollaborators _ _ ref_Message_PlatformPrefs
         (MutableSettings_edit (ex_rename "delta") t0) ex_store = (t1, s1)
    /\ MutableSettings_release t1 s1 = (t2, s2)
    /\ ms_nameChange_ t1 = true
    /\ log (fabric_ s2)
       = [Called 100%nat (onPrefsChange 1%N); Called 100%nat (onNameChange 1%N);
          Called 101%nat (onPrefsChange 1%N); Called 101%nat (onNameChange 1%N)]
    /\ List.map fst (entityNameCache_ s2)
       = [("delta"%string, 1%N); ("bravo"%string, 2%N)].
Proof.
  destruct (mutable_platformPrefs 1%N ex_store) as [t0|] eqn:Hopen;
    [|vm_compute in Hopen; discriminate].
  destruct (@MutableSettings_commit refCollaborators _ _ ref_Message_PlatformPrefs
              (MutableSettings_edit (ex_rename "delta") t0) ex_store) as [t1 s1] eqn:Hcommit.
  destruct (MutableSettings_release t1 s1) as [t2 s2] eqn:Hrelease.
  exists t0, t1, s1, t2, s2.
  split; [reflexivity|]. split; [exact Hcommit|]. split; [exact Hrelease|].
  assert (Hfind : IdMap.find 1%N (entriesOf Platforms ex_store)
                  = Some (snd (ex_platform 1%N "alpha" [PlatformUpdate.mk 5 (Some (1, 2, 3))])))
    by reflexivity.
  assert (Hser : @SerializeAsString _ ref_Message_PlatformPrefs
                   (ex_rename "delta"
                      (preferences
                         (snd (ex_platform 1%N "alpha" [PlatformUpdate.mk 5 (Some (1, 2, 3))]))))
                 <> @SerializeAsString _ ref_Message_PlatformPrefs
                      (preferences
                         (snd (ex_platform 1%N "alpha" [PlatformUpdate.mk 5 (Some (1, 2, 3))]))))
    by (vm_compute; discriminate).
  destruct (@prefs_commit_name_change_rule refCollaborators _ _ _ _ _ ref_Message_PlatformPrefs
              Platforms (ex_rename "delta") 1%N ex_store _ t0 t1 s1 t2 s2
              Hfind Hser Hopen Hcommit Hrelease)
    as (Hrule & _ & Hlog & _ & Hcache & _).
  assert (Hrec : CommonPrefs.name (PlatformPrefs.commonprefs
                   (ex_rename "delta"
                      (preferences
                         (snd (ex_platform 1%N "alpha" [PlatformUpdate.mk 5 (Some (1, 2, 3))])))))
                 <> CommonPrefs.name (PlatformPrefs.commonprefs
                      (preferences
                         (snd (ex_platform 1%N "alpha" [PlatformUpdate.mk 5 (Some (1, 2, 3))])))))
    by (vm_compute; discriminate).
  split; [apply Hrule; left; exact Hrec|].
  split.
  - rewrite (Hlog (or_introl Hrec)).
    vm_compute in Hopen. apply Some_inj in Hopen. subst t0.
    vm_compute in Hcommit. apply (f_equal snd) in Hcommit. cbn [snd] in Hcommit. subst s1.
    reflexivity.
  - rewrite (Hcache (or_introl Hrec) Hrec).
    vm_compute in Hopen. apply Some_inj in Hopen. subst t0.
    vm_compute in Hcommit. apply (f_equal snd) in Hcommit. cbn [snd] in Hcommit. subst s1.
    reflexivity.
Defined.

Lemma flush_platform_recursive_all_witness :
  exists s',
    @flush refCollaborators 1%N FLUSH_RECURSIVE FLUSH_ALL ex_store = (0%Z, s')
    /\ (exists p,
          IdMap.find 1%N (platforms_ s') = Some p
          /\ updates_ (updates p) = []
          /\ properties p = PlatformProperties.mk 1%N 1%N
          /\ preferences p = PlatformPrefs.mk (ex_common "alpha" true) false)
    /\ (exists g, IdMap.find 4%N (gates_ s') = Some g /\ updates_ (updates g) = [])
    /\ IdMap.find 1%N (dataTableManager_ s') = Some [mkDataTable "track" []]
    /\ idList s' ALL = [1; 2; 3; 4; 5; 6; 9; 7; 8; 10]%N
    /\ objectType s' 4%N = GATE.
Proof.
  assert (Hnz : 1%N <> 0%N) by discriminate.
  assert (Hmem : IdMap.mem 1%N (platforms_ ex_store) = true) by reflexivity.
  destruct (@flush_platform_recursive_all refCollaborators ex_store 1%N
              ex_store_uniqueIds Hnz Hmem)
    as (s' & Hrun & HP & _ & Hg & _ & Hty & Hids).
  exists s'. split; [exact Hrun|].
  destruct HP as (Hplat & _ & _ & _ & _ & _ & _ & _ & _ & Htab).
  split.
  { eexists. split; [apply Hplat; reflexivity|]. repeat split. }
  split.
  { assert (Hb : In 3%N (beamIdListForHost ex_store 1%N)) by (vm_compute; auto).
    assert (Hh : hostedOnBeam ex_store 3%N 4%N) by (vm_compute; auto).
    destruct (Hg 3%N 4%N Hb Hh) as (_ & _ & Hgate & _).
    eexists. split; [apply Hgate; reflexivity|]. reflexivity. }
  split; [rewrite Htab; reflexivity|].
  split; [rewrite Hids; reflexivity|].
  rewrite Hty. reflexivity.
Defined.

(** * Further properties of the store *)

Ltac unalias :=
  unfold PlatformEntry, BeamEntry, GateEntry, LaserEntry, ProjectorEntry,
    LobGroupEntry, CustomRenderingEntry in *.

(** ** Queries *)

Section QueryFacts.
Context {X : Collaborators}.
Local Open Scope nat_scope.

(** the container an id is a key of, when ids are unique *)
Lemma uniqueIds_one_container s id :
  uniqueIds s ->
  occ (IdMap.keys (platforms_ s)) id + occ (IdMap.keys (beams_ s)) id
  + occ (IdMap.keys (gates_ s)) id + occ (IdMap.keys (lasers_ s)) id
  + occ (IdMap.keys (projectors_ s)) id + occ (IdMap.keys (lobGroups_ s)) id
  + occ (IdMap.keys (customRenderings_ s)) id <= 1.
Proof.
  intros Hu. pose proof (uniqueIds_occ id Hu) as Hle.
  rewrite occ_allKeys in Hle. exact Hle.
Qed.

Lemma mem_occ {V} id (m : IdMap.t V) :
  IdMap.mem id m = (0 <? occ (IdMap.keys m) id).
Proof.
  destruct (IdMap.mem id m) eqn:E.
  - apply occ_mem_true in E. symmetry. apply Nat.ltb_lt. lia.
  - apply occ_mem_false in E. rewrite E. reflexivity.
Qed.

Lemma find_occ {V} id (m : IdMap.t V) v :
  IdMap.find id m = Some v -> 0 < occ (IdMap.keys m) id.
Proof.
  intros H. apply find_in_keys in H. apply in_keys_occ in H. lia.
Qed.

Lemma keys_where_find {V} (p : V -> bool) (m : IdMap.t V) id :
  NoDup (IdMap.keys m) ->
  In id (IdMap.keys_where p m) <-> exists v, IdMap.find id m = Some v /\ p v = true.
Proof.
  intros Hnd. split.
  - intros H. apply in_keys_where in H. destruct H as (v & Hin & Hp).
    exists v. split; [|exact Hp]. now apply in_find_nodup.
  - intros (v & Hf & Hp). eapply keys_where_in; eauto using find_some_in.
Qed.

Lemma uniqueIds_nodup s :
  uniqueIds s ->
  NoDup (IdMap.keys (platforms_ s)) /\ NoDup (IdMap.keys (beams_ s))
  /\ NoDup (IdMap.keys (gates_ s)) /\ NoDup (IdMap.keys (lasers_ s))
  /\ NoDup (IdMap.keys (projectors_ s)) /\ NoDup (IdMap.keys (lobGroups_ s))
  /\ NoDup (IdMap.keys (customRenderings_ s)).
Proof.
  intros Hu.
  repeat split; apply nodup_keys_of_occ; intros id;
    pose proof (uniqueIds_one_container id Hu); lia.
Qed.

(** the type [objectType] reports for a key of each container, when ids
    are unique *)
Lemma objectType_of_key s id :
  uniqueIds s ->
  (IdMap.mem id (platforms_ s) = true -> objectType s id = PLATFORM)
  /\ (IdMap.mem id (beams_ s) = true -> objectType s id = BEAM)
  /\ (IdMap.mem id (gates_ s) = true -> objectType s id = GATE)
  /\ (IdMap.mem id (lasers_ s) = true -> objectType s id = LASER)
  /\ (IdMap.mem id (projectors_ s) = true -> objectType s id = PROJECTOR)
  /\ (IdMap.mem id (lobGroups_ s) = true -> objectType s id = LOB_GROUP)
  /\ (IdMap.mem id (customRenderings_ s) = true -> objectType s id = CUSTOM_RENDERING).
Proof.
  intros Hu. pose proof (uniqueIds_one_container id Hu) as H1.
  unfold objectType. rewrite !mem_occ.
  repeat split; intros H; apply Nat.ltb_lt in H;
    repeat match goal with
           | |- context [0 <? ?n] => destruct (Nat.ltb_spec 0 n)
           end; try reflexivity; lia.
Qed.

Lemma hostidOf_total {P F U} (hostid : P -> ObjectId) (m : IdMap.t (Entry P F U)) id :
  IdMap.mem id m = true -> exists h, hostidOf hostid m id = Ok h.
Proof.
  unfold hostidOf, IdMap.mem. destruct (IdMap.find id m); [eauto|discriminate].
Qed.

Lemma hostidOf_hosted {P F U} (hostid : P -> ObjectId) (m : IdMap.t (Entry P F U)) id h :
  NoDup (IdMap.keys m) ->
  hostidOf hostid m id = Ok h
  <-> In id (IdMap.keys_where (fun e => id_eqb (hostid (properties e)) h) m).
Proof.
  intros Hnd. rewrite keys_where_find by exact Hnd. unfold hostidOf. split.
  - destruct (IdMap.find id m) as [e|]; [|discriminate].
    intros H. apply Ok_inj in H. exists e. split; [reflexivity|].
    rewrite H. apply N.eqb_refl.
  - intros (e & -> & He). apply N.eqb_eq in He. now rewrite He.
Qed.

(** [entityHostId] never reads through a null pointer: the accessor it
    calls is chosen by [objectType], which has just found the entry.  When
    ids are unique, it answers [h] for every id the host lists report under
    [h]; a nonzero answer is always an id of the host lists; and platforms
    and unknown ids answer 0. *)
Theorem entityHostId_agrees_with_host_lists s childId :
  (exists h, entityHostId s childId = Ok h)
  /\ (objectType s childId = NONE -> entityHostId s childId = Ok 0%N)
  /\ (uniqueIds s ->
      (forall h, In childId (hostedIds s h) -> entityHostId s childId = Ok h)
      /\ (forall h, h <> 0%N -> entityHostId s childId = Ok h -> In childId (hostedIds s h))
      /\ (IdMap.mem childId (platforms_ s) = true -> entityHostId s childId = Ok 0%N)).
Proof.
  split; [|split; [|intros Hu]];
    [| intros Hn; unfold entityHostId; now rewrite Hn |].
  { unfold entityHostId, objectType.
    repeat match goal with
           | |- context [IdMap.mem childId ?m] =>
               let E := fresh "E" in destruct (IdMap.mem childId m) eqn:E
           end; eauto using hostidOf_total. }
  destruct (uniqueIds_nodup Hu) as (Np & Nb & Ng & Nl & Nj & No & Nc).
  destruct (objectType_of_key childId Hu) as (Tp & Tb & Tg & Tl & Tj & To & Tc).
  assert (Hty : forall P F U (m : IdMap.t (Entry P F U)) p,
             In childId (IdMap.keys_where p m) -> IdMap.mem childId m = true).
  { intros. apply mem_true_iff. eapply keys_where_keys; eauto. }
  split; [|split].
  - intros h Hin. unfold hostedIds in Hin. rewrite !in_app_iff in Hin.
    unfold entityHostId.
    destruct Hin as [H|[H|[H|[H|[H|H]]]]]; pose proof (Hty _ _ _ _ _ H) as Hm.
    + rewrite (Tb Hm). now apply hostidOf_hosted.
    + rewrite (Tg Hm). now apply hostidOf_hosted.
    + rewrite (Tl Hm). now apply hostidOf_hosted.
    + rewrite (Tj Hm). now apply hostidOf_hosted.
    + rewrite (To Hm). now apply hostidOf_hosted.
    + rewrite (Tc Hm). now apply hostidOf_hosted.
  - intros h Hh H. unfold hostedIds. rewrite !in_app_iff.
    unfold entityHostId in H.
    destruct (objectType s childId).
    + apply Ok_inj in H. congruence.
    + apply Ok_inj in H. congruence.
    + left. now apply hostidOf_hosted in H.
    + right; left. now apply hostidOf_hosted in H.
    + right; right; left. now apply hostidOf_hosted in H.
    + right; right; right; left. now apply hostidOf_hosted in H.
    + right; right; right; right; left. now apply hostidOf_hosted in H.
    + right; right; right; right; right. now apply hostidOf_hosted in H.
    + apply Ok_inj in H. congruence.
  - intros Hm. unfold entityHostId. now rewrite (Tp Hm).
Qed.

Lemma getPrefs_mem {P F U} id (m : IdMap.t (Entry P F U)) :
  getPrefs id m = option_map (@preferences P F U) (IdMap.find id m)
  /\ (IdMap.mem id m = false -> getPrefs id m = None).
Proof.
  split; [reflexivity|]. intros H. apply mem_false_iff in H.
  unfold getPrefs. now rewrite H.
Qed.

Lemma commonPrefs_None_iff s id : commonPrefs s id = None <-> objectType s id = NONE.
Proof.
  unfold commonPrefs, objectType, getPrefs, IdMap.mem.
  unfold PlatformEntry, BeamEntry, GateEntry, LaserEntry, ProjectorEntry,
    LobGroupEntry, CustomRenderingEntry.
  repeat match goal with
         | |- context [@IdMap.find ?V id ?m] => destruct (@IdMap.find V id m)
         end; simpl; split; intro; try discriminate; reflexivity.
Qed.

(** [commonPrefs] searches the containers in an order of its own
    (lob groups before projectors).  It finds nothing exactly for the ids
    [objectType] reports as [NONE]; and when ids are unique the order does
    not matter: the preferences returned are those of the entry held under
    the id, whichever container holds it. *)
Theorem commonPrefs_is_the_entry_s_prefs s id :
  (commonPrefs s id = None <-> objectType s id = NONE)
  /\ (uniqueIds s ->
      (forall e, IdMap.find id (platforms_ s) = Some e ->
                 commonPrefs s id = Some (PlatformPrefs.commonprefs (preferences e)))
      /\ (forall e, IdMap.find id (beams_ s) = Some e ->
                    commonPrefs s id = Some (BeamPrefs.commonprefs (preferences e)))
      /\ (forall e, IdMap.find id (gates_ s) = Some e ->
                    commonPrefs s id = Some (GatePrefs.commonprefs (preferences e)))
      /\ (forall e, IdMap.find id (lasers_ s) = Some e ->
                    commonPrefs s id = Some (LaserPrefs.commonprefs (preferences e)))
      /\ (forall e, IdMap.find id (projectors_ s) = Some e ->
                    commonPrefs s id = Some (ProjectorPrefs.commonprefs (preferences e)))
      /\ (forall e, IdMap.find id (lobGroups_ s) = Some e ->
                    commonPrefs s id = Some (LobGroupPrefs.commonprefs (preferences e)))
      /\ (forall e, IdMap.find id (customRenderings_ s) = Some e ->
                    commonPrefs s id
                    = Some (CustomRenderingPrefs.commonprefs (preferences e)))).
Proof.
  split.
  - apply commonPrefs_None_iff.
  - intros Hu. pose proof (uniqueIds_one_container id Hu) as H1.
    assert (Hnone : forall P F U (m : IdMap.t (Entry P F U)),
               occ (IdMap.keys m) id = 0 -> getPrefs id m = None).
    { intros P F U m H0. apply getPrefs_mem. rewrite mem_occ, H0. reflexivity. }
    unfold PlatformEntry, BeamEntry, GateEntry, LaserEntry, ProjectorEntry,
      LobGroupEntry, CustomRenderingEntry in *.
    repeat split; intros e He; pose proof (find_occ _ _ He) as Hpos;
      unfold commonPrefs;
      repeat first
        [ rewrite (Hnone _ _ _ (platforms_ s)) by lia
        | rewrite (Hnone _ _ _ (beams_ s)) by lia
        | rewrite (Hnone _ _ _ (gates_ s)) by lia
        | rewrite (Hnone _ _ _ (lasers_ s)) by lia
        | rewrite (Hnone _ _ _ (projectors_ s)) by lia
        | rewrite (Hnone _ _ _ (lobGroups_ s)) by lia
        | rewrite (Hnone _ _ _ (customRenderings_ s)) by lia ];
      unfold getPrefs; rewrite He; reflexivity.
Qed.

End QueryFacts.

(** ** Interpolation *)

Section InterpolationFacts.
Context {X : Collaborators}.

Lemma samePointer_eq a b : samePointer a b = true <-> a = b.
Proof.
  destruct a as [x|], b as [y|]; simpl; split; try congruence.
  - intros H. apply Nat.eqb_eq in H. now subst.
  - intros H. injection H as ->. apply Nat.eqb_refl.
Qed.

(** [enableInterpolation] answers [state] only if an interpolator is set,
    and its answer is what [isInterpolationEnabled] answers afterwards.
    The store it leaves differs from the one it was given in the enable
    flag, and in the change flag, which is raised exactly when the enable
    flag moved; [interpolator] then hands out the interpolator if and only
    if the answer was true.  Asking again changes nothing. *)
Theorem enableInterpolation_answer state s :
  fst (enableInterpolation state s) = state && notNull (interpolator_ s)
  /\ isInterpolationEnabled (snd (enableInterpolation state s))
     = fst (enableInterpolation state s)
  /\ snd (enableInterpolation state s)
     = set_hasChanged_
         (hasChanged_ s
          || negb (Bool.eqb (interpolationEnabled_ s) (fst (enableInterpolation state s))))
         (set_interpolationEnabled_ (fst (enableInterpolation state s)) s)
  /\ interpolator (snd (enableInterpolation state s))
     = (if fst (enableInterpolation state s) then interpolator_ s else None)
  /\ enableInterpolation state (snd (enableInterpolation state s))
     = enableInterpolation state s.
Proof.
  destruct s as [b t hc en i dl bc p be g l pr lo cr gd cd dt nc dp fb nl].
  unfold enableInterpolation, isInterpolationEnabled, interpolator.
  destruct state, i as [i|], en, hc; simpl; repeat split; reflexivity.
Qed.

(** A call that moves the interpolation state, or that installs a
    different interpolator, raises the change flag, so that the next
    [update] is not skipped even at the time of the last one; a call that
    moves nothing leaves the store as it was. *)
Theorem interpolation_change_forces_update s time :
  (forall state,
      fst (enableInterpolation state s) <> interpolationEnabled_ s ->
      update_skipped (snd (enableInterpolation state s)) time = false)
  /\ (forall state,
         fst (enableInterpolation state s) = interpolationEnabled_ s ->
         snd (enableInterpolation state s) = s)
  /\ (forall i, i <> interpolator_ s ->
                update_skipped (setInterpolator i s) time = false
                /\ interpolator_ (setInterpolator i s) = i)
  /\ setInterpolator (interpolator_ s) s = s.
Proof.
  destruct s as [b t hc en i dl bc p be g l pr lo cr gd cd dt nc dp fb nl].
  unfold enableInterpolation, setInterpolator, update_skipped. simpl.
  repeat split.
  - intros state. destruct state, i as [i|], en; simpl; intros H;
      try reflexivity; congruence.
  - intros state. destruct state, i as [i|], en; simpl; intros H;
      try reflexivity; congruence.
  - destruct (samePointer i i0) eqn:E.
    + apply samePointer_eq in E. congruence.
    + reflexivity.
  - destruct (samePointer i i0) eqn:E.
    + apply samePointer_eq in E. congruence.
    + reflexivity.
  - assert (E : samePointer i i = true) by now apply samePointer_eq.
    rewrite E. reflexivity.
Qed.

(** Taking the interpolator away disables interpolation without touching
    the enable flag: [isInterpolationEnabled] and [interpolator] answer no
    at once, and installing an interpolator later brings interpolation
    back, with no call of [enableInterpolation], exactly when the flag was
    set before. *)
Theorem interpolator_removed_and_restored s j :
  isInterpolationEnabled (setInterpolator None s) = false
  /\ interpolator (setInterpolator None s) = None
  /\ interpolationEnabled_ (setInterpolator None s) = interpolationEnabled_ s
  /\ isInterpolationEnabled (setInterpolator (Some j) (setInterpolator None s))
     = interpolationEnabled_ s
  /\ interpolator (setInterpolator (Some j) (setInterpolator None s))
     = (if interpolationEnabled_ s then Some j else None).
Proof.
  destruct s as [b t hc en i dl bc p be g l pr lo cr gd cd dt nc dp fb nl].
  unfold setInterpolator, isInterpolationEnabled, interpolator.
  destruct i as [i|], en; simpl; repeat split; reflexivity.
Qed.

End InterpolationFacts.

(** ** What a pass of [update] keeps and tells *)

Section UpdateFrame.
Context {X : Collaborators}.

Lemma propertiesOf_mapi {P F U} (f : ObjectId -> Entry P F U -> Entry P F U) m :
  (forall k e, properties (f k e) = properties e) ->
  propertiesOf (IdMap.mapi f m) = propertiesOf m.
Proof.
  intros Hf. unfold propertiesOf, IdMap.mapi. rewrite map_map. simpl.
  apply map_ext. intros [k e]. simpl. now rewrite Hf.
Qed.

Lemma propertiesOf_mapiM {P F U} (f : ObjectId -> Entry P F U -> Outcome (Entry P F U)) m m' :
  (forall k e e', f k e = Ok e' -> properties e' = properties e) ->
  mapiM f m = Ok m' ->
  propertiesOf m' = propertiesOf m.
Proof.
  intros Hf. revert m'. induction m as [|[k e] m IH]; intros m' H; simpl in H.
  - apply Ok_inj in H. now subst.
  - destruct (f k e) as [e'| |] eqn:He; simpl in H; try discriminate.
    destruct (mapiM f m) as [m1| |]; simpl in H; try discriminate.
    apply Ok_inj in H. subst m'. simpl. rewrite (Hf _ _ _ He). f_equal. now apply IH.
Qed.

Lemma propertiesOf_keys {P F U} (m : IdMap.t (Entry P F U)) :
  IdMap.keys m = List.map fst (propertiesOf m).
Proof.
  unfold IdMap.keys, propertiesOf. rewrite map_map. reflexivity.
Qed.

Lemma propertiesOf_keys_where {P F U} (q : P -> bool) (m : IdMap.t (Entry P F U)) :
  IdMap.keys_where (fun e => q (properties e)) m
  = List.map fst (filter (fun kp => q (snd kp)) (propertiesOf m)).
Proof.
  unfold IdMap.keys_where, propertiesOf.
  induction m as [|[k e] m IH]; simpl; [reflexivity|].
  destruct (q (properties e)); simpl; now rewrite IH.
Qed.

Lemma propertiesOf_mem {P F U} (m m' : IdMap.t (Entry P F U)) id :
  propertiesOf m' = propertiesOf m -> IdMap.mem id m' = IdMap.mem id m.
Proof.
  intros H.
  assert (Hk : IdMap.keys m' = IdMap.keys m) by (rewrite !propertiesOf_keys; now rewrite H).
  destruct (IdMap.mem id m) eqn:E.
  - apply mem_true_iff. rewrite Hk. now apply mem_true_iff.
  - destruct (IdMap.mem id m') eqn:E'; [|reflexivity].
    apply mem_true_iff in E'. rewrite Hk in E'. apply mem_true_iff in E'. congruence.
Qed.

Lemma keys_where_properties {P F U} (q : P -> bool) (m m' : IdMap.t (Entry P F U)) :
  propertiesOf m' = propertiesOf m ->
  IdMap.keys_where (fun e => q (properties e)) m'
  = IdMap.keys_where (fun e => q (properties e)) m.
Proof.
  intros H. rewrite !propertiesOf_keys_where. now rewrite H.
Qed.

Lemma keys_properties {P F U} (m m' : IdMap.t (Entry P F U)) :
  propertiesOf m' = propertiesOf m -> IdMap.keys m' = IdMap.keys m.
Proof.
  intros H. rewrite !propertiesOf_keys. now rewrite H.
Qed.

(** what the queries answer depends on the ids and the properties only *)
Lemma sameEntities_queries s s' :
  sameEntities s s' ->
  (forall id, objectType s' id = objectType s id)
  /\ (forall type, idList s' type = idList s type)
  /\ (forall h, hostedIds s' h = hostedIds s h)
  /\ allKeys s' = allKeys s.
Proof.
  intros [Hp Hb Hg Hl Hj Ho Hc]. unalias. repeat split.
  - intros id. unfold objectType. unalias.
    rewrite (@propertiesOf_mem _ _ _ _ _ id Hp), (@propertiesOf_mem _ _ _ _ _ id Hb), (@propertiesOf_mem _ _ _ _ _ id Hg),
      (@propertiesOf_mem _ _ _ _ _ id Hl), (@propertiesOf_mem _ _ _ _ _ id Hj), (@propertiesOf_mem _ _ _ _ _ id Ho),
      (@propertiesOf_mem _ _ _ _ _ id Hc). reflexivity.
  - intros type. unfold idList. unalias.
    rewrite (@keys_properties _ _ _ _ _ Hp), (@keys_properties _ _ _ _ _ Hb), (@keys_properties _ _ _ _ _ Hg),
      (@keys_properties _ _ _ _ _ Hl), (@keys_properties _ _ _ _ _ Hj), (@keys_properties _ _ _ _ _ Ho),
      (@keys_properties _ _ _ _ _ Hc). reflexivity.
  - intros h. unfold hostedIds, beamIdListForHost, gateIdListForHost, laserIdListForHost,
      projectorIdListForHost, lobGroupIdListForHost, customRenderingIdListForHost.
    unalias.
    rewrite (@keys_where_properties _ _ _ (fun p => id_eqb (BeamProperties.hostid p) h) _ _ Hb).
    rewrite (@keys_where_properties _ _ _ (fun p => id_eqb (GateProperties.hostid p) h) _ _ Hg).
    rewrite (@keys_where_properties _ _ _ (fun p => id_eqb (LaserProperties.hostid p) h) _ _ Hl).
    rewrite (@keys_where_properties _ _ _
               (fun p => id_eqb (ProjectorProperties.hostid p) h) _ _ Hj).
    rewrite (@keys_where_properties _ _ _
               (fun p => id_eqb (LobGroupProperties.hostid p) h) _ _ Ho).
    rewrite (@keys_where_properties _ _ _
               (fun p => id_eqb (CustomRenderingProperties.hostid p) h) _ _ Hc).
    reflexivity.
  - unfold allKeys. unalias.
    rewrite (@keys_properties _ _ _ _ _ Hp), (@keys_properties _ _ _ _ _ Hb), (@keys_properties _ _ _ _ _ Hg),
      (@keys_properties _ _ _ _ _ Hl), (@keys_properties _ _ _ _ _ Hj), (@keys_properties _ _ _ _ _ Ho),
      (@keys_properties _ _ _ _ _ Hc). reflexivity.
Qed.

Lemma updateTargetGate_properties build s (q g' : GateEntry) time :
  updateTargetGate_ build s q time = Ok g' ->
  properties g' = properties q /\ preferences g' = preferences q.
Proof.
  intros H. unfold updateTargetGate_ in H.
  destruct (updateGateSlice_properties s q time) as [Hs1 Hs2].
  destruct (assert build _); simpl in H; try discriminate.
  destruct (negb (GateProperties.has_hostid _)); [apply Ok_inj in H; now subst|].
  match type of H with bind ?c _ = _ => destruct c end; simpl in H; try discriminate.
  repeat match type of H with
         | (if ?c then _ else _) = _ => destruct c
         | match ?c with _ => _ end = _ => destruct c
         end;
    apply Ok_inj in H; subst g'; simpl; rewrite ?Hs1, ?Hs2; auto.
Qed.

Lemma updateGate_properties build s time id (g g' : GateEntry) :
  updateGate build s time id g = Ok g' ->
  properties g' = properties g
  /\ preferences g' = preferences (applyCommands id time g).
Proof.
  unfold updateGate. intros H.
  destruct (negb _).
  { apply Ok_inj in H. subst. split; [apply applyCommands_properties | reflexivity]. }
  destruct (GateProperties.is_target _).
  - apply updateTargetGate_properties in H. destruct H as [-> ->].
    split; [apply applyCommands_properties | reflexivity].
  - destruct (updateGateSlice_properties s (applyCommands id time g) time) as [Hs1 Hs2].
    destruct (gateUsesBeamBeamwidth_ _); apply Ok_inj in H; subst g'; simpl;
      rewrite ?Hs1, ?Hs2; split; auto using applyCommands_properties.
Qed.

Lemma sameEntities_before_category build time s gates :
  mapiM (updateGate build (updateBeams_ time (updatePlatforms_ time s)) time) (gates_ s)
  = Ok gates ->
  sameEntities s (updateSparseSlices time
                    (set_gates_ gates (updateBeams_ time (updatePlatforms_ time s)))).
Proof.
  intros Hg. constructor; simpl; try reflexivity.
  - apply propertiesOf_mapi. intros k e. unfold updatePlatform.
    repeat match goal with |- context [if ?c then _ else _] => destruct c end;
      simpl; apply applyCommands_properties.
  - apply propertiesOf_mapi. intros k e. apply updateBeam_properties.
  - apply (propertiesOf_mapiM _ _ (fun k e e' He => proj1 (updateGate_properties _ _ _ _ _ He))
             Hg).
Qed.

Lemma update_run_rest build time s s' :
  update_skipped s time = false ->
  update build time s = Ok s' ->
  lobGroups_ s' = IdMap.mapi (updateLobGroup time) (lobGroups_ s)
  /\ customRenderings_ s'
     = IdMap.mapi (fun id e => applyCommands id time e) (customRenderings_ s)
  /\ genericData_ s' = IdMap.mapi (fun _ slice => generic_update slice time) (genericData_ s)
  /\ categoryData_ s'
     = List.map (fun kv => (fst kv, fst (category_update (snd kv) time))) (categoryData_ s)
  /\ dataTableManager_ s' = dataTableManager_ s
  /\ baseId_ s' = baseId_ s
  /\ entityNameCache_ s' = entityNameCache_ s
  /\ newUpdatesLog_ s' = newUpdatesLog_ s
  /\ fabric_ s'
     = deliver
         (List.map (fun kv => [onCategoryDataChange
                                 (fst kv)
                                 (objectType s (fst kv))])
                   (filter (fun kv => snd (category_update (snd kv) time)) (categoryData_ s))
          ++ [[onChange]])
         (fabric_ s).
Proof.
  intros Hskip H. unfold update in H. rewrite Hskip in H.
  unfold updateGates_ in H.
  destruct (mapiM _ _) as [gates| |] eqn:Hg; simpl in H; try discriminate.
  apply Ok_inj in H. subst s'. simpl.
  repeat split; try reflexivity.
  - rewrite map_map. reflexivity.
  - f_equal. f_equal.
    destruct (sameEntities_queries (sameEntities_before_category _ _ _ Hg)) as (Hty & _).
    induction (categoryData_ s) as [|[k c] m IH]; simpl; [reflexivity|].
    destruct (snd (category_update c time)); simpl; rewrite IH; [|reflexivity].
    now rewrite Hty.
Qed.

(** a pass that completes keeps the ids and the properties *)
Lemma update_sameEntities build time s s' :
  update build time s = Ok s' -> sameEntities s s' /\ baseId_ s' = baseId_ s.
Proof.
  intros H.
  destruct (update_skipped s time) eqn:Hskip.
  { rewrite (@update_skip _ build time s Hskip) in H. apply Ok_inj in H. subst s'.
    split; [constructor|]; reflexivity. }
  destruct (@update_run _ build time s s' Hskip H) as (Hp & Hb & Hg & Hl & Hj & _ & _).
  destruct (@update_run_rest build time s s' Hskip H)
    as (Ho & Hc & _ & _ & _ & Hid & _).
  split; [|exact Hid].
  constructor.
  - rewrite Hp. apply propertiesOf_mapi. intros k e. unfold updatePlatform.
    repeat match goal with |- context [if ?c then _ else _] => destruct c end;
      simpl; apply applyCommands_properties.
  - rewrite Hb. apply propertiesOf_mapi. intros k e. apply updateBeam_properties.
  - apply (propertiesOf_mapiM _ _ (fun k e e' He => proj1 (updateGate_properties _ _ _ _ _ He))
             Hg).
  - rewrite Hl. apply propertiesOf_mapi. intros k e. unfold updateLaser.
    repeat match goal with |- context [if ?c then _ else _] => destruct c end;
      simpl; apply applyCommands_properties.
  - rewrite Hj. apply propertiesOf_mapi. intros k e. unfold updateProjector.
    repeat match goal with |- context [if ?c then _ else _] => destruct c end;
      simpl; apply applyCommands_properties.
  - rewrite Ho. apply propertiesOf_mapi. intros k e. unfold updateLobGroup.
    simpl. apply applyCommands_properties.
  - rewrite Hc. apply propertiesOf_mapi. intros k e. apply applyCommands_properties.
Qed.

(** [update] recomputes current samples and applies commands; it never
    adds, removes or re-hosts an entity and never edits properties.  After
    any pass that completes, every container holds the ids it held, in
    order, with the properties they had, so that [objectType], [idList]
    and the host lists answer as before; the sparse-data maps keep their
    ids, and the data tables, the id counter and the registered listeners
    are untouched. *)
Theorem update_keeps_entities build time s s' :
  update build time s = Ok s' ->
  sameEntities s s'
  /\ (forall id, objectType s' id = objectType s id)
  /\ (forall type, idList s' type = idList s type)
  /\ (forall h, hostedIds s' h = hostedIds s h)
  /\ IdMap.keys (genericData_ s') = IdMap.keys (genericData_ s)
  /\ IdMap.keys (categoryData_ s') = IdMap.keys (categoryData_ s)
  /\ dataTableManager_ s' = dataTableManager_ s
  /\ baseId_ s' = baseId_ s
  /\ listeners_ (fabric_ s') = listeners_ (fabric_ s).
Proof.
  intros H.
  destruct (update_sameEntities _ _ _ H) as [Hs Hid].
  destruct (sameEntities_queries Hs) as (H1 & H2 & H3 & _).
  split; [exact Hs|]. split; [exact H1|]. split; [exact H2|]. split; [exact H3|].
  destruct (update_skipped s time) eqn:Hskip.
  { rewrite (@update_skip _ build time s Hskip) in H. apply Ok_inj in H. subst s'.
    repeat split; reflexivity. }
  destruct (@update_run_rest build time s s' Hskip H)
    as (_ & _ & Hgd & Hcd & Hdt & _ & _ & _ & Hf).
  split; [rewrite Hgd; apply keys_mapi|].
  split; [rewrite Hcd; unfold IdMap.keys; rewrite map_map; reflexivity|].
  split; [exact Hdt|]. split; [exact Hid|].
  rewrite Hf. reflexivity.
Qed.

(** A pass of [update] that is not skipped tells the listeners, in one
    sweep over the listeners registered when it started: first, for every
    category-data slice whose update reports a change, in map order,
    [onCategoryDataChange] with the type of the entity; then [onChange].
    Every listener receives [onChange] once, after every category
    notification of the pass, and the pass registers and removes no
    listener. *)
Theorem update_notifies_listeners build time s s' :
  update_skipped s time = false ->
  update build time s = Ok s' ->
  log (fabric_ s')
  = log (fabric_ s)
    ++ flat_map
         (fun kv => List.map (fun l => Called l (onCategoryDataChange
                                                   (fst kv) (objectType s (fst kv))))
                             (listeners_ (fabric_ s)))
         (filter (fun kv => snd (category_update (snd kv) time)) (categoryData_ s))
    ++ List.map (fun l => Called l onChange) (listeners_ (fabric_ s))
  /\ listeners_ (fabric_ s') = listeners_ (fabric_ s)
  /\ justRemoved_ (fabric_ s') = [].
Proof.
  intros Hskip H.
  destruct (@update_run_rest build time s s' Hskip H) as (_ & _ & _ & _ & _ & _ & _ & _ & Hf).
  rewrite Hf. clear Hf. unfold deliver. simpl. repeat split. f_equal.
  rewrite flat_map_app. simpl. rewrite app_nil_r, round_calls_single. f_equal.
  rewrite flat_map_concat_map, map_map, <- flat_map_concat_map.
  apply flat_map_ext. intros kv. apply round_calls_single.
Qed.

(** After a pass of [update] that is not skipped, a platform, a beam or a
    gate whose [datadraw] preference is off (commands applied) has no
    current sample, in either build. *)
Theorem update_clears_undrawn build time s s' :
  update_skipped s time = false ->
  update build time s = Ok s' ->
  (forall id p,
      IdMap.find id (platforms_ s') = Some p ->
      CommonPrefs.datadraw (PlatformPrefs.commonprefs (preferences p)) = false ->
      current (updates p) = None)
  /\ (forall id b,
         IdMap.find id (beams_ s') = Some b ->
         CommonPrefs.datadraw (BeamPrefs.commonprefs (preferences b)) = false ->
         current (updates b) = None)
  /\ (forall id g,
         IdMap.find id (gates_ s') = Some g ->
         CommonPrefs.datadraw (GatePrefs.commonprefs (preferences g)) = false ->
         current (updates g) = None).
Proof.
  intros Hskip H.
  destruct (@update_run _ build time s s' Hskip H) as (Hp & Hb & Hg & _).
  split; [|split].
  - intros id p Hfind Hd. rewrite Hp, find_mapi in Hfind.
    destruct (IdMap.find id (platforms_ s)) as [p0|]; [|discriminate].
    simpl in Hfind. apply Some_inj in Hfind. subst p.
    rewrite updatePlatform_preferences in Hd.
    unfold updatePlatform. rewrite Hd. reflexivity.
  - intros id b Hfind Hd. rewrite Hb, find_mapi in Hfind.
    destruct (IdMap.find id (beams_ s)) as [b0|]; [|discriminate].
    simpl in Hfind. apply Some_inj in Hfind. subst b.
    destruct (updateBeam_properties (updatePlatforms_ time s) time id b0) as [_ Hpf].
    rewrite Hpf in Hd. unfold updateBeam. rewrite Hd. reflexivity.
  - intros id g Hfind Hd.
    destruct (mapiM_find _ _ id Hg Hfind) as (g0 & _ & Hres).
    destruct (updateGate_properties _ _ _ _ _ Hres) as [_ Hpf].
    rewrite Hpf in Hd. unfold updateGate in Hres. rewrite Hd in Hres.
    simpl in Hres. apply Ok_inj in Hres. subst g. reflexivity.
Qed.

End UpdateFrame.

(** ** Debug and release builds *)

Section UpdateBuilds.
Context {X : Collaborators}.

Lemma mapiM_mono {V} (f g : ObjectId -> V -> Outcome V) (m m' : IdMap.t V) :
  (forall k v v', f k v = Ok v' -> g k v = Ok v') ->
  mapiM f m = Ok m' -> mapiM g m = Ok m'.
Proof.
  intros Hfg. revert m'. induction m as [|[k v] m IH]; intros m' H; simpl in *; [exact H|].
  destruct (f k v) as [w| |] eqn:Hk; simpl in H; try discriminate.
  destruct (mapiM f m) as [m1| |]; simpl in H; try discriminate.
  rewrite (Hfg _ _ _ Hk). simpl. rewrite (IH m1 eq_refl). exact H.
Qed.

Lemma mapiM_ok_iff {V} (f : ObjectId -> V -> Outcome V) (m : IdMap.t V) :
  (exists m', mapiM f m = Ok m') <-> (forall k v, In (k, v) m -> exists v', f k v = Ok v').
Proof.
  split.
  - intros [m' H] k v Hin. eapply mapiM_all_ok; eauto.
  - induction m as [|[k v] m IH]; intros H; simpl; [eauto|].
    destruct (H k v (or_introl eq_refl)) as [v' ->]. simpl.
    destruct IH as [m' ->]; [intros; apply H; now right|]. simpl. eauto.
Qed.

Lemma updateTargetGate_debug_release s (gate gate' : GateEntry) time :
  updateTargetGate_ Debug s gate time = Ok gate' ->
  updateTargetGate_ Release s gate time = Ok gate'.
Proof.
  unfold updateTargetGate_. simpl.
  destruct (GateProperties.is_target (properties gate)); simpl; [|discriminate].
  destruct (negb (GateProperties.has_hostid (properties gate))); [auto|].
  destruct (getBeamForGate_ s (GateProperties.hostid (properties gate))) as [b|]; simpl;
    [|discriminate].
  destruct (BeamProperties.is_target (properties b)); simpl; [auto|discriminate].
Qed.

Lemma updateGate_debug_release s time id (g g' : GateEntry) :
  updateGate Debug s time id g = Ok g' -> updateGate Release s time id g = Ok g'.
Proof.
  unfold updateGate.
  destruct (negb _); [auto|].
  destruct (GateProperties.is_target _); [apply updateTargetGate_debug_release|auto].
Qed.

Lemma updateTargetGate_debug_eq s (q : GateEntry) time :
  GateProperties.is_target (properties q) = true ->
  (GateProperties.has_hostid (properties q) = true ->
   exists beam,
     getBeamForGate_ s (GateProperties.hostid (properties q)) = Some beam
     /\ BeamProperties.is_target (properties beam) = true) ->
  updateTargetGate_ Debug s q time = updateTargetGate_ Release s q time.
Proof.
  intros Ht H. unfold updateTargetGate_. rewrite Ht. simpl.
  destruct (GateProperties.has_hostid (properties q)); simpl; [|reflexivity].
  destruct (H eq_refl) as (b & -> & Hb). simpl. rewrite Hb. reflexivity.
Qed.

Lemma updateTargetGate_debug_ok s (q q' : GateEntry) time :
  updateTargetGate_ Debug s q time = Ok q' ->
  GateProperties.has_hostid (properties q) = true ->
  exists beam,
    getBeamForGate_ s (GateProperties.hostid (properties q)) = Some beam
    /\ BeamProperties.is_target (properties beam) = true.
Proof.
  unfold updateTargetGate_. intros H Hh. rewrite Hh in H. simpl in H.
  destruct (GateProperties.is_target (properties q)); simpl in H; [|discriminate].
  destruct (getBeamForGate_ s (GateProperties.hostid (properties q))) as [b|]; simpl in H;
    [|discriminate].
  destruct (BeamProperties.is_target (properties b)) eqn:Hb; simpl in H; [|discriminate].
  eauto.
Qed.

Lemma updateGate_debug_ok s time id (g : GateEntry) :
  (exists g', updateGate Debug s time id g = Ok g')
  <-> (CommonPrefs.datadraw (GatePrefs.commonprefs (preferences (applyCommands id time g)))
       = true ->
       GateProperties.is_target (properties g) = true ->
       GateProperties.has_hostid (properties g) = true ->
       exists beam,
         getBeamForGate_ s (GateProperties.hostid (properties g)) = Some beam
         /\ BeamProperties.is_target (properties beam) = true).
Proof.
  split.
  - intros [g' H] Hd Ht Hh. unfold updateGate in H.
    rewrite Hd, applyCommands_properties, Ht in H. simpl in H.
    apply updateTargetGate_debug_ok in H; rewrite applyCommands_properties in *; auto.
  - intros H. destruct (updateGate_release s time id g) as [g' Hg']. exists g'.
    rewrite <- Hg'. unfold updateGate.
    destruct (negb _) eqn:Hd; [reflexivity|]. apply negb_false_iff in Hd.
    rewrite applyCommands_properties.
    destruct (GateProperties.is_target (properties g)) eqn:Ht; [|reflexivity].
    apply updateTargetGate_debug_eq; rewrite applyCommands_properties; auto.
Qed.

Lemma find_beam_after_update s time h :
  (exists beam,
      getBeamForGate_ (updateBeams_ time (updatePlatforms_ time s)) h = Some beam
      /\ BeamProperties.is_target (properties beam) = true)
  <-> (exists beam,
          IdMap.find h (beams_ s) = Some beam
          /\ BeamProperties.is_target (properties beam) = true).
Proof.
  unfold getBeamForGate_. simpl. rewrite find_mapi.
  destruct (IdMap.find h (beams_ s)) as [b|]; simpl.
  - destruct (updateBeam_properties (updatePlatforms_ time s) time h b) as [Hp _].
    split; intros (b' & Hb' & Ht); apply Some_inj in Hb'; subst b';
      eexists; (split; [reflexivity|]); congruence.
  - split; intros (b' & Hb' & _); discriminate.
Qed.

(** The assertions of a debug build never change what [update] computes:
    a pass that completes in a debug build completes in a release build
    with the same store.  A debug pass that is not skipped completes
    exactly when every drawn target gate that has a host id is hosted by
    an existing target beam. *)
Theorem update_debug_agrees_with_release time s :
  (forall s', update Debug time s = Ok s' -> update Release time s = Ok s')
  /\ (update_skipped s time = false ->
      ((exists s', update Debug time s = Ok s') <-> targetGatesHosted s time)).
Proof.
  split.
  - intros s' H. unfold update in *.
    destruct (update_skipped s time); [exact H|].
    unfold updateGates_ in *.
    destruct (mapiM (updateGate Debug _ _) _) as [gates| |] eqn:Hg; simpl in H;
      try discriminate.
    rewrite (@mapiM_mono _ _
               (updateGate Release (updateBeams_ time (updatePlatforms_ time s)) time) _ _
               (fun k v v' => @updateGate_debug_release _ time k v v') Hg).
    exact H.
  - intros Hskip. unfold update. rewrite Hskip. unfold updateGates_.
    assert (Hiff : (exists gates,
                       mapiM (updateGate Debug (updateBeams_ time (updatePlatforms_ time s))
                                         time)
                             (gates_ (updateBeams_ time (updatePlatforms_ time s)))
                       = Ok gates)
                   <-> targetGatesHosted s time).
    { rewrite mapiM_ok_iff. unfold targetGatesHosted. simpl.
      split.
      - intros H id gate Hin Hd Ht Hh.
        apply find_beam_after_update with (time := time).
        apply (proj1 (updateGate_debug_ok _ time id gate) (H id gate Hin)); assumption.
      - intros H id gate Hin. apply updateGate_debug_ok. intros Hd Ht Hh.
        apply find_beam_after_update. eauto. }
    rewrite <- Hiff. split.
    + intros [s' H].
      destruct (mapiM _ _) as [gates| |]; simpl in H; try discriminate. eauto.
    + intros [gates ->]. simpl. eauto.
Qed.

End UpdateBuilds.

(** ** Target beams that resolve *)

Section TargetBeams.
Context {X : Collaborators}.

Lemma updateTargetBeam_resolved s id (beam : BeamEntry) time :
  BeamProperties.has_hostid (properties beam) = true ->
  BeamPrefs.has_targetid (preferences beam) = true ->
  platformHasPosition s (BeamProperties.hostid (properties beam)) = true ->
  platformHasPosition s (BeamPrefs.targetid (preferences beam)) = true ->
  updates (updateTargetBeam_ s id beam time)
  = if match current (updates beam) with None => true | Some _ => false end
       || negb (time_eqb (BeamUpdate.time (currentInterpolated (updates beam))) time)
    then setChanged (setCurrent (Some (BeamUpdate.mk time 0 0 0))
                       (setCurrentInterpolated (BeamUpdate.mk time 0 0 0) (updates beam)))
    else clearChanged (updates beam).
Proof.
  unfold platformHasPosition, updateTargetBeam_. intros -> -> Hh Ht. simpl.
  destruct (IdMap.find (BeamProperties.hostid (properties beam)) (platforms_ s))
    as [src|]; [|discriminate].
  destruct (current (updates src)) as [su|]; [|discriminate].
  rewrite Hh. simpl.
  destruct (IdMap.find (BeamPrefs.targetid (preferences beam)) (platforms_ s))
    as [dst|]; [|discriminate].
  destruct (current (updates dst)) as [du|]; [|discriminate].
  rewrite Ht. simpl.
  destruct (_ || _); reflexivity.
Qed.

(** After a pass of [update] that is not skipped, a drawn target beam
    whose host and target platforms both have a current position has a
    current sample.  If the beam had none before the pass, or its
    current-interpolated sample was for another time, the sample is the
    one the pass writes: time [time], azimuth, elevation and range zero,
    with the slice marked changed; otherwise the slice is the one the beam
    had, with the changed mark cleared. *)
Theorem resolved_target_beam_has_sample build time s s' id beam' :
  update_skipped s time = false ->
  update build time s = Ok s' ->
  IdMap.find id (beams_ s') = Some beam' ->
  BeamProperties.is_target (properties beam') = true ->
  CommonPrefs.datadraw (BeamPrefs.commonprefs (preferences beam')) = true ->
  BeamProperties.has_hostid (properties beam') = true ->
  BeamPrefs.has_targetid (preferences beam') = true ->
  platformHasPosition s' (BeamProperties.hostid (properties beam')) = true ->
  platformHasPosition s' (BeamPrefs.targetid (preferences beam')) = true ->
  exists beam,
    IdMap.find id (beams_ s) = Some beam
    /\ current (updates beam') <> None
    /\ (current (updates beam) = None
        \/ time_eqb (BeamUpdate.time (currentInterpolated (updates beam))) time = false ->
        updates beam'
        = setChanged (setCurrent (Some (BeamUpdate.mk time 0 0 0))
                        (setCurrentInterpolated (BeamUpdate.mk time 0 0 0) (updates beam))))
    /\ (current (updates beam) <> None ->
        time_eqb (BeamUpdate.time (currentInterpolated (updates beam))) time = true ->
        updates beam' = clearChanged (updates beam)).
Proof.
  intros Hskip Hup Hfind Ht Hd Hh Hti Hph Hpt.
  destruct (@update_run _ build time s s' Hskip Hup) as (Hp & Hb & _).
  rewrite Hb, find_mapi in Hfind.
  destruct (IdMap.find id (beams_ s)) as [b|]; [|discriminate].
  simpl in Hfind. apply Some_inj in Hfind. subst beam'.
  exists b. split; [reflexivity|].
  destruct (updateBeam_properties (updatePlatforms_ time s) time id b) as [Hpp Hpf].
  rewrite Hpp in Ht, Hh, Hph. rewrite Hpf in Hd, Hti, Hpt.
  assert (Hext : forall i, platformHasPosition s' i
                           = platformHasPosition (updatePlatforms_ time s) i).
  { intros i. apply platformHasPosition_ext. rewrite Hp. reflexivity. }
  rewrite Hext in Hph, Hpt.
  assert (Hu : updates (updateBeam (updatePlatforms_ time s) time id b)
               = if match current (updates b) with None => true | Some _ => false end
                    || negb (time_eqb (BeamUpdate.time (currentInterpolated (updates b))) time)
                 then setChanged (setCurrent (Some (BeamUpdate.mk time 0 0 0))
                                    (setCurrentInterpolated (BeamUpdate.mk time 0 0 0)
                                                            (updates b)))
                 else clearChanged (updates b)).
  { unfold updateBeam. rewrite Hd, applyCommands_properties, Ht. simpl.
    rewrite updateTargetBeam_resolved; rewrite ?applyCommands_properties; auto.
    rewrite applyCommands_updates. reflexivity. }
  rewrite Hu. split; [|split].
  - destruct (current (updates b)) eqn:Hc; simpl.
    + destruct (negb _); simpl; [discriminate|]. unfold current in *. simpl.
      rewrite Hc. discriminate.
    + discriminate.
  - intros [Hc|Hc]; rewrite Hc; simpl; [reflexivity|].
    rewrite orb_true_r. reflexivity.
  - intros Hc Hte. rewrite Hte. destruct (current (updates b)); [reflexivity|congruence].
Qed.

End TargetBeams.

(** ** What a flush keeps *)

Section FlushFrame.
Context {X : Collaborators}.

Lemma sameSettings_refl s : sameSettings s s.
Proof. unfold sameSettings. tauto. Qed.

Lemma sameSettings_trans s1 s2 s3 :
  sameSettings s1 s2 -> sameSettings s2 s3 -> sameSettings s1 s3.
Proof.
  unfold sameSettings. intros (a1 & a2 & a3 & a4 & a5 & a6 & a7) (b1 & b2 & b3 & b4 & b5 & b6 & b7).
  repeat split; congruence.
Qed.

Lemma sameExceptData_refl s : sameExceptData s s.
Proof. constructor; auto using sameSettings_refl. Qed.

Lemma sameExceptData_trans s1 s2 s3 :
  sameExceptData s1 s2 -> sameExceptData s2 s3 -> sameExceptData s1 s3.
Proof.
  intros [] []. constructor; try congruence. eapply sameSettings_trans; eauto.
Qed.

Lemma quietly_refl s : quietly s s.
Proof. unfold quietly. auto using sameExceptData_refl. Qed.

Lemma quietly_trans s1 s2 s3 : quietly s1 s2 -> quietly s2 s3 -> quietly s1 s3.
Proof.
  unfold quietly. intros (a & a1 & a2 & a3) (b & b1 & b2 & b3).
  split; [eapply sameExceptData_trans; eauto|]. repeat split; congruence.
Qed.

Lemma settingsOf_adjust {P F U} id (f : Entry P F U -> Entry P F U) m :
  (forall e, properties (f e) = properties e /\ preferences (f e) = preferences e) ->
  settingsOf (IdMap.adjust id f m) = settingsOf m.
Proof.
  intros Hf. unfold settingsOf, IdMap.adjust, IdMap.mapi. rewrite map_map.
  apply map_ext. intros [k e]. simpl. destruct (id_eqb k id); [|reflexivity].
  destruct (Hf e) as [-> ->]. reflexivity.
Qed.

Lemma settingsOf_flushEntityData {P F U} `{Timed U} (m : IdMap.t (Entry P F U)) id fu fc st et :
  settingsOf (flushEntityData m id fu fc st et) = settingsOf m.
Proof.
  unfold flushEntityData. apply settingsOf_adjust. intros e.
  destruct fu, fc; split; reflexivity.
Qed.

Lemma quietly_flushSparse id fields st et s : quietly s (flushSparse id fields st et s).
Proof.
  unfold flushSparse, flushDataTables_.
  destruct (has_field fields FLUSH_CATEGORY_DATA), (has_field fields FLUSH_GENERIC_DATA),
    (has_field fields FLUSH_DATA_TABLES);
    (split; [constructor|]; simpl; try (unfold sameSettings; simpl; tauto);
     rewrite ?keys_adjust; auto).
Qed.

Lemma quietly_forEachId ids body :
  (forall i s, quietly s (body i s)) -> forall s, quietly s (forEachId ids body s).
Proof.
  intros Hb. induction ids as [|i ids IH]; intros s.
  - apply quietly_refl.
  - rewrite forEachId_cons. eapply quietly_trans; [apply Hb|apply IH].
Qed.

Ltac quiet_container :=
  split; [constructor|]; simpl; auto;
  unfold sameSettings; simpl; rewrite ?settingsOf_flushEntityData; tauto.

Lemma quietly_leaf id type fields st et s :
  quietly s (flushLeafCase id type fields st et s).
Proof.
  unfold flushLeafCase. destruct type; try apply quietly_refl; quiet_container.
Qed.

Lemma quietly_beamCase fg fp id scope fields st et s :
  (forall i s0, quietly s0 (fg i s0)) -> (forall i s0, quietly s0 (fp i s0)) ->
  quietly s (flushBeamCase fg fp id scope fields st et s).
Proof.
  intros Hg Hp. unfold flushBeamCase. cbv zeta.
  set (s1 := set_beams_ _ s).
  assert (H1 : quietly s s1) by (subst s1; quiet_container).
  destruct scope; [exact H1|].
  eapply quietly_trans; [exact H1|].
  eapply quietly_trans; [|apply quietly_forEachId; assumption].
  apply quietly_forEachId; assumption.
Qed.

Lemma quietly_platformCase fb fl fo fp fc id scope fields st et s :
  (forall i s0, quietly s0 (fb i s0)) -> (forall i s0, quietly s0 (fl i s0)) ->
  (forall i s0, quietly s0 (fo i s0)) -> (forall i s0, quietly s0 (fp i s0)) ->
  (forall i s0, quietly s0 (fc i s0)) ->
  quietly s (flushPlatformCase fb fl fo fp fc id scope fields st et s).
Proof.
  intros Hb Hl Ho Hp Hc. unfold flushPlatformCase. cbv zeta.
  set (s1 := set_platforms_ _ s).
  assert (H1 : quietly s s1) by (subst s1; quiet_container).
  destruct scope; [exact H1|].
  eapply quietly_trans; [exact H1|].
  do 4 (eapply quietly_trans; [|apply quietly_forEachId; assumption]).
  apply quietly_forEachId; assumption.
Qed.

Lemma quietly_flushEntity id type scope fields st et s :
  quietly s (flushEntity_ id type scope fields st et s).
Proof.
  assert (Hleaf : forall i ty s0, ty <> PLATFORM -> ty <> BEAM ->
                    quietly s0 (flushEntity_ i ty scope fields st et s0)).
  { intros i ty s0 Hp Hb. destruct ty; try contradiction; simp flushEntity_;
      (eapply quietly_trans; [apply quietly_leaf | apply quietly_flushSparse]). }
  assert (Hbeam : forall i s0, quietly s0 (flushEntity_ i BEAM scope fields st et s0)).
  { intros i s0. simp flushEntity_.
    eapply quietly_trans; [|apply quietly_flushSparse].
    apply quietly_beamCase; intros; apply Hleaf; discriminate. }
  destruct type; try (apply Hleaf; discriminate); [|apply Hbeam].
  simp flushEntity_.
  eapply quietly_trans; [|apply quietly_flushSparse].
  apply quietly_platformCase; intros; first [apply Hbeam | apply Hleaf; discriminate].
Qed.

(** [flush] is [flushNotify] after a quiet change, or nothing at all *)
Lemma flush_range_run id scope fields startTime endTime s :
  exists s1,
    quietly s s1
    /\ flush_range id scope fields startTime endTime s
       = if id_eqb id 0%N then (0%Z, flushNotify id s1)
         else if ObjectType_eqb (objectType s id) NONE then (1%Z, s)
         else (0%Z, flushNotify id s1).
Proof.
  unfold flush_range. destruct (id_eqb id 0%N) eqn:Hz.
  - eexists. split; [|reflexivity].
    set (s1 := match scope with FLUSH_NONRECURSIVE => s | FLUSH_RECURSIVE => _ end).
    assert (H1 : quietly s s1).
    { subst s1. destruct scope; [apply quietly_refl|].
      eapply quietly_trans;
        [|apply quietly_forEachId; intros; apply quietly_flushEntity].
      apply quietly_forEachId; intros; apply quietly_flushEntity. }
    eapply quietly_trans; [exact H1|].
    unfold flushDataTables_.
    destruct (has_field fields FLUSH_DATA_TABLES), (has_field fields FLUSH_GENERIC_DATA);
      (split; [constructor|]; simpl; try (unfold sameSettings; simpl; tauto);
       rewrite ?keys_adjust; auto).
  - exists (flushEntity_ id (objectType s id) scope fields startTime endTime s).
    split; [apply quietly_flushEntity|reflexivity].
Qed.

(** [flush] over a time range, whatever its arguments: it answers 1 when
    [id] is not 0 and names no entity, and then leaves the store alone;
    otherwise it answers 0, raises the change flag, tells every listener
    [onFlush id] once and the new-updates listener once.  In every case
    the store keeps its ids with their properties and preferences, the ids
    that have sparse data and data tables, its configuration and its
    listeners: a flush empties slices and never removes or edits an
    entity, so [objectType] and [idList] answer as before. *)
Theorem flush_range_contract id scope fields startTime endTime s :
  (fst (flush_range id scope fields startTime endTime s) = 1%Z
   <-> id <> 0%N /\ objectType s id = NONE)
  /\ (fst (flush_range id scope fields startTime endTime s) = 1%Z ->
      snd (flush_range id scope fields startTime endTime s) = s)
  /\ (fst (flush_range id scope fields startTime endTime s) <> 1%Z ->
      fst (flush_range id scope fields startTime endTime s) = 0%Z
      /\ hasChanged_ (snd (flush_range id scope fields startTime endTime s)) = true
      /\ log (fabric_ (snd (flush_range id scope fields startTime endTime s)))
         = log (fabric_ s) ++ List.map (fun l => Called l (onFlush id)) (listeners_ (fabric_ s))
      /\ newUpdatesLog_ (snd (flush_range id scope fields startTime endTime s))
         = newUpdatesLog_ s ++ [NewUpdates_onFlush id])
  /\ sameExceptData s (snd (flush_range id scope fields startTime endTime s))
  /\ (forall i, objectType (snd (flush_range id scope fields startTime endTime s)) i
                = objectType s i)
  /\ (forall type, idList (snd (flush_range id scope fields startTime endTime s)) type
                   = idList s type).
Proof.
  assert (Hn : forall s0 s1, quietly s0 s1 ->
                 sameExceptData s0 (flushNotify id s1)
                 /\ hasChanged_ (flushNotify id s1) = true
                 /\ log (fabric_ (flushNotify id s1))
                    = log (fabric_ s0)
                      ++ List.map (fun l => Called l (onFlush id)) (listeners_ (fabric_ s0))
                 /\ newUpdatesLog_ (flushNotify id s1)
                    = newUpdatesLog_ s0 ++ [NewUpdates_onFlush id]).
  { intros s0 s1 ([] & Hc & Hf & Hl). split; [constructor; simpl; auto|].
    simpl. rewrite Hf, Hl, app_nil_r, round_calls_single. auto. }
  destruct (flush_range_run id scope fields startTime endTime s) as (s1 & Hq & ->).
  destruct (Hn s s1 Hq) as (Hsed & Hch & Hlog & Hnu).
  assert (Hqueries : forall s', sameExceptData s s' ->
            (forall i, objectType s' i = objectType s i)
            /\ (forall type, idList s' type = idList s type)).
  { intros s' [Hs]. destruct (sameSettings_queries Hs) as (H1 & H2 & _). auto. }
  destruct (id_eqb id 0%N) eqn:Hz.
  { apply N.eqb_eq in Hz. simpl.
    split; [split; [discriminate|intros [H _]; congruence]|].
    split; [discriminate|]. split; [auto|]. split; [exact Hsed|]. now apply Hqueries. }
  apply N.eqb_neq in Hz.
  destruct (objectType s id) eqn:Hty; simpl;
    try (split; [split; [discriminate|intros [_ H]; discriminate]|];
         split; [discriminate|]; split; [auto|]; split; [exact Hsed|]; now apply Hqueries).
  split; [tauto|]. split; [reflexivity|]. split; [congruence|].
  split; [apply sameExceptData_refl|]. auto.
Qed.

End FlushFrame.

(** ** What a flush reaches *)

Section FlushLocal.
Context {X : Collaborators}.

Lemma erase_adjust {V} id (f : V -> V) (m : IdMap.t V) :
  IdMap.erase id (IdMap.adjust id f m) = IdMap.erase id m.
Proof.
  unfold IdMap.erase, IdMap.adjust, IdMap.mapi.
  induction m as [|[k v] m IH]; simpl; [reflexivity|].
  destruct (id_eqb k id); simpl; rewrite IH; reflexivity.
Qed.

Lemma erase_flushEntityData {P F U} `{Timed U} (m : IdMap.t (Entry P F U)) id fu fc st et :
  IdMap.erase id (flushEntityData m id fu fc st et) = IdMap.erase id m.
Proof. apply erase_adjust. Qed.

Lemma sameAwayFrom_refl id s : sameAwayFrom id s s.
Proof. constructor; reflexivity. Qed.

Lemma sameAwayFrom_trans id s1 s2 s3 :
  sameAwayFrom id s1 s2 -> sameAwayFrom id s2 s3 -> sameAwayFrom id s1 s3.
Proof. intros [] []. constructor; congruence. Qed.

Lemma sameAwayFrom_flushSparse id fields st et s :
  sameAwayFrom id s (flushSparse id fields st et s).
Proof.
  unfold flushSparse, flushDataTables_.
  destruct (has_field fields FLUSH_CATEGORY_DATA), (has_field fields FLUSH_GENERIC_DATA),
    (has_field fields FLUSH_DATA_TABLES);
    constructor; simpl; rewrite ?erase_adjust; reflexivity.
Qed.

Lemma sameAwayFrom_flushEntity id type fields st et s :
  sameAwayFrom id s (flushEntity_ id type FLUSH_NONRECURSIVE fields st et s).
Proof.
  destruct type; simp flushEntity_;
    (eapply sameAwayFrom_trans; [|apply sameAwayFrom_flushSparse]);
    unfold flushPlatformCase, flushBeamCase, flushLeafCase;
    constructor; simpl; unalias; rewrite ?erase_flushEntityData; reflexivity.
Qed.

Lemma flush_range_local id fields startTime endTime s :
  sameAwayFrom id s (snd (flush_range id FLUSH_NONRECURSIVE fields startTime endTime s)).
Proof.
  unfold flush_range.
  destruct (id_eqb id 0%N) eqn:Hz.
  - apply N.eqb_eq in Hz. subst id. unfold flushDataTables_.
    destruct (has_field fields FLUSH_DATA_TABLES), (has_field fields FLUSH_GENERIC_DATA);
      constructor; simpl; rewrite ?erase_adjust; reflexivity.
  - destruct (ObjectType_eqb (objectType s id) NONE); simpl.
    + apply sameAwayFrom_refl.
    + destruct (sameAwayFrom_flushEntity id (objectType s id) fields startTime endTime s).
      constructor; simpl; assumption.
Qed.

(** A non-recursive [flush], with or without a time range, reaches only
    the data held under [id]: every entry, sparse-data slice and data
    table held under another id is left exactly as it was, whatever the
    fields and the time range, and whether or not [id] names an entity. *)
Theorem nonrecursive_flush_is_local id fields startTime endTime s :
  sameAwayFrom id s (snd (flush_range id FLUSH_NONRECURSIVE fields startTime endTime s))
  /\ sameAwayFrom id s (snd (flush id FLUSH_NONRECURSIVE fields s)).
Proof.
  split; [apply flush_range_local|].
  unfold flush. apply flush_range_local.
Qed.

(** What the flush types of the older interface reach.  The scenario id 0
    is always flushed recursively, whatever type is asked for.  For any
    other id: no type but [RECURSIVE] touches a data table;
    [NON_RECURSIVE_TSPI_ONLY] and [NON_RECURSIVE_DATA] leave generic and
    category data alone; [NON_RECURSIVE_TSPI_ONLY] leaves every command
    slice alone; and every type but [RECURSIVE] is local to the id. *)
Theorem flush_type_reach flushId flushType s :
  (flushId = 0%N -> flush_type flushId flushType s = flush_type flushId RECURSIVE s)
  /\ (flushId <> 0%N -> flushType <> RECURSIVE ->
      dataTableManager_ (flush_type flushId flushType s) = dataTableManager_ s
      /\ sameAwayFrom flushId s (flush_type flushId flushType s))
  /\ (flushId <> 0%N ->
      flushType = NON_RECURSIVE_TSPI_ONLY \/ flushType = NON_RECURSIVE_DATA ->
      genericData_ (flush_type flushId flushType s) = genericData_ s
      /\ categoryData_ (flush_type flushId flushType s) = categoryData_ s)
  /\ (flushId <> 0%N -> flushType = NON_RECURSIVE_TSPI_ONLY ->
      commandsOf (platforms_ (flush_type flushId flushType s)) = commandsOf (platforms_ s)
      /\ commandsOf (beams_ (flush_type flushId flushType s)) = commandsOf (beams_ s)
      /\ commandsOf (gates_ (flush_type flushId flushType s)) = commandsOf (gates_ s)
      /\ commandsOf (lasers_ (flush_type flushId flushType s)) = commandsOf (lasers_ s)
      /\ commandsOf (projectors_ (flush_type flushId flushType s))
         = commandsOf (projectors_ s)
      /\ commandsOf (lobGroups_ (flush_type flushId flushType s))
         = commandsOf (lobGroups_ s)
      /\ commandsOf (customRenderings_ (flush_type flushId flushType s))
         = commandsOf (customRenderings_ s)).
Proof.
  assert (Hcmd : forall P F U (T : Timed U) (m : IdMap.t (Entry P F U)) st et,
             commandsOf (flushEntityData m flushId true false st et) = commandsOf m).
  { intros. unfold commandsOf, flushEntityData, IdMap.adjust, IdMap.mapi.
    rewrite map_map. apply map_ext. intros [k e]. simpl.
    destruct (id_eqb k flushId); reflexivity. }
  split; [|split; [|split]].
  - intros ->. unfold flush_type. simpl. reflexivity.
  - intros Hz0 Hr. assert (Hz : id_eqb flushId 0%N = false) by (now apply N.eqb_neq).
    unfold flush_type. rewrite Hz.
    split.
    + destruct flushType; try congruence; unfold flush, flush_range; rewrite Hz;
        simpl has_field; cbv iota;
        (destruct (objectType s flushId); simpl; try reflexivity;
         simp flushEntity_; reflexivity).
    + destruct flushType; try congruence; apply flush_range_local.
  - intros Hz0 Hr. assert (Hz : id_eqb flushId 0%N = false) by (now apply N.eqb_neq).
    unfold flush_type. rewrite Hz.
    destruct Hr as [-> | ->]; unfold flush, flush_range; rewrite Hz;
      simpl has_field; cbv iota;
      (destruct (objectType s flushId); simpl; split; try reflexivity;
       simp flushEntity_; reflexivity).
  - intros Hz0 ->. assert (Hz : id_eqb flushId 0%N = false) by (now apply N.eqb_neq).
    unfold flush_type. rewrite Hz.
    unfold flush, flush_range. rewrite Hz. simpl has_field. cbv iota.
    destruct (objectType s flushId); simpl; repeat split; try reflexivity;
      simp flushEntity_; unfold flushSparse, flushPlatformCase, flushBeamCase, flushLeafCase;
      simpl; unalias; rewrite ?Hcmd; reflexivity.
Qed.

End FlushLocal.

(** ** New entities *)

Section InsertFacts.
Context {V : Type}.
Implicit Types (m : IdMap.t V).

Lemma find_insert_eq id v m : IdMap.find id (IdMap.insert id v m) = Some v.
Proof.
  induction m as [|[k w] m IH]; simpl.
  - unfold id_eqb. now rewrite N.eqb_refl.
  - destruct (id_eqb k id) eqn:E; simpl.
    + unfold id_eqb. now rewrite N.eqb_refl.
    + destruct (N.ltb id k); simpl.
      * unfold id_eqb. now rewrite N.eqb_refl.
      * now rewrite E.
Qed.

Lemma find_insert_ne id id' v m :
  id' <> id -> IdMap.find id' (IdMap.insert id v m) = IdMap.find id' m.
Proof.
  intros Hne. assert (Hn : id_eqb id id' = false) by (apply N.eqb_neq; congruence).
  induction m as [|[k w] m IH]; simpl.
  - now rewrite Hn.
  - destruct (id_eqb k id) eqn:E; simpl.
    + rewrite Hn. apply N.eqb_eq in E. subst k. now rewrite Hn.
    + destruct (N.ltb id k); simpl.
      * now rewrite Hn.
      * now rewrite IH.
Qed.

Lemma mem_insert id id' v m :
  IdMap.mem id' (IdMap.insert id v m) = id_eqb id' id || IdMap.mem id' m.
Proof.
  unfold IdMap.mem. destruct (id_eqb id' id) eqn:E.
  - apply N.eqb_eq in E. subst. now rewrite find_insert_eq.
  - apply N.eqb_neq in E. now rewrite find_insert_ne.
Qed.

End InsertFacts.

Section NewEntities.
Context {X : Collaborators}.

Lemma objectType_NONE_mem s id :
  objectType s id = NONE ->
  IdMap.mem id (platforms_ s) = false /\ IdMap.mem id (beams_ s) = false
  /\ IdMap.mem id (gates_ s) = false /\ IdMap.mem id (lasers_ s) = false
  /\ IdMap.mem id (projectors_ s) = false /\ IdMap.mem id (lobGroups_ s) = false
  /\ IdMap.mem id (customRenderings_ s) = false.
Proof.
  unfold objectType.
  repeat match goal with
         | |- context [if ?c then _ else _] => destruct c; try discriminate
         end.
  repeat split.
Qed.

(** A new entity, from [addPlatform] (or a sibling) to the end of its
    transaction, when the id that [genUniqueId_] hands out is not in use
    and the caller leaves the id alone.  The commit completes in either
    build and stores the entry under the new id, with the properties the
    caller wrote and the default preferences of the container; the
    entity has the type of the container, empty generic and category data,
    and no other id changes type.  The commit tells nobody; the release
    tells every listener [onAddEntity] once.  Committing and releasing a
    second time change nothing. *)
Theorem new_entity_round_trip P F U (HI : HasId P) (HC : HasCommonPrefs F)
  (c : Container P F U) build (edit : P -> P) s :
  isContainer HI HC c ->
  objectType s (fst (genUniqueId_ s)) = NONE ->
  (forall p, id_of (edit p) = id_of p) ->
  exists t1 s1 t2 s2 t3 s3,
    addEntity c s = (t1, s1)
    /\ NewEntry_commit build (NewEntry_edit edit t1) s1 = Ok (t2, s2)
    /\ NewEntry_release t2 s2 = (t3, s3)
    /\ IdMap.find (fst (genUniqueId_ s)) (entriesOf c s2)
       = Some (mkEntry (edit (set_id (fst (genUniqueId_ s)) (properties (newEntry c))))
                       (defaultPrefsOf c s) (updates (newEntry c)) (commands (newEntry c)))
    /\ objectType s2 (fst (genUniqueId_ s)) = typeOf c
    /\ (forall i, i <> fst (genUniqueId_ s) -> objectType s2 i = objectType s i)
    /\ IdMap.find (fst (genUniqueId_ s)) (genericData_ s2) = Some (mkGenericSlice [] [])
    /\ IdMap.find (fst (genUniqueId_ s)) (categoryData_ s2) = Some (mkCategorySlice [] [])
    /\ hasChanged_ s2 = true
    /\ fabric_ s2 = fabric_ s
    /\ log (fabric_ s3)
       = log (fabric_ s)
         ++ List.map (fun l => Called l (onAddEntity (fst (genUniqueId_ s)) (typeOf c)))
                     (listeners_ (fabric_ s))
    /\ entriesOf c s3 = entriesOf c s2
    /\ NewEntry_commit build t3 s3 = Ok (t3, s3)
    /\ NewEntry_release t3 s3 = (t3, s3).
Proof.
  intros Hc Hfresh Hedit.
  destruct (objectType_NONE_mem _ _ Hfresh) as (Mp & Mb & Mg & Ml & Mj & Mo & Mc).
  set (id := fst (genUniqueId_ s)) in *.
  assert (Hid : forall p : P, id_eqb id (id_of (edit (set_id id p))) = true).
  { intros p. rewrite Hedit. destruct Hc; simpl; apply N.eqb_refl. }
  assert (Hid' : forall p : P, id_of (edit (set_id id p)) = id).
  { intros p. specialize (Hid p). apply N.eqb_eq in Hid. congruence. }
  assert (Ha : assert build true = Ok tt) by (destruct build; reflexivity).
  unfold addEntity. change (genUniqueId_ s) with (id, set_baseId_ id s). cbv iota beta zeta.
  do 6 eexists. split; [reflexivity|].
  unfold addEntry, NewEntry_edit, NewEntry_commit, NewEntry_release.
  cbn [ne_entry_ ne_entries_ ne_initialId_ ne_committed_ ne_notified_ option_map negb
       properties set_properties set_preferences preferences].
  rewrite Hid, Ha. cbn [bind]. cbv zeta.
  cbn [ne_entry_ ne_entries_ ne_initialId_ ne_committed_ ne_notified_ option_map negb
       properties set_properties set_preferences preferences].
  rewrite !Hid'.
  split; [reflexivity|].
  cbn [ne_entry_ ne_entries_ ne_initialId_ ne_committed_ ne_notified_ option_map negb
       properties set_properties set_preferences preferences].
  rewrite !Hid'.
  split; [reflexivity|].
  cbn [ne_entry_ ne_entries_ ne_initialId_ ne_committed_ ne_notified_ option_map negb
       properties set_properties set_preferences preferences].
  assert (Hrefl : id_eqb id id = true) by apply N.eqb_refl.
  destruct Hc;
    (repeat split;
     try (intros i Hi;
          assert (Hn : id_eqb i id = false) by (apply N.eqb_neq; exact Hi));
     simpl; unfold objectType; simpl;
     rewrite ?find_insert_eq, ?mem_insert, ?Mp, ?Mb, ?Mg, ?Ml, ?Mj, ?Mo, ?Mc, ?Hrefl, ?Hn;
     simpl; rewrite ?app_nil_r, ?round_calls_single; reflexivity).
Qed.

End NewEntities.

(** ** The id invariant *)

Section IdInvariant.
Context {X : Collaborators}.
Local Open Scope nat_scope.

Lemma occ_keys_insert {V} id (v : V) (m : IdMap.t V) i :
  IdMap.mem id m = false ->
  occ (IdMap.keys (IdMap.insert id v m)) i
  = occ (IdMap.keys m) i + (if N.eq_dec id i then 1 else 0).
Proof.
  unfold IdMap.mem, occ. induction m as [|[k w] m IH]; simpl; intros Hm.
  - destruct (N.eq_dec id i); reflexivity.
  - destruct (id_eqb k id) eqn:E; [discriminate|].
    destruct (N.ltb id k); simpl.
    + destruct (N.eq_dec id i), (N.eq_dec k i); lia.
    + rewrite (IH Hm). destruct (N.eq_dec k i); lia.
Qed.

(** the prologue of [removeEntity] leaves the containers and the counter *)
Lemma prologue_fields id ot s :
  platforms_ (removeEntityPrologue id ot s) = platforms_ s
  /\ beams_ (removeEntityPrologue id ot s) = beams_ s
  /\ gates_ (removeEntityPrologue id ot s) = gates_ s
  /\ lasers_ (removeEntityPrologue id ot s) = lasers_ s
  /\ projectors_ (removeEntityPrologue id ot s) = projectors_ s
  /\ lobGroups_ (removeEntityPrologue id ot s) = lobGroups_ s
  /\ customRenderings_ (removeEntityPrologue id ot s) = customRenderings_ s
  /\ baseId_ (removeEntityPrologue id ot s) = baseId_ s.
Proof. repeat split. Qed.

Lemma shrinks_of_containers s s1 :
  platforms_ s1 = platforms_ s -> beams_ s1 = beams_ s -> gates_ s1 = gates_ s ->
  lasers_ s1 = lasers_ s -> projectors_ s1 = projectors_ s ->
  lobGroups_ s1 = lobGroups_ s -> customRenderings_ s1 = customRenderings_ s ->
  shrinks s s1.
Proof.
  intros H1 H2 H3 H4 H5 H6 H7.
  constructor; rewrite ?H1, ?H2, ?H3, ?H4, ?H5, ?H6, ?H7; apply subseq_refl.
Qed.

(** the last step of [removeEntity]: the entry goes and the listeners are
    told *)
Lemma last_step_shrinks s2 s3 :
  subseq (platforms_ s3) (platforms_ s2) -> subseq (beams_ s3) (beams_ s2) ->
  subseq (gates_ s3) (gates_ s2) -> subseq (lasers_ s3) (lasers_ s2) ->
  subseq (projectors_ s3) (projectors_ s2) -> subseq (lobGroups_ s3) (lobGroups_ s2) ->
  subseq (customRenderings_ s3) (customRenderings_ s2) ->
  shrinks s2 s3.
Proof. intros. constructor; assumption. Qed.

(** whatever [removeEntity] returns holds entries of the store it was
    given, and the id counter is not moved *)
Lemma removeEntity_shrinks fuel : forall id s s',
  removeEntity fuel id s = Some s' -> shrinks s s' /\ baseId_ s' = baseId_ s.
Proof.
  induction fuel as [|fuel IH]; intros id s s' H; [discriminate|].
  assert (Hfold : forall ids s0 s1,
             forEachIdM ids (removeEntity fuel) s0 = Some s1 ->
             shrinks s0 s1 /\ baseId_ s1 = baseId_ s0).
  { induction ids as [|i ids IHi]; intros s0 s1 Hf; simpl in Hf.
    - apply Some_inj in Hf. subst. split; [apply shrinks_refl|reflexivity].
    - destruct (removeEntity fuel i s0) as [s2|] eqn:Hr; [|discriminate].
      destruct (IH _ _ _ Hr) as [Ha Hb]. destruct (IHi _ _ Hf) as [Hc Hd].
      split; [eapply shrinks_trans; eauto|congruence]. }
  rewrite removeEntity_step in H. cbv zeta in H.
  destruct (ObjectType_eqb (objectType s id) NONE).
  { apply Some_inj in H. subst. split; [apply shrinks_refl|reflexivity]. }
  destruct (prologue_fields id (objectType s id) s)
    as (Fp & Fb & Fg & Fl & Fj & Fo & Fc & Fid).
  assert (H1 : shrinks s (removeEntityPrologue id (objectType s id) s))
    by (apply shrinks_of_containers; assumption).
  revert H H1 Fid. clear Fp Fb Fg Fl Fj Fo Fc.
  generalize (removeEntityPrologue id (objectType s id) s). intros s1 H H1 Fid.
  assert (Hend : forall s2 s3,
             shrinks s1 s2 /\ baseId_ s2 = baseId_ s1 ->
             shrinks s2 s3 -> baseId_ s3 = baseId_ s2 ->
             shrinks s s3 /\ baseId_ s3 = baseId_ s).
  { intros s2 s3 [Ha Hb] Hc Hd.
    split; [eapply shrinks_trans; [exact H1|eapply shrinks_trans; eauto]|congruence]. }
  assert (Hself : shrinks s1 s1 /\ baseId_ s1 = baseId_ s1)
    by (split; [apply shrinks_refl|reflexivity]).
  destruct (IdMap.mem id (platforms_ s1)).
  { destruct (forEachIdM _ _ s1) as [s2|] eqn:E; [|discriminate].
    apply Some_inj in H. subst s'. apply (Hend s2 _ (Hfold _ _ _ E)); [|reflexivity].
    apply last_step_shrinks; cbn; auto using subseq_refl, subseq_erase. }
  destruct (IdMap.mem id (beams_ s1)).
  { destruct (forEachIdM _ _ s1) as [s2|] eqn:E; [|discriminate].
    apply Some_inj in H. subst s'. apply (Hend s2 _ (Hfold _ _ _ E)); [|reflexivity].
    apply last_step_shrinks; cbn; auto using subseq_refl, subseq_erase. }
  repeat match type of H with
         | (if ?c then _ else _) = _ => destruct c
         end;
    apply Some_inj in H; subst s'; apply (Hend s1 _ Hself); try reflexivity;
    apply last_step_shrinks; cbn; auto using subseq_refl, subseq_erase.
Qed.

Lemma genUniqueId_fresh s :
  idsBelowCounter s -> (baseId_ s + 1 < 2 ^ 64)%N ->
  fst (genUniqueId_ s) = (baseId_ s + 1)%N
  /\ ~ In (fst (genUniqueId_ s)) (allKeys s).
Proof.
  intros Hb Hlt. unfold genUniqueId_. cbn [fst].
  rewrite N.mod_small by exact Hlt. split; [reflexivity|].
  intros Hin. apply Hb in Hin. lia.
Qed.

Lemma uniqueIds_of_occ s : (forall i, occ (allKeys s) i <= 1) -> uniqueIds s.
Proof. intros H. apply NoDup_of_occ_le_one. exact H. Qed.

Lemma committed_keys P F U (HI : HasId P) (HC : HasCommonPrefs F) (c : Container P F U)
  build (edit : P -> P) s t2 s2 :
  isContainer HI HC c ->
  objectType s (fst (genUniqueId_ s)) = NONE ->
  (forall p, id_of (edit p) = id_of p) ->
  NewEntry_commit build (NewEntry_edit edit (fst (addEntity c s))) (snd (addEntity c s))
  = Ok (t2, s2) ->
  baseId_ s2 = fst (genUniqueId_ s)
  /\ forall i, occ (allKeys s2) i
               = occ (allKeys s) i + (if N.eq_dec (fst (genUniqueId_ s)) i then 1 else 0).
Proof.
  intros Hc Hfresh Hedit.
  destruct (objectType_NONE_mem _ _ Hfresh) as (Mp & Mb & Mg & Ml & Mj & Mo & Mc).
  set (id := fst (genUniqueId_ s)) in *.
  assert (Hid : forall p : P, id_eqb id (id_of (edit (set_id id p))) = true).
  { intros p. rewrite Hedit. destruct Hc; simpl; apply N.eqb_refl. }
  assert (Hid' : forall p : P, id_of (edit (set_id id p)) = id).
  { intros p. specialize (Hid p). apply N.eqb_eq in Hid. congruence. }
  assert (Ha : assert build true = Ok tt) by (destruct build; reflexivity).
  unfold addEntity. change (genUniqueId_ s) with (id, set_baseId_ id s). cbv iota beta zeta.
  unfold addEntry, NewEntry_edit, NewEntry_commit.
  cbn [fst snd ne_entry_ ne_entries_ ne_initialId_ ne_committed_ ne_notified_ option_map negb
       properties set_properties set_preferences preferences].
  rewrite Hid, Ha. cbn [bind]. cbv zeta.
  cbn [ne_entry_ ne_entries_ ne_initialId_ ne_committed_ ne_notified_ option_map negb
       properties set_properties set_preferences preferences].
  rewrite !Hid'. intros H. apply Ok_inj in H.
  assert (Hs2 : s2 = snd (t2, s2)) by reflexivity. rewrite <- H in Hs2. cbn [snd] in Hs2.
  subst s2. clear H.
  destruct Hc; (split; [reflexivity|]); intros i; rewrite !occ_allKeys; simpl;
    rewrite occ_keys_insert by assumption; lia.
Qed.

(** The id discipline of the store.  In a store whose ids are the key of
    one entry only and were all handed out by the counter, the next id
    the counter hands out is not in use and is not the scenario id 0,
    provided the 64-bit counter has not run out.  Both facts still hold
    after a new entity is committed under that id, after any pass of
    [update] that completes, after any [flush] and after any
    [removeEntity] that returns. *)
Theorem id_discipline_is_kept s :
  uniqueIds s -> idsBelowCounter s ->
  ((baseId_ s + 1 < 2 ^ 64)%N ->
   objectType s (fst (genUniqueId_ s)) = NONE
   /\ fst (genUniqueId_ s) <> 0%N
   /\ forall P F U (HI : HasId P) (HC : HasCommonPrefs F) (c : Container P F U)
             build (edit : P -> P) t2 s2,
        isContainer HI HC c ->
        (forall p, id_of (edit p) = id_of p) ->
        NewEntry_commit build (NewEntry_edit edit (fst (addEntity c s))) (snd (addEntity c s))
        = Ok (t2, s2) ->
        uniqueIds s2 /\ idsBelowCounter s2)
  /\ (forall build time s',
         update build time s = Ok s' -> uniqueIds s' /\ idsBelowCounter s')
  /\ (forall id scope fields startTime endTime,
         uniqueIds (snd (flush_range id scope fields startTime endTime s))
         /\ idsBelowCounter (snd (flush_range id scope fields startTime endTime s)))
  /\ (forall fuel id s',
         removeEntity fuel id s = Some s' -> uniqueIds s' /\ idsBelowCounter s').
Proof.
  intros Hu Hb. split; [|split; [|split]].
  - intros Hlt. destruct (genUniqueId_fresh Hb Hlt) as [Hid Hnew].
    assert (Hfresh : objectType s (fst (genUniqueId_ s)) = NONE)
      by (apply objectType_NONE_iff; exact Hnew).
    split; [exact Hfresh|]. split; [rewrite Hid; lia|].
    intros P F U HI HC c build edit t2 s2 Hc Hedit Hcommit.
    edestruct committed_keys as [Hbase Hocc];
      [exact Hc|exact Hfresh|exact Hedit|exact Hcommit|].
    split.
    + apply uniqueIds_of_occ. intros i. rewrite Hocc.
      pose proof (@uniqueIds_occ s i Hu) as Hle.
      destruct (N.eq_dec (fst (genUniqueId_ s)) i) as [<-|]; [|lia].
      apply absent_occ in Hnew. lia.
    + intros i Hi. apply in_keys_occ in Hi. rewrite Hocc in Hi. rewrite Hbase, Hid.
      destruct (N.eq_dec (fst (genUniqueId_ s)) i) as [<-|].
      * rewrite Hid. lia.
      * assert (In i (allKeys s)) by (apply in_keys_occ; lia).
        apply Hb in H. lia.
  - intros build time s' H.
    destruct (update_sameEntities _ _ _ H) as [Hs Hid].
    destruct (sameEntities_queries Hs) as (_ & _ & _ & Hk).
    unfold uniqueIds, idsBelowCounter. rewrite Hk, Hid. auto.
  - intros id scope fields startTime endTime.
    destruct (flush_range_run id scope fields startTime endTime s) as (s1 & Hq & ->).
    destruct Hq as ([Hs _ _ _ Hid] & _).
    destruct (sameSettings_queries Hs) as (_ & _ & Hk).
    assert (Hn : allKeys (flushNotify id s1) = allKeys s1 /\ baseId_ (flushNotify id s1) = baseId_ s1)
      by (split; reflexivity).
    destruct Hn as [Hn1 Hn2].
    destruct (id_eqb id 0%N); [|destruct (ObjectType_eqb _ _)]; cbn [snd];
      unfold uniqueIds, idsBelowCounter; rewrite ?Hn1, ?Hn2, ?Hk, ?Hid; auto.
  - intros fuel id s' H. destruct (removeEntity_shrinks _ _ _ H) as [Hs Hid].
    split; [eapply shrinks_uniqueIds; eauto|].
    intros i Hi. rewrite Hid. apply Hb.
    eapply subseq_In; [apply shrinks_allKeys; exact Hs|exact Hi].
Qed.

End IdInvariant.

(** ** Committed edits *)

Section CommittedEdits.
Context {X : Collaborators}.

(** A commit that finds nothing to change is silent.  When the edited
    scratch copy of a properties or of a preferences transaction
    serialises to the same string as the live value, [commit] leaves the
    store and the transaction as they were, and so does the release that
    follows: no flag is raised, no data is limited, nobody is told. *)
Theorem unchanged_commit_is_silent P F U (HI : HasId P) (HC : HasCommonPrefs F)
  (HMP : Message P) (HMF : Message F) (c : Container P F U) id s entry :
  IdMap.find id (entriesOf c s) = Some entry ->
  (forall (edit : P -> P),
      SerializeAsString (edit (properties entry)) = SerializeAsString (properties entry) ->
      exists t0,
        mutable_properties c id s = Some t0
        /\ MutableProperty_commit (MutableProperty_edit edit t0) s
           = (MutableProperty_edit edit t0, s)
        /\ MutableProperty_release (MutableProperty_edit edit t0) s
           = (MutableProperty_edit edit t0, s))
  /\ (forall (edit : F -> F),
         SerializeAsString (edit (preferences entry)) = SerializeAsString (preferences entry) ->
         exists t0,
           mutable_prefs c id s = Some t0
           /\ MutableSettings_commit (MutableSettings_edit edit t0) s
              = (MutableSettings_edit edit t0, s)
           /\ MutableSettings_release (MutableSettings_edit edit t0) s
              = (MutableSettings_edit edit t0, s)).
Proof.
  intros Hfind. split; intros edit Hsame.
  - unfold mutable_properties. rewrite Hfind. eexists. split; [reflexivity|].
    unfold MutableProperty_commit, MutableProperty_edit, MutableProperty_release. simpl.
    rewrite Hfind. simpl. rewrite Hsame, String.eqb_refl. simpl. split; reflexivity.
  - unfold mutable_prefs. rewrite Hfind. eexists. split; [reflexivity|].
    unfold MutableSettings_commit, MutableSettings_edit, MutableSettings_release,
      MutableSettings_new. simpl.
    unfold getPrefs. rewrite Hfind. simpl. rewrite Hsame, String.eqb_refl. simpl.
    split; reflexivity.
Qed.

Lemma find_adjust_same {V} id (f : V -> V) (m : IdMap.t V) v :
  IdMap.find id m = Some v -> IdMap.find id (IdMap.adjust id f m) = Some (f v).
Proof.
  intros H. rewrite find_adjust. unfold id_eqb. rewrite N.eqb_refl, H. reflexivity.
Qed.

Lemma find_adjust_other {V} id id' (f : V -> V) (m : IdMap.t V) :
  id' <> id -> IdMap.find id' (IdMap.adjust id f m) = IdMap.find id' m.
Proof.
  intros H. rewrite find_adjust.
  assert (E : id_eqb id' id = false) by (apply N.eqb_neq; exact H).
  rewrite E. reflexivity.
Qed.

(** A properties transaction whose edit changes the serialised
    properties, committed and released.  The entry held under the id has
    the edited properties and is otherwise as it was; the preferences and
    the ids of the container, every entry under another id, and every
    other container are untouched; the change flag is raised.  The commit
    tells nobody; the release tells every listener [onPropertiesChange]
    once.  Committing and releasing again change nothing. *)
Theorem properties_commit_round_trip P F U (HI : HasId P) (HC : HasCommonPrefs F)
  (HM : Message P) (c : Container P F U) (edit : P -> P) id s entry :
  isContainer HI HC c ->
  IdMap.find id (entriesOf c s) = Some entry ->
  SerializeAsString (edit (properties entry)) <> SerializeAsString (properties entry) ->
  exists t0 t1 s1 t2 s2,
    mutable_properties c id s = Some t0
    /\ MutableProperty_commit (MutableProperty_edit edit t0) s = (t1, s1)
    /\ MutableProperty_release t1 s1 = (t2, s2)
    /\ IdMap.find id (entriesOf c s2) = Some (set_properties (edit (properties entry)) entry)
    /\ (forall i, i <> id -> IdMap.find i (entriesOf c s2) = IdMap.find i (entriesOf c s))
    /\ IdMap.keys (entriesOf c s2) = IdMap.keys (entriesOf c s)
    /\ sameAwayFrom id s s2
    /\ hasChanged_ s2 = true
    /\ fabric_ s1 = fabric_ s
    /\ log (fabric_ s2)
       = log (fabric_ s)
         ++ List.map (fun l => Called l (onPropertiesChange id)) (listeners_ (fabric_ s))
    /\ MutableProperty_commit t2 s2 = (t2, s2)
    /\ MutableProperty_release t2 s2 = (t2, s2).
Proof.
  intros Hc Hfind Hdiff.
  assert (Hneq : String.eqb (SerializeAsString (edit (properties entry)))
                            (SerializeAsString (properties entry)) = false).
  { apply String.eqb_neq. exact Hdiff. }
  unfold mutable_properties. rewrite Hfind.
  do 5 eexists. split; [reflexivity|].
  unfold MutableProperty_commit, MutableProperty_edit, MutableProperty_release.
  cbn [mp_id_ mp_committed_ mp_notified_ mp_currentProperties_ mp_modifiedProperties_
       propertiesPointer deref assign].
  rewrite Hfind. cbn [option_map]. rewrite Hneq. cbn [negb].
  split; [reflexivity|].
  cbn [mp_id_ mp_committed_ mp_notified_ mp_currentProperties_ mp_modifiedProperties_
       andb negb].
  split; [reflexivity|].
  destruct Hc; cbn [entriesOf set_entriesOf Platforms Beams Gates Lasers Projectors LobGroups
                    CustomRenderings] in *;
    simpl;
    rewrite (find_adjust_same _ _ _ Hfind);
    rewrite ?keys_adjust, ?app_nil_r, ?round_calls_single;
    cbn [option_map properties set_properties]; rewrite String.eqb_refl;
    (repeat split; try reflexivity;
     try (intros i Hi; apply find_adjust_other; exact Hi);
     simpl; rewrite ?erase_adjust; reflexivity).
Qed.

End CommittedEdits.

(** ** New data points *)

Section NewDataPoints.
Context {X : Collaborators}.

Lemma isContainer_objectType P F U (HI : HasId P) (HC : HasCommonPrefs F)
  (c : Container P F U) s id entry :
  isContainer HI HC c ->
  IdMap.find id (entriesOf c s) = Some entry ->
  objectType s id <> NONE.
Proof.
  intros Hc Hfind Hn.
  destruct (objectType_NONE_mem _ _ Hn) as (Mp & Mb & Mg & Ml & Mj & Mo & Mc).
  unfold IdMap.mem in *.
  destruct Hc; simpl in Hfind; unalias;
    [rewrite Hfind in Mp|rewrite Hfind in Mb|rewrite Hfind in Mg|rewrite Hfind in Ml
    |rewrite Hfind in Mj|rewrite Hfind in Mo|rewrite Hfind in Mc]; discriminate.
Qed.

(** A new update, from [addPlatformUpdate] (or a sibling) through its
    commit.  The update is inserted in the update slice of the entity,
    and the slice is then limited by the preferences of the entity
    exactly when data limiting is on; the preferences read for that are
    never null.  Nothing else of the entry, no other entry and no other
    container change.  The change flag is raised, the new-updates
    listener is told [onEntityUpdate] with the time of the update, and no
    listener of the store is told.  Committing again and releasing change
    nothing.  A new command goes the same way into the command slice,
    except that the new-updates listener is not told. *)
Theorem new_update_commit P F U (HI : HasId P) (HC : HasCommonPrefs F) (HT : Timed U)
  (c : Container P F U) id s entry :
  isContainer HI HC c ->
  IdMap.find id (entriesOf c s) = Some entry ->
  commonPrefs s id <> None
  /\ (forall update : U,
        exists t0 t1 s1,
          addUpdate c id update s = Some t0
          /\ NewUpdate_commit t0 s = (t1, s1)
          /\ IdMap.find id (entriesOf c s1)
             = Some (set_updates
                       (if dataLimiting_ s
                        then slice_limitByPrefs (slice_insert (updates entry) update)
                                                (commonPrefs s id)
                        else slice_insert (updates entry) update)
                       entry)
          /\ sameAwayFrom id s s1
          /\ hasChanged_ s1 = true
          /\ newUpdatesLog_ s1 = newUpdatesLog_ s ++ [onEntityUpdate id (time_of update)]
          /\ fabric_ s1 = fabric_ s
          /\ NewUpdate_commit t1 s1 = (t1, s1)
          /\ NewUpdate_release t1 s1 = (t1, s1))
  /\ (forall command : Command F,
        exists t0 t1 s1,
          addCommand c id command s = Some t0
          /\ NewUpdate_commit t0 s = (t1, s1)
          /\ IdMap.find id (entriesOf c s1)
             = Some (set_commands
                       (if dataLimiting_ s
                        then command_limitByPrefs (command_insert (commands entry) command)
                                                  (commonPrefs s id)
                        else command_insert (commands entry) command)
                       entry)
          /\ sameAwayFrom id s s1
          /\ hasChanged_ s1 = true
          /\ newUpdatesLog_ s1 = newUpdatesLog_ s
          /\ fabric_ s1 = fabric_ s
          /\ NewUpdate_commit t1 s1 = (t1, s1)
          /\ NewUpdate_release t1 s1 = (t1, s1)).
Proof.
  intros Hc Hfind.
  split.
  { intros Hn. apply commonPrefs_None_iff in Hn.
    exact (isContainer_objectType _ _ Hc Hfind Hn). }
  split.
  - intros update. unfold addUpdate. rewrite Hfind. do 3 eexists.
    split; [reflexivity|].
    unfold NewUpdate_commit, NewUpdate_release.
    cbn [nu_update_ nu_slice_ nu_insert_ nu_limitByPrefs_ nu_id_ nu_isEntityUpdate_
         nu_committed_ updatesPointer deref assign].
    rewrite Hfind. cbn [option_map].
    split; [reflexivity|].
    cbn [nu_committed_ negb].
    destruct Hc; cbn [entriesOf set_entriesOf Platforms Beams Gates Lasers Projectors LobGroups
                      CustomRenderings] in *;
      simpl; rewrite (find_adjust_same _ _ _ Hfind);
      (repeat split; try reflexivity; simpl; rewrite ?erase_adjust; reflexivity).
  - intros command. unfold addCommand. rewrite Hfind. do 3 eexists.
    split; [reflexivity|].
    unfold NewUpdate_commit, NewUpdate_release.
    cbn [nu_update_ nu_slice_ nu_insert_ nu_limitByPrefs_ nu_id_ nu_isEntityUpdate_
         nu_committed_ commandsPointer deref assign].
    rewrite Hfind. cbn [option_map].
    split; [reflexivity|].
    cbn [nu_committed_ negb].
    destruct Hc; cbn [entriesOf set_entriesOf Platforms Beams Gates Lasers Projectors LobGroups
                      CustomRenderings] in *;
      simpl; rewrite (find_adjust_same _ _ _ Hfind);
      (repeat split; try reflexivity; simpl; rewrite ?erase_adjust; reflexivity).
Qed.

End NewDataPoints.

(** ** Listeners *)

Section Listeners.
Local Open Scope nat_scope.

Lemma count_erase_first l l' ls :
  count_occ Nat.eq_dec (erase_first l' ls) l
  = count_occ Nat.eq_dec ls l - (if Nat.eq_dec l l' then 1 else 0).
Proof.
  induction ls as [|x ls IH]; simpl.
  - destruct (Nat.eq_dec l l'); reflexivity.
  - destruct (Nat.eqb x l') eqn:E.
    + apply Nat.eqb_eq in E. subst x.
      destruct (Nat.eq_dec l' l), (Nat.eq_dec l l'); subst; first [congruence | reflexivity | lia].
    + apply Nat.eqb_neq in E. simpl. rewrite IH.
      destruct (Nat.eq_dec x l), (Nat.eq_dec l l'); subst; first [congruence | reflexivity | lia].
Qed.

Lemma existsb_count l ls :
  existsb (Nat.eqb l) ls = false <-> count_occ Nat.eq_dec ls l = 0.
Proof.
  induction ls as [|x ls IH]; simpl; [tauto|].
  destruct (Nat.eq_dec x l) as [->|Hne].
  - rewrite Nat.eqb_refl. simpl. split; [discriminate|lia].
  - assert (E : Nat.eqb l x = false) by (apply Nat.eqb_neq; congruence).
    rewrite E. simpl. exact IH.
Qed.

Lemma calls_to_app l es1 es2 : calls_to l (es1 ++ es2) = calls_to l es1 + calls_to l es2.
Proof. unfold calls_to. rewrite filter_app, length_app. reflexivity. Qed.

Lemma calls_to_called x l r :
  calls_to l (List.map (Called x) r) = if Nat.eq_dec x l then List.length r else 0.
Proof.
  unfold calls_to. destruct (Nat.eq_dec x l) as [->|Hne].
  - induction r as [|n r IHr]; simpl; [reflexivity|].
    rewrite Nat.eqb_refl. cbn [List.length]. f_equal. exact IHr.
  - assert (E : Nat.eqb x l = false) by (apply Nat.eqb_neq; congruence).
    induction r as [|n r IHr]; simpl; [reflexivity|]. rewrite E. exact IHr.
Qed.

Lemma calls_to_round l ls r :
  calls_to l (round_calls ls r) = count_occ Nat.eq_dec ls l * List.length r.
Proof.
  unfold round_calls. induction ls as [|x ls IH]; simpl; [reflexivity|].
  rewrite calls_to_app, IH, calls_to_called.
  destruct (Nat.eq_dec x l); simpl; lia.
Qed.

(** Listeners are counted, not deduplicated.  [addListener] adds one
    registration of the listener, also when it is registered already;
    [removeListener] takes one registration away when there is one and
    otherwise leaves the fabric as it was; neither touches the
    registrations of another listener.  A pass over observers that do not
    call back calls a listener once per registration and per callback of
    each round. *)
Theorem listeners_are_counted l l' f :
  registrations l (addListener l' f)
  = registrations l f + (if Nat.eq_dec l l' then 1 else 0)
  /\ registrations l (removeListener l' f)
     = registrations l f - (if Nat.eq_dec l l' then 1 else 0)
  /\ (registrations l' f = 0 -> removeListener l' f = f)
  /\ forall rounds,
       calls_to l (log (deliver rounds f))
       = calls_to l (log f) + registrations l f * List.length (List.concat rounds).
Proof.
  unfold registrations, ListenerId in *. split; [|split; [|split]].
  - unfold addListener. simpl. rewrite count_occ_app. simpl.
    destruct (Nat.eq_dec l' l), (Nat.eq_dec l l'); subst; first [congruence | reflexivity | lia].
  - unfold removeListener.
    destruct (existsb (Nat.eqb l') (listeners_ f)) eqn:E; simpl.
    + apply count_erase_first.
    + apply existsb_count in E.
      destruct (Nat.eq_dec l l'); subst; lia.
  - intros H. apply existsb_count in H. unfold removeListener. rewrite H. reflexivity.
  - intros rounds. unfold deliver. simpl. rewrite calls_to_app. f_equal.
    induction rounds as [|r rounds IH]; simpl; [rewrite Nat.mul_0_r; reflexivity|].
    rewrite calls_to_app, IH, calls_to_round, length_app. nia.
Qed.

End Listeners.

Section HonouredRemoval.
Variable beh : Behaviour.
Variable nested : list Round -> Fabric -> option Fabric.
Hypothesis beh_quiet : forall l n rounds, ~ In (callNotifying rounds) (beh l n).

Lemma runActions_quiet acts : forall g,
  (forall rounds, ~ In (callNotifying rounds) acts) ->
  exists g1 R,
    runActions nested acts g = Some g1
    /\ log g1 = log g ++ List.map Unregistered R
    /\ justRemoved_ g1 = justRemoved_ g ++ R.
Proof.
  induction acts as [|a acts IH]; intros g Hq.
  - exists g, []. simpl. rewrite !app_nil_r. auto.
  - assert (Hq' : forall rounds, ~ In (callNotifying rounds) acts).
    { intros rounds Hin. apply (Hq rounds). now right. }
    destruct a as [l|l|rounds]; simpl.
    + destruct (IH (removeListener l g) Hq') as (g1 & R & Hr & Hl & Hj).
      unfold removeListener in Hl, Hj.
      destruct (existsb (Nat.eqb l) (listeners_ g)) eqn:E.
      * exists g1, (l :: R). split; [exact Hr|]. simpl in *.
        rewrite Hl, Hj, <- !app_assoc. auto.
      * exists g1, R. auto.
    + destruct (IH (addListener l g) Hq') as (g1 & R & Hr & Hl & Hj).
      exists g1, R. auto.
    + exfalso. apply (Hq rounds). now left.
Qed.

Lemma called_in_app l es1 es2 :
  called_in l (es1 ++ es2) = called_in l es1 || called_in l es2.
Proof.
  induction es1 as [|[l' n|l'] es1 IH]; simpl; [reflexivity| |exact IH].
  rewrite IH. apply orb_assoc.
Qed.

Lemma called_in_unregistered l R : called_in l (List.map Unregistered R) = false.
Proof. induction R; simpl; auto. Qed.

Lemma ncar_app_unregistered seg R :
  no_call_after_removal (seg ++ List.map Unregistered R) = no_call_after_removal seg.
Proof.
  induction seg as [|[l n|l] seg IH]; simpl.
  - induction R as [|x R IHR]; simpl; [reflexivity|].
    rewrite called_in_unregistered. exact IHR.
  - exact IH.
  - rewrite called_in_app, called_in_unregistered, orb_false_r, IH. reflexivity.
Qed.

Lemma ncar_app_called seg l n :
  no_call_after_removal seg = true ->
  ~ In (Unregistered l) seg ->
  no_call_after_removal (seg ++ [Called l n]) = true.
Proof.
  induction seg as [|[l' n'|l'] seg IH]; simpl; intros Hn Hu; [reflexivity| |].
  - apply IH; [exact Hn|]. intros H. apply Hu. now right.
  - apply andb_true_iff in Hn. destruct Hn as [Hc Hn].
    rewrite called_in_app. simpl. rewrite orb_false_r.
    apply andb_true_iff. split.
    + apply negb_true_iff in Hc. rewrite Hc. simpl.
      apply negb_true_iff. apply Nat.eqb_neq. intros ->. apply Hu. now left.
    + apply IH; [exact Hn|]. intros H. apply Hu. now right.
Qed.

Lemma live_reset_first l lc : live (reset_first l lc) = erase_first l (live lc).
Proof.
  induction lc as [|[x|] lc IH]; simpl; [reflexivity| |exact IH].
  destruct (Nat.eqb x l); simpl; [reflexivity|]. now rewrite IH.
Qed.

Lemma erase_first_NoDup x ls :
  NoDup ls ->
  NoDup (erase_first x ls) /\ forall y, In y (erase_first x ls) <-> In y ls /\ y <> x.
Proof.
  induction ls as [|a ls IH]; simpl; intros Hnd.
  - split; [constructor|]. intros y. tauto.
  - inversion Hnd as [|? ? Ha Hls]; subst.
    destruct (IH Hls) as [IH1 IH2].
    destruct (Nat.eqb a x) eqn:E.
    + apply Nat.eqb_eq in E. subst a. split; [exact Hls|].
      intros y. split.
      * intros Hy. split; [now right|]. intros ->. contradiction.
      * intros [[->|Hy] Hne]; [congruence|exact Hy].
    + apply Nat.eqb_neq in E. split.
      * constructor; [|exact IH1]. intros Hin. apply IH2 in Hin. tauto.
      * intros y. simpl. rewrite IH2. split.
        -- intros [->|[Hy Hne]]; auto.
        -- intros [[->|Hy] Hne]; auto.
Qed.

Lemma reset_all_live R : forall lc,
  NoDup (live lc) ->
  NoDup (live (fold_left (fun l just => reset_first just l) R lc))
  /\ forall y, In y (live (fold_left (fun l just => reset_first just l) R lc))
               <-> In y (live lc) /\ ~ In y R.
Proof.
  induction R as [|x R IH]; intros lc Hnd; simpl.
  - split; [exact Hnd|]. intros y. tauto.
  - assert (H1 := @erase_first_NoDup x (live lc) Hnd). rewrite <- live_reset_first in H1.
    destruct H1 as [Hn1 Hi1]. destruct (IH _ Hn1) as [Hn2 Hi2].
    split; [exact Hn2|]. intros y. rewrite Hi2, Hi1. split.
    + intros [[Hy Hne] HR]. split; [exact Hy|]. intros [->|H]; auto.
    + intros [Hy HR]. split; [split; [exact Hy|]|]; intros H; apply HR; auto.
Qed.

Lemma nth_live i lc l : nth i lc None = Some l -> In l (live lc).
Proof.
  revert i. induction lc as [|o lc IH]; intros i H.
  - destruct i; discriminate.
  - destruct i as [|i]; simpl in H.
    + subst o. simpl. now left.
    + unfold live. simpl. apply in_or_app. right. exact (IH i H).
Qed.

Lemma checkForRemoval_fold lc g :
  checkForRemoval_ lc g
  = (fold_left (fun l just => reset_first just l) (justRemoved_ g) lc, set_justRemoved_ [] g).
Proof.
  unfold checkForRemoval_. destruct g as [ls jr lg]. simpl.
  destruct jr; reflexivity.
Qed.

Variable base : list LogEntry.

Lemma invokeEntry_honours r : forall i lc g seg,
  betweenCallbacks base lc g seg ->
  exists lc' g' seg', invokeEntry beh nested r i lc g = Some (lc', g') /\ betweenCallbacks base lc' g' seg'.
Proof.
  induction r as [|n r IH]; intros i lc g seg HI.
  - exists lc, g, seg. split; [reflexivity|exact HI].
  - cbn [invokeEntry]. destruct (nth i lc None) as [l|] eqn:Hn.
    2:{ exists lc, g, seg. split; [reflexivity|exact HI]. }
    destruct HI as (Hlog & Hjr & Hncar & Hnd & Hun).
    destruct (@runActions_quiet (beh l n) (append_log [Called l n] g)
                (fun rounds => @beh_quiet l n rounds)) as (g1 & R & Hr & Hl1 & Hj1).
    rewrite Hr. rewrite checkForRemoval_fold.
    simpl in Hl1, Hj1. rewrite Hjr in Hj1. simpl in Hj1.
    rewrite Hj1.
    destruct (@reset_all_live R lc Hnd) as [Hnd' Hin'].
    apply (IH i _ _ ((seg ++ [Called l n]) ++ List.map Unregistered R)).
    split; [|split; [|split; [|split]]].
    + simpl. rewrite Hl1, Hlog, <- !app_assoc. reflexivity.
    + reflexivity.
    + rewrite ncar_app_unregistered. apply ncar_app_called; [exact Hncar|].
      intros Hu. apply (Hun l Hu). eapply nth_live; eauto.
    + exact Hnd'.
    + intros l0 Hl0 Hlive. apply Hin' in Hlive. destruct Hlive as [Hlive HR].
      apply in_app_or in Hl0. destruct Hl0 as [Hl0|Hl0].
      * apply in_app_or in Hl0. destruct Hl0 as [Hl0|[Hl0|[]]]; [|discriminate].
        exact (Hun l0 Hl0 Hlive).
      * apply in_map_iff in Hl0. destruct Hl0 as (x & Hx & HxR).
        injection Hx as ->. contradiction.
Qed.

Lemma dispatchLoop_honours r k : forall i lc g seg,
  betweenCallbacks base lc g seg ->
  exists lc' g' seg', dispatchLoop beh nested r k i lc g = Some (lc', g') /\ betweenCallbacks base lc' g' seg'.
Proof.
  induction k as [|k IH]; intros i lc g seg HI.
  - exists lc, g, seg. split; [reflexivity|exact HI].
  - cbn [dispatchLoop].
    destruct (invokeEntry_honours r i HI) as (lc1 & g1 & seg1 & -> & HI1).
    apply (IH (S i) _ _ _ HI1).
Qed.

Lemma dispatchRounds_honours rounds : forall lc g seg,
  betweenCallbacks base lc g seg ->
  exists g' seg',
    dispatchRounds beh nested rounds lc g = Some g'
    /\ log g' = base ++ seg' /\ no_call_after_removal seg' = true.
Proof.
  induction rounds as [|r rounds IH]; intros lc g seg HI.
  - exists g, seg. destruct HI as (Hlog & _ & Hn & _). auto.
  - cbn [dispatchRounds].
    destruct (dispatchLoop_honours r (List.length lc) 0 HI) as (lc1 & g1 & seg1 & -> & HI1).
    apply (IH _ _ _ HI1).
Qed.

End HonouredRemoval.

Lemma live_map_Some ls : live (List.map Some ls) = ls.
Proof. induction ls as [|l ls IH]; simpl; [reflexivity|]. now rewrite IH. Qed.

(** The removal of a listener is honoured when no callback makes a
    notifying call.  If no listener is registered twice and no callback
    answers by a call that itself runs a pass, a pass completes, and in
    what it appends to the log no listener is called after it has been
    unregistered: [checkForRemoval_] resets its entry of the local copy
    before the loop reaches it. *)
Theorem removal_is_honoured_without_nested_pass fuel beh rounds f :
  NoDup (listeners_ f) ->
  (forall l n nestedRounds, ~ In (callNotifying nestedRounds) (beh l n)) ->
  exists f' seg,
    dispatch (S fuel) beh rounds f = Some f'
    /\ log f' = log f ++ seg
    /\ no_call_after_removal seg = true.
Proof.
  intros Hnd Hq. cbn [dispatch].
  apply (@dispatchRounds_honours beh (dispatch fuel beh) Hq (log f) rounds
           (List.map Some (listeners_ f)) (set_justRemoved_ [] f) []).
  split; [simpl; now rewrite app_nil_r|].
  split; [reflexivity|]. split; [reflexivity|].
  split; [rewrite live_map_Some; exact Hnd|].
  intros l [].
Qed.

(** ** Removal, exactly *)

Section EraseAll.
Context {V : Type}.
Implicit Types (m : IdMap.t V) (R : list ObjectId).

Lemma eraseAll_nil m : eraseAll [] m = m.
Proof.
  unfold eraseAll. induction m as [|kv m IH]; [reflexivity|].
  cbn [filter existsb negb]. f_equal. exact IH.
Qed.

Lemma eraseAll_app R1 R2 m : eraseAll R2 (eraseAll R1 m) = eraseAll (R1 ++ R2) m.
Proof.
  unfold eraseAll, ObjectId in *. induction m as [|[k v] m IH]; [reflexivity|].
  cbn [filter fst]. rewrite existsb_app.
  destruct (existsb (N.eqb k) R1); cbn [negb orb]; [exact IH|].
  cbn [filter fst].
  destruct (existsb (N.eqb k) R2); cbn [negb]; [exact IH|]. f_equal. exact IH.
Qed.

Lemma existsb_In R x : existsb (N.eqb x) R = true <-> In x R.
Proof.
  rewrite existsb_exists. split.
  - intros (y & Hy & E). apply N.eqb_eq in E. now subst.
  - intros H. exists x. split; [exact H|apply N.eqb_refl].
Qed.

Lemma existsb_ext R R' x :
  (forall y, In y R <-> In y R') -> existsb (N.eqb x) R = existsb (N.eqb x) R'.
Proof.
  intros H. destruct (existsb (N.eqb x) R) eqn:E, (existsb (N.eqb x) R') eqn:E';
    try reflexivity.
  - apply existsb_In, H, existsb_In in E. congruence.
  - apply existsb_In, H, existsb_In in E'. congruence.
Qed.

Lemma eraseAll_ext R R' m :
  (forall y, In y R <-> In y R') -> eraseAll R m = eraseAll R' m.
Proof.
  intros H. unfold eraseAll. apply filter_ext. intros kv.
  now rewrite (@existsb_ext R R' (fst kv) H).
Qed.

Lemma erase_eraseAll id m : IdMap.erase id m = eraseAll [id] m.
Proof.
  unfold IdMap.erase, eraseAll. apply filter_ext. intros kv. simpl.
  unfold id_eqb. now rewrite orb_false_r.
Qed.

Lemma eraseAll_absent R m :
  (forall x, In x R -> ~ In x (IdMap.keys m)) -> eraseAll R m = m.
Proof.
  intros H. unfold eraseAll. induction m as [|[k v] m IH]; simpl; [reflexivity|].
  destruct (existsb (N.eqb k) R) eqn:E.
  - apply existsb_In in E. exfalso. apply (H k E). now left.
  - simpl. rewrite IH; [reflexivity|]. intros x Hx Hin. apply (H x Hx). now right.
Qed.

Lemma keys_where_eraseAll (p : V -> bool) R m :
  IdMap.keys_where p (eraseAll R m)
  = filter (fun k => negb (existsb (N.eqb k) R)) (IdMap.keys_where p m).
Proof.
  unfold IdMap.keys_where, eraseAll. induction m as [|[k v] m IH]; simpl; [reflexivity|].
  destruct (existsb (N.eqb k) R) eqn:E; simpl.
  - destruct (p v); simpl; rewrite ?E; simpl; exact IH.
  - destruct (p v); simpl; rewrite ?E; simpl; now rewrite IH.
Qed.

Lemma keys_eraseAll R m :
  IdMap.keys (eraseAll R m) = filter (fun k => negb (existsb (N.eqb k) R)) (IdMap.keys m).
Proof.
  unfold IdMap.keys, eraseAll. induction m as [|[k v] m IH]; simpl; [reflexivity|].
  destruct (existsb (N.eqb k) R); simpl; now rewrite IH.
Qed.

Lemma find_eraseAll R m id :
  IdMap.find id (eraseAll R m)
  = if existsb (N.eqb id) R then None else IdMap.find id m.
Proof.
  unfold eraseAll, id_eqb, ObjectId in *. induction m as [|[k v] m IH].
  - simpl. destruct (existsb (N.eqb id) R); reflexivity.
  - cbn [filter fst]. destruct (existsb (N.eqb k) R) eqn:E; cbn [negb IdMap.find].
    + rewrite IH. unfold id_eqb. destruct (N.eqb_spec k id) as [->|Hne]; [|reflexivity].
      rewrite E. reflexivity.
    + unfold id_eqb. destruct (N.eqb_spec k id) as [->|Hne].
      * rewrite E. reflexivity.
      * exact IH.
Qed.

Lemma mem_eraseAll R m id :
  IdMap.mem id (eraseAll R m) = negb (existsb (N.eqb id) R) && IdMap.mem id m.
Proof.
  unfold IdMap.mem. rewrite find_eraseAll.
  destruct (existsb (N.eqb id) R); reflexivity.
Qed.

End EraseAll.

Lemma filter_notin (R l : list ObjectId) :
  (forall x, In x l -> ~ In x R) ->
  filter (fun k => negb (existsb (N.eqb k) R)) l = l.
Proof.
  intros H. induction l as [|x l IH]; simpl; [reflexivity|].
  destruct (existsb (N.eqb x) R) eqn:E.
  - apply existsb_In in E. exfalso. apply (H x); [now left|exact E].
  - simpl. rewrite IH; [reflexivity|]. intros y Hy. apply H. now right.
Qed.

Section ExactRemoval.
Context {X : Collaborators}.
Local Open Scope nat_scope.

Lemma containersErased_refl s : containersErased [] s s.
Proof. constructor; now rewrite eraseAll_nil. Qed.

Lemma containersErased_trans R1 R2 s1 s2 s3 :
  containersErased R1 s1 s2 -> containersErased R2 s2 s3 ->
  containersErased (R1 ++ R2) s1 s3.
Proof.
  intros [a1 a2 a3 a4 a5 a6 a7] [b1 b2 b3 b4 b5 b6 b7].
  constructor; rewrite <- eraseAll_app; congruence.
Qed.

Lemma containersErased_ext R R' s s' :
  (forall y, In y R <-> In y R') -> containersErased R s s' -> containersErased R' s s'.
Proof.
  intros H [a1 a2 a3 a4 a5 a6 a7].
  constructor; rewrite <- (@eraseAll_ext _ R R' _ H); assumption.
Qed.

Lemma sparseErased_refl s : sparseErased [] s s.
Proof. constructor; now rewrite eraseAll_nil. Qed.

Lemma sparseErased_trans R1 R2 s1 s2 s3 :
  sparseErased R1 s1 s2 -> sparseErased R2 s2 s3 -> sparseErased (R1 ++ R2) s1 s3.
Proof.
  intros [a1 a2 a3] [b1 b2 b3]. constructor; rewrite <- eraseAll_app; congruence.
Qed.

Lemma sparseErased_ext R R' s s' :
  (forall y, In y R <-> In y R') -> sparseErased R s s' -> sparseErased R' s s'.
Proof.
  intros H [a1 a2 a3]. constructor; rewrite <- (@eraseAll_ext _ R R' _ H); assumption.
Qed.

Lemma containersErased_shrinks R s s' : containersErased R s s' -> shrinks s s'.
Proof.
  intros [a1 a2 a3 a4 a5 a6 a7].
  constructor; rewrite ?a1, ?a2, ?a3, ?a4, ?a5, ?a6, ?a7; apply subseq_filter.
Qed.

Lemma containersErased_allKeys R s s' :
  containersErased R s s' ->
  allKeys s' = filter (fun k => negb (existsb (N.eqb k) R)) (allKeys s).
Proof.
  intros [a1 a2 a3 a4 a5 a6 a7]. unfold allKeys.
  rewrite a1, a2, a3, a4, a5, a6, a7, !keys_eraseAll, !filter_app. reflexivity.
Qed.

Lemma containersErased_In R s s' i :
  containersErased R s s' -> (In i (allKeys s') <-> In i (allKeys s) /\ ~ In i R).
Proof.
  intros H. rewrite (containersErased_allKeys H), filter_In.
  rewrite negb_true_iff, <- not_true_iff_false, existsb_In. tauto.
Qed.

(** the prologue takes the sparse data of [id] and leaves the containers *)
Lemma prologue_erased id ot s :
  containersErased [] s (removeEntityPrologue id ot s)
  /\ sparseErased [id] s (removeEntityPrologue id ot s).
Proof.
  split.
  - constructor; simpl; now rewrite eraseAll_nil.
  - constructor; simpl; apply erase_eraseAll.
Qed.

(** the last step of [removeEntity] on an entity that hosts nothing *)
Lemma leaf_erased id s s1 s' :
  containersErased [] s s1 ->
  (platforms_ s' = platforms_ s1 /\ IdMap.mem id (platforms_ s) = false)
  \/ platforms_ s' = IdMap.erase id (platforms_ s1) ->
  (beams_ s' = beams_ s1 /\ IdMap.mem id (beams_ s) = false)
  \/ beams_ s' = IdMap.erase id (beams_ s1) ->
  (gates_ s' = gates_ s1 /\ IdMap.mem id (gates_ s) = false)
  \/ gates_ s' = IdMap.erase id (gates_ s1) ->
  (lasers_ s' = lasers_ s1 /\ IdMap.mem id (lasers_ s) = false)
  \/ lasers_ s' = IdMap.erase id (lasers_ s1) ->
  (projectors_ s' = projectors_ s1 /\ IdMap.mem id (projectors_ s) = false)
  \/ projectors_ s' = IdMap.erase id (projectors_ s1) ->
  (lobGroups_ s' = lobGroups_ s1 /\ IdMap.mem id (lobGroups_ s) = false)
  \/ lobGroups_ s' = IdMap.erase id (lobGroups_ s1) ->
  (customRenderings_ s' = customRenderings_ s1
   /\ IdMap.mem id (customRenderings_ s) = false)
  \/ customRenderings_ s' = IdMap.erase id (customRenderings_ s1) ->
  containersErased [id] s s'.
Proof.
  intros [a1 a2 a3 a4 a5 a6 a7].
  rewrite eraseAll_nil in a1. rewrite eraseAll_nil in a2. rewrite eraseAll_nil in a3.
  rewrite eraseAll_nil in a4. rewrite eraseAll_nil in a5. rewrite eraseAll_nil in a6.
  rewrite eraseAll_nil in a7.
  assert (Habs : forall V (m m1 m' : IdMap.t V),
             m1 = m ->
             (m' = m1 /\ IdMap.mem id m = false) \/ m' = IdMap.erase id m1 ->
             m' = eraseAll [id] m).
  { intros V m m1 m' -> [[-> Hm]| ->].
    - rewrite <- erase_eraseAll. symmetry. now apply erase_absent.
    - apply erase_eraseAll. }
  intros E1 E2 E3 E4 E5 E6 E7.
  constructor; eapply Habs; eassumption.
Qed.

(** removing an entity that hosts nothing erases its id, once *)
Lemma remove_leaf_exactly fuel s id :
  uniqueIds s ->
  In id (allKeys s) ->
  IdMap.mem id (platforms_ s) = false ->
  IdMap.mem id (beams_ s) = false ->
  exists s',
    removeEntity (S fuel) id s = Some s'
    /\ containersErased [id] s s' /\ sparseErased [id] s s'.
Proof.
  intros Hu Hin Hp Hb. rewrite removeEntity_step. cbv zeta.
  destruct (ObjectType_eqb (objectType s id) NONE) eqn:Hot.
  { apply objectType_not_NONE in Hot. apply objectType_NONE_iff in Hot. contradiction. }
  destruct (prologue_erased id (objectType s id) s) as [Hc1 Hsp].
  pose proof (@uniqueIds_occ s id Hu) as Hocc. rewrite occ_allKeys in Hocc.
  apply in_keys_occ in Hin. rewrite occ_allKeys in Hin.
  pose proof (@occ_mem_false _ _ _ Hp) as Hp0. pose proof (@occ_mem_false _ _ _ Hb) as Hb0.
  revert Hc1 Hsp. generalize (removeEntityPrologue id (objectType s id) s).
  intros s1 Hc1 Hsp.
  destruct Hc1 as [a1 a2 a3 a4 a5 a6 a7].
  rewrite eraseAll_nil in a1. rewrite eraseAll_nil in a2. rewrite eraseAll_nil in a3.
  rewrite eraseAll_nil in a4. rewrite eraseAll_nil in a5. rewrite eraseAll_nil in a6.
  rewrite eraseAll_nil in a7.
  rewrite a1, a2, a3, a4, a5, a6, a7, Hp, Hb.
  assert (Hc1 : containersErased [] s s1)
    by (constructor; rewrite eraseAll_nil; assumption).
  assert (Hs' : forall s', genericData_ s' = genericData_ s1 ->
                  categoryData_ s' = categoryData_ s1 ->
                  dataTableManager_ s' = dataTableManager_ s1 -> sparseErased [id] s s').
  { intros s' E1 E2 E3. destruct Hsp. constructor; congruence. }
  destruct (IdMap.mem id (gates_ s)) eqn:Hg;
    [ pose proof (@occ_mem_true _ _ _ Hg)
    | pose proof (@occ_mem_false _ _ _ Hg);
      destruct (IdMap.mem id (lasers_ s)) eqn:Hl;
      [ pose proof (@occ_mem_true _ _ _ Hl)
      | pose proof (@occ_mem_false _ _ _ Hl);
        destruct (IdMap.mem id (projectors_ s)) eqn:Hj;
        [ pose proof (@occ_mem_true _ _ _ Hj)
        | pose proof (@occ_mem_false _ _ _ Hj);
          destruct (IdMap.mem id (lobGroups_ s)) eqn:Ho;
          [ pose proof (@occ_mem_true _ _ _ Ho)
          | pose proof (@occ_mem_false _ _ _ Ho);
            destruct (IdMap.mem id (customRenderings_ s)) eqn:Hc;
            [ pose proof (@occ_mem_true _ _ _ Hc)
            | pose proof (@occ_mem_false _ _ _ Hc); exfalso; lia ] ] ] ] ];
    (eexists; split; [reflexivity|]; split; [|apply Hs'; reflexivity]);
    (apply (@leaf_erased id s s1 _ Hc1);
     first [ right; cbn; congruence
           | left; split; [reflexivity|apply occ_zero_mem_false; lia] ]).
Qed.

Lemma uniqueIds_erased R s s' : containersErased R s s' -> uniqueIds s -> uniqueIds s'.
Proof. intros H. apply shrinks_uniqueIds. exact (containersErased_shrinks H). Qed.

Lemma fold_leaf_exactly fuel ids : forall s,
  uniqueIds s -> NoDup ids ->
  (forall i, In i ids ->
     In i (allKeys s) /\ IdMap.mem i (platforms_ s) = false
     /\ IdMap.mem i (beams_ s) = false) ->
  exists s',
    forEachIdM ids (removeEntity (S fuel)) s = Some s'
    /\ containersErased ids s s' /\ sparseErased ids s s'.
Proof.
  induction ids as [|i rest IH]; intros s Hu Hnd Hids.
  - exists s. split; [reflexivity|].
    split; [apply containersErased_refl|apply sparseErased_refl].
  - inversion Hnd as [|? ? Hni Hnd']; subst.
    destruct (Hids i (or_introl eq_refl)) as (Hin & Hp & Hb).
    destruct (@remove_leaf_exactly fuel s i Hu Hin Hp Hb) as (s1 & Hr & Hc1 & Hs1).
    destruct (IH s1) as (s' & Hf & Hc' & Hs').
    + eapply uniqueIds_erased; eauto.
    + exact Hnd'.
    + intros j Hj. destruct (Hids j (or_intror Hj)) as (Hjin & Hjp & Hjb).
      split; [|split].
      * apply (containersErased_In j Hc1). split; [exact Hjin|].
        intros [<-|[]]. contradiction.
      * destruct Hc1 as [-> _ _ _ _ _ _]. rewrite mem_eraseAll, Hjp. apply andb_false_r.
      * destruct Hc1 as [_ -> _ _ _ _ _]. rewrite mem_eraseAll, Hjb. apply andb_false_r.
    + exists s'. cbn [forEachIdM]. rewrite Hr. split; [exact Hf|].
      split; [exact (containersErased_trans Hc1 Hc')|exact (sparseErased_trans Hs1 Hs')].
Qed.

Lemma hosted_on_beam_counts s b x :
  uniqueIds s ->
  occ (gateIdListForHost s b ++ projectorIdListForHost s b) x
  <= occ (IdMap.keys (gates_ s)) x + occ (IdMap.keys (projectors_ s)) x.
Proof.
  intros Hu. rewrite occ_app.
  pose proof (occ_keys_where_le
                (fun e : GateEntry => id_eqb (GateProperties.hostid (properties e)) b)
                (gates_ s) x).
  pose proof (occ_keys_where_le
                (fun e : ProjectorEntry =>
                   id_eqb (ProjectorProperties.hostid (properties e)) b)
                (projectors_ s) x).
  unfold gateIdListForHost, projectorIdListForHost. lia.
Qed.

(** removing a beam erases its gates, its projectors and the beam *)
Lemma remove_beam_exactly fuel s id :
  uniqueIds s ->
  IdMap.mem id (platforms_ s) = false ->
  IdMap.mem id (beams_ s) = true ->
  exists s',
    removeEntity (S (S fuel)) id s = Some s'
    /\ containersErased (beamCascade s id) s s'
    /\ sparseErased (beamCascade s id) s s'.
Proof.
  intros Hu Hp Hb.
  pose proof (fun y => @uniqueIds_occ s y Hu) as Hocc.
  pose proof (@occ_mem_true _ _ _ Hb) as Hb0.
  pose proof (@occ_mem_false _ _ _ Hp) as Hp0.
  rewrite removeEntity_step. cbv zeta.
  destruct (ObjectType_eqb (objectType s id) NONE) eqn:Hot.
  { apply objectType_not_NONE in Hot. apply objectType_NONE_iff in Hot.
    apply absent_occ in Hot. rewrite occ_allKeys in Hot. lia. }
  destruct (prologue_erased id (objectType s id) s) as [Hc1 Hsp1].
  set (s1 := removeEntityPrologue id (objectType s id) s) in *.
  change (platforms_ s1) with (platforms_ s).
  change (beams_ s1) with (beams_ s).
  rewrite Hp, Hb.
  change (gateIdListForHost s1 id) with (gateIdListForHost s id).
  change (projectorIdListForHost s1 id) with (projectorIdListForHost s id).
  assert (Hu1 : uniqueIds s1) by exact Hu.
  set (ids := gateIdListForHost s id ++ projectorIdListForHost s id).
  assert (Hle : forall x, occ ids x
                          <= occ (IdMap.keys (gates_ s)) x
                             + occ (IdMap.keys (projectors_ s)) x)
    by (intros x; apply hosted_on_beam_counts; exact Hu).
  destruct (@fold_leaf_exactly fuel ids s1 Hu1) as (s2 & Hf & Hc2 & Hs2).
  { apply NoDup_of_occ_le_one. intros x. specialize (Hocc x). rewrite occ_allKeys in Hocc.
    specialize (Hle x). lia. }
  { intros i Hi. apply in_keys_occ in Hi. specialize (Hle i). specialize (Hocc i).
    rewrite occ_allKeys in Hocc.
    change (allKeys s1) with (allKeys s). change (platforms_ s1) with (platforms_ s).
    change (beams_ s1) with (beams_ s).
    split; [apply in_keys_occ; rewrite occ_allKeys; lia|].
    split; apply occ_zero_mem_false; lia. }
  rewrite Hf. eexists. split; [reflexivity|].
  assert (Hle_id : occ ids id = 0) by (specialize (Hle id); specialize (Hocc id);
                                       rewrite occ_allKeys in Hocc; lia).
  assert (Hnotin : ~ In id ids) by (intros H; apply in_keys_occ in H; lia).
  assert (Hc12 : containersErased ids s s2)
    by exact (containersErased_trans Hc1 Hc2).
  assert (Habs : forall V (m : IdMap.t V), occ (IdMap.keys m) id = 0 ->
                   eraseAll [id] (eraseAll ids m) = eraseAll ids m).
  { intros V m H0. apply eraseAll_absent. intros x [<-|[]] Hin.
    rewrite keys_eraseAll in Hin. apply filter_In in Hin. destruct Hin as [Hin _].
    apply in_keys_occ in Hin. lia. }
  specialize (Hocc id). rewrite occ_allKeys in Hocc.
  split.
  - unfold beamCascade. fold ids. rewrite app_assoc. fold ids.
    apply (containersErased_trans Hc12).
    destruct Hc12 as [a1 a2 a3 a4 a5 a6 a7].
    constructor; simpl; rewrite ?a1, ?a2, ?a3, ?a4, ?a5, ?a6, ?a7;
      first [apply erase_eraseAll | symmetry; apply Habs; lia].
  - apply (@sparseErased_ext ([id] ++ ids ++ [])).
    { intros y. unfold beamCascade, ids. rewrite !in_app_iff. simpl. tauto. }
    apply (sparseErased_trans Hsp1). apply (sparseErased_trans Hs2).
    constructor; simpl; now rewrite eraseAll_nil.
Qed.

Lemma remove_nonplatform_exactly fuel s i :
  uniqueIds s ->
  In i (allKeys s) ->
  IdMap.mem i (platforms_ s) = false ->
  exists s',
    removeEntity (S (S fuel)) i s = Some s'
    /\ containersErased (removedWith s i) s s'
    /\ sparseErased (removedWith s i) s s'.
Proof.
  intros Hu Hin Hp. unfold removedWith.
  destruct (IdMap.mem i (beams_ s)) eqn:Hb.
  - apply remove_beam_exactly; assumption.
  - apply remove_leaf_exactly; assumption.
Qed.

Lemma In_removedWith s i : In i (removedWith s i).
Proof.
  unfold removedWith, beamCascade. destruct (IdMap.mem i (beams_ s)).
  - rewrite !in_app_iff. right. right. now left.
  - now left.
Qed.

(** the ids erased with [i] are the same in a store that has lost other
    ids only *)
Lemma removedWith_erased R s sk i :
  containersErased R s sk ->
  (forall x, In x (removedWith s i) -> ~ In x R) ->
  removedWith sk i = removedWith s i.
Proof.
  intros [_ a2 a3 _ a5 _ _] Hdis.
  assert (Hi : existsb (N.eqb i) R = false).
  { apply not_true_iff_false. intros H. apply existsb_In in H.
    exact (Hdis i (In_removedWith s i) H). }
  unfold removedWith in *. rewrite a2, mem_eraseAll, Hi. cbn [negb andb].
  destruct (IdMap.mem i (beams_ s)); [|reflexivity].
  unfold beamCascade in *. unfold gateIdListForHost, projectorIdListForHost in *.
  rewrite a3, a5, !keys_where_eraseAll.
  rewrite !filter_notin; [reflexivity| |];
    intros x Hx; apply Hdis; rewrite !in_app_iff; auto.
Qed.

Lemma NoDup_app_parts {A} (l1 l2 : list A) :
  NoDup (l1 ++ l2) -> NoDup l2 /\ forall x, In x l2 -> ~ In x l1.
Proof.
  induction l1 as [|a l1 IH]; simpl; intros H.
  - split; [exact H|]. intros x _ [].
  - inversion H as [|? ? Hn Hd]; subst. destruct (IH Hd) as [H2 Hdis].
    split; [exact H2|]. intros x Hx [->|Hin].
    + apply Hn. apply in_or_app. now right.
    + exact (Hdis x Hx Hin).
Qed.

Lemma fold_nonplatform_exactly fuel s : forall ids Rc Rs sk,
  uniqueIds s ->
  containersErased Rc s sk -> sparseErased Rs s sk ->
  NoDup (Rc ++ flat_map (removedWith s) ids) ->
  (forall i, In i ids -> In i (allKeys s) /\ IdMap.mem i (platforms_ s) = false) ->
  exists s',
    forEachIdM ids (removeEntity (S (S fuel))) sk = Some s'
    /\ containersErased (Rc ++ flat_map (removedWith s) ids) s s'
    /\ sparseErased (Rs ++ flat_map (removedWith s) ids) s s'.
Proof.
  induction ids as [|i rest IH]; intros Rc Rs sk Hu Hc Hs Hnd Hids.
  - exists sk. simpl. rewrite !app_nil_r. auto.
  - destruct (Hids i (or_introl eq_refl)) as [Hin Hp].
    cbn [flat_map] in *.
    destruct (NoDup_app_parts _ _ Hnd) as [_ Hdis].
    assert (Hdis_i : forall x, In x (removedWith s i) -> ~ In x Rc).
    { intros x Hx. apply Hdis. apply in_or_app. now left. }
    assert (Huk : uniqueIds sk) by (eapply uniqueIds_erased; eauto).
    destruct (@remove_nonplatform_exactly fuel sk i Huk) as (s1 & Hr & Hc1 & Hs1).
    { apply (containersErased_In i Hc). split; [exact Hin|].
      apply Hdis_i. apply In_removedWith. }
    { destruct Hc as [-> _ _ _ _ _ _]. rewrite mem_eraseAll, Hp. apply andb_false_r. }
    rewrite (removedWith_erased i Hc Hdis_i) in Hc1, Hs1.
    destruct (IH (Rc ++ removedWith s i) (Rs ++ removedWith s i) s1 Hu) as (s' & Hf & Hc' & Hs').
    + exact (containersErased_trans Hc Hc1).
    + exact (sparseErased_trans Hs Hs1).
    + rewrite <- app_assoc. exact Hnd.
    + intros j Hj. apply Hids. now right.
    + exists s'. cbn [forEachIdM]. rewrite Hr. split; [exact Hf|].
      rewrite !app_assoc. auto.
Qed.

Lemma flat_map_removedWith_beams s l :
  (forall i, In i l -> IdMap.mem i (beams_ s) = true) ->
  flat_map (removedWith s) l = flat_map (beamCascade s) l.
Proof.
  induction l as [|i l IH]; intros H; simpl; [reflexivity|].
  rewrite IH by (intros j Hj; apply H; now right).
  unfold removedWith at 1. rewrite (H i (or_introl eq_refl)). reflexivity.
Qed.

Lemma flat_map_removedWith_leaves s l :
  (forall i, In i l -> IdMap.mem i (beams_ s) = false) ->
  flat_map (removedWith s) l = l.
Proof.
  induction l as [|i l IH]; intros H; simpl; [reflexivity|].
  rewrite IH by (intros j Hj; apply H; now right).
  unfold removedWith. rewrite (H i (or_introl eq_refl)). reflexivity.
Qed.

Lemma occ_beamCascade s bs x :
  occ (flat_map (beamCascade s) bs) x
  = occ (flat_map (gateIdListForHost s) bs) x
    + occ (flat_map (projectorIdListForHost s) bs) x + occ bs x.
Proof.
  unfold beamCascade.
  rewrite (occ_flat_map_app (gateIdListForHost s)
             (fun b => projectorIdListForHost s b ++ [b])).
  rewrite (occ_flat_map_app (projectorIdListForHost s) (fun b => [b])).
  rewrite occ_flat_map_self. lia.
Qed.

(** what the containers tell of the types after an erasure *)
Lemma objectType_erased R s s' i :
  containersErased R s s' ->
  objectType s' i = if existsb (N.eqb i) R then NONE else objectType s i.
Proof.
  intros [a1 a2 a3 a4 a5 a6 a7]. unfold objectType.
  rewrite a1, a2, a3, a4, a5, a6, a7, !mem_eraseAll.
  destruct (existsb (N.eqb i) R); reflexivity.
Qed.

Lemma erase_platform_exactly s2 id ot :
  uniqueIds s2 ->
  IdMap.mem id (platforms_ s2) = true ->
  containersErased [id] s2
    (fireOnPostRemoveEntity_ id ot (set_platforms_ (IdMap.erase id (platforms_ s2)) s2)).
Proof.
  intros Hu Hm.
  pose proof (@uniqueIds_occ s2 id Hu) as Hocc. rewrite occ_allKeys in Hocc.
  pose proof (@occ_mem_true _ _ _ Hm) as Hp0.
  assert (Habs : forall V (m : IdMap.t V), occ (IdMap.keys m) id = 0 -> eraseAll [id] m = m).
  { intros V m H0. rewrite <- erase_eraseAll. apply erase_absent.
    now apply occ_zero_mem_false. }
  constructor; simpl; first [apply erase_eraseAll | symmetry; apply Habs; lia].
Qed.

(** the store [removeEntity] leaves, container by container *)
Lemma removeEntity_erases fuel s id :
  uniqueIds s ->
  exists s',
    removeEntity (3 + fuel) id s = Some s'
    /\ containersErased (cascadeOf s id) s s'
    /\ sparseErased (cascadeOf s id) s s'
    /\ (objectType s id = NONE -> s' = s).
Proof.
  intros Hu.
  change (3 + fuel) with (S (S (S fuel))).
    pose proof (fun y => @uniqueIds_occ s y Hu) as Hocc.
    destruct (objectType_of_key id Hu) as (Tp & Tb & Tg & Tl & Tj & To & Tc).
    destruct (IdMap.mem id (platforms_ s)) eqn:Hp.
    - (* a platform *)
      pose proof (Tp eq_refl) as Hty. unfold cascadeOf. rewrite Hty.
      rewrite removeEntity_step. cbv zeta. rewrite Hty. cbn [ObjectType_eqb].
      destruct (prologue_erased id PLATFORM s) as [Hc1 Hsp1].
      set (s1 := removeEntityPrologue id PLATFORM s) in *.
      change (platforms_ s1) with (platforms_ s). rewrite Hp.
      change (beamIdListForHost s1 id) with (beamIdListForHost s id).
      change (laserIdListForHost s1 id) with (laserIdListForHost s id).
      change (projectorIdListForHost s1 id) with (projectorIdListForHost s id).
      change (lobGroupIdListForHost s1 id) with (lobGroupIdListForHost s id).
      change (customRenderingIdListForHost s1 id) with (customRenderingIdListForHost s id).
      set (bs := beamIdListForHost s id).
      set (rest := laserIdListForHost s id ++ projectorIdListForHost s id
                   ++ lobGroupIdListForHost s id ++ customRenderingIdListForHost s id).
      pose proof (@platformT_touchedOnce s id Hu Hp) as Ht.
      unfold touchedOnce, platformT in Ht.
      cbn [t_platforms t_beams t_gates t_lasers t_projectors t_lobGroups t_customRenderings
           t_sparse] in Ht.
      fold bs in Ht.
      assert (Hbeams : forall i, In i bs -> IdMap.mem i (beams_ s) = true).
      { intros i Hi. apply mem_true_iff. unfold bs, beamIdListForHost in Hi.
        eapply keys_where_keys; eauto. }
      assert (Hcount : forall x,
                 occ (flat_map (beamCascade s) bs ++ rest) x + occ [id] x
                 <= occ (allKeys s) x
                 /\ occ rest x
                    <= occ (IdMap.keys (lasers_ s)) x + occ (IdMap.keys (projectors_ s)) x
                       + occ (IdMap.keys (lobGroups_ s)) x
                       + occ (IdMap.keys (customRenderings_ s)) x
                 /\ occ bs x <= occ (IdMap.keys (beams_ s)) x).
      { intros x. specialize (Ht x).
        destruct Ht as (H1 & H2 & H3 & H4 & H5 & H6 & H7 & _).
        unfold rest. rewrite !occ_app, occ_beamCascade, occ_allKeys.
        rewrite !occ_app in H5.
        pose proof (occ_keys_where_le
                      (fun e : ProjectorEntry =>
                         id_eqb (ProjectorProperties.hostid (properties e)) id)
                      (projectors_ s) x) as Hpj.
        fold (projectorIdListForHost s id) in Hpj.
        unfold PlatformEntry, BeamEntry, GateEntry, LaserEntry, ProjectorEntry,
          LobGroupEntry, CustomRenderingEntry in *.
        lia. }
      assert (Hrest : forall i, In i rest -> IdMap.mem i (beams_ s) = false).
      { intros i Hi. apply in_keys_occ in Hi. destruct (Hcount i) as (_ & Hr & _).
        specialize (Hocc i). rewrite occ_allKeys in Hocc.
        apply occ_zero_mem_false. lia. }
      assert (Hflat : flat_map (removedWith s) (bs ++ rest)
                      = flat_map (beamCascade s) bs ++ rest).
      { rewrite flat_map_app, (flat_map_removedWith_beams _ _ Hbeams),
          (flat_map_removedWith_leaves _ _ Hrest). reflexivity. }
      destruct (@fold_nonplatform_exactly fuel s (bs ++ rest) [] [id] s1 Hu Hc1 Hsp1)
        as (s2 & Hf & Hc2 & Hs2).
      { cbn [app]. rewrite Hflat. apply NoDup_of_occ_le_one. intros x.
        destruct (Hcount x) as (Hx & _). specialize (Hocc x). lia. }
      { intros i Hi. destruct (Hcount i) as (Hx & Hr & Hb). specialize (Hocc i).
        rewrite occ_allKeys in Hocc.
        assert (Hpos : occ (IdMap.keys (beams_ s)) i
                       + occ (IdMap.keys (lasers_ s)) i
                       + occ (IdMap.keys (projectors_ s)) i
                       + occ (IdMap.keys (lobGroups_ s)) i
                       + occ (IdMap.keys (customRenderings_ s)) i > 0).
        { apply in_app_or in Hi. destruct Hi as [Hi|Hi].
          - apply Hbeams in Hi. apply occ_mem_true in Hi. lia.
          - apply in_keys_occ in Hi. lia. }
        split; [apply in_keys_occ; rewrite occ_allKeys; lia|].
        apply occ_zero_mem_false. lia. }
      rewrite Hf.
      cbn [app] in Hc2. rewrite Hflat in Hc2, Hs2.
      assert (Hu2 : uniqueIds s2) by (eapply uniqueIds_erased; eauto).
      assert (Hnotin : ~ In id (flat_map (beamCascade s) bs ++ rest)).
      { intros H. apply in_keys_occ in H. destruct (Hcount id) as (Hx & _).
        specialize (Hocc id). rewrite occ_cons, occ_nil in Hx.
        unfold id_eqb in Hx. rewrite N.eqb_refl in Hx. lia. }
      assert (Hp2 : IdMap.mem id (platforms_ s2) = true).
      { destruct Hc2 as [-> _ _ _ _ _ _]. rewrite mem_eraseAll, Hp.
        rewrite andb_true_r. apply negb_true_iff. apply not_true_iff_false.
        intros H. apply existsb_In in H. contradiction. }
      eexists. split; [reflexivity|].
      split; [|split; [|discriminate]].
      + apply (@containersErased_ext ((flat_map (beamCascade s) bs ++ rest) ++ [id])).
        { intros y. unfold rest. rewrite !in_app_iff. tauto. }
        apply (containersErased_trans Hc2). apply erase_platform_exactly; assumption.
      + apply (@sparseErased_ext (([id] ++ flat_map (beamCascade s) bs ++ rest) ++ [])).
        { intros y. unfold rest. rewrite app_nil_r, !in_app_iff. simpl. tauto. }
        apply (sparseErased_trans Hs2). constructor; simpl; now rewrite eraseAll_nil.
    - destruct (IdMap.mem id (beams_ s)) eqn:Hb.
      + (* a beam *)
        pose proof (Tb eq_refl) as Hty. unfold cascadeOf. rewrite Hty.
        destruct (@remove_beam_exactly (S fuel) s id Hu Hp Hb) as (s' & Hr & Hc & Hs).
        exists s'. split; [exact Hr|]. split; [exact Hc|]. split; [exact Hs|discriminate].
      + destruct (objectType s id) eqn:Hty.
        * (* no entity *)
          exists s. rewrite removeEntity_step. cbv zeta. rewrite Hty. cbn [ObjectType_eqb].
          split; [reflexivity|]. unfold cascadeOf. rewrite Hty.
          split; [apply containersErased_refl|]. split; [apply sparseErased_refl|reflexivity].
        * unfold objectType in Hty. rewrite Hp in Hty. 
          repeat match type of Hty with
                 | (if ?c then _ else _) = _ => destruct c
                 end; discriminate.
        * unfold objectType in Hty. rewrite Hp, Hb in Hty.
          repeat match type of Hty with
                 | (if ?c then _ else _) = _ => destruct c
                 end; discriminate.
        * assert (Hin : In id (allKeys s))
            by (destruct (in_dec N.eq_dec id (allKeys s)) as [H|H]; [exact H|];
                apply objectType_NONE_iff in H; congruence).
          destruct (@remove_leaf_exactly (S (S fuel)) s id Hu Hin Hp Hb) as (s' & Hr & Hc & Hs).
          exists s'. unfold cascadeOf. rewrite Hty.
          split; [exact Hr|]. split; [exact Hc|]. split; [exact Hs|]. intros H; discriminate H.
        * assert (Hin : In id (allKeys s))
            by (destruct (in_dec N.eq_dec id (allKeys s)) as [H|H]; [exact H|];
                apply objectType_NONE_iff in H; congruence).
          destruct (@remove_leaf_exactly (S (S fuel)) s id Hu Hin Hp Hb) as (s' & Hr & Hc & Hs).
          exists s'. unfold cascadeOf. rewrite Hty.
          split; [exact Hr|]. split; [exact Hc|]. split; [exact Hs|]. intros H; discriminate H.
        * assert (Hin : In id (allKeys s))
            by (destruct (in_dec N.eq_dec id (allKeys s)) as [H|H]; [exact H|];
                apply objectType_NONE_iff in H; congruence).
          destruct (@remove_leaf_exactly (S (S fuel)) s id Hu Hin Hp Hb) as (s' & Hr & Hc & Hs).
          exists s'. unfold cascadeOf. rewrite Hty.
          split; [exact Hr|]. split; [exact Hc|]. split; [exact Hs|]. intros H; discriminate H.
        * assert (Hin : In id (allKeys s))
            by (destruct (in_dec N.eq_dec id (allKeys s)) as [H|H]; [exact H|];
                apply objectType_NONE_iff in H; congruence).
          destruct (@remove_leaf_exactly (S (S fuel)) s id Hu Hin Hp Hb) as (s' & Hr & Hc & Hs).
          exists s'. unfold cascadeOf. rewrite Hty.
          split; [exact Hr|]. split; [exact Hc|]. split; [exact Hs|]. intros H; discriminate H.
        * assert (Hin : In id (allKeys s))
            by (destruct (in_dec N.eq_dec id (allKeys s)) as [H|H]; [exact H|];
                apply objectType_NONE_iff in H; congruence).
          destruct (@remove_leaf_exactly (S (S fuel)) s id Hu Hin Hp Hb) as (s' & Hr & Hc & Hs).
          exists s'. unfold cascadeOf. rewrite Hty.
          split; [exact Hr|]. split; [exact Hc|]. split; [exact Hs|]. intros H; discriminate H.
        * unfold objectType in Hty.
          repeat match type of Hty with
                 | (if ?c then _ else _) = _ => destruct c
                 end; discriminate. 
Qed.

(** [removeEntity] removes what it should and nothing else.  In a store
    whose ids are the key of one entry only, [removeEntity] returns for
    every id (three levels of calls are enough: platform, beam, gate or
    projector).  The containers it leaves are the containers it was given
    without the ids of the cascade of [id]: the id itself; for a beam also
    its gates and projectors; for a platform also its beams with their
    gates and projectors, and its lasers, projectors, LOB groups and
    custom renderings.  Every other entry is left exactly as it was, in
    its place.  The generic data, the category data and the data tables
    lose the same ids and nothing else.  An id of the cascade has type
    [NONE] afterwards and every other id keeps its type; an id that names
    no entity removes nothing. *)
Theorem removeEntity_removes_exactly fuel s id :
  uniqueIds s ->
  exists s',
    removeEntity (3 + fuel) id s = Some s'
    /\ containersErased (cascadeOf s id) s s'
    /\ sparseErased (cascadeOf s id) s s'
    /\ (forall i, objectType s' i
                  = if existsb (N.eqb i) (cascadeOf s id) then NONE else objectType s i)
    /\ (objectType s id = NONE -> s' = s)
    /\ baseId_ s' = baseId_ s
    /\ uniqueIds s'.
Proof.
  intros Hu.
  destruct (removeEntity_erases fuel id Hu) as (s' & Hr & Hc & Hs & Hnone).
  exists s'. split; [exact Hr|]. split; [exact Hc|]. split; [exact Hs|].
  split; [intros i; apply objectType_erased; exact Hc|].
  split; [exact Hnone|].
  split; [exact (proj2 (removeEntity_shrinks _ _ _ Hr))|].
  eapply uniqueIds_erased; eauto.
Qed.

End ExactRemoval.

(** ** Clearing the store *)

Section Clearing.
Context {X : Collaborators}.
Local Open Scope nat_scope.

(** [removeEntity] registers and removes no listener, and only adds to the
    log *)
Lemma removeEntity_listeners fuel : forall id s s',
  removeEntity fuel id s = Some s' ->
  listeners_ (fabric_ s') = listeners_ (fabric_ s)
  /\ exists seg, log (fabric_ s') = log (fabric_ s) ++ seg.
Proof.
  induction fuel as [|fuel IH]; intros id s s' H; [discriminate|].
  assert (Hfold : forall ids s0 s1,
             forEachIdM ids (removeEntity fuel) s0 = Some s1 ->
             listeners_ (fabric_ s1) = listeners_ (fabric_ s0)
             /\ exists seg, log (fabric_ s1) = log (fabric_ s0) ++ seg).
  { induction ids as [|i ids IHi]; intros s0 s1 Hf; simpl in Hf.
    - apply Some_inj in Hf. subst. split; [reflexivity|]. exists []. now rewrite app_nil_r.
    - destruct (removeEntity fuel i s0) as [s2|] eqn:Hr; [|discriminate].
      destruct (IH _ _ _ Hr) as [Ha [sa Hb]]. destruct (IHi _ _ Hf) as [Hc [sc Hd]].
      split; [congruence|]. exists (sa ++ sc). rewrite Hd, Hb, app_assoc. reflexivity. }
  rewrite removeEntity_step in H. cbv zeta in H.
  destruct (ObjectType_eqb (objectType s id) NONE).
  { apply Some_inj in H. subst. split; [reflexivity|]. exists []. now rewrite app_nil_r. }
  assert (H1 : listeners_ (fabric_ (removeEntityPrologue id (objectType s id) s))
               = listeners_ (fabric_ s)
               /\ exists seg,
                    log (fabric_ (removeEntityPrologue id (objectType s id) s))
                    = log (fabric_ s) ++ seg).
  { split; [reflexivity|]. eexists. reflexivity. }
  revert H H1. generalize (removeEntityPrologue id (objectType s id) s).
  intros s1 H [L1 [seg1 G1]].
  assert (Hend : forall s2 s3,
             (listeners_ (fabric_ s2) = listeners_ (fabric_ s1)
              /\ exists seg, log (fabric_ s2) = log (fabric_ s1) ++ seg) ->
             listeners_ (fabric_ s3) = listeners_ (fabric_ s2) ->
             (exists seg, log (fabric_ s3) = log (fabric_ s2) ++ seg) ->
             listeners_ (fabric_ s3) = listeners_ (fabric_ s)
             /\ exists seg, log (fabric_ s3) = log (fabric_ s) ++ seg).
  { intros s2 s3 [La [sa Ga]] Lb [sb Gb]. split; [congruence|].
    exists (seg1 ++ sa ++ sb). rewrite Gb, Ga, G1, <- !app_assoc. reflexivity. }
  assert (Hself : listeners_ (fabric_ s1) = listeners_ (fabric_ s1)
                  /\ exists seg, log (fabric_ s1) = log (fabric_ s1) ++ seg)
    by (split; [reflexivity|]; exists []; now rewrite app_nil_r).
  destruct (IdMap.mem id (platforms_ s1)).
  { destruct (forEachIdM _ _ s1) as [s2|] eqn:E; [|discriminate].
    apply Some_inj in H. subst s'. apply (Hend s2 _ (Hfold _ _ _ E)); [reflexivity|].
    eexists. reflexivity. }
  destruct (IdMap.mem id (beams_ s1)).
  { destruct (forEachIdM _ _ s1) as [s2|] eqn:E; [|discriminate].
    apply Some_inj in H. subst s'. apply (Hend s2 _ (Hfold _ _ _ E)); [reflexivity|].
    eexists. reflexivity. }
  repeat match type of H with
         | (if ?c then _ else _) = _ => destruct c
         end;
    apply Some_inj in H; subst s'; apply (Hend s1 _ Hself); try reflexivity;
    first [eexists; reflexivity | exists []; now rewrite app_nil_r].
Qed.

Lemma cascade_in_allKeys s k x : In x (cascadeOf s k) -> In x (allKeys s).
Proof.
  assert (Hk : objectType s k <> NONE -> In k (allKeys s)).
  { intros H. destruct (in_dec N.eq_dec k (allKeys s)) as [Hin|Hin]; [exact Hin|].
    apply objectType_NONE_iff in Hin. contradiction. }
  assert (Hw : forall V (p : V -> bool) (m : IdMap.t V),
             In x (IdMap.keys_where p m) -> In x (IdMap.keys m))
    by (intros; eapply keys_where_keys; eauto).
  assert (Hbeam : forall b, In x (gateIdListForHost s b ++ projectorIdListForHost s b) ->
                            In x (allKeys s)).
  { intros b H. unfold allKeys. rewrite !in_app_iff. apply in_app_or in H.
    unfold gateIdListForHost, projectorIdListForHost in H.
    destruct H as [H|H]; apply Hw in H; auto 10. }
  assert (Hleaf : objectType s k <> NONE -> In x [k] -> In x (allKeys s)).
  { intros Hn [<-|[]]. exact (Hk Hn). }
  unfold cascadeOf, beamCascade.
  destruct (objectType s k) eqn:Hty; try (apply Hleaf; discriminate).
  - intros [].
  - rewrite !in_app_iff. intros [H|[H|[H|[H|[H|H]]]]];
      try (apply Hleaf; [discriminate|exact H]);
      try (unfold laserIdListForHost, projectorIdListForHost, lobGroupIdListForHost,
             customRenderingIdListForHost in H;
           apply Hw in H; unfold allKeys; rewrite !in_app_iff; auto 10).
    apply in_flat_map in H. destruct H as (b & Hb & H).
    rewrite app_assoc in H. apply in_app_or in H. destruct H as [H|[<-|[]]].
    + exact (Hbeam b H).
    + unfold beamIdListForHost in Hb. apply Hw in Hb. unfold allKeys.
      rewrite !in_app_iff. auto.
  - rewrite app_assoc. intros H. apply in_app_or in H. destruct H as [H|H].
    + exact (Hbeam k H).
    + apply Hleaf; [discriminate|exact H].
  - intros [].
Qed.

Lemma objectType_not_ALL s k : objectType s k <> ALL.
Proof.
  unfold objectType.
  repeat match goal with
         | |- context [if ?c then _ else _] => destruct c; [discriminate|]
         end.
  discriminate.
Qed.

Lemma self_in_cascade s k : objectType s k <> NONE -> In k (cascadeOf s k).
Proof.
  intros Hn. pose proof (@objectType_not_ALL s k) as Ha.
  unfold cascadeOf, beamCascade.
  destruct (objectType s k); try contradiction;
    rewrite ?in_app_iff; simpl; auto 10.
Qed.

Lemma filter_drops (R l : list ObjectId) x :
  In x l -> In x R ->
  List.length (filter (fun k => negb (existsb (N.eqb k) R)) l) < List.length l.
Proof.
  unfold ObjectId in *.
  intros Hl HR. induction l as [|a l IH]; [destruct Hl|].
  cbn [filter List.length].
  pose proof (filter_length_le (fun k => negb (existsb (N.eqb k) R)) l) as Hle.
  destruct Hl as [->|Hl].
  - assert (E : existsb (N.eqb x) R = true)
      by (apply existsb_exists; exists x; split; [exact HR|apply N.eqb_refl]).
    rewrite E. cbn [negb]. simpl. lia.
  - specialize (IH Hl). destruct (negb (existsb (N.eqb a) R)); simpl; lia.
Qed.

Lemma emptied_container P F U (HI : HasId P) (HC : HasCommonPrefs F)
  (c : Container P F U) s :
  isContainer HI HC c ->
  entriesOf c s = [] ->
  entriesOf c (set_entriesOf c [] s) = []
  /\ containersErased [] s (set_entriesOf c [] s)
  /\ sparseErased [] s (set_entriesOf c [] s)
  /\ baseId_ (set_entriesOf c [] s) = baseId_ s
  /\ fabric_ (set_entriesOf c [] s) = fabric_ s.
Proof.
  intros Hc He.
  destruct Hc; cbn [entriesOf set_entriesOf Platforms Beams Gates Lasers Projectors LobGroups
                    CustomRenderings] in *;
    (split; [reflexivity|]);
    (split; [constructor; rewrite eraseAll_nil; simpl; first [reflexivity|symmetry; exact He]|]);
    (split; [constructor; rewrite eraseAll_nil; reflexivity|]);
    split; reflexivity.
Qed.

(** [deleteEntries_] ends when it may loop once more than the store has
    entities, and has then removed, by [removeEntity], entities of the
    store only *)
Lemma deleteEntries_runs P F U (HI : HasId P) (HC : HasCommonPrefs F)
  (c : Container P F U) depth :
  isContainer HI HC c ->
  forall fuel s,
    uniqueIds s -> List.length (allKeys s) < fuel ->
    exists R s',
      deleteEntries_ fuel (3 + depth) c s = Some s'
      /\ entriesOf c s' = []
      /\ containersErased R s s' /\ sparseErased R s s'
      /\ (forall x, In x R -> In x (allKeys s))
      /\ baseId_ s' = baseId_ s
      /\ listeners_ (fabric_ s') = listeners_ (fabric_ s)
      /\ (exists seg, log (fabric_ s') = log (fabric_ s) ++ seg).
Proof.
  intros Hc. induction fuel as [|fuel IH]; intros s Hu Hlen; [lia|].
  cbn [deleteEntries_].
  destruct (entriesOf c s) as [|[first e] rest] eqn:He.
  - destruct (emptied_container s Hc He) as (E1 & E2 & E3 & E4 & E5).
    exists [], (set_entriesOf c [] s).
    split; [reflexivity|]. split; [exact E1|]. split; [exact E2|]. split; [exact E3|].
    split; [intros x []|]. split; [exact E4|]. rewrite E5.
    split; [reflexivity|]. exists []. now rewrite app_nil_r.
  - assert (Hfind : IdMap.find first (entriesOf c s) = Some e).
    { rewrite He. cbn [IdMap.find]. unfold id_eqb. now rewrite N.eqb_refl. }
    pose proof (isContainer_objectType _ _ Hc Hfind) as Hty.
    assert (Hin : In first (allKeys s)).
    { destruct (in_dec N.eq_dec first (allKeys s)) as [Hi|Hi]; [exact Hi|].
      apply objectType_NONE_iff in Hi. contradiction. }
    destruct (removeEntity_erases depth first Hu) as (s1 & Hr & Hce & Hse & _).
    rewrite Hr.
    assert (Hu1 : uniqueIds s1) by (eapply uniqueIds_erased; eauto).
    assert (Hlen1 : List.length (allKeys s1) < fuel).
    { rewrite (containersErased_allKeys Hce).
      eapply Nat.lt_le_trans;
        [exact (@filter_drops (cascadeOf s first) (allKeys s) first Hin
                  (self_in_cascade _ _ Hty))|lia]. }
    destruct (IH s1 Hu1 Hlen1) as (R1 & s' & Hd & Hemp & Hce1 & Hse1 & HR1 & Hb1 & Hl1 & seg1 & Hg1).
    destruct (removeEntity_listeners _ _ _ Hr) as [Hl0 [seg0 Hg0]].
    exists (cascadeOf s first ++ R1), s'.
    split; [exact Hd|]. split; [exact Hemp|].
    split; [eapply containersErased_trans; eauto|].
    split; [eapply sparseErased_trans; eauto|].
    split.
    { intros x Hx. apply in_app_or in Hx. destruct Hx as [Hx|Hx].
      - eapply cascade_in_allKeys; eauto.
      - apply HR1 in Hx. apply (containersErased_In x Hce) in Hx. tauto. }
    split; [rewrite Hb1; exact (proj2 (removeEntity_shrinks _ _ _ Hr))|].
    split; [congruence|].
    exists (seg0 ++ seg1). rewrite Hg1, Hg0, app_assoc. reflexivity.
Qed.

Lemma subseq_of_nil {A} (l : list A) : subseq l [] -> l = [].
Proof. intros H. inversion H. reflexivity. Qed.

Lemma shrinks_empty s s' :
  shrinks s s' ->
  (platforms_ s = [] -> platforms_ s' = [])
  /\ (beams_ s = [] -> beams_ s' = [])
  /\ (gates_ s = [] -> gates_ s' = [])
  /\ (lasers_ s = [] -> lasers_ s' = [])
  /\ (projectors_ s = [] -> projectors_ s' = [])
  /\ (lobGroups_ s = [] -> lobGroups_ s' = [])
  /\ (customRenderings_ s = [] -> customRenderings_ s' = []).
Proof.
  intros [a1 a2 a3 a4 a5 a6 a7].
  repeat split; intros E;
    [rewrite E in a1|rewrite E in a2|rewrite E in a3|rewrite E in a4|rewrite E in a5
    |rewrite E in a6|rewrite E in a7]; apply subseq_of_nil; assumption.
Qed.

(** one step of [clear]: [deleteEntries_] on a store that an earlier part
    of [clear] made from [s0] *)
Lemma deleteEntries_chain P F U (HI : HasId P) (HC : HasCommonPrefs F)
  (c : Container P F U) depth fuel s0 s R :
  isContainer HI HC c ->
  uniqueIds s0 -> List.length (allKeys s0) < fuel ->
  containersErased R s0 s -> sparseErased R s0 s ->
  (forall x, In x R -> In x (allKeys s0)) ->
  baseId_ s = baseId_ s0 ->
  listeners_ (fabric_ s) = listeners_ (fabric_ s0) ->
  (exists seg, log (fabric_ s) = log (fabric_ s0) ++ seg) ->
  exists R' s',
    deleteEntries_ fuel (3 + depth) c s = Some s'
    /\ entriesOf c s' = []
    /\ shrinks s s'
    /\ containersErased R' s0 s' /\ sparseErased R' s0 s'
    /\ (forall x, In x R' -> In x (allKeys s0))
    /\ baseId_ s' = baseId_ s0
    /\ listeners_ (fabric_ s') = listeners_ (fabric_ s0)
    /\ (exists seg, log (fabric_ s') = log (fabric_ s0) ++ seg).
Proof.
  intros Hc Hu Hlen Hce Hse HR Hb Hl [seg Hg].
  assert (Hu1 : uniqueIds s) by (eapply uniqueIds_erased; eauto).
  assert (Hlen1 : List.length (allKeys s) < fuel).
  { rewrite (containersErased_allKeys Hce).
    eapply Nat.le_lt_trans; [apply filter_length_le|exact Hlen]. }
  destruct (deleteEntries_runs depth Hc Hu1 Hlen1)
    as (R1 & s' & Hd & Hemp & Hce1 & Hse1 & HR1 & Hb1 & Hl1 & seg1 & Hg1).
  exists (R ++ R1), s'.
  split; [exact Hd|]. split; [exact Hemp|].
  split; [exact (containersErased_shrinks Hce1)|].
  split; [eapply containersErased_trans; eauto|].
  split; [eapply sparseErased_trans; eauto|].
  split.
  { intros x Hx. apply in_app_or in Hx. destruct Hx as [Hx|Hx]; [exact (HR x Hx)|].
    apply HR1 in Hx. apply (containersErased_In x Hce) in Hx. tauto. }
  split; [congruence|]. split; [congruence|].
  exists (seg ++ seg1). rewrite Hg1, Hg, app_assoc. reflexivity.
Qed.

(** [clear] on a store whose ids are unique.  It ends as soon as
    [deleteEntries_] may loop once more than the store has entities.
    Afterwards the seven containers, the generic data and the category
    data are empty, so that every id has type [NONE]; the data tables
    owned by the entities are gone and those of every other owner are
    kept; the id counter is not reset, so that ids handed out later are
    still new; the listeners stay registered; and the first thing the
    listeners hear, when [invokeCallback] is set, is [onScenarioDelete],
    each once in the order of registration, before any notification of a
    removal. *)
Theorem clear_empties_the_store fuel depth (invokeCallback : bool) s :
  uniqueIds s -> List.length (allKeys s) < fuel ->
  exists s',
    clear fuel (3 + depth) invokeCallback s = Some s'
    /\ allKeys s' = []
    /\ (forall id, objectType s' id = NONE)
    /\ genericData_ s' = [] /\ categoryData_ s' = []
    /\ dataTableManager_ s' = eraseAll (allKeys s) (dataTableManager_ s)
    /\ baseId_ s' = baseId_ s
    /\ listeners_ (fabric_ s') = listeners_ (fabric_ s)
    /\ exists seg,
         log (fabric_ s')
         = log (fabric_ s)
           ++ (if invokeCallback
               then List.map (fun l => Called l onScenarioDelete) (listeners_ (fabric_ s))
               else [])
           ++ seg.
Proof.
  intros Hu Hlen. unfold clear.
  set (s0 := if invokeCallback
             then set_fabric_
                    (append_log (List.map (fun l => Called l onScenarioDelete)
                                   (listeners_ (fabric_ s))) (fabric_ s)) s
             else s).
  assert (Hk0 : allKeys s0 = allKeys s) by (subst s0; destruct invokeCallback; reflexivity).
  assert (Ht0 : dataTableManager_ s0 = dataTableManager_ s)
    by (subst s0; destruct invokeCallback; reflexivity).
  assert (Hb0 : baseId_ s0 = baseId_ s) by (subst s0; destruct invokeCallback; reflexivity).
  assert (Hl0 : listeners_ (fabric_ s0) = listeners_ (fabric_ s))
    by (subst s0; destruct invokeCallback; reflexivity).
  assert (Hg0 : log (fabric_ s0)
                = log (fabric_ s)
                  ++ (if invokeCallback
                      then List.map (fun l => Called l onScenarioDelete)
                             (listeners_ (fabric_ s))
                      else []))
    by (subst s0; destruct invokeCallback; [reflexivity|symmetry; apply app_nil_r]).
  assert (Hu0 : uniqueIds s0) by (unfold uniqueIds; rewrite Hk0; exact Hu).
  assert (Hlen0 : List.length (allKeys s0) < fuel) by (rewrite Hk0; exact Hlen).
  clearbody s0.
  assert (Hseg0 : exists seg, log (fabric_ s0) = log (fabric_ s0) ++ seg)
    by (exists []; now rewrite app_nil_r).
  destruct (deleteEntries_chain depth is_Platforms Hu0 Hlen0
              (containersErased_refl s0) (sparseErased_refl s0)
              (fun x (H : In x []) => match H with end) eq_refl eq_refl Hseg0)
    as (R1 & s1 & D1 & E1 & S1 & C1 & P1 & I1 & B1 & L1 & G1).
  rewrite D1.
  destruct (deleteEntries_chain depth is_Beams Hu0 Hlen0 C1 P1 I1 B1 L1 G1)
    as (R2 & s2 & D2 & E2 & S2 & C2 & P2 & I2 & B2 & L2 & G2).
  rewrite D2.
  destruct (deleteEntries_chain depth is_Gates Hu0 Hlen0 C2 P2 I2 B2 L2 G2)
    as (R3 & s3 & D3 & E3 & S3 & C3 & P3 & I3 & B3 & L3 & G3).
  rewrite D3.
  destruct (deleteEntries_chain depth is_Lasers Hu0 Hlen0 C3 P3 I3 B3 L3 G3)
    as (R4 & s4 & D4 & E4 & S4 & C4 & P4 & I4 & B4 & L4 & G4).
  rewrite D4.
  destruct (deleteEntries_chain depth is_Projectors Hu0 Hlen0 C4 P4 I4 B4 L4 G4)
    as (R5 & s5 & D5 & E5 & S5 & C5 & P5 & I5 & B5 & L5 & G5).
  rewrite D5.
  destruct (deleteEntries_chain depth is_LobGroups Hu0 Hlen0 C5 P5 I5 B5 L5 G5)
    as (R6 & s6 & D6 & E6 & S6 & C6 & P6 & I6 & B6 & L6 & G6).
  rewrite D6.
  destruct (deleteEntries_chain depth is_CustomRenderings Hu0 Hlen0 C6 P6 I6 B6 L6 G6)
    as (R7 & s7 & D7 & E7 & S7 & C7 & P7 & I7 & B7 & L7 & seg & G7).
  rewrite D7.
  cbn [entriesOf Platforms Beams Gates Lasers Projectors LobGroups CustomRenderings] in *.
  destruct (shrinks_empty S2) as (q21 & _).
  destruct (shrinks_empty S3) as (q31 & q32 & _).
  destruct (shrinks_empty S4) as (q41 & q42 & q43 & _).
  destruct (shrinks_empty S5) as (q51 & q52 & q53 & q54 & _).
  destruct (shrinks_empty S6) as (q61 & q62 & q63 & q64 & q65 & _).
  destruct (shrinks_empty S7) as (q71 & q72 & q73 & q74 & q75 & q76 & _).
  assert (K7 : allKeys s7 = []).
  { unfold allKeys.
    rewrite (q71 (q61 (q51 (q41 (q31 (q21 E1)))))), (q72 (q62 (q52 (q42 (q32 E2))))),
      (q73 (q63 (q53 (q43 E3)))), (q74 (q64 (q54 E4))), (q75 (q65 E5)), (q76 E6), E7.
    reflexivity. }
  eexists. split; [reflexivity|].
  split; [exact K7|].
  split.
  { intros id. apply objectType_NONE_iff.
    change (allKeys (set_categoryData_ [] (set_genericData_ [] s7))) with (allKeys s7).
    rewrite K7. intros []. }
  split; [reflexivity|]. split; [reflexivity|].
  split.
  { change (dataTableManager_ (set_categoryData_ [] (set_genericData_ [] s7)))
      with (dataTableManager_ s7).
    rewrite (sp_dataTableManager P7), Ht0, <- Hk0.
    apply eraseAll_ext. intros y. split; [apply I7|].
    intros Hy. destruct (in_dec N.eq_dec y R7) as [Hin|Hin]; [exact Hin|].
    assert (H7 : In y (allKeys s7)) by (apply (containersErased_In y C7); tauto).
    rewrite K7 in H7. destruct H7. }
  split; [cbn; congruence|].
  split; [cbn; congruence|].
  exists seg. cbn. rewrite G7, Hg0, <- app_assoc. reflexivity.
Qed.

End Clearing.

(** ** A bound clock *)

Section BoundClock.
Context {X : Collaborators}.

Lemma bindToClock_skipped clock s time :
  update_skipped (bindToClock clock s) time = update_skipped s time.
Proof. reflexivity. Qed.

Lemma live_no_expiry s time id (p : PlatformEntry) :
  CommonPrefs.datadraw
    (PlatformPrefs.commonprefs (preferences (updatePlatform s false time id p))) = true ->
  updates (updatePlatform s false time id p)
  = if isInterpolationEnabled s
       && PlatformPrefs.interpolatepos (preferences (updatePlatform s false time id p))
    then slice_interpolate (updates p) time (interpolator_ s)
    else slice_update (updates p) time.
Proof.
  rewrite updatePlatform_updates, updatePlatform_preferences. cbv zeta.
  intros Hdraw. rewrite Hdraw. cbn [negb andb]. reflexivity.
Qed.

(** [bindToClock] followed by [update], for a clock in live mode.
    Binding the clock does not mark the store as changed: an update at
    the time of the last one is still skipped, so that the new mode shows
    only at the next pass that runs.  In a pass that runs no platform
    expires: every drawn platform gets the interpolated or the plain
    lookup of its update slice at [time], whether or not [time] lies
    between its first and last update time.  A release build always
    completes the pass. *)
Theorem live_clock_stops_expiry build clock time s :
  isLiveMode clock = true ->
  (update_skipped s time = true ->
   update build time (bindToClock (Some clock) s) = Ok (bindToClock (Some clock) s))
  /\ (build = Release ->
      exists s', update build time (bindToClock (Some clock) s) = Ok s')
  /\ (update_skipped s time = false ->
      forall s', update build time (bindToClock (Some clock) s) = Ok s' ->
      boundClock_ s' = Some clock
      /\ forall id p',
           IdMap.find id (platforms_ s') = Some p' ->
           CommonPrefs.datadraw (PlatformPrefs.commonprefs (preferences p')) = true ->
           exists p,
             IdMap.find id (platforms_ s) = Some p
             /\ preferences p' = preferences (applyCommands id time p)
             /\ updates p' =
                if isInterpolationEnabled s && PlatformPrefs.interpolatepos (preferences p')
                then slice_interpolate (updates p) time (interpolator_ s)
                else slice_update (updates p) time).
Proof.
  intros Hlive. split.
  { intros Hskip. apply update_skip. rewrite bindToClock_skipped. exact Hskip. }
  split.
  { intros ->. apply update_release_total. }
  intros Hskip s' Hup.
  assert (Hskip' : update_skipped (bindToClock (Some clock) s) time = false)
    by (rewrite bindToClock_skipped; exact Hskip).
  split.
  { unfold update in Hup. rewrite Hskip' in Hup. unfold updateGates_ in Hup.
    destruct (mapiM _ _) as [gates| |]; simpl in Hup; try discriminate.
    apply Ok_inj in Hup. subst s'. reflexivity. }
  intros id p' Hfind Hdraw.
  destruct (@update_run _ build time _ s' Hskip' Hup) as (Hp & _).
  assert (Hmode : inFileMode (bindToClock (Some clock) s) = false).
  { unfold inFileMode, bindToClock. cbn. rewrite Hlive. reflexivity. }
  rewrite Hp, find_mapi, Hmode in Hfind.
  change (platforms_ (bindToClock (Some clock) s)) with (platforms_ s) in Hfind.
  destruct (IdMap.find id (platforms_ s)) as [p|] eqn:Hp0; [|discriminate].
  simpl in Hfind. apply Some_inj in Hfind. subst p'.
  exists p. split; [reflexivity|].
  split; [apply updatePlatform_preferences|].
  exact (live_no_expiry _ _ _ _ Hdraw).
Qed.

End BoundClock.

(** ** Entities by original id *)

Section OriginalIds.
Context {X : Collaborators}.
Local Open Scope nat_scope.

(** when ids are keys, the template lists keys *)
Lemma idsByOriginalId_keys_where {P F U} `{HasId P} (originalid : P -> N)
  (m : IdMap.t (Entry P F U)) o :
  idsAreKeysIn m = true ->
  idsByOriginalId originalid m o
  = IdMap.keys_where (fun e => N.eqb (originalid (properties e)) o) m.
Proof.
  unfold idsAreKeysIn, idsByOriginalId, IdMap.keys_where.
  induction m as [|[k e] m IH]; [reflexivity|].
  cbn [forallb filter fst snd]. intros Hk. apply andb_true_iff in Hk. destruct Hk as [Hk Hm].
  apply N.eqb_eq in Hk.
  destruct (N.eqb (originalid (properties e)) o); cbn [List.map fst snd];
    rewrite (IH Hm); [rewrite Hk|]; reflexivity.
Qed.

Lemma subseq_keys_where {V} (p : V -> bool) (m : IdMap.t V) :
  subseq (IdMap.keys_where p m) (IdMap.keys m).
Proof. unfold IdMap.keys_where, IdMap.keys. apply subseq_map, subseq_filter. Qed.

Lemma subseq_when {A} (b : bool) (l' l : list A) :
  subseq l' l -> subseq (if b then l' else []) l.
Proof.
  intros H. destruct b; [exact H|].
  clear H. induction l as [|a l IH]; constructor. exact IH.
Qed.

Lemma listed_in_container {P F U} `{HasId P} (originalid : P -> N)
  (m : IdMap.t (Entry P F U)) o (b : bool) id :
  NoDup (IdMap.keys m) -> idsAreKeysIn m = true ->
  In id (if b then idsByOriginalId originalid m o else [])
  <-> b = true
      /\ option_map (fun e => originalid (properties e)) (IdMap.find id m) = Some o.
Proof.
  intros Hnd Hk. destruct b; [|split; [intros []|intros [? _]; discriminate]].
  rewrite (idsByOriginalId_keys_where _ _ _ Hk), (@keys_where_find _ _ _ id Hnd).
  split.
  - intros (e & -> & He). apply N.eqb_eq in He. split; [reflexivity|]. cbn. now rewrite He.
  - intros [_ Hf]. destruct (IdMap.find id m) as [e|]; [|discriminate].
    exists e. split; [reflexivity|]. cbn in Hf. apply Some_inj in Hf.
    rewrite Hf. apply N.eqb_refl.
Qed.

Lemma type_has_NONE type : type_has type NONE = false.
Proof.
  unfold type_has. cbn [ObjectType_mask]. rewrite N.land_0_r. reflexivity.
Qed.

(** [idListByOriginalId] on a store whose ids are unique and whose
    entries are stored under the id of their properties.  An id is listed
    exactly when it names an entity of one of the requested types whose
    original id is the one asked for; no id is listed twice; and the ids
    come in the order of [idList]. *)
Theorem idListByOriginalId_lists_the_matches s originalId type :
  uniqueIds s -> idsAreKeys s = true ->
  (forall id,
     In id (idListByOriginalId s originalId type)
     <-> type_has type (objectType s id) = true /\ originalIdOf s id = Some originalId)
  /\ NoDup (idListByOriginalId s originalId type)
  /\ subseq (idListByOriginalId s originalId type) (idList s type).
Proof.
  intros Hu Hk.
  unfold idsAreKeys in Hk. rewrite !andb_true_iff in Hk.
  destruct Hk as ((((((K1 & K2) & K3) & K4) & K5) & K6) & K7).
  destruct (uniqueIds_nodup Hu) as (N1 & N2 & N3 & N4 & N5 & N6 & N7).
  assert (Hsub : subseq (idListByOriginalId s originalId type) (idList s type)).
  { unfold idListByOriginalId, idList.
    rewrite (idsByOriginalId_keys_where _ _ _ K1), (idsByOriginalId_keys_where _ _ _ K2),
      (idsByOriginalId_keys_where _ _ _ K3), (idsByOriginalId_keys_where _ _ _ K4),
      (idsByOriginalId_keys_where _ _ _ K5), (idsByOriginalId_keys_where _ _ _ K6),
      (idsByOriginalId_keys_where _ _ _ K7).
    repeat apply subseq_app;
      match goal with
      | |- subseq (if ?b then _ else _) _ =>
          destruct b; [apply subseq_keys_where|constructor]
      end. }
  split; [|split; [|exact Hsub]].
  - intros id. unfold idListByOriginalId. rewrite !in_app_iff.
    rewrite (listed_in_container _ _ _ _ id N1 K1), (listed_in_container _ _ _ _ id N2 K2),
      (listed_in_container _ _ _ _ id N3 K3), (listed_in_container _ _ _ _ id N4 K4),
      (listed_in_container _ _ _ _ id N5 K5), (listed_in_container _ _ _ _ id N6 K6),
      (listed_in_container _ _ _ _ id N7 K7).
    pose proof (uniqueIds_one_container id Hu) as H1.
    unfold originalIdOf, objectType, IdMap.mem. unalias.
    repeat match goal with
           | |- context [@IdMap.find ?V id ?m] =>
               let E := fresh "E" in
               destruct (@IdMap.find V id m) eqn:E; [apply find_occ in E|clear E]
           end;
    unalias; try lia;
    cbn [option_map]; rewrite ?type_has_NONE; clear; intuition congruence.
  - apply (subseq_NoDup Hsub).
    assert (Hall : subseq (idList s type) (allKeys s)).
    { unfold idList, allKeys. repeat apply subseq_app; apply subseq_when, subseq_refl. }
    exact (subseq_NoDup Hall Hu).
Qed.

End OriginalIds.

(** * The further properties, evaluated *)

Lemma entityHostId_agrees_with_host_lists_witness :
  uniqueIds ex_store
  /\ In 4%N (hostedIds ex_store 3%N)
  /\ entityHostId ex_store 4%N = Ok 3%N
  /\ entityHostId ex_store 1%N = Ok 0%N.
Proof.
  destruct (entityHostId_agrees_with_host_lists ex_store 4%N) as (_ & _ & H4).
  destruct (H4 ex_store_uniqueIds) as (Hin & _).
  destruct (entityHostId_agrees_with_host_lists ex_store 1%N) as (_ & _ & H1).
  destruct (H1 ex_store_uniqueIds) as (_ & _ & Hp).
  assert (Hh : In 4%N (hostedIds ex_store 3%N)) by (vm_compute; auto).
  split; [exact ex_store_uniqueIds|]. split; [exact Hh|].
  split; [apply Hin; exact Hh | apply Hp; reflexivity].
Defined.

Lemma commonPrefs_is_the_entry_s_prefs_witness :
  uniqueIds ex_store
  /\ IdMap.find 6%N (projectors_ ex_store) = Some (snd (ex_projector 6%N 1%N false))
  /\ commonPrefs ex_store 6%N = Some (ex_common "projector" false).
Proof.
  destruct (commonPrefs_is_the_entry_s_prefs ex_store 6%N) as (_ & H).
  destruct (H ex_store_uniqueIds) as (_ & _ & _ & _ & Hj & _).
  split; [exact ex_store_uniqueIds|]. split; [reflexivity|].
  apply (Hj (snd (ex_projector 6%N 1%N false))). reflexivity.
Defined.

Lemma interpolation_change_forces_update_witness :
  fst (enableInterpolation true (setInterpolator (Some 7%nat) ex_store_at_5))
  <> interpolationEnabled_ (setInterpolator (Some 7%nat) ex_store_at_5)
  /\ update_skipped ex_store_at_5 5 = true
  /\ update_skipped
       (snd (enableInterpolation true (setInterpolator (Some 7%nat) ex_store_at_5))) 5
     = false.
Proof.
  assert (H : fst (enableInterpolation true (setInterpolator (Some 7%nat) ex_store_at_5))
              <> interpolationEnabled_ (setInterpolator (Some 7%nat) ex_store_at_5))
    by (vm_compute; discriminate).
  split; [exact H|]. split; [vm_compute; reflexivity|].
  destruct (interpolation_change_forces_update
              (setInterpolator (Some 7%nat) ex_store_at_5) 5) as (Hf & _).
  apply Hf. exact H.
Defined.

Lemma update_keeps_entities_witness :
  @update refCollaborators Release 5 ex_store = Ok ex_store_at_5
  /\ sameEntities ex_store ex_store_at_5
  /\ idList ex_store_at_5 ALL = idList ex_store ALL
  /\ hostedIds ex_store_at_5 1%N = hostedIds ex_store 1%N.
Proof.
  assert (H : @update refCollaborators Release 5 ex_store = Ok ex_store_at_5)
    by (vm_compute; reflexivity).
  destruct (@update_keeps_entities refCollaborators Release 5 ex_store ex_store_at_5 H)
    as (Hs & _ & Hi & Hh & _).
  split; [exact H|]. split; [exact Hs|]. split; [apply Hi | apply Hh].
Defined.

Lemma update_notifies_listeners_witness :
  @update_skipped ex_store 5 = false
  /\ @update refCollaborators Release 5 ex_store = Ok ex_store_at_5
  /\ exists catLog,
       log (fabric_ ex_store_at_5)
       = catLog ++ [Called 100%nat onChange; Called 101%nat onChange].
Proof.
  assert (Hs : @update_skipped ex_store 5 = false) by (vm_compute; reflexivity).
  assert (H : @update refCollaborators Release 5 ex_store = Ok ex_store_at_5)
    by (vm_compute; reflexivity).
  destruct (@update_notifies_listeners refCollaborators Release 5 ex_store ex_store_at_5 Hs H)
    as (Hl & _).
  split; [exact Hs|]. split; [exact H|].
  eexists. rewrite Hl. reflexivity.
Defined.

Lemma update_clears_undrawn_witness :
  @update_skipped ex_store_hidden 5 = false
  /\ @update refCollaborators Release 5 ex_store_hidden = Ok ex_store_hidden_at_5
  /\ exists p,
       IdMap.find 1%N (platforms_ ex_store_hidden_at_5) = Some p
       /\ CommonPrefs.datadraw (PlatformPrefs.commonprefs (preferences p)) = false
       /\ current (updates p) = None.
Proof.
  assert (Hs : @update_skipped ex_store_hidden 5 = false) by (vm_compute; reflexivity).
  assert (H : @update refCollaborators Release 5 ex_store_hidden = Ok ex_store_hidden_at_5)
    by (vm_compute; reflexivity).
  destruct (@update_clears_undrawn refCollaborators Release 5 ex_store_hidden
              ex_store_hidden_at_5 Hs H) as (Hp & _).
  split; [exact Hs|]. split; [exact H|].
  destruct (IdMap.find 1%N (platforms_ ex_store_hidden_at_5)) as [p|] eqn:Hfind;
    [|vm_compute in Hfind; discriminate].
  exists p. split; [reflexivity|].
  assert (Hd : CommonPrefs.datadraw (PlatformPrefs.commonprefs (preferences p)) = false).
  { vm_compute in Hfind. apply Some_inj in Hfind. subst p. reflexivity. }
  split; [exact Hd|]. exact (Hp 1%N p Hfind Hd).
Defined.

Lemma update_debug_agrees_with_release_witness :
  @update refCollaborators Debug 5 ex_store_no_targetid = Ok ex_store_no_targetid_at_5
  /\ @update refCollaborators Release 5 ex_store_no_targetid = Ok ex_store_no_targetid_at_5
  /\ @update_skipped ex_store_no_targetid 5 = false
  /\ @targetGatesHosted refCollaborators ex_store_no_targetid 5.
Proof.
  assert (H : @update refCollaborators Debug 5 ex_store_no_targetid
              = Ok ex_store_no_targetid_at_5) by (vm_compute; reflexivity).
  assert (Hs : @update_skipped ex_store_no_targetid 5 = false) by (vm_compute; reflexivity).
  destruct (@update_debug_agrees_with_release refCollaborators 5 ex_store_no_targetid)
    as (Hr & Hiff).
  split; [exact H|]. split; [apply Hr; exact H|]. split; [exact Hs|].
  apply (Hiff Hs). exists ex_store_no_targetid_at_5. exact H.
Defined.

Lemma resolved_target_beam_has_sample_witness :
  @update_skipped ex_store_resolved 5 = false
  /\ @update refCollaborators Release 5 ex_store_resolved = Ok ex_store_resolved_at_5
  /\ exists beam',
       IdMap.find 3%N (beams_ ex_store_resolved_at_5) = Some beam'
       /\ platformHasPosition ex_store_resolved_at_5 1%N = true
       /\ platformHasPosition ex_store_resolved_at_5 2%N = true
       /\ current (updates beam') = Some (BeamUpdate.mk 5 0 0 0).
Proof.
  assert (Hs : @update_skipped ex_store_resolved 5 = false) by (vm_compute; reflexivity).
  assert (H : @update refCollaborators Release 5 ex_store_resolved
              = Ok ex_store_resolved_at_5) by (vm_compute; reflexivity).
  split; [exact Hs|]. split; [exact H|].
  destruct (IdMap.find 3%N (beams_ ex_store_resolved_at_5)) as [b|] eqn:Hfind;
    [|vm_compute in Hfind; discriminate].
  exists b. split; [reflexivity|].
  assert (Hb : properties b = BeamProperties.mk 3%N (Some 1%N) 3%N BeamProperties_BeamType_TARGET
               /\ preferences b = BeamPrefs.mk (ex_common "beam" true) false (Some 2%N)).
  { vm_compute in Hfind. apply Some_inj in Hfind. subst b. split; reflexivity. }
  destruct Hb as [Hbp Hbf].
  assert (H1 : platformHasPosition ex_store_resolved_at_5 1%N = true)
    by (vm_compute; reflexivity).
  assert (H2 : platformHasPosition ex_store_resolved_at_5 2%N = true)
    by (vm_compute; reflexivity).
  split; [exact H1|]. split; [exact H2|].
  destruct (@resolved_target_beam_has_sample refCollaborators Release 5 ex_store_resolved
              ex_store_resolved_at_5 3%N b Hs H Hfind)
    as (b0 & Hb0 & _ & Hnew & _);
    try (rewrite ?Hbp, ?Hbf; first [reflexivity | exact H1 | exact H2]).
  vm_compute in Hb0. apply Some_inj in Hb0. subst b0.
  rewrite Hnew; [reflexivity|]. right. vm_compute. reflexivity.
Defined.

Lemma flush_range_contract_witness :
  fst (@flush_range refCollaborators 1%N FLUSH_NONRECURSIVE FLUSH_UPDATES 0 10 ex_store)
  <> 1%Z
  /\ log (fabric_ (snd (@flush_range refCollaborators 1%N FLUSH_NONRECURSIVE FLUSH_UPDATES
                          0 10 ex_store)))
     = [Called 100%nat (onFlush 1%N); Called 101%nat (onFlush 1%N)]
  /\ 42%N <> 0%N /\ objectType ex_store 42%N = NONE
  /\ @flush_range refCollaborators 42%N FLUSH_RECURSIVE FLUSH_ALL 0 10 ex_store
     = (1%Z, ex_store).
Proof.
  destruct (@flush_range_contract refCollaborators 1%N FLUSH_NONRECURSIVE FLUSH_UPDATES
              0 10 ex_store) as (_ & _ & H0 & _).
  destruct (@flush_range_contract refCollaborators 42%N FLUSH_RECURSIVE FLUSH_ALL
              0 10 ex_store) as (H1 & H2 & _).
  assert (Hne : fst (@flush_range refCollaborators 1%N FLUSH_NONRECURSIVE FLUSH_UPDATES
                       0 10 ex_store) <> 1%Z) by (vm_compute; discriminate).
  assert (H42 : 42%N <> 0%N /\ objectType ex_store 42%N = NONE)
    by (split; [discriminate|reflexivity]).
  split; [exact Hne|].
  destruct (H0 Hne) as (_ & _ & Hlog & _).
  split; [rewrite Hlog; reflexivity|].
  split; [apply H42|]. split; [apply H42|].
  pose proof (proj2 H1 H42) as Hf. pose proof (H2 Hf) as Hsnd.
  destruct (@flush_range refCollaborators 42%N FLUSH_RECURSIVE FLUSH_ALL 0 10 ex_store)
    as [r s']. simpl in *. subst. reflexivity.
Defined.

Lemma flush_type_reach_witness :
  1%N <> 0%N
  /\ dataTableManager_ (@flush_type refCollaborators 1%N NON_RECURSIVE_TSPI_ONLY ex_store)
     = dataTableManager_ ex_store
  /\ genericData_ (@flush_type refCollaborators 1%N NON_RECURSIVE_TSPI_ONLY ex_store)
     = genericData_ ex_store
  /\ commandsOf (platforms_ (@flush_type refCollaborators 1%N NON_RECURSIVE_TSPI_ONLY
                               ex_store))
     = commandsOf (platforms_ ex_store).
Proof.
  assert (Hnz : 1%N <> 0%N) by discriminate.
  destruct (@flush_type_reach refCollaborators 1%N NON_RECURSIVE_TSPI_ONLY ex_store)
    as (_ & Ht & Hg & Hc).
  split; [exact Hnz|].
  split; [apply Ht; [exact Hnz|discriminate]|].
  split; [apply Hg; [exact Hnz|left; reflexivity]|].
  apply Hc; [exact Hnz|reflexivity].
Defined.

Lemma new_entity_round_trip_witness :
  objectType ex_store (fst (genUniqueId_ ex_store)) = NONE
  /\ exists t1 s1 t2 s2,
       addEntity Platforms ex_store = (t1, s1)
       /\ NewEntry_commit Release (NewEntry_edit (ex_reoriginate 42%N) t1) s1 = Ok (t2, s2)
       /\ objectType s2 11%N = PLATFORM
       /\ IdMap.find 11%N (genericData_ s2) = Some (mkGenericSlice [] []).
Proof.
  assert (H : objectType ex_store (fst (genUniqueId_ ex_store)) = NONE)
    by (vm_compute; reflexivity).
  split; [exact H|].
  destruct (new_entity_round_trip Release (ex_reoriginate 42%N) ex_store is_Platforms H
              (fun p => eq_refl))
    as (t1 & s1 & t2 & s2 & _ & _ & Ha & Hc & _ & _ & Hty & _ & Hg & _).
  exists t1, s1, t2, s2.
  split; [exact Ha|]. split; [exact Hc|]. split; [exact Hty | exact Hg].
Defined.

Lemma id_discipline_is_kept_witness :
  uniqueIds ex_store /\ idsBelowCounter ex_store
  /\ @update refCollaborators Release 5 ex_store = Ok ex_store_at_5
  /\ uniqueIds ex_store_at_5 /\ idsBelowCounter ex_store_at_5.
Proof.
  assert (Hb : idsBelowCounter ex_store).
  { intros id Hin.
    change (allKeys ex_store) with [1; 2; 3; 4; 5; 6; 9; 7; 8; 10]%N in Hin.
    change (baseId_ ex_store) with 10%N.
    repeat (destruct Hin as [<-|Hin]; [intro Hc; discriminate Hc|]). destruct Hin. }
  assert (H : @update refCollaborators Release 5 ex_store = Ok ex_store_at_5)
    by (vm_compute; reflexivity).
  destruct (@id_discipline_is_kept refCollaborators ex_store ex_store_uniqueIds Hb)
    as (_ & Hup & _).
  split; [exact ex_store_uniqueIds|]. split; [exact Hb|]. split; [exact H|].
  exact (Hup Release 5 ex_store_at_5 H).
Defined.

Lemma unchanged_commit_is_silent_witness :
  IdMap.find 1%N (platforms_ ex_store)
  = Some (snd (ex_platform 1%N "alpha" [PlatformUpdate.mk 5 (Some (1, 2, 3))]))
  /\ exists t0,
       mutable_properties Platforms 1%N ex_store = Some t0
       /\ @MutableProperty_commit _ ref_Message_PlatformProperties
            (MutableProperty_edit (ex_reoriginate 1%N) t0) ex_store
          = (MutableProperty_edit (ex_reoriginate 1%N) t0, ex_store).
Proof.
  assert (H : IdMap.find 1%N (entriesOf Platforms ex_store)
              = Some (snd (ex_platform 1%N "alpha" [PlatformUpdate.mk 5 (Some (1, 2, 3))])))
    by reflexivity.
  split; [exact H|].
  destruct (@unchanged_commit_is_silent refCollaborators _ _ _ _ _
              ref_Message_PlatformProperties ref_Message_PlatformPrefs
              Platforms 1%N ex_store _ H) as (Hp & _).
  destruct (Hp (ex_reoriginate 1%N) eq_refl) as (t0 & Hm & Hc & _).
  exists t0. split; [exact Hm | exact Hc].
Defined.

Lemma properties_commit_round_trip_witness :
  @SerializeAsString _ ref_Message_PlatformProperties
    (ex_reoriginate 42%N (PlatformProperties.mk 1%N 1%N))
  <> @SerializeAsString _ ref_Message_PlatformProperties (PlatformProperties.mk 1%N 1%N)
  /\ exists t0 t1 s1 t2 s2,
       mutable_properties Platforms 1%N ex_store = Some t0
       /\ @MutableProperty_commit _ ref_Message_PlatformProperties
            (MutableProperty_edit (ex_reoriginate 42%N) t0) ex_store = (t1, s1)
       /\ MutableProperty_release t1 s1 = (t2, s2)
       /\ IdMap.find 1%N (platforms_ s2)
          = Some (set_properties (PlatformProperties.mk 1%N 42%N)
                    (snd (ex_platform 1%N "alpha" [PlatformUpdate.mk 5 (Some (1, 2, 3))])))
       /\ log (fabric_ s2)
          = [Called 100%nat (onPropertiesChange 1%N); Called 101%nat (onPropertiesChange 1%N)].
Proof.
  assert (Hs : @SerializeAsString _ ref_Message_PlatformProperties
                 (ex_reoriginate 42%N (PlatformProperties.mk 1%N 1%N))
               <> @SerializeAsString _ ref_Message_PlatformProperties
                    (PlatformProperties.mk 1%N 1%N))
    by (vm_compute; discriminate).
  split; [exact Hs|].
  destruct (@properties_commit_round_trip _ _ _ _ _
              ref_Message_PlatformProperties Platforms
              (ex_reoriginate 42%N) 1%N ex_store _ is_Platforms eq_refl Hs)
    as (t0 & t1 & s1 & t2 & s2 & Hm & Hc & Hr & Hf & _ & _ & _ & _ & _ & Hl & _).
  exists t0, t1, s1, t2, s2.
  split; [exact Hm|]. split; [exact Hc|]. split; [exact Hr|].
  split; [exact Hf | exact Hl].
Defined.

Lemma new_update_commit_witness :
  IdMap.find 1%N (platforms_ ex_store)
  = Some (snd (ex_platform 1%N "alpha" [PlatformUpdate.mk 5 (Some (1, 2, 3))]))
  /\ commonPrefs ex_store 1%N <> None
  /\ exists t0 t1 s1,
       @addUpdate refCollaborators _ _ _ _ Platforms 1%N (PlatformUpdate.mk 6 None) ex_store = Some t0
       /\ NewUpdate_commit t0 ex_store = (t1, s1)
       /\ newUpdatesLog_ s1 = [onEntityUpdate 1%N 6]
       /\ fabric_ s1 = fabric_ ex_store.
Proof.
  assert (H : IdMap.find 1%N (entriesOf Platforms ex_store)
              = Some (snd (ex_platform 1%N "alpha" [PlatformUpdate.mk 5 (Some (1, 2, 3))])))
    by reflexivity.
  split; [exact H|].
  destruct (@new_update_commit refCollaborators _ _ _ _ _ Timed_PlatformUpdate Platforms
              1%N ex_store _ is_Platforms H) as (Hp & Hu & _).
  split; [exact Hp|].
  destruct (Hu (PlatformUpdate.mk 6 None))
    as (t0 & t1 & s1 & Ha & Hc & _ & _ & _ & Hn & Hf & _).
  exists t0, t1, s1.
  split; [exact Ha|]. split; [exact Hc|]. split; [exact Hn | exact Hf].
Defined.

Lemma removal_is_honoured_without_nested_pass_witness :
  NoDup (listeners_ ex_fabric)
  /\ exists f' seg,
       dispatch 1 ex_behaviour_plain [[onChange]] ex_fabric = Some f'
       /\ log f' = log ex_fabric ++ seg
       /\ no_call_after_removal seg = true.
Proof.
  assert (Hnd : NoDup (listeners_ ex_fabric)).
  { repeat (constructor; [simpl; intuition discriminate|]). constructor. }
  assert (Hq : forall l n nestedRounds,
             ~ In (callNotifying nestedRounds) (ex_behaviour_plain l n)).
  { intros l n r. destruct n; simpl; try (intros []).
    destruct (l =? 100)%nat; simpl; [intros [Hc|[]]; discriminate Hc|intros []]. }
  split; [exact Hnd|].
  exact (removal_is_honoured_without_nested_pass 0 ex_behaviour_plain [[onChange]] ex_fabric Hnd Hq).
Defined.

Lemma removeEntity_removes_exactly_witness :
  uniqueIds ex_store
  /\ exists s',
       removeEntity 3 3%N ex_store = Some s'
       /\ IdMap.keys (gates_ s') = []
       /\ IdMap.keys (projectors_ s') = [6%N]
       /\ objectType s' 3%N = NONE
       /\ objectType s' 1%N = PLATFORM.
Proof.
  split; [exact ex_store_uniqueIds|].
  destruct (removeEntity_removes_exactly 0 3%N ex_store_uniqueIds)
    as (s' & Hr & Hc & _ & Hty & _).
  exists s'. split; [exact Hr|].
  split; [rewrite (ce_gates Hc); reflexivity|].
  split; [rewrite (ce_projectors Hc); reflexivity|].
  split; [rewrite (Hty 3%N); reflexivity | rewrite (Hty 1%N); reflexivity].
Defined.

Lemma clear_empties_the_store_witness :
  uniqueIds ex_store
  /\ (List.length (allKeys ex_store) < 11)%nat
  /\ exists s',
       clear 11 3 true ex_store = Some s'
       /\ allKeys s' = []
       /\ dataTableManager_ s' = []
       /\ baseId_ s' = 10%N
       /\ listeners_ (fabric_ s') = [100; 101]%nat.
Proof.
  assert (Hlen : (List.length (allKeys ex_store) < 11)%nat) by (vm_compute; lia).
  split; [exact ex_store_uniqueIds|]. split; [exact Hlen|].
  destruct (@clear_empties_the_store 11 0 true ex_store ex_store_uniqueIds Hlen)
    as (s' & Hc & Hk & _ & _ & _ & Ht & Hb & Hl & _).
  exists s'. split; [exact Hc|]. split; [exact Hk|].
  split; [rewrite Ht; reflexivity|]. split; [exact Hb | exact Hl].
Defined.

Lemma live_clock_stops_expiry_witness :
  isLiveMode ex_live_clock = true
  /\ @update_skipped ex_store 9 = false
  /\ exists s',
       @update refCollaborators Release 9 (bindToClock (Some ex_live_clock) ex_store) = Ok s'
       /\ boundClock_ s' = Some ex_live_clock.
Proof.
  assert (Hs : @update_skipped ex_store 9 = false) by (vm_compute; reflexivity).
  split; [reflexivity|]. split; [exact Hs|].
  destruct (@live_clock_stops_expiry refCollaborators Release ex_live_clock 9 ex_store
              eq_refl) as (_ & Hr & Hl).
  destruct (Hr eq_refl) as (s' & Hup).
  exists s'. split; [exact Hup|]. exact (proj1 (Hl Hs s' Hup)).
Defined.

Lemma idListByOriginalId_lists_the_matches_witness :
  uniqueIds ex_store /\ idsAreKeys ex_store = true
  /\ In 3%N (idListByOriginalId ex_store 3%N BEAM)
  /\ NoDup (idListByOriginalId ex_store 3%N ALL).
Proof.
  assert (Hk : idsAreKeys ex_store = true) by (vm_compute; reflexivity).
  split; [exact ex_store_uniqueIds|]. split; [exact Hk|].
  destruct (idListByOriginalId_lists_the_matches 3%N BEAM ex_store_uniqueIds Hk)
    as (Hin & _).
  destruct (idListByOriginalId_lists_the_matches 3%N ALL ex_store_uniqueIds Hk)
    as (_ & Hnd & _).
  split; [|exact Hnd].
  apply (proj2 (Hin 3%N)). split; vm_compute; reflexivity.
Defined.
